(* ===== verification/_CoqProject ===== *)
-Q . S2P
Prelude.v
Common.v
Double.v
Configuration.v
AddressMapping.v
Timing.v
BankState.v
ChannelState.v
ChannelTiming.v
Refresh.v
SimpleStats.v
StatsSafety.v
CommandQueue.v
Controller.v
ControllerSafety.v
ControllerTiming.v
DramSystem.v
PimScheduler.v
JedecSystem.v
JedecSafety.v
PimSafety.v
PimNest.v
PimRefinement.v
PimProgress.v
PimSystem.v
Hmc.v
HmcSafety.v
Cpu.v
MemorySystem.v
Text.v
IniReader.v
IniDocument.v
ThermalSolver.v
Thermal.v
ThermalSafety.v
ThermalReplay.v
