(* ===== verification/Prelude.v ===== *)
(** * A verification library for HBDRAMsim

    HBDRAMsim (src/src, C++) is a cycle-accurate simulator of DRAM devices, a
    derivative of DRAMsim3 with processing-in-memory commands and the scheduler
    of a matrix accelerator.  This library translates the simulator into
    executable Rocq functions, one file per component, and proves what makes
    the components and their composition correct.

    ** The program and the files that model it

    A main program builds a processor around a memory system and calls its
    clock.  A memory system (JEDEC, hybrid memory cube or ideal) owns one
    controller per channel; a controller owns the state of its channel (banks
    and timing bounds), the command queues, the refresh generator and the
    statistics.  Everything reads one configuration, which comes from an INI
    file.  A JEDEC system also contains a matrix accelerator: packets configure
    and launch its cuts, and every cycle a scheduler appends the commands of
    the next data vectors to lists in the controllers.  A thermal model, built
    separately, maps the energy of commands to the dies.

    - [Prelude]: failures and the [outcome] monad, loops, vectors, machine
      integers, the tactics and the hint database of the library.
    - [Common]: common.h, common.cc (addresses, commands, transactions, bit
      helpers, the reading of a trace line).  [Double]: IEEE 754 binary64.
      [Text]: numbers in text.
    - [Configuration]: configuration.cc (the whole constructor) against the
      interface [INIReader] of its reader; [AddressMapping]: theorems about its
      address fields.  [IniReader]: ext/headers/INIReader.h, an implementation
      of the interface.  [IniDocument]: what an INI file means.
    - [Timing]: timing.cc (all delays and the five tables).
    - [BankState]: bankstate.cc, and the abstract protocol of a bank that it
      refines.  [ChannelState]: channel_state.cc.  [ChannelTiming]: runs of a
      channel and the timing rules they respect.
    - [Refresh]: refresh.cc.  [CommandQueue]: command_queue.cc.
    - [SimpleStats]: simple_stats.cc.  [StatsSafety]: their shape.
    - [Controller]: controller.cc.  [ControllerSafety]: the invariant that ties
      the components of a controller together.  [ControllerTiming]: the trace
      of a controller is a run of its channel.
    - [DramSystem]: the interface of dram_system.h as the class [DRAMSystem],
      its contract [DRAMSystemLaws], and IdealDRAMSystem, an instance.
    - [PimScheduler], [JedecSystem]: JedecDRAMSystem of dram_system.cc, the
      accelerator's packets and scheduler apart from the rest.  [JedecSafety]:
      the instance of the contract.
    - [PimSafety]: packets and single cycles of the accelerator.  [PimNest]: the
      loop nest of a tiled matrix product, as lists of data vectors.
      [PimRefinement]: a cycle of a cut against the nest.  [PimProgress]: runs
      of the array against any memory.  [PimSystem]: the array inside the
      memory system, beside the processor.
    - [Hmc]: hmc.cc (links, crossbar, vaults, two clocks).  [HmcSafety]: the
      instance of the contract.
    - [Cpu]: cpu.cc, the three processors against the interface.
    - [MemorySystem]: memory_system.cc and main.cc, and the theorem about the
      whole program.
    - [ThermalSolver]: thermal_solver.c (conductance matrix, capacitances, the
      steady and the transient solver).  [Thermal]: thermal.cc (floorplan,
      energies, power maps, reports) and the thermal parameters of
      configuration.cc.  [ThermalSafety]: theorems about both.
      [ThermalReplay]: thermal_replay.cc.

    State is a record per class, with the members of the source; an operation
    that changes it returns the new state, and an operation that may end the
    process, index a vector out of range, divide by zero or not return yields
    an [outcome] ([Ok] or a [failure]).  Functions keep the names of the
    methods; a method that calls others calls their translations.

    ** What the theorems show

    - The whole program (driven without PIM packets) is built, returns and
      conserves transactions, and so does every layer of it: the processors
      against any lawful memory system (a replay submits exactly the writes of
      its trace that were due and accepted), JEDEC systems and cubes against the
      contract, a controller over every history of its events, accesses and
      activations of the accelerator included, a command queue over every
      choice.
    - Timing: no command of the trace of a controller is issued before a delay
      of the tables has passed (but for precharges among weight commands, which
      the code does not check), and four activations fill a window; whatever a
      channel offers can be executed; a bank refines the protocol of a DRAM
      bank in both directions and serves an access in at most three commands.
    - Configuration files: whatever its layout, a file gives every option the
      values of its lines, and the first bad line is reported; the shipped
      configuration of HBM2 is read from its bytes ([hbm2_file_read]).
    - Addresses: the mapping stays in bounds for every address and, up to 31
      bits, is inverted by the unmapping in both directions.
    - Refresh: the exact schedule, the fairness of bank refresh, the exactness
      of the accelerator's look-ahead.
    - Command queues: which command may be issued, in which order the queues
      are served, and that a rank or bank under refresh is left alone from the
      start of the refresh to its issue.
    - Statistics: counters conserve counts, every bin of a histogram holds the
      counts of its range; reports return.
    - The accelerator: packets decode to what they encode, cuts move along their
      phases, weight and output vectors are sent whole.  For dataflows and jobs
      that fit the array ([flow_ok], [jobs_ok]) the scheduler follows the loop
      nests of its workloads; an input vector is sent whole or, in an array that
      is not cut, to the channels behind the last one that was not ready; an
      output follows the vectors of its tile, and the array finishes after a
      bounded number of cycles in which the memory is ready.  From the packet
      that launches it on, inside the memory system, what the cuts send reaches
      the controllers, and neither the array nor the transactions of the
      processor are disturbed.
    - The thermal model: banks that fit the floorplan own disjoint cells,
      accesses heat their bank, the matrix is in the format the linear solver
      needs and symmetric and is handed over with the starts of its rows,
      sessions of energies and reports of stacked memories return, a replayed
      trace is read back.
    - Cubes: every loop of the crossbar ends; the arbitration lists every
      waiting link once.
    - Divergences of the code from its intent, each with its theorem: accesses
      dropped while accelerator commands are pending, the missing delay after
      a bank refresh, the simultaneous refresh of one rank only, the exit from
      self refresh that aborts, energies of the last epoch only, every other
      request completed by the ideal memory, the age queue ordered by
      position, a replay stalled by READ, partial input vectors, precharges
      counted as weights or aborting the controller, a launch that blocks the accelerator, bad lines of a
      configuration that are ignored, reports of planar memories that never
      return, refreshes booked for other banks and rows.

    The translation was also run against a recording that the repository keeps:
    on the packets of dramsim3addr.trace with configs/HBM2_8Gb_x128.ini it
    issues the 18854 commands of dramsim3ch_0cmd.trace, each in its cycle
    ([recorded_start] in [MemorySystem] checks the first cycles).

    ** Bounds and fuel

    - [LogBase2] runs 32 rounds: an [int] is below 2^31 ([LogBase2_correct]).
    - The loop that returns transactions runs once more than the return queue
      is long ([return_loop_spec]); the search for a link as often as there are
      links ([insert_loop_spec]); the logic loop of a cube as often as a DRAM
      cycle has picoseconds ([logic_loop_spec]).  Where fuel could run out the
      model fails with [DoesNotReturn], and the theorems show that it does not.
    - The INI parser reads at most as many lines as the file has bytes.
    - [cycles_needed] bounds the ready cycles of an accelerated product: every
      vector of the nest with the delays it may start, and every output.
    - Contracts last while the 64-bit clocks do not wrap: 2^63 cycles, and 2^53
      cycles for a cube, whose clocks count picoseconds.

    ** Assumptions

    - [uint64_t] arithmetic wraps and conversions to [int] are reduced; [int]
      arithmetic is exact where the source has no conversion.
    - Assertions are checked, as in the build of the Makefile; the simulator is
      the one built without THERMAL and ADDR_TRACE, and the commands that
      CMD_TRACE would print are collected in [cmd_trace_].
    - The formatting of numbers, the random generator, opening a file,
      [DirExist] and the factorisation of SuperLU are parameters; writing a file
      is a value.  [INIReader] is an interface; [reader_of] implements it.
    - Theorems about whole controllers and systems exclude self refresh, whose
      exit aborts.
    - The theorems about the accelerator assume that no bank is open on another
      row than the one a cut asks for: the scheduler takes the precharge that
      the memory then answers for the access itself ([weights_precharge_advances]).

    ** Not modelled

    - The calls of a controller to the thermal calculator, which only the build
      with THERMAL has, the output operator of transactions, JedecDRAMSystem::
      GetReadyCommandPIM (nothing calls it), the address trace, and the command
      lines of both main programs (a vendored parser).
    - sp_ienv.c, constants that only the external sparse solver reads.
    - The vendored libraries json, args, fmt and catch (ext/), which the sources
      only call; scripts, tests and configuration files. *)
From stdpp Require Import base tactics numbers list list_numbers gmap strings.

Local Open Scope Z_scope.

(** ** Failing computations

    The simulator reports an impossible situation by leaving the process:
    [AbruptExit(__FILE__, __LINE__)], [exit(1)] or a failed [assert].  Reading
    or writing a [std::vector] out of range, and dividing by zero, are
    undefined behaviour of the language, and [std::map::at] throws an
    exception nobody catches; [Undefined] is what else the language leaves
    undefined, such as reading a member that was never set.  All of them are values of [failure], and a
    computation that may end in one returns an [outcome].  [DoesNotReturn]
    marks a loop that has used up the rounds its model allows it. *)

Inductive failure : Type :=
| AbruptExit (file : string) (line : Z)
| ExitProcess (code : Z)
| AssertFailed
| OutOfRange
| DivisionByZero
| UncaughtException
| Undefined
| DoesNotReturn.

Inductive outcome (A : Type) : Type :=
| Ok (a : A)
| Fail (f : failure).
Arguments Ok {A} a.
Arguments Fail {A} f.

#[global] Instance failure_eq_dec : EqDecision failure.
Proof. solve_decision. Defined.
#[global] Instance outcome_eq_dec {A} `{EqDecision A} : EqDecision (outcome A).
Proof. solve_decision. Defined.

#[global] Instance outcome_ret : MRet outcome := @Ok.
#[global] Instance outcome_bind : MBind outcome :=
  λ A B f o, match o with Ok a => f a | Fail e => Fail e end.

(** A boolean view of success, for executable checks. *)
Definition is_ok {A} (o : outcome A) : bool :=
  match o with Ok _ => true | Fail _ => false end.

(** [assert(b)] and similar guards. *)
Definition ensure (b : bool) (f : failure) : outcome unit :=
  if b then Ok tt else Fail f.

(** Lifting a lookup: the failure stands for what an absent element means. *)
Definition from_option_or {A} (f : failure) (o : option A) : outcome A :=
  match o with Some a => Ok a | None => Fail f end.

(** ** Loops

    [for_each body l s] is [for (auto x : l) s = body(x, s);]. *)
Fixpoint for_each {A S} (body : A → S → outcome S) (l : list A) (s : S) : outcome S :=
  match l with
  | [] => Ok s
  | x :: l' => s' ← body x s; for_each body l' s'
  end.

(** [for_range n body s] is [for (int i = 0; i < n; i++) s = body(i, s);]. *)
Definition for_range {S} (n : Z) (body : Z → S → outcome S) (s : S) : outcome S :=
  for_each body (seqZ 0 n) s.

(** ** Vectors indexed by a C++ [int] *)

Definition vget {A} (l : list A) (i : Z) : outcome A :=
  if bool_decide (0 ≤ i) then from_option_or OutOfRange (l !! Z.to_nat i)
  else Fail OutOfRange.

Definition vset {A} (l : list A) (i : Z) (x : A) : outcome (list A) :=
  if bool_decide (0 ≤ i < Z.of_nat (length l)) then Ok (<[Z.to_nat i := x]> l)
  else Fail OutOfRange.

Definition vsize {A} (l : list A) : Z := Z.of_nat (length l).

(** [v.erase(it)] for an iterator at position [i]. *)
Definition erase_at {A} (i : nat) (l : list A) : list A := take i l ++ drop (S i) l.

(** ** Machine integers

    [uint64_t] values are kept in [0, 2^64) by reducing after every operation
    that may leave the range; [int] conversions reduce to [-2^31, 2^31). *)
Definition u64 (x : Z) : Z := x mod 2 ^ 64.
Definition u32 (x : Z) : Z := x mod 2 ^ 32.
Definition s32 (x : Z) : Z := (x + 2 ^ 31) mod 2 ^ 32 - 2 ^ 31.

(** [int] division and remainder truncate towards zero and are undefined for a
    zero divisor. *)
Definition idiv (a b : Z) : outcome Z :=
  if b =? 0 then Fail DivisionByZero else Ok (Z.quot a b).

(** ** Lemmas on outcomes *)

Lemma bind_Ok {A B} (f : A → outcome B) (o : outcome A) (b : B) :
  o ≫= f = Ok b ↔ ∃ a, o = Ok a ∧ f a = Ok b.
Proof. destruct o as [a|e]; simpl; naive_solver. Qed.

(** Total correctness of a sequence: [Q] describes the intermediate value. *)
Lemma bind_total {A B} (Q : A → Prop) (P : B → Prop) (o : outcome A) (f : A → outcome B) :
  (∃ a, o = Ok a ∧ Q a) → (∀ a, Q a → ∃ b, f a = Ok b ∧ P b) →
  ∃ b, o ≫= f = Ok b ∧ P b.
Proof. intros (a & -> & Ha) H. by apply H. Qed.

Lemma from_option_or_Ok {A} f (o : option A) a :
  from_option_or f o = Ok a ↔ o = Some a.
Proof. destruct o; naive_solver. Qed.

Lemma idiv_Ok a b q : idiv a b = Ok q ↔ b ≠ 0 ∧ q = Z.quot a b.
Proof. unfold idiv. destruct (Z.eqb_spec b 0); naive_solver. Qed.

Lemma ensure_Ok b f : ensure b f = Ok tt ↔ b = true.
Proof. destruct b; naive_solver. Qed.

Lemma vget_Ok {A} (l : list A) i a :
  vget l i = Ok a ↔ 0 ≤ i ∧ l !! Z.to_nat i = Some a.
Proof.
  unfold vget. case_bool_decide; [rewrite from_option_or_Ok|]; naive_solver.
Qed.

Lemma vset_Ok {A} (l l' : list A) i x :
  vset l i x = Ok l' ↔ 0 ≤ i < Z.of_nat (length l) ∧ l' = <[Z.to_nat i := x]> l.
Proof. unfold vset. case_bool_decide; naive_solver. Qed.

Lemma vget_in_range {A} (l : list A) i :
  0 ≤ i < vsize l → ∃ a, vget l i = Ok a.
Proof.
  intros Hi. destruct (lookup_lt_is_Some_2 l (Z.to_nat i)) as [a Ha].
  { unfold vsize in Hi. lia. }
  exists a. apply vget_Ok. split; [lia|done].
Qed.

Lemma vset_in_range {A} (l : list A) i x :
  0 ≤ i < vsize l → vset l i x = Ok (<[Z.to_nat i := x]> l).
Proof. intros Hi. unfold vset. by rewrite bool_decide_eq_true_2 by exact Hi. Qed.

Lemma vset_vget {A} (l l' : list A) i j x :
  vset l i x = Ok l' → vget l' j = if bool_decide (i = j) then Ok x else vget l j.
Proof.
  intros [Hi ->]%vset_Ok. unfold vget.
  destruct (decide (0 ≤ j)) as [Hj|Hj].
  2:{ rewrite !(bool_decide_eq_false_2 (0 ≤ j)) by done.
      by rewrite bool_decide_eq_false_2 by lia. }
  rewrite !(bool_decide_eq_true_2 (0 ≤ j)) by done.
  case_bool_decide as E.
  - subst. rewrite list_lookup_insert_eq by lia. done.
  - rewrite list_lookup_insert_ne by lia. done.
Qed.

Lemma vset_size {A} (l l' : list A) i x : vset l i x = Ok l' → vsize l' = vsize l.
Proof. intros [_ ->]%vset_Ok. unfold vsize. by rewrite length_insert. Qed.

(** ** Reasoning about loops *)

Lemma for_each_app {A S} (body : A → S → outcome S) l1 l2 s :
  for_each body (l1 ++ l2) s = for_each body l1 s ≫= for_each body l2.
Proof.
  revert s. induction l1 as [|x l1 IH]; intros s; [done|]. simpl.
  destruct (body x s); simpl; auto.
Qed.

Lemma for_each_ext {A S} (f g : A → S → outcome S) l s :
  (∀ x s, x ∈ l → f x s = g x s) → for_each f l s = for_each g l s.
Proof.
  revert s. induction l as [|x l IH]; intros s H; [done|]. simpl.
  rewrite H by (by left). destruct (g x s); simpl; [|done].
  apply IH. intros; apply H. by right.
Qed.

Lemma for_each_fmap {A B S} (h : A → B) (f : B → S → outcome S) l s :
  for_each (λ x s, f (h x) s) l s = for_each f (h <$> l) s.
Proof.
  revert s. induction l as [|x l IH]; intros s; [done|]. csimpl.
  destruct (f (h x) s); simpl; auto.
Qed.

(** Partial correctness: an invariant kept by every round holds at the end. *)
Lemma for_each_inv {A S} (I : S → Prop) (body : A → S → outcome S) l s s' :
  (∀ x s s', x ∈ l → I s → body x s = Ok s' → I s') →
  I s → for_each body l s = Ok s' → I s'.
Proof.
  revert s. induction l as [|x l IH]; intros s Hb HI; simpl.
  - by intros [= <-].
  - intros (s1 & H1 & H2)%bind_Ok.
    eapply IH; [|eapply Hb; [|done|exact H1]; left|exact H2].
    intros; eapply Hb; [right|..]; eauto.
Qed.

(** Total correctness: if no round can fail under the invariant, the loop
    returns and the invariant holds. *)
Lemma for_each_total {A S} (I : S → Prop) (body : A → S → outcome S) l s :
  (∀ x s, x ∈ l → I s → ∃ s', body x s = Ok s' ∧ I s') →
  I s → ∃ s', for_each body l s = Ok s' ∧ I s'.
Proof.
  revert s. induction l as [|x l IH]; intros s Hb HI; simpl; [by eauto|].
  destruct (Hb x s) as (s1 & -> & H1); [left|done|]. simpl.
  apply IH; [|done]. intros; apply Hb; [by right|done].
Qed.

(** The same for a loop that counts, with an invariant of the counter. *)
Lemma for_range_total {S} (I : Z → S → Prop) n (body : Z → S → outcome S) s :
  0 ≤ n → I 0 s → (∀ k s, 0 ≤ k < n → I k s → ∃ s', body k s = Ok s' ∧ I (k + 1) s') →
  ∃ s', for_range n body s = Ok s' ∧ I n s'.
Proof.
  intros Hn H0 Hb. unfold for_range.
  assert (H : ∀ m k s, (0 ≤ k)%Z → (k + Z.of_nat m = n)%Z → I k s →
    ∃ s', for_each body (seqZ k (Z.of_nat m)) s = Ok s' ∧ I n s').
  { induction m as [|m IH]; intros k s1 Hk E Hs.
    - exists s1. rewrite seqZ_nil by lia. split; [done|]. by replace n with k by lia.
    - rewrite seqZ_cons by lia. cbn [for_each]. destruct (Hb k s1) as (s2 & -> & H2); [lia|done|].
      cbn [mbind outcome_bind]. replace (Z.pred (Z.of_nat (Datatypes.S m))) with (Z.of_nat m) by lia.
      apply IH; [lia|lia|]. by replace (Z.succ k) with (k + 1) by lia. }
  destruct (H (Z.to_nat n) 0 s) as (s' & Hs' & HI); [lia|lia|done|].
  rewrite Z2Nat.id in Hs' by lia. by exists s'.
Qed.

(** ** Machine-integer lemmas *)

Lemma u64_range x : 0 ≤ u64 x < 2 ^ 64.
Proof. apply Z.mod_pos_bound. lia. Qed.
Lemma u64_id x : 0 ≤ x < 2 ^ 64 → u64 x = x.
Proof. apply Z.mod_small. Qed.
Lemma u32_id x : 0 ≤ x < 2 ^ 32 → u32 x = x.
Proof. apply Z.mod_small. Qed.
Lemma s32_id x : - 2 ^ 31 ≤ x < 2 ^ 31 → s32 x = x.
Proof. intros. unfold s32. rewrite Z.mod_small by lia. lia. Qed.

(** ** Lemmas on erasing *)

Lemma erase_at_perm {A} (l : list A) i x :
  l !! i = Some x → l ≡ₚ x :: erase_at i l.
Proof.
  intros H. unfold erase_at. rewrite <- (take_drop_middle l i x H) at 1.
  symmetry. apply Permutation_middle.
Qed.

Lemma length_erase_at {A} (l : list A) i :
  (i < length l)%nat → length (erase_at i l) = pred (length l).
Proof. intros. unfold erase_at. rewrite length_app, length_take, length_drop. lia. Qed.

Lemma elem_of_erase_at {A} (l : list A) i x : x ∈ erase_at i l → x ∈ l.
Proof.
  unfold erase_at. rewrite elem_of_app. intros [H|H].
  - by eapply elem_of_take in H as (? & ? & _); eapply list_elem_of_lookup_2.
  - apply list_elem_of_lookup in H as [j H]. rewrite lookup_drop in H.
    by eapply list_elem_of_lookup_2.
Qed.

(** ** Automation *)

(** [invert_ok] decomposes every hypothesis that says a monadic computation
    returned. *)
Ltac invert_ok :=
  repeat match goal with
  | H : (_ ≫= _) = Ok _ |- _ => apply bind_Ok in H as (? & ? & ?)
  | H : Ok _ = Ok _ |- _ => injection H as H
  | H : Fail _ = Ok _ |- _ => discriminate H
  | H : from_option_or _ _ = Ok _ |- _ => apply from_option_or_Ok in H
  | H : ensure _ _ = Ok ?u |- _ => destruct u; apply ensure_Ok in H
  | H : (if ?b then _ else Fail _) = Ok _ |- _ => destruct b eqn:?; [|discriminate H]
  | H : (if ?b then Fail _ else _) = Ok _ |- _ => destruct b eqn:?; [discriminate H|]
  end; simplify_eq.

(** [split_bool] turns boolean tests over [Z] into propositions. *)
Ltac split_bool :=
  repeat match goal with
  | H : _ && _ = true |- _ => apply andb_true_iff in H as [? ?]
  | H : _ || _ = false |- _ => apply orb_false_iff in H as [? ?]
  | H : negb _ = true |- _ => apply negb_true_iff in H
  | H : negb _ = false |- _ => apply negb_false_iff in H
  | H : bool_decide _ = true |- _ => apply bool_decide_eq_true in H
  | H : bool_decide _ = false |- _ => apply bool_decide_eq_false in H
  | H : (_ =? _) = true |- _ => apply Z.eqb_eq in H
  | H : (_ =? _) = false |- _ => apply Z.eqb_neq in H
  | H : (_ <? _) = true |- _ => apply Z.ltb_lt in H
  | H : (_ <? _) = false |- _ => apply Z.ltb_ge in H
  | H : (_ <=? _) = true |- _ => apply Z.leb_le in H
  | H : (_ <=? _) = false |- _ => apply Z.leb_gt in H
  end.

(** [solve_Forall tac] proves [Forall P [x1; ...; xn]] element by element. *)
Tactic Notation "solve_Forall" tactic3(tac) :=
  repeat (apply Forall_cons_2; [solve [tac]|]); apply Forall_nil_2; exact I.

Create HintDb dramsim.
#[export] Hint Resolve u64_range vset_size erase_at_perm : dramsim.
