(* ===== verification/Common.v ===== *)
(** * Common data: src/src/common.h and src/src/common.cc

    Addresses, command types, commands and transactions, with the predicates
    of [Command], the bit helpers, [LogBase2], [StringSplit] and the
    classification of a trace line ([operator>>] of [Transaction]). *)
From stdpp Require Import base tactics numbers list gmap strings.
From S2P Require Import Prelude.

Local Open Scope Z_scope.

(** ** Addresses *)

Record Address := mkAddress {
  channel : Z;
  rank : Z;
  bankgroup : Z;
  bank : Z;
  row : Z;
  column : Z
}.

(** [Address()]: every field is -1. *)
Definition Address_default : Address := mkAddress (-1) (-1) (-1) (-1) (-1) (-1).

(** ** Command types *)

Inductive CommandType :=
| READ
| READ_PRECHARGE
| WRITE
| WRITE_PRECHARGE
| ACTIVATE
| PRECHARGE
| REFRESH_BANK
| REFRESH
| SREF_ENTER
| SREF_EXIT
| LH_READ
| LH_READ_PRECHARGE
| GH_READ
| GH_READ_PRECHARGE
| PIM_WRITE
| PIM_WRITE_PRECHARGE
| PIM_ACTIVATE
| SIZE.

(** [static_cast<int>(cmd_type)]. *)
Definition cmd_index (t : CommandType) : nat :=
  match t with
  | READ => 0
  | READ_PRECHARGE => 1
  | WRITE => 2
  | WRITE_PRECHARGE => 3
  | ACTIVATE => 4
  | PRECHARGE => 5
  | REFRESH_BANK => 6
  | REFRESH => 7
  | SREF_ENTER => 8
  | SREF_EXIT => 9
  | LH_READ => 10
  | LH_READ_PRECHARGE => 11
  | GH_READ => 12
  | GH_READ_PRECHARGE => 13
  | PIM_WRITE => 14
  | PIM_WRITE_PRECHARGE => 15
  | PIM_ACTIVATE => 16
  | SIZE => 17
  end%nat.

(** The names [operator<<] prints, in the order of the enumeration. *)
Definition command_string : list string :=
  ["read"; "read_p"; "write"; "write_p"; "activate"; "precharge";
   "refresh_bank"; "refresh"; "self_refresh_enter"; "self_refresh_exit";
   "lh_read"; "lh_read_p"; "gh_read"; "gh_read_p"; "pim_write"; "pim_write_p";
   "pim_activate"; "WRONG"]%string.

#[global] Instance Address_eq_dec : EqDecision Address.
Proof. solve_decision. Defined.
#[global] Instance CommandType_eq_dec : EqDecision CommandType.
Proof. solve_decision. Defined.
#[global] Instance CommandType_inhabited : Inhabited CommandType := populate SIZE.

(** ** Commands *)

Record Command := mkCommand {
  cmd_type : CommandType;
  cmd_addr : Address;
  cmd_hex_addr : Z
}.

#[global] Instance Command_eq_dec : EqDecision Command.
Proof. solve_decision. Defined.

(** [Command()]: the invalid command. *)
Definition Command_default : Command := mkCommand SIZE Address_default 0.

Definition type_eqb (a b : CommandType) : bool := bool_decide (a = b).

Definition IsValid (c : Command) : bool := negb (type_eqb (cmd_type c) SIZE).

Definition IsRefresh (c : Command) : bool :=
  type_eqb (cmd_type c) REFRESH || type_eqb (cmd_type c) REFRESH_BANK.

Definition IsRead (c : Command) : bool :=
  type_eqb (cmd_type c) READ || type_eqb (cmd_type c) READ_PRECHARGE.

Definition IsWrite (c : Command) : bool :=
  type_eqb (cmd_type c) WRITE || type_eqb (cmd_type c) WRITE_PRECHARGE.

Definition IsReadWrite (c : Command) : bool := IsRead c || IsWrite c.

Definition IsRankCMD (c : Command) : bool :=
  type_eqb (cmd_type c) REFRESH || type_eqb (cmd_type c) SREF_ENTER
  || type_eqb (cmd_type c) SREF_EXIT.

Definition Channel (c : Command) : Z := channel (cmd_addr c).
Definition Rank (c : Command) : Z := rank (cmd_addr c).
Definition Bankgroup (c : Command) : Z := bankgroup (cmd_addr c).
Definition Bank (c : Command) : Z := bank (cmd_addr c).
Definition Row (c : Command) : Z := row (cmd_addr c).
Definition Column (c : Command) : Z := column (cmd_addr c).

(** ** Transactions

    The members that drive the controller.  [is_pim] is left indeterminate by
    the two converting constructors and is read only after [operator>>] has
    set it; the model gives it the value [false] there.  The copy constructor
    does not copy [active], which only the trace reader consults, on its own
    transaction. *)
Record Transaction := mkTransaction {
  trans_addr : Z;
  added_cycle : Z;
  complete_cycle : Z;
  is_write : bool;
  is_pim : bool;
  active : bool
}.

#[global] Instance Transaction_eq_dec : EqDecision Transaction.
Proof. solve_decision. Defined.

(** [Transaction(uint64_t addr, bool is_write)]. *)
Definition Transaction_rw (addr : Z) (w : bool) : Transaction :=
  mkTransaction addr 0 0 w false false.

(** ** Callbacks

    What a memory system reports to the processor: the function registered for
    reads or for writes is called with the address of a completed
    transaction. *)
Inductive callback := ReadCallback (addr : Z) | WriteCallback (addr : Z).

#[global] Instance callback_eq_dec : EqDecision callback.
Proof. solve_decision. Defined.

Definition callback_of (addr : Z) (w : bool) : callback :=
  if w then WriteCallback addr else ReadCallback addr.
Definition trans_callback (t : Transaction) : callback :=
  callback_of (trans_addr t) (is_write t).

(** ** Bit helpers *)

(** [ModuloWidth]: the shifts are on [uint64_t], the result is cast to
    [uint32_t]. *)
Definition ModuloWidth (addr bit_width pos : Z) : Z :=
  let addr := Z.shiftr addr pos in
  let store := addr in
  let addr := Z.shiftr addr bit_width in
  let addr := u64 (Z.shiftl addr bit_width) in
  u32 (Z.lxor store addr).

Definition GetBitInPos (bits pos : Z) : Z := Z.land (Z.shiftr bits pos) 1.

(** The loop of [LogBase2]; [fuel] bounds the number of rounds. *)
Fixpoint LogBase2_loop (fuel : nat) (power_of_two i : Z) : Z :=
  match fuel with
  | O => i
  | S fuel =>
      if 1 <? power_of_two then LogBase2_loop fuel (Z.quot power_of_two 2) (i + 1)
      else i
  end.

(** An [int] is below 2^31, so 32 rounds are enough ([LogBase2_correct]). *)
Definition LogBase2 (power_of_two : Z) : Z := LogBase2_loop 32 power_of_two 0.

(** ** Splitting a string

    [std::getline(ss, item, delim)] on a string stream delivers the maximal
    delimiter-free pieces; the empty ones are dropped.  [item] collects the
    current piece. *)
Fixpoint StringSplit_loop (s : list Ascii.ascii) (delim : Ascii.ascii)
    (item : list Ascii.ascii) : list (list Ascii.ascii) :=
  let flush rest := if bool_decide (item = []) then rest else item :: rest in
  match s with
  | [] => flush []
  | c :: s' =>
      if bool_decide (c = delim) then flush (StringSplit_loop s' delim [])
      else StringSplit_loop s' delim (item ++ [c])
  end.

Definition StringSplit (s : list Ascii.ascii) (delim : Ascii.ascii)
    : list (list Ascii.ascii) := StringSplit_loop s delim [].

(** ** Reading a transaction

    [operator>>] reads an address in base 16, an operation name and a decimal
    cycle.  The three fields read are arguments; the classification of the
    operation name is the function's own work. *)
Definition write_types : list string := ["WRITE"; "write"; "P_MEM_WR"; "BOFF"]%string.
Definition pim_types : list string := ["PIM"]%string.

Definition read_transaction (trans : Transaction) (addr : Z) (mem_op : string)
    (cycle : Z) : Transaction :=
  let w_cnt := bool_decide (mem_op ∈ write_types) in
  let pim_cnt := bool_decide (mem_op ∈ pim_types) in
  {| trans_addr := addr;
     added_cycle := cycle;
     complete_cycle := complete_cycle trans;
     active := negb (negb w_cnt && negb pim_cnt);
     is_write := w_cnt;
     is_pim := pim_cnt |}.

(** ** Facts about commands *)

Lemma type_eqb_true a b : type_eqb a b = true ↔ a = b.
Proof. apply bool_decide_eq_true. Qed.
Lemma type_eqb_false a b : type_eqb a b = false ↔ a ≠ b.
Proof. apply bool_decide_eq_false. Qed.
Lemma type_eqb_refl a : type_eqb a a = true.
Proof. by apply type_eqb_true. Qed.

Lemma cmd_index_inj : Inj (=) (=) cmd_index.
Proof. intros a b. by destruct a, b. Qed.
#[export] Existing Instance cmd_index_inj.

Lemma cmd_index_lt t : t ≠ SIZE → (cmd_index t < 17)%nat.
Proof. destruct t; simpl; intros; try lia; done. Qed.

Lemma IsReadWrite_type c :
  IsReadWrite c = true ↔ cmd_type c ∈ [READ; READ_PRECHARGE; WRITE; WRITE_PRECHARGE].
Proof. destruct c as [[] ? ?]; vm_compute; set_solver. Qed.

Lemma IsValid_default : IsValid Command_default = false.
Proof. done. Qed.

(** ** [LogBase2] *)

Lemma LogBase2_loop_spec fuel p i :
  p < 2 ^ Z.of_nat fuel → LogBase2_loop fuel p i = i + Z.log2 p.
Proof.
  revert p i. induction fuel as [|fuel IH]; intros p i Hp.
  - simpl. rewrite Z.log2_nonpos by (change (2 ^ Z.of_nat 0) with 1 in Hp; lia). lia.
  - simpl LogBase2_loop. destruct (Z.ltb_spec 1 p) as [H|H].
    + assert (Hq : p ÷ 2 = Z.div2 p).
      { rewrite Z.div2_div. apply Z.quot_div_nonneg; lia. }
      rewrite Nat2Z.inj_succ, Z.pow_succ_r in Hp by lia.
      rewrite Hq, IH.
      * rewrite Z.div2_spec, Z.log2_shiftr by lia.
        pose proof (Z.log2_pos p). lia.
      * rewrite Z.div2_div. apply Z.div_lt_upper_bound; lia.
    + destruct (decide (p = 1)) as [->|]; [simpl; lia|].
      rewrite Z.log2_nonpos by lia. lia.
Qed.

(** Fuel 32 covers every [int]: the loop computes the floor of the base-2
    logarithm, and [0] for arguments that are not positive. *)
Lemma LogBase2_correct p : p < 2 ^ 31 → LogBase2 p = Z.log2 p.
Proof.
  intros Hp. unfold LogBase2. rewrite LogBase2_loop_spec; [lia|].
  change (2 ^ Z.of_nat 32) with (2 ^ 32). lia.
Qed.

Lemma LogBase2_pow2 w : 0 ≤ w < 31 → LogBase2 (2 ^ w) = w.
Proof.
  intros Hw. rewrite LogBase2_correct by (apply Z.pow_lt_mono_r; lia).
  apply Z.log2_pow2. lia.
Qed.

Lemma LogBase2_nonneg p : p < 2 ^ 31 → 0 ≤ LogBase2 p.
Proof. intros. rewrite LogBase2_correct by done. apply Z.log2_nonneg. Qed.

(** ** Bit helpers *)

Lemma GetBitInPos_testbit bits pos :
  0 ≤ pos → GetBitInPos bits pos = Z.b2z (Z.testbit bits pos).
Proof.
  intros. unfold GetBitInPos. change 1 with (Z.ones 1).
  rewrite Z.land_ones by lia. rewrite <- Z.bit0_mod, Z.shiftr_spec by lia.
  by rewrite Z.add_0_l.
Qed.

(** ** [StringSplit] *)

Lemma StringSplit_loop_concat s delim item :
  concat (StringSplit_loop s delim item) = item ++ filter (λ c, c ≠ delim) s.
Proof.
  revert item. induction s as [|c s IH]; intros item; simpl.
  - case_bool_decide; subst; simpl; by rewrite ?app_nil_r.
  - destruct (decide (c = delim)) as [->|Hc].
    + rewrite (bool_decide_eq_true_2 (delim = delim)) by done.
      rewrite filter_cons_False by (intros H; by apply H).
      case_bool_decide; subst; simpl; by rewrite IH.
    + rewrite (bool_decide_eq_false_2 (c = delim)) by done.
      rewrite filter_cons_True by done. rewrite IH. by rewrite <- app_assoc.
Qed.

Lemma StringSplit_loop_items s delim item :
  delim ∉ item →
  Forall (λ it, it ≠ [] ∧ delim ∉ it) (StringSplit_loop s delim item).
Proof.
  revert item. induction s as [|c s IH]; intros item Hi; simpl.
  - case_bool_decide; repeat constructor; auto.
  - case_bool_decide as Hc.
    + case_bool_decide; [apply IH; set_solver|].
      constructor; [done|]. apply IH. set_solver.
    + apply IH. set_solver.
Qed.
