(* ===== verification/Double.v ===== *)
(** * IEEE 754 double precision, as the energy statistics use it

    [double] values are the binary64 numbers of the Standard Library's
    executable specification (53 bits of precision, emax 1024), so every
    product and sum of the energy formulas is rounded exactly as the compiled
    program rounds it. *)
From Stdlib Require Import SpecFloat.
From stdpp Require Import base tactics numbers.

Local Open Scope Z_scope.

Definition double : Type := spec_float.

Definition dadd : double → double → double := SFadd 53 1024.
Definition dsub : double → double → double := SFsub 53 1024.
Definition dmul : double → double → double := SFmul 53 1024.
Definition ddiv : double → double → double := SFdiv 53 1024.

(** Conversion of an [int] or a [uint64_t] to [double]. *)
Definition d_of_Z (z : Z) : double := binary_normalize 53 1024 z 0 false.

(** The literal [n / 10^k], correctly rounded. *)
Definition d_dec (n k : Z) : double := ddiv (d_of_Z n) (d_of_Z (10 ^ k)).

(** [static_cast<uint64_t>] of a [double]: the integral part, if a [uint64_t]
    can hold it; the conversion is undefined otherwise. *)
Definition d_to_u64 (d : double) : option Z :=
  let fits z := if (0 <=? z) && (z <? 2 ^ 64) then Some z else None in
  match d with
  | S754_zero _ => Some 0
  | S754_finite s m e =>
      let mag := if 0 <=? e then Z.pos m * 2 ^ e else Z.pos m / 2 ^ (- e) in
      fits (if s then - mag else mag)
  | _ => None
  end.

(** Comparisons; they are false when an operand is not a number. *)
Definition dltb : double → double → bool := SFltb.
Definition dleb : double → double → bool := SFleb.

(** [ceil]: the value is an integer, which may be too large for any C type. *)
Definition d_ceil (d : double) : option Z :=
  match d with
  | S754_zero _ => Some 0
  | S754_finite s m e =>
      let v := if s then Z.neg m else Z.pos m in
      Some (if 0 <=? e then v * 2 ^ e else - (- v / 2 ^ (- e)))
  | _ => None
  end.

(** [static_cast<int>] of an integral [double], undefined if it does not fit. *)
Definition int_of (z : option Z) : option Z :=
  z ≫= λ z, if (- 2 ^ 31 <=? z) && (z <? 2 ^ 31) then Some z else None.

Declare Scope double_scope.
Delimit Scope double_scope with double.
Bind Scope double_scope with double.
Infix "+" := dadd : double_scope.
Infix "-" := dsub : double_scope.
Infix "*" := dmul : double_scope.
Infix "/" := ddiv : double_scope.

#[global] Instance double_eq_dec : EqDecision double.
Proof. unfold double. solve_decision. Defined.

(** Addition rounds the exact sum, so it commutes. *)
Lemma dadd_comm x y : dadd x y = dadd y x.
Proof.
  unfold dadd, SFadd. destruct x as [[]|[]| |sx mx ex], y as [[]|[]| |sy my ey]; try done.
  by rewrite (Z.min_comm ex ey), Z.add_comm.
Qed.
