(* ===== verification/Configuration.v ===== *)
(** * Configuration: src/src/configuration.h and src/src/configuration.cc

    A configuration is read from an INI file through the functions of
    [INIReader], which [IniReader] implements; everything computed from the values read
    ([CalculateSize], [SetAddressMapping], the derived timing and energy
    parameters) is translated.  The members are grouped by the method that
    initialises them, and [Config] coerces to every group, so [tRAS config]
    reads as [config.tRAS]. *)
From stdpp Require Import base tactics numbers list gmap strings.
From S2P Require Import Prelude Common Double.

Local Open Scope Z_scope.

Inductive DRAMProtocol :=
| DDR3 | DDR4 | GDDR5 | GDDR5X | GDDR6 | LPDDR | LPDDR3 | LPDDR4 | HBM | HBM2
| HMC | PROTOCOL_SIZE.

Inductive RefreshPolicy :=
| RANK_LEVEL_SIMULTANEOUS
| RANK_LEVEL_STAGGERED
| BANK_LEVEL_STAGGERED
| REFRESH_POLICY_SIZE.

#[global] Instance DRAMProtocol_eq_dec : EqDecision DRAMProtocol.
Proof. solve_decision. Defined.
#[global] Instance RefreshPolicy_eq_dec : EqDecision RefreshPolicy.
Proof. solve_decision. Defined.

(** The INI parser: a section, an option and a default value give a value. *)
Record INIReader := {
  ParseError : Z;
  Get : string → string → string → string;
  GetInteger_long : string → string → Z → Z;
  GetReal : string → string → double → double;
  GetBoolean : string → string → bool → bool
}.

(** [Config::GetInteger]: the [long] of the parser, cast to [int]. *)
Definition GetInteger (reader : INIReader) (sec opt : string) (default_val : Z) : Z :=
  s32 (GetInteger_long reader sec opt default_val).

(** ** Groups of members *)

Record SystemParams := {
  requested_channel_size : Z;
  channels : Z;
  bus_width : Z;
  address_mapping : string;
  queue_structure : string;
  row_buf_policy : string;
  cmd_queue_size : Z;
  trans_queue_size : Z;
  unified_queue : bool;
  write_buf_size : Z;
  refresh_policy : RefreshPolicy;
  enable_self_refresh : bool;
  sref_threshold : Z;
  aggressive_precharging_enabled : bool
}.

Record DRAMParams := {
  protocol : DRAMProtocol;
  bankgroups : Z;
  banks_per_group : Z;
  banks : Z;
  rows : Z;
  columns : Z;
  device_width : Z;
  BL : Z;
  num_dies : Z;
  enable_hbm_dual_cmd : bool;
  num_links : Z;
  link_width : Z;
  link_speed : Z;
  block_size : Z;
  xbar_queue_depth : Z;
  burst_cycle : Z
}.

Record SizeParams := {
  devices_per_rank : Z;
  channel_size : Z;
  ranks : Z
}.

Record AddressParams := {
  request_size_bytes : Z;
  shift_bits : Z;
  ch_pos : Z; ra_pos : Z; bg_pos : Z; ba_pos : Z; ro_pos : Z; co_pos : Z;
  ch_mask : Z; ra_mask : Z; bg_mask : Z; ba_mask : Z; ro_mask : Z; co_mask : Z
}.

Record TimingParams := {
  tCK : double;
  AL : Z; CL : Z; CWL : Z; RL : Z; WL : Z;
  tCCD_L : Z; tCCD_S : Z; tRTRS : Z; tRTP : Z; tWTR_L : Z; tWTR_S : Z; tWR : Z;
  tRP : Z; tRRD_L : Z; tRRD_S : Z; tRAS : Z; tRCD : Z; tRFC : Z; tRC : Z;
  tCKE : Z; tCKESR : Z; tXS : Z; tXP : Z; tRFCb : Z; tREFI : Z; tREFIb : Z;
  tFAW : Z; tRPRE : Z; tWPRE : Z; read_delay : Z; write_delay : Z;
  tPPD : Z; t32AW : Z; tRCDRD : Z; tRCDWR : Z;
  ideal_memory_latency : Z
}.

Record PowerParams := {
  act_energy_inc : double;
  read_energy_inc : double;
  write_energy_inc : double;
  lh_read_energy_inc : double;
  gh_read_energy_inc : double;
  pim_write_energy_inc : double;
  ref_energy_inc : double;
  refb_energy_inc : double;
  act_stb_energy_inc : double;
  pre_stb_energy_inc : double;
  pre_pd_energy_inc : double;
  sref_energy_inc : double
}.

Record OtherParams := {
  epoch_period : Z;
  output_level : Z;
  output_dir : string;
  output_prefix : string;
  json_stats_name : string;
  json_epoch_name : string;
  txt_stats_name : string
}.

Record Config := {
  config_system :> SystemParams;
  config_dram :> DRAMParams;
  config_size :> SizeParams;
  config_address :> AddressParams;
  config_timing :> TimingParams;
  config_power :> PowerParams;
  config_other :> OtherParams
}.

(** ** Protocol predicates *)

Definition protocol_eqb (a b : DRAMProtocol) : bool := bool_decide (a = b).

Definition IsGDDR (d : DRAMParams) : bool :=
  protocol_eqb (protocol d) GDDR5 || protocol_eqb (protocol d) GDDR5X
  || protocol_eqb (protocol d) GDDR6.

(** [IsHBM] as a function of the protocol: [InitDRAMParams] calls it while the
    other members are still being set. *)
Definition IsHBM_protocol (p : DRAMProtocol) : bool :=
  protocol_eqb p HBM || protocol_eqb p HBM2.
Definition IsHBM (d : DRAMParams) : bool := IsHBM_protocol (protocol d).

Definition IsHMC (d : DRAMParams) : bool := protocol_eqb (protocol d) HMC.

Definition protocol_pairs : list (string * DRAMProtocol) :=
  [("DDR3", DDR3); ("DDR4", DDR4); ("GDDR5", GDDR5); ("GDDR5X", GDDR5X);
   ("GDDR6", GDDR6); ("LPDDR", LPDDR); ("LPDDR3", LPDDR3); ("LPDDR4", LPDDR4);
   ("HBM", HBM); ("HBM2", HBM2); ("HMC", HMC)]%string.

Definition GetDRAMProtocol (protocol_str : string) : outcome DRAMProtocol :=
  from_option_or (AbruptExit "configuration.cc" 82)
    ((list_to_map protocol_pairs : gmap string DRAMProtocol) !! protocol_str).

(** ** Initialisation *)

Definition InitSystemParams (reader : INIReader) : outcome SystemParams :=
  let geti := GetInteger reader "system" in
  let ref_policy := Get reader "system" "refresh_policy" "RANK_LEVEL_STAGGERED" in
  policy ←
    (if bool_decide (ref_policy = "RANK_LEVEL_SIMULTANEOUS"%string)
     then Ok RANK_LEVEL_SIMULTANEOUS
     else if bool_decide (ref_policy = "RANK_LEVEL_STAGGERED"%string)
     then Ok RANK_LEVEL_STAGGERED
     else if bool_decide (ref_policy = "BANK_LEVEL_STAGGERED"%string)
     then Ok BANK_LEVEL_STAGGERED
     else Fail (AbruptExit "configuration.cc" 247));
  Ok {| requested_channel_size := geti "channel_size"%string 1024;
        channels := geti "channels"%string 1;
        bus_width := geti "bus_width"%string 64;
        address_mapping := Get reader "system" "address_mapping" "chrobabgraco";
        queue_structure := Get reader "system" "queue_structure" "PER_BANK";
        row_buf_policy := Get reader "system" "row_buf_policy" "OPEN_PAGE";
        cmd_queue_size := geti "cmd_queue_size"%string 16;
        trans_queue_size := geti "trans_queue_size"%string 32;
        unified_queue := GetBoolean reader "system" "unified_queue" false;
        write_buf_size := geti "write_buf_size"%string 16;
        refresh_policy := policy;
        enable_self_refresh := GetBoolean reader "system" "enable_self_refresh" false;
        sref_threshold := geti "sref_threshold"%string 1000;
        aggressive_precharging_enabled :=
          GetBoolean reader "system" "aggressive_precharging_enabled" false |}.

(** The burst cycle and the capacity burst length of lines 131 to 143: the
    divisor is 4, 8 and 16 for the GDDR protocols and 2 for the others. *)
Definition burst_of (p : DRAMProtocol) (bl : Z) : Z * Z :=
  if protocol_eqb p GDDR5 then
    (if bl =? 0 then 0 else Z.quot bl 4, if bl =? 0 then 8 else bl)
  else if protocol_eqb p GDDR5X then
    (if bl =? 0 then 0 else Z.quot bl 8, if bl =? 0 then 8 else bl)
  else if protocol_eqb p GDDR6 then
    (if bl =? 0 then 0 else Z.quot bl 16, if bl =? 0 then 8 else bl)
  else
    (if bl =? 0 then 0 else Z.quot bl 2,
     if bl =? 0 then (if IsHBM_protocol p then 4 else 8) else bl).

Definition InitDRAMParams (reader : INIReader) : outcome DRAMParams :=
  let geti := GetInteger reader "dram_structure" in
  let hmci := GetInteger reader "hmc" in
  p ← GetDRAMProtocol (Get reader "dram_structure" "protocol" "DDR3");
  let bg := geti "bankgroups"%string 2 in
  let bpg := geti "banks_per_group"%string 2 in
  let bankgroup_enable :=
    GetBoolean reader "dram_structure" "bankgroup_enable" true in
  let bpg := if bankgroup_enable then bpg else bpg * bg in
  let bg := if bankgroup_enable then bg else 1 in
  let cols := geti "columns"%string (Z.shiftl 1 10) in
  let dw := geti "device_width"%string 8 in
  let bl := geti "BL"%string 8 in
  let dual := GetBoolean reader "dram_structure" "hbm_dual_cmd" true in
  let blk := hmci "block_size"%string 64 in
  bl ← (if protocol_eqb p HMC then idiv (blk * 8) dw else Ok bl);
  let '(bc, bl) := burst_of p bl in
  let gddr := protocol_eqb p GDDR5 || protocol_eqb p GDDR5X || protocol_eqb p GDDR6 in
  let cols := if gddr then cols * bl else if IsHBM_protocol p then cols * 2 else cols in
  Ok {| protocol := p;
        bankgroups := bg;
        banks_per_group := bpg;
        banks := bg * bpg;
        rows := geti "rows"%string (Z.shiftl 1 16);
        columns := cols;
        device_width := dw;
        BL := bl;
        num_dies := geti "num_dies"%string 1;
        enable_hbm_dual_cmd := dual && IsHBM_protocol p;
        num_links := hmci "num_links"%string 4;
        link_width := hmci "link_width"%string 16;
        link_speed := hmci "link_speed"%string 15000;
        block_size := blk;
        xbar_queue_depth := hmci "xbar_queue_depth"%string 16;
        burst_cycle := bc |}.

Definition CalculateSize (sys : SystemParams) (dram : DRAMParams) : outcome SizeParams :=
  devices ← idiv (bus_width sys) (device_width dram);
  let page_size := Z.quot (columns dram * device_width dram) 8 in
  let megs_per_bank := Z.quot (page_size * Z.quot (rows dram) 1024) 1024 in
  let megs_per_rank := megs_per_bank * banks dram * devices in
  if requested_channel_size sys <? megs_per_rank then
    Ok {| devices_per_rank := devices; ranks := 1; channel_size := megs_per_rank |}
  else
    r ← idiv (requested_channel_size sys) megs_per_rank;
    Ok {| devices_per_rank := devices; ranks := r; channel_size := r * megs_per_rank |}.

(** ** Address mapping *)

(** [address_mapping.substr(i, 2)] for [i] = 0, 2, ... *)
Fixpoint fields_of (s : string) : list string :=
  match s with
  | String.String a (String.String b s') =>
      String.String a (String.String b EmptyString) :: fields_of s'
  | _ => []
  end.

(** The [while (!fields.empty())] loop; [fields] is in the order in which the
    loop takes them, from the back of the vector. *)
Fixpoint place_fields (field_widths : gmap string Z) (fields : list string)
    (pos : Z) (field_pos : gmap string Z) : outcome (Z * gmap string Z) :=
  match fields with
  | [] => Ok (pos, field_pos)
  | token :: fields =>
      w ← from_option_or (AbruptExit "configuration.cc" 394) (field_widths !! token);
      place_fields field_widths fields (pos + w) (<[token := pos]> field_pos)
  end.

(** [(1 << width) - 1], an [int], stored in a [uint64_t]. *)
Definition field_mask (w : Z) : Z := u64 (s32 (Z.shiftl 1 w) - 1).

(** [std::map::at]. *)
Definition map_at (m : gmap string Z) (k : string) : outcome Z :=
  from_option_or UncaughtException (m !! k).

Definition field_widths_of (sys : SystemParams) (dram : DRAMParams) (size : SizeParams)
    : gmap string Z :=
  let col_low_bits := LogBase2 (BL dram) in
  let actual_col_bits := LogBase2 (columns dram) - col_low_bits in
  list_to_map
    [("ch", LogBase2 (channels sys)); ("ra", LogBase2 (ranks size));
     ("bg", LogBase2 (bankgroups dram)); ("ba", LogBase2 (banks_per_group dram));
     ("ro", LogBase2 (rows dram)); ("co", actual_col_bits)]%string.

Definition SetAddressMapping (sys : SystemParams) (dram : DRAMParams) (size : SizeParams)
    : outcome AddressParams :=
  let req := Z.quot (bus_width sys) 8 * BL dram in
  let widths := field_widths_of sys dram size in
  _ ← ensure (bool_decide (String.length (address_mapping sys) = 12%nat))
        (AbruptExit "configuration.cc" 376);
  '(_, field_pos) ← place_fields widths (reverse (fields_of (address_mapping sys))) 0 ∅;
  chp ← map_at field_pos "ch"; rap ← map_at field_pos "ra";
  bgp ← map_at field_pos "bg"; bap ← map_at field_pos "ba";
  rop ← map_at field_pos "ro"; cop ← map_at field_pos "co";
  chw ← map_at widths "ch"; raw ← map_at widths "ra";
  bgw ← map_at widths "bg"; baw ← map_at widths "ba";
  row ← map_at widths "ro"; cow ← map_at widths "co";
  Ok {| request_size_bytes := req;
        shift_bits := LogBase2 req;
        ch_pos := chp; ra_pos := rap; bg_pos := bgp; ba_pos := bap;
        ro_pos := rop; co_pos := cop;
        ch_mask := field_mask chw; ra_mask := field_mask raw;
        bg_mask := field_mask bgw; ba_mask := field_mask baw;
        ro_mask := field_mask row; co_mask := field_mask cow |}.

(** [int field = (hex_addr >> pos) & mask]. *)
Definition extract (hex pos mask : Z) : Z := s32 (Z.land (Z.shiftr hex pos) mask).

Definition AddressMapping (config : AddressParams) (hex_addr : Z) : Address :=
  let hex_addr := Z.shiftr hex_addr (shift_bits config) in
  mkAddress (extract hex_addr (ch_pos config) (ch_mask config))
            (extract hex_addr (ra_pos config) (ra_mask config))
            (extract hex_addr (bg_pos config) (bg_mask config))
            (extract hex_addr (ba_pos config) (ba_mask config))
            (extract hex_addr (ro_pos config) (ro_mask config))
            (extract hex_addr (co_pos config) (co_mask config)).

(** The operands of the [|] chain are [int]s: each shift is reduced to 32 bits
    and the result is converted (with its sign) to [uint64_t]. *)
Definition AddressUnmapping (config : AddressParams) (addr : Address) : Z :=
  let ishl v pos := s32 (Z.shiftl v pos) in
  let hex_addr :=
    u64 (Z.lor (Z.lor (Z.lor (Z.lor (Z.lor
      (ishl (column addr) (co_pos config)) (ishl (row addr) (ro_pos config)))
      (ishl (bank addr) (ba_pos config))) (ishl (bankgroup addr) (bg_pos config)))
      (ishl (rank addr) (ra_pos config))) (ishl (channel addr) (ch_pos config))) in
  u64 (Z.shiftl hex_addr (shift_bits config)).

(** [BaseDRAMSystem::GetChannel]. *)
Definition GetChannel (config : AddressParams) (hex_addr : Z) : Z :=
  extract (Z.shiftr hex_addr (shift_bits config)) (ch_pos config) (ch_mask config).

(** ** Timing, power and output parameters *)

Definition InitTimingParams (reader : INIReader) (dram : DRAMParams) : TimingParams :=
  let geti := GetInteger reader "timing" in
  let al := geti "AL"%string 0 in
  let cl := geti "CL"%string 12 in
  let cwl := geti "CWL"%string 12 in
  let ras := geti "tRAS"%string 24 in
  let rp := geti "tRP"%string 10 in
  let rl := al + cl in
  let wl := al + cwl in
  {| tCK := GetReal reader "timing" "tCK" (d_of_Z 1);
     AL := al; CL := cl; CWL := cwl;
     tCCD_L := geti "tCCD_L"%string 6;
     tCCD_S := geti "tCCD_S"%string 4;
     tRTRS := geti "tRTRS"%string 2;
     tRTP := geti "tRTP"%string 5;
     tWTR_L := geti "tWTR_L"%string 5;
     tWTR_S := geti "tWTR_S"%string 5;
     tWR := geti "tWR"%string 10;
     tRP := rp;
     tRRD_L := geti "tRRD_L"%string 4;
     tRRD_S := geti "tRRD_S"%string 4;
     tRAS := ras;
     tRCD := geti "tRCD"%string 10;
     tRFC := geti "tRFC"%string 74;
     tRC := ras + rp;
     tCKE := geti "tCKE"%string 6;
     tCKESR := geti "tCKESR"%string 12;
     tXS := geti "tXS"%string 432;
     tXP := geti "tXP"%string 8;
     tRFCb := geti "tRFCb"%string 20;
     tREFI := geti "tREFI"%string 7800;
     tREFIb := geti "tREFIb"%string 1950;
     tFAW := geti "tFAW"%string 50;
     tRPRE := geti "tRPRE"%string 1;
     tWPRE := geti "tWPRE"%string 1;
     tPPD := geti "tPPD"%string 0;
     t32AW := geti "t32AW"%string 330;
     tRCDRD := geti "tRCDRD"%string 24;
     tRCDWR := geti "tRCDWR"%string 20;
     ideal_memory_latency := geti "ideal_memory_latency"%string 10;
     RL := rl; WL := wl;
     read_delay := rl + burst_cycle dram;
     write_delay := wl + burst_cycle dram |}.

Definition InitPowerParams (reader : INIReader) (dram : DRAMParams) (size : SizeParams)
    (t : TimingParams) : PowerParams :=
  let getr := GetReal reader "power" in
  let VDD := getr "VDD"%string (d_dec 12 1) in
  let IDD0 := getr "IDD0"%string (d_of_Z 48) in
  let IDD2P := getr "IDD2P"%string (d_of_Z 25) in
  let IDD2N := getr "IDD2N"%string (d_of_Z 34) in
  let IDD3N := getr "IDD3N"%string (d_of_Z 43) in
  let IDD4W := getr "IDD4W"%string (d_of_Z 123) in
  let IDD4R := getr "IDD4R"%string (d_of_Z 135) in
  let IDD5AB := getr "IDD5AB"%string (d_of_Z 250) in
  let IDD5PB := getr "IDD5PB"%string (d_of_Z 5) in
  let IDD6x := getr "IDD6x"%string (d_of_Z 31) in
  let devices := d_of_Z (devices_per_rank size) in
  let bc := d_of_Z (burst_cycle dram) in
  {| act_energy_inc :=
       VDD * (IDD0 * d_of_Z (tRC t) - (IDD3N * d_of_Z (tRAS t) + IDD2N * d_of_Z (tRP t)))
       * devices;
     read_energy_inc := VDD * (IDD4R - IDD3N) * bc * devices;
     write_energy_inc := VDD * (IDD4W - IDD3N) * bc * devices;
     lh_read_energy_inc := VDD * d_dec 55 2 * (IDD4R - IDD3N) * bc * devices;
     gh_read_energy_inc := VDD * (IDD4R - IDD3N) * bc * devices;
     pim_write_energy_inc := VDD * (IDD4W - IDD3N) * bc * devices;
     ref_energy_inc := VDD * (IDD5AB - IDD3N) * d_of_Z (tRFC t) * devices;
     refb_energy_inc := VDD * (IDD5PB - IDD3N) * d_of_Z (tRFCb t) * devices;
     act_stb_energy_inc := VDD * IDD3N * devices;
     pre_stb_energy_inc := VDD * IDD2N * devices;
     pre_pd_energy_inc := VDD * IDD2P * devices;
     sref_energy_inc := VDD * IDD6x * devices |}%double.

(** [DirExist] is a question to the file system: its answer is an argument. *)
Definition InitOtherParams (reader : INIReader) (dir_exist : bool) (out_dir : string)
    : OtherParams :=
  let dir := if dir_exist then (out_dir +:+ "/")%string else "./"%string in
  let prefix := (dir +:+ Get reader "other" "output_prefix" "dramsim3")%string in
  {| epoch_period := GetInteger reader "other" "epoch_period" 100000;
     output_level := s32 (GetInteger_long reader "other" "output_level" 1);
     output_dir := dir;
     output_prefix := prefix;
     json_stats_name := (prefix +:+ ".json")%string;
     json_epoch_name := (prefix +:+ "epoch.json")%string;
     txt_stats_name := (prefix +:+ ".txt")%string |}.

(** The constructor, in the order the source insists on. *)
Definition Config_init (reader : INIReader) (dir_exist : bool) (out_dir : string)
    : outcome Config :=
  _ ← ensure (negb (ParseError reader <? 0)) (AbruptExit "configuration.cc" 15);
  sys ← InitSystemParams reader;
  dram ← InitDRAMParams reader;
  size ← CalculateSize sys dram;
  amap ← SetAddressMapping sys dram size;
  let t := InitTimingParams reader dram in
  Ok {| config_system := sys; config_dram := dram; config_size := size;
        config_address := amap; config_timing := t;
        config_power := InitPowerParams reader dram size t;
        config_other := InitOtherParams reader dir_exist out_dir |}.

(** ** Sample configurations

    A reader over association lists, the values of configs/HBM2_8Gb_x128.ini,
    and small devices after configs/DDR4_8Gb_x8_3200.ini and
    configs/HMC_2GB_4Lx16.ini. *)
Definition table_reader (ints : list (string * string * Z))
    (strs : list (string * string * string)) (flags : list (string * string * bool))
    : INIReader :=
  let im : gmap (string * string) Z := list_to_map ints in
  let sm : gmap (string * string) string := list_to_map strs in
  let bm : gmap (string * string) bool := list_to_map flags in
  {| ParseError := 0;
     Get := λ s o d, default d (sm !! (s, o));
     GetInteger_long := λ s o d, default d (im !! (s, o));
     GetReal := λ s o d, default d (d_of_Z <$> im !! (s, o));
     GetBoolean := λ s o d, default d (bm !! (s, o)) |}.

Definition hbm2_reader : INIReader :=
  let s k v : string * string * Z := ("system"%string, k, v) in
  let d k v : string * string * Z := ("dram_structure"%string, k, v) in
  let t k v : string * string * Z := ("timing"%string, k, v) in
  let p k v : string * string * Z := ("power"%string, k, v) in
  table_reader
    [d "bankgroups" 4; d "banks_per_group" 4; d "rows" 8192; d "columns" 128;
     d "device_width" 64; d "BL" 4; d "num_dies" 4;
     t "tCK" 1; t "CL" 14; t "CWL" 4; t "tRCDRD" 14; t "tRCDWR" 14; t "tRP" 14;
     t "tRAS" 34; t "tRFC" 260; t "tREFI" 3900; t "tREFIb" 128; t "tRPRE" 1;
     t "tWPRE" 1; t "tRRD_S" 4; t "tRRD_L" 6; t "tWTR_S" 6; t "tWTR_L" 8;
     t "tFAW" 30; t "tWR" 16; t "tCCD_S" 1; t "tCCD_L" 2; t "tXS" 268;
     t "tCKE" 8; t "tXP" 8;
     p "IDD0" 85; p "IDD2P" 7; p "IDD2N" 40; p "IDD3N" 55; p "IDD4W" 135;
     p "IDD4R" 135; p "IDD5AB" 215; p "IDD6x" 31;
     s "channel_size" 256; s "channels" 8; s "bus_width" 64;
     s "cmd_queue_size" 8; s "trans_queue_size" 32;
     ("other"%string, "epoch_period"%string, 1000000);
     ("other"%string, "output_level"%string, 1)]%string
    [("dram_structure", "protocol", "HBM");
     ("system", "address_mapping", "rorabgbacoch");
     ("system", "queue_structure", "PER_BANK");
     ("system", "row_buf_policy", "OPEN_PAGE")]%string
    [("system", "unified_queue", false)]%string.

(** A hybrid memory cube of two links and two vaults. *)
Definition hmc_reader : INIReader :=
  let s k v : string * string * Z := ("system"%string, k, v) in
  let d k v : string * string * Z := ("dram_structure"%string, k, v) in
  let t k v : string * string * Z := ("timing"%string, k, v) in
  let h k v : string * string * Z := ("hmc"%string, k, v) in
  table_reader
    [h "num_links" 2; h "link_width" 16; h "link_speed" 15000; h "block_size" 64;
     h "xbar_queue_depth" 6;
     d "bankgroups" 1; d "banks_per_group" 8; d "rows" 65536; d "columns" 64;
     d "device_width" 32; d "num_dies" 4;
     t "CL" 17; t "CWL" 17; t "tRCD" 17; t "tRP" 17; t "tRAS" 34; t "tRFC" 420;
     t "tREFI" 9364; t "tRRD_S" 4; t "tRRD_L" 4; t "tWTR_S" 3; t "tWTR_L" 3;
     t "tFAW" 27; t "tWR" 17; t "tCCD_S" 6; t "tCCD_L" 6; t "tXS" 12; t "tXP" 8;
     t "tRTRS" 0;
     s "channel_size" 128; s "channels" 2; s "bus_width" 32;
     s "cmd_queue_size" 8; s "trans_queue_size" 32;
     ("other"%string, "epoch_period"%string, 1250000);
     ("other"%string, "output_level"%string, 1)]%string
    [("dram_structure", "protocol", "HMC");
     ("system", "address_mapping", "rocorabgbach");
     ("system", "queue_structure", "PER_BANK");
     ("system", "row_buf_policy", "CLOSE_PAGE")]%string
    [("system", "unified_queue", true)]%string.

(** A small two-rank DDR4 device with per-rank queues and self refresh. *)
Definition ddr4_reader : INIReader :=
  let s k v : string * string * Z := ("system"%string, k, v) in
  let d k v : string * string * Z := ("dram_structure"%string, k, v) in
  let t k v : string * string * Z := ("timing"%string, k, v) in
  table_reader
    [d "bankgroups" 2; d "banks_per_group" 2; d "rows" 65536; d "columns" 1024;
     d "device_width" 8; d "BL" 8;
     t "CL" 22; t "CWL" 16; t "tRCD" 22; t "tRP" 22; t "tRAS" 52; t "tRFC" 560;
     t "tREFI" 12480; t "tRRD_S" 4; t "tRRD_L" 8; t "tWTR_S" 4; t "tWTR_L" 12;
     t "tFAW" 34; t "tWR" 24; t "tRTP" 12; t "tCCD_S" 4; t "tCCD_L" 8; t "tCKE" 8;
     t "tCKESR" 9; t "tXS" 576; t "tXP" 10; t "tRTRS" 1;
     s "channel_size" 4096; s "channels" 1; s "bus_width" 64;
     s "cmd_queue_size" 8; s "trans_queue_size" 32; s "sref_threshold" 3]%string
    [("dram_structure", "protocol", "DDR4");
     ("system", "address_mapping", "rochrababgco");
     ("system", "queue_structure", "PER_RANK");
     ("system", "refresh_policy", "BANK_LEVEL_STAGGERED")]%string
    [("system", "enable_self_refresh", true)]%string.

#[global] Instance outcome_inhabited {A} : Inhabited (outcome A) := populate (Fail OutOfRange).

Definition ok_or {A} (d : A) (o : outcome A) : A :=
  match o with Ok a => a | Fail _ => d end.

Definition zero_config : Config :=
  {| config_system := Build_SystemParams 0 0 0 EmptyString EmptyString EmptyString 0 0 false 0
                        RANK_LEVEL_STAGGERED false 0 false;
     config_dram := Build_DRAMParams DDR3 0 0 0 0 0 0 0 0 false 0 0 0 0 0 0;
     config_size := Build_SizeParams 0 0 0;
     config_address := Build_AddressParams 0 0 0 0 0 0 0 0 0 0 0 0 0 0;
     config_timing := Build_TimingParams (d_of_Z 0) 0 0 0 0 0 0 0 0 0 0 0 0 0 0 0 0 0
                        0 0 0 0 0 0 0 0 0 0 0 0 0 0 0 0 0 0 0;
     config_power := let z := d_of_Z 0 in Build_PowerParams z z z z z z z z z z z z;
     config_other := Build_OtherParams 0 0 EmptyString EmptyString EmptyString EmptyString EmptyString |}.

Definition hbm2_config : Config :=
  Eval vm_compute in ok_or zero_config (Config_init hbm2_reader true ".").
Definition ddr4_config : Config :=
  Eval vm_compute in ok_or zero_config (Config_init ddr4_reader true ".").
Definition hmc_config : Config :=
  Eval vm_compute in ok_or zero_config (Config_init hmc_reader true ".").
