(* ===== verification/AddressMapping.v ===== *)
(** * Correctness of the address mapping

    [SetAddressMapping] lays the six fields out without overlap and without
    gaps, so [AddressMapping] and [AddressUnmapping] are inverse to each other
    on the addresses that fit. *)
From stdpp Require Import base tactics numbers list gmap strings.
From S2P Require Import Prelude Common Double Configuration.

Local Open Scope Z_scope.

(** ** Specification: packing values into bit fields *)

(** A field is a position and a width; packing ors the shifted values. *)
Fixpoint pack (fs : list (Z * Z)) (vs : list Z) : Z :=
  match fs, vs with
  | (p, _) :: fs, v :: vs => Z.lor (Z.shiftl v p) (pack fs vs)
  | _, _ => 0
  end.

(** Two fields do not share a bit. *)
Definition disjoint_fields (f g : Z * Z) : Prop :=
  f.1 + f.2 ≤ g.1 ∨ g.1 + g.2 ≤ f.1.

Definition field_fits (total : Z) (f : Z * Z) : Prop :=
  0 ≤ f.1 ∧ 0 ≤ f.2 ∧ f.1 + f.2 ≤ total.

(** The value fits its field. *)
Definition value_fits (f : Z * Z) (v : Z) : Prop := 0 ≤ v < 2 ^ f.2.

(** The six fields of a configuration, in the order of [AddressUnmapping]. *)
Definition mask_width (m : Z) : Z := Z.log2 (m + 1).
Definition config_fields (c : AddressParams) : list (Z * Z) :=
  [(co_pos c, mask_width (co_mask c)); (ro_pos c, mask_width (ro_mask c));
   (ba_pos c, mask_width (ba_mask c)); (bg_pos c, mask_width (bg_mask c));
   (ra_pos c, mask_width (ra_mask c)); (ch_pos c, mask_width (ch_mask c))].

(** The components of an address, in the same order. *)
Definition address_values (a : Address) : list Z :=
  [column a; row a; bank a; bankgroup a; rank a; channel a].

(** Field positions handed out so far, all below [pos], none overlapping. *)
Record layout (widths field_pos : gmap string Z) (pos : Z) : Prop := {
  layout_below t p w :
    field_pos !! t = Some p → widths !! t = Some w → 0 ≤ p ∧ p + w ≤ pos;
  layout_disjoint t1 t2 p1 p2 w1 w2 :
    t1 ≠ t2 → field_pos !! t1 = Some p1 → field_pos !! t2 = Some p2 →
    widths !! t1 = Some w1 → widths !! t2 = Some w2 →
    disjoint_fields (p1, w1) (p2, w2)
}.

(** Every bit below [pos] belongs to a field. *)
Definition covered (widths field_pos : gmap string Z) (pos : Z) : Prop :=
  ∀ i, 0 ≤ i < pos →
    ∃ t p w, field_pos !! t = Some p ∧ widths !! t = Some w ∧ p ≤ i < p + w.

Definition field_names : list string := ["co"; "ro"; "ba"; "bg"; "ra"; "ch"]%string.

(** The number of address bits the six fields take. *)
Definition address_bits (c : AddressParams) : Z :=
  foldr (λ f n, f.2 + n) 0 (config_fields c).

Definition width_of (widths : gmap string Z) (t : string) : Z := default 0 (widths !! t).
Definition total_width (widths : gmap string Z) (l : list string) : Z :=
  foldr (λ t n, width_of widths t + n) 0 l.

(** The field of a name: the position handed out and the width requested. *)
Definition named_field (widths field_pos : gmap string Z) (t : string) : Z * Z :=
  (default 0 (field_pos !! t), width_of widths t).

(** An address whose components fit the masks of the configuration. *)
Definition address_in_range (c : AddressParams) (a : Address) : Prop :=
  0 ≤ channel a ≤ ch_mask c ∧ 0 ≤ rank a ≤ ra_mask c ∧
  0 ≤ bankgroup a ≤ bg_mask c ∧ 0 ≤ bank a ≤ ba_mask c ∧
  0 ≤ row a ≤ ro_mask c ∧ 0 ≤ column a ≤ co_mask c.

(** Dimensions whose masks are [int]s: every count is a positive number below
    2^31 and a burst is not longer than a row. *)
Definition dimensions_ok (sys : SystemParams) (dram : DRAMParams) (size : SizeParams)
    : Prop :=
  channels sys < 2 ^ 31 ∧ ranks size < 2 ^ 31 ∧ bankgroups dram < 2 ^ 31 ∧
  banks_per_group dram < 2 ^ 31 ∧ rows dram < 2 ^ 31 ∧ columns dram < 2 ^ 31 ∧
  BL dram ≤ columns dram.

(** ** Bits of a packed word *)

Lemma testbit_above v w i : 0 ≤ v < 2 ^ w → w ≤ i → Z.testbit v i = false.
Proof.
  intros Hv Hi. destruct (decide (v = 0)) as [->|]; [apply Z.bits_0|].
  apply Z.bits_above_log2; [lia|].
  assert (Z.log2 v < w); [|lia]. apply Z.log2_lt_pow2; lia.
Qed.

Lemma testbit_shifted v p i : 0 ≤ p → 0 ≤ i →
  Z.testbit (Z.shiftl v p) i = Z.testbit v (i - p).
Proof. intros. by rewrite Z.shiftl_spec by lia. Qed.

(** A bit outside every field is clear. *)
Lemma pack_bit_outside fs vs i :
  0 ≤ i → Forall2 value_fits fs vs → Forall (λ f, 0 ≤ f.1) fs →
  Forall (λ f, i < f.1 ∨ f.1 + f.2 ≤ i) fs → Z.testbit (pack fs vs) i = false.
Proof.
  intros Hi H. induction H as [|[p w] v fs vs Hv _ IH]; intros Hp Ho; [apply Z.bits_0|].
  apply Forall_cons in Hp as [Hp1 Hp]; apply Forall_cons in Ho as [Ho1 Ho].
  simpl in *. rewrite Z.lor_spec, IH, orb_false_r, testbit_shifted by done.
  destruct Ho1 as [?|?]; [apply Z.testbit_neg_r; lia|].
  eapply testbit_above; [exact Hv|simpl; lia].
Qed.

(** A bit inside field [k] is the corresponding bit of value [k]. *)
Lemma pack_bit_inside fs vs k p w v i :
  Forall2 value_fits fs vs → Forall (λ f, 0 ≤ f.1) fs →
  fs !! k = Some (p, w) → vs !! k = Some v → p ≤ i < p + w →
  (∀ j f, fs !! j = Some f → j ≠ k → disjoint_fields f (p, w)) →
  Z.testbit (pack fs vs) i = Z.testbit v (i - p).
Proof.
  intros H Hp. revert k. induction H as [|[p0 w0] v0 fs vs Hv0 H IH]; intros k; [done|].
  apply Forall_cons in Hp as [Hp1 Hp]. intros Hk Hvk Hi Hd. simpl in Hp1.
  assert (0 ≤ p).
  { destruct k as [|k]; simplify_eq/=; [done|].
    eapply Forall_lookup_1 in Hp; [|exact Hk]. done. }
  simpl. rewrite Z.lor_spec, testbit_shifted by lia.
  destruct k as [|k]; simplify_eq/=.
  - rewrite pack_bit_outside; [by rewrite orb_false_r|lia|done..|].
    apply Forall_lookup_2. intros j f Hf.
    specialize (Hd (S j) f Hf ltac:(lia)) as [?|?]; simpl in *; lia.
  - rewrite (IH Hp k); [|done..|].
    + specialize (Hd 0%nat (p0, w0) eq_refl ltac:(lia)) as [?|?]; simpl in *.
      * rewrite (testbit_above v0 w0) by (try lia; exact Hv0). done.
      * rewrite Z.testbit_neg_r by lia. done.
    + intros j f Hf Hj. apply (Hd (S j) f Hf). lia.
Qed.

Lemma land_ones_bit x w i : 0 ≤ w → 0 ≤ i →
  Z.testbit (Z.land x (Z.ones w)) i = Z.testbit x i && (i <? w).
Proof.
  intros. rewrite Z.land_spec. f_equal. destruct (Z.ltb_spec i w).
  - by apply Z.ones_spec_low.
  - apply Z.ones_spec_high. lia.
Qed.

(** Extracting field [k] of a packed word gives value [k] back. *)
Lemma extract_pack fs vs k p w v :
  Forall2 value_fits fs vs → Forall (λ f, 0 ≤ f.1 ∧ 0 ≤ f.2) fs →
  fs !! k = Some (p, w) → vs !! k = Some v →
  (∀ j f, fs !! j = Some f → j ≠ k → disjoint_fields f (p, w)) →
  Z.land (Z.shiftr (pack fs vs) p) (Z.ones w) = v.
Proof.
  intros H Hp Hk Hv Hd.
  assert (Hpw : 0 ≤ p ∧ 0 ≤ w).
  { eapply Forall_lookup_1 in Hp; [|exact Hk]. done. }
  assert (Hvf : value_fits (p, w) v).
  { eapply Forall2_lookup_lr in H; [|exact Hk|exact Hv]. done. }
  apply Z.bits_inj'. intros i Hi. rewrite land_ones_bit, Z.shiftr_spec by lia.
  destruct (Z.ltb_spec i w) as [Hiw|Hiw].
  - rewrite andb_true_r. erewrite pack_bit_inside; [|done|..|done|done|lia|done].
    + f_equal. lia.
    + eapply Forall_impl; [exact Hp|naive_solver].
  - rewrite andb_false_r. symmetry. eapply testbit_above; [exact Hvf|simpl; lia].
Qed.

Lemma pack_bound fs vs total :
  0 ≤ total → Forall2 value_fits fs vs → Forall (field_fits total) fs →
  0 ≤ pack fs vs < 2 ^ total.
Proof.
  intros Ht H Hf. split.
  - clear Ht. induction H as [|[p w] v fs vs Hv _ IH]; simpl; [lia|].
    apply Forall_cons in Hf as [Hf1 Hf]. apply Z.lor_nonneg. split; [|auto].
    apply Z.shiftl_nonneg. unfold value_fits in Hv. lia.
  - assert (∀ i, total ≤ i → Z.testbit (pack fs vs) i = false) as Hb.
    { intros i Hi. apply pack_bit_outside; [lia|done|..];
        eapply Forall_impl; try exact Hf; unfold field_fits; intros; lia. }
    destruct (Z.lt_ge_cases (pack fs vs) (2 ^ total)) as [|Hge]; [done|exfalso].
    assert (0 < 2 ^ total) by (apply Z.pow_pos_nonneg; lia).
    assert (Hl : total ≤ Z.log2 (pack fs vs)).
    { apply Z.log2_le_pow2; lia. }
    specialize (Hb _ Hl). rewrite Z.bit_log2 in Hb by lia. done.
Qed.

(** Repacking the extracted fields rebuilds the word when they cover it. *)
Lemma pack_extract fs x total :
  0 ≤ x < 2 ^ total → Forall (field_fits total) fs →
  (∀ i, 0 ≤ i < total → Exists (λ f, f.1 ≤ i < f.1 + f.2) fs) →
  pack fs ((λ f, Z.land (Z.shiftr x f.1) (Z.ones f.2)) <$> fs) = x.
Proof.
  intros Hx Hf Hc. apply Z.bits_inj'. intros i Hi.
  assert (Hbit : ∀ gs, Forall (field_fits total) gs →
    Z.testbit (pack gs ((λ f, Z.land (Z.shiftr x f.1) (Z.ones f.2)) <$> gs)) i
    = existsb (λ f, (f.1 <=? i) && (i <? f.1 + f.2)) gs && Z.testbit x i).
  { induction gs as [|[p w] gs IH]; intros Hg; csimpl; [by rewrite Z.bits_0|].
    apply Forall_cons in Hg as [[? [? ?]] Hg]. csimpl in *.
    rewrite Z.lor_spec, IH, testbit_shifted by done.
    destruct (Z.leb_spec p i).
    - rewrite land_ones_bit, Z.shiftr_spec by lia.
      replace (i - p + p) with i by lia.
      replace (i - p <? w) with (i <? p + w).
      + destruct (i <? p + w), (existsb _ gs), (Z.testbit x i); done.
      + destruct (Z.ltb_spec i (p + w)), (Z.ltb_spec (i - p) w); lia || done.
    - rewrite Z.testbit_neg_r by lia. done. }
  rewrite Hbit by done. destruct (Z.lt_ge_cases i total) as [Hlt|Hge].
  - destruct (Hc i ltac:(lia)) as [f fs' H|f fs' H].
    + simpl. destruct (Z.leb_spec f.1 i), (Z.ltb_spec i (f.1 + f.2)); [|lia..]. done.
    + assert (existsb (λ f, (f.1 <=? i) && (i <? f.1 + f.2)) (f :: fs') = true) as ->.
      { apply existsb_exists. apply Exists_exists in H as (g & Hg & ? & ?).
        exists g. split; [right; by apply list_elem_of_In|].
        destruct (Z.leb_spec g.1 i), (Z.ltb_spec i (g.1 + g.2)); lia || done. }
      done.
  - rewrite (testbit_above x total i) by lia. apply andb_false_r.
Qed.

(** ** The layout computed by [place_fields] *)

Section PlaceFields.
Context (widths : gmap string Z).
Hypothesis widths_nonneg : ∀ t w, widths !! t = Some w → 0 ≤ w.

Lemma place_fields_layout fields pos fp pos' fp' :
  0 ≤ pos → layout widths fp pos →
  place_fields widths fields pos fp = Ok (pos', fp') → layout widths fp' pos'.
Proof.
  revert pos fp. induction fields as [|token fields IH]; intros pos fp Hpos HL; simpl.
  { by intros [= <- <-]. }
  intros (w & Hw%from_option_or_Ok & H)%bind_Ok.
  pose proof (widths_nonneg _ _ Hw) as Hw0. revert H. apply IH; [lia|].
  destruct HL as [Hb Hd]. split.
  - intros t p w' [[-> <-]|[Hne Ht]]%lookup_insert_Some Hw'; simplify_eq; [lia|].
    destruct (Hb _ _ _ Ht Hw'). lia.
  - intros t1 t2 p1 p2 w1 w2 Hne [[-> <-]|[Hn1 H1]]%lookup_insert_Some
      [[-> <-]|[Hn2 H2]]%lookup_insert_Some Hw1 Hw2; simplify_eq.
    + right. simpl. destruct (Hb _ _ _ H2 Hw2). lia.
    + left. simpl. destruct (Hb _ _ _ H1 Hw1). lia.
    + eauto.
Qed.

Lemma place_fields_total fields pos fp pos' fp' :
  place_fields widths fields pos fp = Ok (pos', fp') →
  pos' = pos + total_width widths fields ∧
  (∀ t, is_Some (fp' !! t) → t ∈ fields ∨ is_Some (fp !! t)).
Proof.
  revert pos fp. induction fields as [|token fields IH]; intros pos fp; simpl.
  { intros [= <- <-]. split; [simpl; lia|]. by right. }
  intros (w & Hw%from_option_or_Ok & H)%bind_Ok. apply IH in H as [-> Hdom].
  split; [unfold width_of; rewrite Hw; simpl; lia|].
  intros t Ht%Hdom. rewrite elem_of_cons. rewrite lookup_insert_is_Some in Ht.
  naive_solver.
Qed.

Lemma place_fields_covered fields pos fp pos' fp' :
  NoDup fields → (∀ t, t ∈ fields → fp !! t = None) → covered widths fp pos →
  place_fields widths fields pos fp = Ok (pos', fp') → covered widths fp' pos'.
Proof.
  revert pos fp. induction fields as [|token fields IH]; intros pos fp Hnd Hf Hc; simpl.
  { by intros [= <- <-]. }
  apply NoDup_cons in Hnd as [Hnin Hnd].
  intros (w & Hw%from_option_or_Ok & H)%bind_Ok. revert H. apply IH; [done|..].
  - intros t Ht. rewrite lookup_insert_ne by (intros ->; done). apply Hf. by right.
  - intros i Hi. destruct (Z.lt_ge_cases i pos) as [Hlt|Hge].
    + destruct (Hc i) as (t & p & w' & Hp & Hw' & Hin); [lia|].
      exists t, p, w'. rewrite lookup_insert_ne; [done|].
      intros ->. rewrite Hf in Hp by (by left). done.
    + exists token, pos, w. rewrite lookup_insert_eq. repeat split; [done|lia..].
Qed.
End PlaceFields.

Lemma length_fields_of s :
  (2 * length (fields_of s) ≤ String.length s ≤ 2 * length (fields_of s) + 1)%nat.
Proof.
  remember (String.length s) as n eqn:Hn. revert s Hn.
  induction (lt_wf n) as [n _ IH]. intros [|a [|b s]] ->; simpl; [lia..|].
  specialize (IH (String.length s) ltac:(simpl; lia) s eq_refl). lia.
Qed.

Lemma total_width_perm widths l1 l2 :
  l1 ≡ₚ l2 → total_width widths l1 = total_width widths l2.
Proof. induction 1; unfold total_width in *; simpl; lia. Qed.

(** The masks of fields narrower than an [int]. *)
Lemma field_mask_ones w : 0 ≤ w < 31 → field_mask w = Z.ones w.
Proof.
  intros Hw. unfold field_mask.
  assert (0 < 2 ^ w < 2 ^ 31).
  { split; [apply Z.pow_pos_nonneg; lia|apply Z.pow_lt_mono_r; lia]. }
  rewrite Z.shiftl_1_l, s32_id, u64_id by lia. rewrite Z.ones_equiv. lia.
Qed.

Lemma mask_width_ones w : 0 ≤ w → mask_width (Z.ones w) = w.
Proof.
  intros. unfold mask_width. rewrite Z.ones_equiv.
  replace (Z.pred (2 ^ w) + 1) with (2 ^ w) by lia. by apply Z.log2_pow2.
Qed.

Lemma LogBase2_lt p : p < 2 ^ 31 → 0 ≤ LogBase2 p < 31.
Proof.
  intros Hp. rewrite LogBase2_correct by done. split; [apply Z.log2_nonneg|].
  destruct (Z.lt_ge_cases 0 p); [apply Z.log2_lt_pow2; lia|].
  rewrite Z.log2_nonpos by lia. lia.
Qed.

Lemma field_widths_bound sys dram size t w :
  dimensions_ok sys dram size → field_widths_of sys dram size !! t = Some w → 0 ≤ w < 31.
Proof.
  intros (H1 & H2 & H3 & H4 & H5 & H6 & H7) Hw. unfold field_widths_of in Hw. simpl in Hw.
  repeat (apply lookup_insert_Some in Hw as [[<- <-]|[_ Hw]]; [by apply LogBase2_lt| ]).
  apply lookup_insert_Some in Hw as [[<- <-]|[_ Hw]]; [|by rewrite lookup_empty in Hw].
  pose proof (LogBase2_lt (columns dram) H6).
  rewrite !LogBase2_correct in * by lia.
  pose proof (Z.log2_le_mono (BL dram) (columns dram) H7).
  pose proof (Z.log2_nonneg (BL dram)). lia.
Qed.

(** ** The configuration computed by [SetAddressMapping] *)

Lemma map_at_Some m k v : map_at m k = Ok v → m !! k = Some v.
Proof. apply from_option_or_Ok. Qed.

Lemma SetAddressMapping_inv sys dram size c :
  dimensions_ok sys dram size → SetAddressMapping sys dram size = Ok c →
  ∃ pos field_pos,
    let widths := field_widths_of sys dram size in
    place_fields widths (reverse (fields_of (address_mapping sys))) 0 ∅
      = Ok (pos, field_pos) ∧
    String.length (address_mapping sys) = 12%nat ∧
    (∀ t, t ∈ field_names → is_Some (field_pos !! t) ∧ is_Some (widths !! t)) ∧
    config_fields c = named_field widths field_pos <$> field_names ∧
    Forall (λ m, ∃ w, 0 ≤ w < 31 ∧ m = Z.ones w)
      [co_mask c; ro_mask c; ba_mask c; bg_mask c; ra_mask c; ch_mask c] ∧
    shift_bits c = LogBase2 (request_size_bytes c).
Proof.
  intros Hd H. unfold SetAddressMapping in H. cbv zeta in *.
  set (widths := field_widths_of sys dram size) in *.
  assert (Hwb : ∀ t w, map_at widths t = Ok w → 0 ≤ w < 31).
  { intros t w Hw%map_at_Some.
    by eapply field_widths_bound. }
  assert (Hm : ∀ t w, map_at widths t = Ok w →
    width_of widths t = w ∧ mask_width (field_mask w) = w).
  { intros t w Hw. pose proof (Hwb _ _ Hw). split.
    - apply map_at_Some in Hw. unfold width_of. by rewrite Hw.
    - rewrite field_mask_ones, mask_width_ones by lia. done. }
  cbv zeta. clearbody widths.
  apply bind_Ok in H as ([] & Hl & H). apply ensure_Ok, bool_decide_eq_true in Hl.
  apply bind_Ok in H as ([pos fp] & Hpf & H).
  repeat (apply bind_Ok in H as (? & ? & H)). injection H as <-.
  exists pos, fp. split; [done|]. split; [done|]. split; [|split; [|split; [|done]]].
  - intros t Ht. unfold field_names in Ht. rewrite !elem_of_cons, elem_of_nil in Ht.
    destruct Ht as [->|[->|[->|[->|[->|[->|[]]]]]]]; split; eexists;
      eapply map_at_Some; eassumption.
  - unfold config_fields, field_names. csimpl. unfold named_field.
    repeat match goal with
    | Hx : map_at widths ?t = Ok ?w |- _ =>
        destruct (Hm _ _ Hx) as [-> ->]; clear Hx
    | Hx : map_at fp ?t = Ok ?w |- _ =>
        apply map_at_Some in Hx; rewrite Hx; clear Hx
    end. done.
  - assert (Ho : ∀ t w, map_at widths t = Ok w →
      ∃ w', 0 ≤ w' < 31 ∧ field_mask w = Z.ones w').
    { intros t w Hw%Hwb. exists w. split; [done|]. by apply field_mask_ones. }
    simpl. repeat (apply Forall_cons_2; [eapply Ho; eassumption|]). by apply Forall_nil_2.
Qed.

Lemma NoDup_field_names : NoDup field_names.
Proof. apply (bool_decide_unpack _). vm_compute. exact I. Qed.

(** No field overlaps another, all of them end within the address, and every
    bit of the address belongs to one. *)
Lemma SetAddressMapping_fields sys dram size c :
  dimensions_ok sys dram size → SetAddressMapping sys dram size = Ok c →
  Forall (field_fits (address_bits c)) (config_fields c) ∧
  (∀ j k f g, config_fields c !! j = Some f → config_fields c !! k = Some g →
     j ≠ k → disjoint_fields f g) ∧
  (∀ i, 0 ≤ i < address_bits c → Exists (λ f, f.1 ≤ i < f.1 + f.2) (config_fields c)).
Proof.
  intros Hd H.
  destruct (SetAddressMapping_inv _ _ _ _ Hd H) as (pos & fp & Hpf & Hl & Hs & Hc & _).
  set (widths := field_widths_of sys dram size) in *.
  assert (Hw0 : ∀ t w, widths !! t = Some w → 0 ≤ w).
  { intros t w Hw. eapply field_widths_bound in Hw; [lia|done]. }
  destruct (place_fields_total _ _ _ _ _ _ Hpf) as [Hpos Hdom].
  assert (HL : layout widths fp pos).
  { eapply place_fields_layout; [done|reflexivity| |exact Hpf].
    split; intros *; by rewrite lookup_empty. }
  set (toks := reverse (fields_of (address_mapping sys))) in *.
  assert (Hperm : field_names ≡ₚ toks).
  { apply submseteq_length_Permutation.
    - apply NoDup_submseteq; [apply NoDup_field_names|].
      intros t Ht. destruct (Hs t Ht) as [Hsome _].
      apply Hdom in Hsome as [?|[? Hn]]; [done|by rewrite lookup_empty in Hn].
    - unfold toks. rewrite length_reverse.
      pose proof (length_fields_of (address_mapping sys)). simpl. lia. }
  assert (Hbits : address_bits c = pos).
  { rewrite Hpos, Z.add_0_l, <- (total_width_perm _ _ _ Hperm).
    unfold address_bits. rewrite Hc. done. }
  rewrite Hbits, Hc. clear Hc Hbits. split; [|split].
  - apply Forall_fmap, Forall_forall. intros t Ht. destruct (Hs t Ht) as [[p Hp] [w Hw]].
    unfold named_field, width_of. simpl. rewrite Hp, Hw. simpl.
    destruct (layout_below _ _ _ HL _ _ _ Hp Hw). unfold field_fits. simpl.
    specialize (Hw0 _ _ Hw). lia.
  - intros j k f g Hj Hk Hne. rewrite list_lookup_fmap in Hj, Hk.
    apply fmap_Some in Hj as (t1 & H1 & ->), Hk as (t2 & H2 & ->).
    destruct (Hs t1) as [[p1 Hp1] [w1 Hw1]]; [by eapply list_elem_of_lookup_2|].
    destruct (Hs t2) as [[p2 Hp2] [w2 Hw2]]; [by eapply list_elem_of_lookup_2|].
    unfold named_field, width_of. rewrite Hp1, Hw1, Hp2, Hw2.
    eapply (layout_disjoint _ _ _ HL t1 t2); try done.
    intros ->. apply Hne. eapply (NoDup_lookup field_names); [|done..].
    apply NoDup_field_names.
  - intros i Hi.
    assert (covered widths fp pos) as Hcov.
    { eapply place_fields_covered; [| | |exact Hpf].
      - rewrite <- Hperm. apply NoDup_field_names.
      - intros. apply lookup_empty.
      - intros ? ?. lia. }
    destruct (Hcov i Hi) as (t & p & w & Hp & Hw & Hin).
    apply Exists_exists. exists (named_field widths fp t). split.
    + apply list_elem_of_fmap. exists t. split; [done|]. rewrite Hperm.
      destruct (Hdom t) as [?|[? Hn]]; [by eexists|done|by rewrite lookup_empty in Hn].
    + unfold named_field, width_of. rewrite Hp, Hw. simpl. lia.
Qed.

(** ** The two directions *)

Section RoundTrip.
Context (sys : SystemParams) (dram : DRAMParams) (size : SizeParams) (c : AddressParams).
Hypothesis Hdim : dimensions_ok sys dram size.
Hypothesis Hset : SetAddressMapping sys dram size = Ok c.
Hypothesis Hbits : address_bits c ≤ 31.
Hypothesis Hreq : request_size_bytes c < 2 ^ 31.

Lemma shift_bits_range : 0 ≤ shift_bits c < 31.
Proof using Hdim Hset Hreq.
  destruct (SetAddressMapping_inv _ _ _ _ Hdim Hset) as (? & ? & _ & _ & _ & _ & _ & ->).
  by apply LogBase2_lt.
Qed.

Lemma mask_ones k f m :
  config_fields c !! k = Some f →
  [co_mask c; ro_mask c; ba_mask c; bg_mask c; ra_mask c; ch_mask c] !! k = Some m →
  m = Z.ones f.2.
Proof using Hdim Hset.
  destruct (SetAddressMapping_inv _ _ _ _ Hdim Hset) as (? & ? & _ & _ & _ & _ & Hm & _).
  intros Hk Hmk. eapply Forall_lookup_1 in Hm as (w & Hw & Hmw); [|exact Hmk].
  assert (f.2 = mask_width m) as ->; [|by rewrite Hmw, mask_width_ones by lia].
  do 6 (destruct k as [|k]; [simpl in Hk, Hmk; injection Hk as <-; injection Hmk as Hmk; simpl; by rewrite Hmk|]). done.
Qed.

Lemma fields_fit k f :
  config_fields c !! k = Some f → 0 ≤ f.1 ∧ 0 ≤ f.2 ∧ f.1 + f.2 ≤ 31.
Proof using Hdim Hset Hbits.
  destruct (SetAddressMapping_fields _ _ _ _ Hdim Hset) as (Hf & _ & _).
  intros Hk. eapply Forall_lookup_1 in Hf; [|exact Hk]. unfold field_fits in Hf. lia.
Qed.

(** Under the bound on the address width, no [int] shift overflows and
    [AddressUnmapping] is the packing of the six components. *)
Lemma AddressUnmapping_pack a :
  Forall2 value_fits (config_fields c) (address_values a) →
  AddressUnmapping c a
  = Z.shiftl (pack (config_fields c) (address_values a)) (shift_bits c).
Proof using Hdim Hset Hbits Hreq.
  intros Hv.
  assert (Hs : ∀ k f v, config_fields c !! k = Some f → address_values a !! k = Some v →
    s32 (Z.shiftl v f.1) = Z.shiftl v f.1).
  { intros k f v Hk Hvk. pose proof (fields_fit _ _ Hk).
    eapply Forall2_lookup_lr in Hv as Hvf; [|exact Hk|exact Hvk]. unfold value_fits in Hvf.
    apply s32_id. rewrite Z.shiftl_mul_pow2 by lia.
    assert (0 < 2 ^ f.1) by (apply Z.pow_pos_nonneg; lia).
    assert (2 ^ f.2 * 2 ^ f.1 ≤ 2 ^ 31).
    { rewrite <- Z.pow_add_r by lia. apply Z.pow_le_mono_r; lia. }
    nia. }
  assert (Hb : 0 ≤ pack (config_fields c) (address_values a) < 2 ^ 31).
  { apply pack_bound; [lia|done|]. apply Forall_lookup_2. intros k f Hk.
    pose proof (fields_fit _ _ Hk). done. }
  pose proof shift_bits_range as Hsh.
  set (pk := pack (config_fields c) (address_values a)) in *.
  unfold AddressUnmapping.
  pose proof (Hs 0%nat _ _ eq_refl eq_refl) as E0.
  pose proof (Hs 1%nat _ _ eq_refl eq_refl) as E1.
  pose proof (Hs 2%nat _ _ eq_refl eq_refl) as E2.
  pose proof (Hs 3%nat _ _ eq_refl eq_refl) as E3.
  pose proof (Hs 4%nat _ _ eq_refl eq_refl) as E4.
  pose proof (Hs 5%nat _ _ eq_refl eq_refl) as E5.
  cbn [fst] in E0, E1, E2, E3, E4, E5. rewrite E0, E1, E2, E3, E4, E5.
  rewrite <- !Z.lor_assoc.
  match goal with |- u64 (Z.shiftl (u64 ?x) _) = _ => replace x with pk end.
  2:{ unfold pk, pack, config_fields, address_values. by rewrite Z.lor_0_r. }
  rewrite (u64_id pk) by lia. apply u64_id. rewrite Z.shiftl_mul_pow2 by lia.
  assert (0 < 2 ^ shift_bits c) by (apply Z.pow_pos_nonneg; lia).
  assert (2 ^ 31 * 2 ^ shift_bits c ≤ 2 ^ 62).
  { rewrite <- Z.pow_add_r by lia. apply Z.pow_le_mono_r; lia. }
  nia.
Qed.

Lemma extract_value hex k f m v :
  config_fields c !! k = Some f →
  [co_mask c; ro_mask c; ba_mask c; bg_mask c; ra_mask c; ch_mask c] !! k = Some m →
  Z.land (Z.shiftr hex f.1) (Z.ones f.2) = v → extract hex f.1 m = v.
Proof using Hdim Hset Hbits.
  intros Hk Hm <-. rewrite (mask_ones _ _ _ Hk Hm). pose proof (fields_fit _ _ Hk).
  unfold extract. apply s32_id. rewrite Z.land_ones by lia.
  assert (0 < 2 ^ f.2) by (apply Z.pow_pos_nonneg; lia).
  assert (2 ^ f.2 ≤ 2 ^ 31) by (apply Z.pow_le_mono_r; lia).
  pose proof (Z.mod_pos_bound (Z.shiftr hex f.1) (2 ^ f.2)). lia.
Qed.

Lemma address_fits a :
  address_in_range c a → Forall2 value_fits (config_fields c) (address_values a).
Proof using Hdim Hset.
  intros Hr. apply Forall2_same_length_lookup_2; [done|]. intros k f v Hk Hv.
  destruct (lookup_lt_is_Some_2
    [co_mask c; ro_mask c; ba_mask c; bg_mask c; ra_mask c; ch_mask c] k) as [m Hm].
  { apply lookup_lt_Some in Hv. done. }
  pose proof (mask_ones _ _ _ Hk Hm) as Ho. unfold value_fits.
  assert (0 ≤ v ≤ m).
  { destruct Hr as (? & ? & ? & ? & ? & ?).
    do 6 (destruct k as [|k]; [simpl in Hv, Hm; injection Hv as <-; by injection Hm as <-|]).
    done. }
  rewrite Ho, Z.ones_equiv in *. lia.
Qed.
End RoundTrip.

(** ** Bounds *)

(** Dimensions that are positive [int]s. *)
Definition dimensions_pos (sys : SystemParams) (dram : DRAMParams) (size : SizeParams) : Prop :=
  0 < channels sys ∧ 0 < ranks size ∧ 0 < bankgroups dram ∧ 0 < banks_per_group dram ∧
  0 < rows dram ∧ 0 < columns dram.

(** A field never exceeds the number whose logarithm is its width. *)
Lemma extract_bound hex pos w d :
  0 < d → 0 ≤ w < 31 → w ≤ Z.log2 d → 0 ≤ extract hex pos (field_mask w) < d.
Proof.
  intros Hd Hw Hl. rewrite field_mask_ones by done. unfold extract. rewrite Z.land_ones by lia.
  assert (Hp : 2 ^ w ≤ d).
  { etrans; [apply Z.pow_le_mono_r; [lia|exact Hl]|]. by apply Z.log2_spec. }
  assert (0 < 2 ^ w) by (apply Z.pow_pos_nonneg; lia).
  assert (2 ^ w ≤ 2 ^ 31) by (apply Z.pow_le_mono_r; lia).
  pose proof (Z.mod_pos_bound (Z.shiftr hex pos) (2 ^ w)). rewrite s32_id by lia. lia.
Qed.

(** The dimension that a field counts. *)
Definition dimension_of (sys : SystemParams) (dram : DRAMParams) (size : SizeParams)
    : list (string * Z) :=
  [("ch", channels sys); ("ra", ranks size); ("bg", bankgroups dram);
   ("ba", banks_per_group dram); ("ro", rows dram); ("co", columns dram)]%string.

Lemma field_width_log sys dram size t d w :
  dimensions_ok sys dram size → (t, d) ∈ dimension_of sys dram size →
  map_at (field_widths_of sys dram size) t = Ok w → 0 ≤ w < 31 ∧ w ≤ Z.log2 d.
Proof.
  intros Hdim Hd Hw%map_at_Some. split; [by eapply field_widths_bound|].
  destruct Hdim as (H1 & H2 & H3 & H4 & H5 & H6 & H7).
  apply elem_of_list_to_map_2 in Hw. unfold dimension_of in Hd.
  pose proof (LogBase2_nonneg (BL dram) ltac:(lia)).
  rewrite !elem_of_cons, elem_of_nil in Hd, Hw.
  destruct Hd as [Hd|[Hd|[Hd|[Hd|[Hd|[Hd|[]]]]]]]; injection Hd as -> ->;
    destruct Hw as [Hw|[Hw|[Hw|[Hw|[Hw|[Hw|[]]]]]]]; try discriminate Hw; injection Hw as ->;
    rewrite LogBase2_correct by done; lia.
Qed.

Lemma mapping_bounds sys dram size c hex :
  dimensions_ok sys dram size → dimensions_pos sys dram size →
  SetAddressMapping sys dram size = Ok c →
  let a := AddressMapping c hex in
  0 ≤ channel a < channels sys ∧ 0 ≤ rank a < ranks size ∧ 0 ≤ bankgroup a < bankgroups dram ∧
  0 ≤ bank a < banks_per_group dram ∧ 0 ≤ row a < rows dram ∧ 0 ≤ column a < columns dram.
Proof.
  intros Hd (P1 & P2 & P3 & P4 & P5 & P6) H. unfold SetAddressMapping in H. cbv zeta in H.
  apply bind_Ok in H as (_ & _ & H). apply bind_Ok in H as ([? fp] & _ & H).
  do 6 (apply bind_Ok in H as (? & _ & H)).
  apply bind_Ok in H as (chw & Hch & H). apply bind_Ok in H as (raw & Hra & H).
  apply bind_Ok in H as (bgw & Hbg & H). apply bind_Ok in H as (baw & Hba & H).
  apply bind_Ok in H as (row' & Hro & H). apply bind_Ok in H as (cow & Hco & [= <-]).
  assert (Hx : ∀ k t d w hex pos, dimension_of sys dram size !! k = Some (t, d) →
    map_at (field_widths_of sys dram size) t = Ok w → 0 < d → 0 ≤ extract hex pos (field_mask w) < d).
  { intros k t d w hex' pos Hin%list_elem_of_lookup_2 Hw Hpos.
    destruct (field_width_log _ _ _ _ _ _ Hd Hin Hw). by apply extract_bound. }
  repeat split; first [apply (Hx 0%nat _ _ _ _ _ eq_refl Hch P1)|apply (Hx 1%nat _ _ _ _ _ eq_refl Hra P2)
    |apply (Hx 2%nat _ _ _ _ _ eq_refl Hbg P3)|apply (Hx 3%nat _ _ _ _ _ eq_refl Hba P4)
    |apply (Hx 4%nat _ _ _ _ _ eq_refl Hro P5)|apply (Hx 5%nat _ _ _ _ _ eq_refl Hco P6)].
Qed.

Lemma Config_init_mapping reader dir_exist out_dir (config : Config) :
  Config_init reader dir_exist out_dir = Ok config →
  SetAddressMapping config config config = Ok (config_address config).
Proof.
  intros H. unfold Config_init in H. apply bind_Ok in H as (_ & _ & H).
  apply bind_Ok in H as (sys & _ & H). apply bind_Ok in H as (dram & _ & H).
  apply bind_Ok in H as (size & _ & H). by apply bind_Ok in H as (amap & Ha & [= <-]).
Qed.

(** [C8] Packing an address and unpacking it gives the address back, for every
    field order the configuration string may name: if the dimensions are below
    2^31 and bursts no longer than a row ([dimensions_ok]), the address has at
    most 31 bits above the request offset and requests are smaller than 2^31
    bytes, [AddressMapping] inverts [AddressUnmapping] on every in-range
    address.  Beyond 31 bits the [int] shifts of [AddressUnmapping] lose
    bits. *)
Theorem address_roundtrip sys dram size c a :
  dimensions_ok sys dram size → SetAddressMapping sys dram size = Ok c →
  address_bits c ≤ 31 → request_size_bytes c < 2 ^ 31 → address_in_range c a →
  AddressMapping c (AddressUnmapping c a) = a.
Proof.
  intros Hd Hs Hb Hr Ha. pose proof (address_fits _ _ _ _ Hd Hs a Ha) as Hv.
  pose proof (shift_bits_range _ _ _ _ Hd Hs Hr).
  destruct (SetAddressMapping_fields _ _ _ _ Hd Hs) as (_ & Hdisj & _).
  unfold AddressMapping. erewrite AddressUnmapping_pack by eassumption.
  rewrite Z.shiftr_shiftl_l, Z.sub_diag, Z.shiftl_0_r by lia.
  assert (Hx : ∀ k f m v, config_fields c !! k = Some f →
    [co_mask c; ro_mask c; ba_mask c; bg_mask c; ra_mask c; ch_mask c] !! k = Some m →
    address_values a !! k = Some v →
    extract (pack (config_fields c) (address_values a)) f.1 m = v).
  { intros k [p w] m v Hk Hm Hvk. eapply extract_value; [exact Hd|exact Hs|done..|].
    eapply extract_pack; [done| |exact Hk|exact Hvk|].
    - apply Forall_lookup_2. intros j g Hg.
      destruct (fields_fit _ _ _ _ Hd Hs Hb _ _ Hg) as (? & ? & _). done.
    - intros j g Hg Hne. eapply Hdisj; eauto. }
  destruct a as [ch ra bg ba ro co]. f_equal.
  - exact (Hx 5%nat _ _ _ eq_refl eq_refl eq_refl).
  - exact (Hx 4%nat _ _ _ eq_refl eq_refl eq_refl).
  - exact (Hx 3%nat _ _ _ eq_refl eq_refl eq_refl).
  - exact (Hx 2%nat _ _ _ eq_refl eq_refl eq_refl).
  - exact (Hx 1%nat _ _ _ eq_refl eq_refl eq_refl).
  - exact (Hx 0%nat _ _ _ eq_refl eq_refl eq_refl).
Qed.

Lemma address_roundtrip_witness :
  let a := mkAddress 5 0 2 3 4711 42 in
  AddressMapping hbm2_config (AddressUnmapping hbm2_config a) = a.
Proof.
  intros a.
  apply (address_roundtrip hbm2_config hbm2_config hbm2_config hbm2_config a);
    [unfold dimensions_ok; vm_compute; intuition congruence
    |vm_compute; reflexivity
    |vm_compute; congruence
    |vm_compute; reflexivity
    |unfold address_in_range; vm_compute; intuition congruence].
Defined.

(** [C34] The other direction: every request-aligned physical address below the
    capacity of the mapping is rebuilt from its six components, so the fields
    lose no bit and no two aligned addresses share a location.  As before, the
    dimensions are below 2^31 and bursts no longer than a row
    ([dimensions_ok]), the address has at most 31 bits above the request offset
    and requests are smaller than 2^31 bytes; beyond that the [int] shifts of
    [AddressUnmapping] lose bits. *)
Theorem hex_roundtrip sys dram size c h :
  dimensions_ok sys dram size → SetAddressMapping sys dram size = Ok c →
  address_bits c ≤ 31 → request_size_bytes c < 2 ^ 31 →
  0 ≤ h < 2 ^ (address_bits c + shift_bits c) → h mod 2 ^ shift_bits c = 0 →
  AddressUnmapping c (AddressMapping c h) = h.
Proof.
  intros Hd Hs Hb Hr Hh Hal. pose proof (shift_bits_range _ _ _ _ Hd Hs Hr).
  destruct (SetAddressMapping_fields _ _ _ _ Hd Hs) as (Hfit & _ & Hcov).
  set (x := Z.shiftr h (shift_bits c)).
  assert (0 < 2 ^ shift_bits c) by (apply Z.pow_pos_nonneg; lia).
  assert (Hx : 0 ≤ x < 2 ^ address_bits c).
  { unfold x. rewrite Z.shiftr_div_pow2 by lia. split; [apply Z.div_pos; lia|].
    apply Z.div_lt_upper_bound; [lia|]. rewrite Z.mul_comm.
    destruct (Z.lt_ge_cases (address_bits c) 0) as [Hneg|].
    - destruct (Forall_lookup_1 _ _ 0%nat _ Hfit eq_refl) as (? & ? & ?). simpl in *. lia.
    - rewrite <- Z.pow_add_r by lia. lia. }
  assert (Hv : address_values (AddressMapping c h)
    = (λ f, Z.land (Z.shiftr x f.1) (Z.ones f.2)) <$> config_fields c).
  { assert (He : ∀ k f m, config_fields c !! k = Some f →
      [co_mask c; ro_mask c; ba_mask c; bg_mask c; ra_mask c; ch_mask c] !! k = Some m →
      extract x f.1 m = Z.land (Z.shiftr x f.1) (Z.ones f.2)).
    { intros. by eapply extract_value. }
    unfold address_values, AddressMapping. simpl channel; simpl rank; simpl bankgroup;
      simpl bank; simpl row; simpl column. fold x.
    unfold config_fields at 1. csimpl.
    repeat f_equal; [exact (He 0%nat _ _ eq_refl eq_refl)|exact (He 1%nat _ _ eq_refl eq_refl)
      |exact (He 2%nat _ _ eq_refl eq_refl)|exact (He 3%nat _ _ eq_refl eq_refl)
      |exact (He 4%nat _ _ eq_refl eq_refl)|exact (He 5%nat _ _ eq_refl eq_refl)]. }
  assert (Hfits : Forall2 value_fits (config_fields c) (address_values (AddressMapping c h))).
  { rewrite Hv. apply Forall2_fmap_r, Forall_Forall2_diag.
    eapply Forall_impl; [exact Hfit|]. intros f (? & ? & ?).
    unfold value_fits, compose. cbn beta. rewrite Z.land_ones by lia. apply Z.mod_pos_bound, Z.pow_pos_nonneg; lia. }
  erewrite AddressUnmapping_pack by eassumption.
  rewrite Hv, (pack_extract _ x _ Hx Hfit Hcov). unfold x.
  rewrite Z.shiftr_div_pow2, Z.shiftl_mul_pow2 by lia.
  pose proof (Z.div_mod h (2 ^ shift_bits c)). lia.
Qed.

Lemma hex_roundtrip_witness :
  AddressUnmapping hbm2_config (AddressMapping hbm2_config 0x3fade60) = 0x3fade60.
Proof.
  apply (hex_roundtrip hbm2_config hbm2_config hbm2_config hbm2_config);
    [unfold dimensions_ok; vm_compute; intuition congruence
    |vm_compute; reflexivity
    |vm_compute; congruence
    |vm_compute; reflexivity
    |vm_compute; split; congruence
    |vm_compute; reflexivity].
Defined.

(** [C17] No address leaves the device: for every configuration that the
    constructor accepts with positive dimensions below 2^31 and bursts no longer
    than a row, every value of an address, aligned or not, is mapped to an
    existing channel, rank, bankgroup, bank, row and column. *)
Theorem mapping_in_bounds reader dir_exist out_dir (config : Config) hex :
  Config_init reader dir_exist out_dir = Ok config →
  dimensions_ok config config config → dimensions_pos config config config →
  let a := AddressMapping config hex in
  GetChannel config hex = channel a ∧
  0 ≤ channel a < channels config ∧ 0 ≤ rank a < ranks config ∧
  0 ≤ bankgroup a < bankgroups config ∧ 0 ≤ bank a < banks_per_group config ∧
  0 ≤ row a < rows config ∧ 0 ≤ column a < columns config.
Proof.
  intros H Hd Hp a. split; [done|]. apply Config_init_mapping in H.
  by apply (mapping_bounds config config config config hex).
Qed.

Lemma mapping_in_bounds_witness :
  Config_init hbm2_reader true "." = Ok hbm2_config ∧
  0 ≤ bank (AddressMapping hbm2_config (2 ^ 64 - 1)) < 4.
Proof.
  assert (H : Config_init hbm2_reader true "." = Ok hbm2_config) by (vm_compute; reflexivity).
  split; [exact H|].
  apply (mapping_in_bounds hbm2_reader true "." hbm2_config (2 ^ 64 - 1) H).
  - repeat split; vm_compute; congruence.
  - repeat split; vm_compute; congruence.
Defined.
