(* ===== verification/Timing.v ===== *)
(** * Command-to-command delays: src/src/timing.h and src/src/timing.cc

    For an issued command, the five tables of [Timing] list the commands it
    delays, in the same bank, in the other banks of its bank group, in the
    other bank groups of its rank, in the other ranks and (for rank commands)
    in the whole rank. *)
From stdpp Require Import base tactics numbers list.
From S2P Require Import Prelude Common Double Configuration.

Local Open Scope Z_scope.

(** The local variables of the constructor. *)
Record Delays := {
  read_to_read_l : Z; read_to_read_s : Z; read_to_read_o : Z;
  read_to_write : Z; read_to_write_o : Z; read_to_precharge : Z; readp_to_act : Z;
  write_to_read_l : Z; write_to_read_s : Z; write_to_read_o : Z;
  write_to_write_l : Z; write_to_write_s : Z; write_to_write_o : Z;
  write_to_precharge : Z;
  precharge_to_activate : Z; precharge_to_precharge : Z;
  read_to_activate : Z; write_to_activate : Z;
  activate_to_activate : Z; activate_to_activate_l : Z; activate_to_activate_s : Z;
  activate_to_precharge : Z; activate_to_read : Z; activate_to_write : Z;
  activate_to_refresh : Z;
  refresh_to_refresh : Z; refresh_to_activate : Z; refresh_to_activate_bank : Z;
  self_refresh_entry_to_exit : Z; self_refresh_exit : Z
}.

Definition Delays_of (config : Config) : Delays :=
  let bc := burst_cycle config in
  let rtp := AL config + tRTP config in
  let wtp := WL config + bc + tWR config in
  let rcd := IsGDDR config || IsHBM config in
  let single_bg := bankgroups config =? 1 in
  {| read_to_read_l :=
       if single_bg then Z.max bc (tCCD_S config) else Z.max bc (tCCD_L config);
     read_to_read_s := Z.max bc (tCCD_S config);
     read_to_read_o := bc + tRTRS config;
     read_to_write := RL config + bc - WL config + tRTRS config;
     read_to_write_o := read_delay config + bc + tRTRS config - write_delay config;
     read_to_precharge := rtp;
     readp_to_act := AL config + tRTP config + tRP config;
     write_to_read_l :=
       if single_bg then write_delay config + tWTR_S config
       else write_delay config + tWTR_L config;
     write_to_read_s := write_delay config + tWTR_S config;
     write_to_read_o := write_delay config + bc + tRTRS config - read_delay config;
     write_to_write_l :=
       if single_bg then Z.max bc (tCCD_S config) else Z.max bc (tCCD_L config);
     write_to_write_s := Z.max bc (tCCD_S config);
     write_to_write_o := bc;
     write_to_precharge := wtp;
     precharge_to_activate := tRP config;
     precharge_to_precharge := tPPD config;
     read_to_activate := rtp + tRP config;
     write_to_activate := wtp + tRP config;
     activate_to_activate := tRC config;
     activate_to_activate_l := if single_bg then tRRD_S config else tRRD_L config;
     activate_to_activate_s := tRRD_S config;
     activate_to_precharge := tRAS config;
     activate_to_read := if rcd then tRCDRD config else tRCD config - AL config;
     activate_to_write := if rcd then tRCDWR config else tRCD config - AL config;
     activate_to_refresh := tRC config;
     refresh_to_refresh := tREFI config;
     refresh_to_activate := tRFC config;
     refresh_to_activate_bank := tRFCb config;
     self_refresh_entry_to_exit := tCKESR config;
     self_refresh_exit := tXS config |}.

(** The five tables at one command. *)
Record TimingRow := {
  row_same_bank : list (CommandType * Z);
  row_other_banks_same_bankgroup : list (CommandType * Z);
  row_other_bankgroups_same_rank : list (CommandType * Z);
  row_other_ranks : list (CommandType * Z);
  row_same_rank : list (CommandType * Z)
}.

(** What the constructor leaves where it assigns nothing. *)
Definition empty_row : TimingRow := Build_TimingRow [] [] [] [] [].

(** Commands READ to WRITE_PRECHARGE. *)
Definition rw_rows (config : Config) (d : Delays) (t : CommandType) : TimingRow :=
  match t with
  | READ =>
      {|
        row_same_bank :=
          [(READ, read_to_read_l d); (WRITE, read_to_write d);
           (READ_PRECHARGE, read_to_read_l d); (WRITE_PRECHARGE, read_to_write d);
           (PRECHARGE, read_to_precharge d)];
        row_other_banks_same_bankgroup :=
          [(READ, read_to_read_l d); (WRITE, read_to_write d);
           (READ_PRECHARGE, read_to_read_l d); (WRITE_PRECHARGE, read_to_write d)];
        row_other_bankgroups_same_rank :=
          [(READ, read_to_read_s d); (WRITE, read_to_write d);
           (READ_PRECHARGE, read_to_read_s d); (WRITE_PRECHARGE, read_to_write d)];
        row_other_ranks :=
          [(READ, read_to_read_o d); (WRITE, read_to_write_o d);
           (READ_PRECHARGE, read_to_read_o d); (WRITE_PRECHARGE, read_to_write_o d)];
        row_same_rank := []
      |}
  | WRITE =>
      {|
        row_same_bank :=
          [(READ, write_to_read_l d); (WRITE, write_to_write_l d);
           (READ_PRECHARGE, write_to_read_l d); (WRITE_PRECHARGE, write_to_write_l d);
           (PRECHARGE, write_to_precharge d)];
        row_other_banks_same_bankgroup :=
          [(READ, write_to_read_l d); (WRITE, write_to_write_l d);
           (READ_PRECHARGE, write_to_read_l d); (WRITE_PRECHARGE, write_to_write_l d)];
        row_other_bankgroups_same_rank :=
          [(READ, write_to_read_s d); (WRITE, write_to_write_s d);
           (READ_PRECHARGE, write_to_read_s d); (WRITE_PRECHARGE, write_to_write_s d)];
        row_other_ranks :=
          [(READ, write_to_read_o d); (WRITE, write_to_write_o d);
           (READ_PRECHARGE, write_to_read_o d); (WRITE_PRECHARGE, write_to_write_o d)];
        row_same_rank := []
      |}
  | READ_PRECHARGE =>
      {|
        row_same_bank :=
          [(ACTIVATE, readp_to_act d); (PIM_ACTIVATE, readp_to_act d);
           (REFRESH, read_to_activate d); (REFRESH_BANK, read_to_activate d);
           (SREF_ENTER, read_to_activate d)];
        row_other_banks_same_bankgroup :=
          [(READ, read_to_read_l d); (WRITE, read_to_write d);
           (READ_PRECHARGE, read_to_read_l d); (WRITE_PRECHARGE, read_to_write d)];
        row_other_bankgroups_same_rank :=
          [(READ, read_to_read_s d); (WRITE, read_to_write d);
           (READ_PRECHARGE, read_to_read_s d); (WRITE_PRECHARGE, read_to_write d)];
        row_other_ranks :=
          [(READ, read_to_read_o d); (WRITE, read_to_write_o d);
           (READ_PRECHARGE, read_to_read_o d); (WRITE_PRECHARGE, read_to_write_o d)];
        row_same_rank := []
      |}
  | WRITE_PRECHARGE =>
      {|
        row_same_bank :=
          [(ACTIVATE, write_to_activate d); (PIM_ACTIVATE, write_to_activate d);
           (REFRESH, write_to_activate d); (REFRESH_BANK, write_to_activate d);
           (SREF_ENTER, write_to_activate d)];
        row_other_banks_same_bankgroup :=
          [(READ, write_to_read_l d); (WRITE, write_to_write_l d);
           (READ_PRECHARGE, write_to_read_l d); (WRITE_PRECHARGE, write_to_write_l d)];
        row_other_bankgroups_same_rank :=
          [(READ, write_to_read_s d); (WRITE, write_to_write_s d);
           (READ_PRECHARGE, write_to_read_s d); (WRITE_PRECHARGE, write_to_write_s d)];
        row_other_ranks :=
          [(READ, write_to_read_o d); (WRITE, write_to_write_o d);
           (READ_PRECHARGE, write_to_read_o d); (WRITE_PRECHARGE, write_to_write_o d)];
        row_same_rank := []
      |}
  | _ => empty_row
  end.

(** The processing-in-memory reads and writes constrain the same bank only. *)
Definition pim_rows (config : Config) (d : Delays) (t : CommandType) : TimingRow :=
  match t with
  | LH_READ =>
      {|
        row_same_bank :=
          [(LH_READ, read_to_read_s d); (GH_READ, read_to_read_s d);
           (PIM_WRITE, read_to_write d); (LH_READ_PRECHARGE, read_to_read_s d);
           (GH_READ_PRECHARGE, read_to_read_s d); (PIM_WRITE_PRECHARGE, read_to_write d);
           (PRECHARGE, read_to_precharge d)];
        row_other_banks_same_bankgroup := [];
        row_other_bankgroups_same_rank := [];
        row_other_ranks := [];
        row_same_rank := []
      |}
  | GH_READ =>
      {|
        row_same_bank :=
          [(LH_READ, read_to_read_s d); (GH_READ, read_to_read_s d);
           (PIM_WRITE, read_to_write d); (LH_READ_PRECHARGE, read_to_read_s d);
           (GH_READ_PRECHARGE, read_to_read_s d); (PIM_WRITE_PRECHARGE, read_to_write d);
           (PRECHARGE, read_to_precharge d)];
        row_other_banks_same_bankgroup := [];
        row_other_bankgroups_same_rank := [];
        row_other_ranks := [];
        row_same_rank := []
      |}
  | PIM_WRITE =>
      {|
        row_same_bank :=
          [(LH_READ, write_to_read_s d); (GH_READ, write_to_read_s d);
           (PIM_WRITE, write_to_write_s d); (LH_READ_PRECHARGE, write_to_read_l d);
           (GH_READ_PRECHARGE, write_to_read_l d);
           (PIM_WRITE_PRECHARGE, write_to_write_s d); (PRECHARGE, write_to_precharge d)];
        row_other_banks_same_bankgroup := [];
        row_other_bankgroups_same_rank := [];
        row_other_ranks := [];
        row_same_rank := []
      |}
  | LH_READ_PRECHARGE =>
      {|
        row_same_bank :=
          [(ACTIVATE, readp_to_act d); (PIM_ACTIVATE, readp_to_act d);
           (REFRESH, read_to_activate d); (REFRESH_BANK, read_to_activate d);
           (SREF_ENTER, read_to_activate d)];
        row_other_banks_same_bankgroup := [];
        row_other_bankgroups_same_rank := [];
        row_other_ranks := [];
        row_same_rank := []
      |}
  | GH_READ_PRECHARGE =>
      {|
        row_same_bank :=
          [(ACTIVATE, readp_to_act d); (PIM_ACTIVATE, readp_to_act d);
           (REFRESH, read_to_activate d); (REFRESH_BANK, read_to_activate d);
           (SREF_ENTER, read_to_activate d)];
        row_other_banks_same_bankgroup := [];
        row_other_bankgroups_same_rank := [];
        row_other_ranks := [];
        row_same_rank := []
      |}
  | PIM_WRITE_PRECHARGE =>
      {|
        row_same_bank :=
          [(ACTIVATE, write_to_activate d); (PIM_ACTIVATE, write_to_activate d);
           (REFRESH, write_to_activate d); (REFRESH_BANK, write_to_activate d);
           (SREF_ENTER, write_to_activate d)];
        row_other_banks_same_bankgroup := [];
        row_other_bankgroups_same_rank := [];
        row_other_ranks := [];
        row_same_rank := []
      |}
  | _ => empty_row
  end.

(** The two activations. *)
Definition activate_rows (config : Config) (d : Delays) (t : CommandType) : TimingRow :=
  match t with
  | ACTIVATE =>
      {|
        row_same_bank :=
          [(ACTIVATE, activate_to_activate d); (PIM_ACTIVATE, activate_to_activate d);
           (READ, activate_to_read d); (WRITE, activate_to_write d);
           (READ_PRECHARGE, activate_to_read d); (WRITE_PRECHARGE, activate_to_write d);
           (PRECHARGE, activate_to_precharge d)];
        row_other_banks_same_bankgroup :=
          [(ACTIVATE, activate_to_activate_l d); (REFRESH_BANK, activate_to_refresh d)];
        row_other_bankgroups_same_rank :=
          [(ACTIVATE, activate_to_activate_s d); (REFRESH_BANK, activate_to_refresh d)];
        row_other_ranks := [];
        row_same_rank := []
      |}
  | PIM_ACTIVATE =>
      {|
        row_same_bank :=
          [(ACTIVATE, activate_to_activate d); (PIM_ACTIVATE, activate_to_activate d);
           (LH_READ, activate_to_read d); (GH_READ, activate_to_read d);
           (PIM_WRITE, activate_to_write d); (LH_READ_PRECHARGE, activate_to_read d);
           (GH_READ_PRECHARGE, activate_to_read d);
           (PIM_WRITE_PRECHARGE, activate_to_write d);
           (PRECHARGE, activate_to_precharge d)];
        row_other_banks_same_bankgroup :=
          [(REFRESH_BANK, activate_to_refresh d)];
        row_other_bankgroups_same_rank :=
          [(REFRESH_BANK, activate_to_refresh d)];
        row_other_ranks := [];
        row_same_rank := []
      |}
  | _ => empty_row
  end.

(** PRECHARGE, the refreshes and self refresh. *)
Definition maintenance_rows (config : Config) (d : Delays) (t : CommandType) : TimingRow :=
  match t with
  | PRECHARGE =>
      {|
        row_same_bank :=
          [(ACTIVATE, precharge_to_activate d); (PIM_ACTIVATE, precharge_to_activate d);
           (REFRESH, precharge_to_activate d); (REFRESH_BANK, precharge_to_activate d);
           (SREF_ENTER, precharge_to_activate d)];
        row_other_banks_same_bankgroup :=
          if IsGDDR config || protocol_eqb (protocol config) LPDDR4
          then [(PRECHARGE, precharge_to_precharge d)]
          else [];
        row_other_bankgroups_same_rank :=
          if IsGDDR config || protocol_eqb (protocol config) LPDDR4
          then [(PRECHARGE, precharge_to_precharge d)]
          else [];
        row_other_ranks := [];
        row_same_rank := []
      |}
  | REFRESH_BANK =>
      {|
        row_same_bank := [];
        row_other_banks_same_bankgroup :=
          [(ACTIVATE, refresh_to_activate d); (PIM_ACTIVATE, refresh_to_activate d);
           (REFRESH_BANK, refresh_to_refresh d)];
        row_other_bankgroups_same_rank :=
          [(ACTIVATE, refresh_to_activate d); (PIM_ACTIVATE, refresh_to_activate d);
           (REFRESH_BANK, refresh_to_refresh d)];
        row_other_ranks := [];
        row_same_rank :=
          [(ACTIVATE, refresh_to_activate_bank d);
           (PIM_ACTIVATE, refresh_to_activate_bank d);
           (REFRESH, refresh_to_activate_bank d);
           (REFRESH_BANK, refresh_to_activate_bank d);
           (SREF_ENTER, refresh_to_activate_bank d)]
      |}
  | REFRESH =>
      {|
        row_same_bank := [];
        row_other_banks_same_bankgroup := [];
        row_other_bankgroups_same_rank := [];
        row_other_ranks := [];
        row_same_rank :=
          [(ACTIVATE, refresh_to_activate d); (PIM_ACTIVATE, refresh_to_activate d);
           (REFRESH, refresh_to_activate d); (SREF_ENTER, refresh_to_activate d)]
      |}
  | SREF_ENTER =>
      {|
        row_same_bank := [];
        row_other_banks_same_bankgroup := [];
        row_other_bankgroups_same_rank := [];
        row_other_ranks := [];
        row_same_rank :=
          [(SREF_EXIT, self_refresh_entry_to_exit d)]
      |}
  | SREF_EXIT =>
      {|
        row_same_bank := [];
        row_other_banks_same_bankgroup := [];
        row_other_bankgroups_same_rank := [];
        row_other_ranks := [];
        row_same_rank :=
          [(ACTIVATE, self_refresh_exit d); (PIM_ACTIVATE, self_refresh_exit d);
           (REFRESH, self_refresh_exit d); (REFRESH_BANK, self_refresh_exit d);
           (SREF_ENTER, self_refresh_exit d)]
      |}
  | _ => empty_row
  end.

Definition Timing_row (config : Config) (t : CommandType) : TimingRow :=
  let d := Delays_of config in
  match t with
  | READ | WRITE | READ_PRECHARGE | WRITE_PRECHARGE => rw_rows config d t
  | LH_READ | GH_READ | PIM_WRITE | LH_READ_PRECHARGE | GH_READ_PRECHARGE
  | PIM_WRITE_PRECHARGE => pim_rows config d t
  | ACTIVATE | PIM_ACTIVATE => activate_rows config d t
  | PRECHARGE | REFRESH_BANK | REFRESH | SREF_ENTER | SREF_EXIT =>
      maintenance_rows config d t
  | SIZE => empty_row
  end.

(** [Timing]: five vectors indexed by the command type. *)
Record Timing := {
  same_bank : CommandType → list (CommandType * Z);
  other_banks_same_bankgroup : CommandType → list (CommandType * Z);
  other_bankgroups_same_rank : CommandType → list (CommandType * Z);
  other_ranks : CommandType → list (CommandType * Z);
  same_rank : CommandType → list (CommandType * Z)
}.

Definition Timing_of (config : Config) : Timing :=
  {| same_bank t := row_same_bank (Timing_row config t);
     other_banks_same_bankgroup t := row_other_banks_same_bankgroup (Timing_row config t);
     other_bankgroups_same_rank t := row_other_bankgroups_same_rank (Timing_row config t);
     other_ranks t := row_other_ranks (Timing_row config t);
     same_rank t := row_same_rank (Timing_row config t) |}.
