(* ===== verification/BankState.v ===== *)
(** * A bank: src/src/bankstate.h and src/src/bankstate.cc

    A bank is closed, open on a row, or in self refresh.  [GetReadyCommand]
    says which command has to be issued now for a request to make progress,
    [UpdateState] executes a command, [UpdateTiming] delays a command type. *)
From stdpp Require Import base tactics numbers list strings sets.
From S2P Require Import Prelude Common.

Local Open Scope Z_scope.

Inductive State := OPEN | CLOSED | SREF | PD | STATE_SIZE.

#[global] Instance State_eq_dec : EqDecision State.
Proof. solve_decision. Defined.

Record BankState := mkBankState {
  state_ : State;
  cmd_timing_ : list Z;
  open_row_ : Z;
  row_hit_count_ : Z
}.

#[global] Instance BankState_eq_dec : EqDecision BankState.
Proof. solve_decision. Defined.

(** The constructor: a vector of [CommandType::SIZE] zeros. *)
Definition BankState_init : BankState :=
  mkBankState CLOSED (replicate (cmd_index SIZE) 0) (-1) 0.

Definition IsRowOpen (bs : BankState) : bool := bool_decide (state_ bs = OPEN).
Definition OpenRow (bs : BankState) : Z := open_row_ bs.
Definition RowHitCount (bs : BankState) : Z := row_hit_count_ bs.

(** [cmd_timing_[static_cast<int>(cmd_type)]]. *)
Definition cmd_timing (bs : BankState) (t : CommandType) : Z :=
  cmd_timing_ bs !!! cmd_index t.

(** The nested [switch] of [GetReadyCommand]: the command type the state
    requires before [cmd] can run. *)
Definition required_type (bs : BankState) (cmd : Command) : outcome CommandType :=
  match state_ bs with
  | CLOSED =>
      match cmd_type cmd with
      | READ | READ_PRECHARGE | WRITE | WRITE_PRECHARGE => Ok ACTIVATE
      | LH_READ | LH_READ_PRECHARGE | GH_READ | GH_READ_PRECHARGE | PIM_WRITE
      | PIM_WRITE_PRECHARGE => Ok PIM_ACTIVATE
      | REFRESH | REFRESH_BANK | SREF_ENTER => Ok (cmd_type cmd)
      | _ => Fail (AbruptExit "bankstate.cc" 55)
      end
  | OPEN =>
      match cmd_type cmd with
      | READ | READ_PRECHARGE | WRITE | WRITE_PRECHARGE | LH_READ | LH_READ_PRECHARGE
      | GH_READ | GH_READ_PRECHARGE | PIM_WRITE | PIM_WRITE_PRECHARGE =>
          if Row cmd =? open_row_ bs then Ok (cmd_type cmd) else Ok PRECHARGE
      | REFRESH | REFRESH_BANK | SREF_ENTER => Ok PRECHARGE
      | _ => Fail (AbruptExit "bankstate.cc" 85)
      end
  | SREF =>
      match cmd_type cmd with
      | READ | READ_PRECHARGE | WRITE | WRITE_PRECHARGE | LH_READ | LH_READ_PRECHARGE
      | GH_READ | GH_READ_PRECHARGE | PIM_WRITE | PIM_WRITE_PRECHARGE => Ok SREF_EXIT
      | _ => Fail (AbruptExit "bankstate.cc" 105)
      end
  | PD | STATE_SIZE => Fail (AbruptExit "bankstate.cc" 112)
  end.

Definition GetReadyCommand (bs : BankState) (cmd : Command) (clk : Z) : outcome Command :=
  t ← required_type bs cmd;
  if negb (type_eqb t SIZE) && (cmd_timing bs t <=? clk)
  then Ok (mkCommand t (cmd_addr cmd) (cmd_hex_addr cmd))
  else Ok Command_default.

Definition UpdateState (bs : BankState) (cmd : Command) : outcome BankState :=
  match state_ bs with
  | OPEN =>
      match cmd_type cmd with
      | READ | WRITE | LH_READ | GH_READ | PIM_WRITE =>
          Ok (mkBankState (state_ bs) (cmd_timing_ bs) (open_row_ bs)
                (row_hit_count_ bs + 1))
      | READ_PRECHARGE | WRITE_PRECHARGE | LH_READ_PRECHARGE | GH_READ_PRECHARGE
      | PIM_WRITE_PRECHARGE | PRECHARGE =>
          Ok (mkBankState CLOSED (cmd_timing_ bs) (-1) 0)
      | _ => Fail (AbruptExit "bankstate.cc" 152)
      end
  | CLOSED =>
      match cmd_type cmd with
      | REFRESH | REFRESH_BANK => Ok bs
      | ACTIVATE | PIM_ACTIVATE =>
          Ok (mkBankState OPEN (cmd_timing_ bs) (Row cmd) (row_hit_count_ bs))
      | SREF_ENTER =>
          Ok (mkBankState SREF (cmd_timing_ bs) (open_row_ bs) (row_hit_count_ bs))
      | _ => Fail (AbruptExit "bankstate.cc" 182)
      end
  | SREF =>
      match cmd_type cmd with
      | SREF_EXIT =>
          Ok (mkBankState CLOSED (cmd_timing_ bs) (open_row_ bs) (row_hit_count_ bs))
      | _ => Fail (AbruptExit "bankstate.cc" 207)
      end
  | PD | STATE_SIZE => Fail (AbruptExit "bankstate.cc" 211)
  end.

Definition UpdateTiming (bs : BankState) (t : CommandType) (time : Z) : BankState :=
  mkBankState (state_ bs)
    (<[cmd_index t := Z.max (cmd_timing bs t) time]> (cmd_timing_ bs))
    (open_row_ bs) (row_hit_count_ bs).

(** ** Specification *)

(** What a bank promises: the protocol state of a DRAM bank and the commands
    allowed in it. *)
Inductive protocol_state := Idle | Active (row hits : Z) | SelfRefreshing.

Definition is_column_access (t : CommandType) : bool :=
  match t with READ | WRITE | LH_READ | GH_READ | PIM_WRITE => true | _ => false end.
Definition is_closing (t : CommandType) : bool :=
  match t with
  | READ_PRECHARGE | WRITE_PRECHARGE | LH_READ_PRECHARGE | GH_READ_PRECHARGE
  | PIM_WRITE_PRECHARGE | PRECHARGE => true
  | _ => false
  end.
Definition is_activation (t : CommandType) : bool :=
  match t with ACTIVATE | PIM_ACTIVATE => true | _ => false end.
Definition is_refresh_type (t : CommandType) : bool :=
  match t with REFRESH | REFRESH_BANK => true | _ => false end.
(** Requests that the processor or the accelerator makes. *)
Definition is_access (t : CommandType) : bool :=
  is_column_access t || (is_closing t && negb (type_eqb t PRECHARGE)).

Inductive protocol_step : protocol_state → Command → protocol_state → Prop :=
| step_access c r n :
    is_column_access (cmd_type c) = true → protocol_step (Active r n) c (Active r (n + 1))
| step_close c r n :
    is_closing (cmd_type c) = true → protocol_step (Active r n) c Idle
| step_refresh c :
    is_refresh_type (cmd_type c) = true → protocol_step Idle c Idle
| step_activate c :
    is_activation (cmd_type c) = true → protocol_step Idle c (Active (Row c) 0)
| step_enter c : cmd_type c = SREF_ENTER → protocol_step Idle c SelfRefreshing
| step_exit c : cmd_type c = SREF_EXIT → protocol_step SelfRefreshing c Idle.

(** The implementation state that represents a protocol state. *)
Inductive bank_rel : BankState → protocol_state → Prop :=
| rel_idle tm : bank_rel (mkBankState CLOSED tm (-1) 0) Idle
| rel_active tm r n : bank_rel (mkBankState OPEN tm r n) (Active r n)
| rel_sref tm : bank_rel (mkBankState SREF tm (-1) 0) SelfRefreshing.

(** A bank that has been built by the constructor and these methods. *)
Definition bank_wf (bs : BankState) : Prop :=
  (∃ p, bank_rel bs p) ∧ length (cmd_timing_ bs) = 17%nat.

(** Every command type may be issued now. *)
Definition all_ready (bs : BankState) (clk : Z) : Prop :=
  Forall (λ t, t ≤ clk) (cmd_timing_ bs).

(** Serving a request: issue what [GetReadyCommand] asks for until the request
    itself is issued; the result lists the commands issued. *)
Fixpoint serve (fuel : nat) (bs : BankState) (cmd : Command) (clk : Z)
    : outcome (list CommandType * BankState) :=
  match fuel with
  | O => Ok ([], bs)
  | S fuel =>
      ready ← GetReadyCommand bs cmd clk;
      bs' ← UpdateState bs ready;
      if type_eqb (cmd_type ready) (cmd_type cmd) then Ok ([cmd_type ready], bs')
      else '(l, bs'') ← serve fuel bs' cmd clk; Ok (cmd_type ready :: l, bs'')
  end.

(** ** Lemmas *)

Lemma BankState_init_wf : bank_wf BankState_init.
Proof. split; [exists Idle; constructor|done]. Qed.

Lemma UpdateTiming_wf bs t time : bank_wf bs → bank_wf (UpdateTiming bs t time).
Proof.
  intros [[p Hp] Hl]. split; [|simpl; by rewrite length_insert].
  exists p. destruct Hp; constructor.
Qed.

Lemma cmd_timing_UpdateTiming bs t t' time :
  length (cmd_timing_ bs) = 17%nat → t ≠ SIZE →
  cmd_timing (UpdateTiming bs t time) t'
  = if type_eqb t t' then Z.max (cmd_timing bs t') time else cmd_timing bs t'.
Proof.
  intros Hl Ht. unfold cmd_timing at 1, UpdateTiming. simpl.
  unfold type_eqb. case_bool_decide as E.
  - subst t'. rewrite list_lookup_total_insert_eq; [done|].
    rewrite Hl. by apply cmd_index_lt.
  - rewrite list_lookup_total_insert_ne; [done|]. intros Hc. by apply E, (inj cmd_index).
Qed.

Lemma UpdateState_timing bs c bs' :
  UpdateState bs c = Ok bs' → cmd_timing_ bs' = cmd_timing_ bs.
Proof.
  destruct bs as [[] tm r n], c as [[] a h]; cbn; intros H; try discriminate H;
    by injection H as <-.
Qed.

(** [UpdateState] implements the protocol: a step of the code is a step of the
    specification, and the code refuses exactly what the specification does. *)
Lemma UpdateState_sound bs c bs' p :
  bank_rel bs p → UpdateState bs c = Ok bs' → ∃ p', protocol_step p c p' ∧ bank_rel bs' p'.
Proof.
  intros Hr H. destruct Hr, c as [t a h]; destruct t; cbn in H; try discriminate H;
    injection H as <-; eexists; (split; [|constructor]); by constructor.
Qed.

Lemma UpdateState_complete bs c p p' :
  bank_rel bs p → protocol_step p c p' → ∃ bs', UpdateState bs c = Ok bs' ∧ bank_rel bs' p'.
Proof.
  intros Hr H. destruct H as [c r n H|c r n H|c H|c H|c H|c H]; inversion Hr; subst;
    destruct c as [t a h]; cbn in H; destruct t; try discriminate H; cbn;
    eexists; (split; [reflexivity|constructor]).
Qed.

Lemma UpdateState_wf bs c bs' : bank_wf bs → UpdateState bs c = Ok bs' → bank_wf bs'.
Proof.
  intros [[p Hp] Hl] H. split.
  - destruct (UpdateState_sound _ _ _ _ Hp H) as (p' & _ & ?). by exists p'.
  - by rewrite (UpdateState_timing _ _ _ H).
Qed.

(** What a valid answer of [GetReadyCommand] looks like. *)
Lemma GetReadyCommand_inv bs cmd clk ready :
  GetReadyCommand bs cmd clk = Ok ready → IsValid ready = true →
  required_type bs cmd = Ok (cmd_type ready) ∧ cmd_timing bs (cmd_type ready) ≤ clk ∧
  cmd_addr ready = cmd_addr cmd ∧ cmd_hex_addr ready = cmd_hex_addr cmd.
Proof.
  unfold GetReadyCommand. intros (t & Ht & H)%bind_Ok Hv.
  destruct (negb _ && _) eqn:E in H; invert_ok.
  split_bool. simpl. done.
Qed.

Lemma GetReadyCommand_executable bs cmd clk ready :
  GetReadyCommand bs cmd clk = Ok ready → IsValid ready = true →
  ∃ bs', UpdateState bs ready = Ok bs'.
Proof.
  intros H Hv. apply GetReadyCommand_inv in H as (Ht & _ & Ha & _); [|done].
  destruct ready as [t a h], bs as [[] tm r n], cmd as [[] a' h']; cbn in Ht;
    try (destruct (_ =? _) in Ht); try discriminate Ht; injection Ht as <-;
    eexists; reflexivity.
Qed.

Lemma all_ready_timing bs clk t :
  length (cmd_timing_ bs) = 17%nat → t ≠ SIZE → all_ready bs clk → cmd_timing bs t ≤ clk.
Proof.
  intros Hl Ht Hr. unfold cmd_timing.
  destruct (lookup_lt_is_Some_2 (cmd_timing_ bs) (cmd_index t)) as [x Hx].
  { rewrite Hl. by apply cmd_index_lt. }
  rewrite (list_lookup_total_correct _ _ _ Hx). by eapply Forall_lookup_1 in Hr.
Qed.

#[export] Hint Resolve BankState_init_wf UpdateTiming_wf UpdateState_wf : dramsim.

Lemma GetReadyCommand_ready bs cmd clk t :
  length (cmd_timing_ bs) = 17%nat → all_ready bs clk → t ≠ SIZE →
  required_type bs cmd = Ok t →
  GetReadyCommand bs cmd clk = Ok (mkCommand t (cmd_addr cmd) (cmd_hex_addr cmd)).
Proof.
  intros Hl Hr Ht Hq. unfold GetReadyCommand. rewrite Hq. simpl.
  rewrite (proj2 (type_eqb_false t SIZE) Ht). simpl.
  pose proof (all_ready_timing _ _ t Hl Ht Hr).
  by rewrite (proj2 (Z.leb_le _ _) H).
Qed.

(** Serving a request from each kind of state, under timing that allows every
    command. *)
Section Serve.
Context (cmd : Command) (clk : Z) (tm : list Z).
Hypothesis Hl : length tm = 17%nat.
Hypothesis Ha : is_access (cmd_type cmd) = true.
Hypothesis Hr : Forall (λ t, t ≤ clk) tm.

Lemma serve_step fuel b t b' :
  cmd_timing_ b = tm → t ≠ SIZE → t ≠ cmd_type cmd → required_type b cmd = Ok t →
  UpdateState b (mkCommand t (cmd_addr cmd) (cmd_hex_addr cmd)) = Ok b' →
  serve (S fuel) b cmd clk = '(l, b'') ← serve fuel b' cmd clk; Ok (t :: l, b'').
Proof using Hl Hr.
  intros Hb Ht Hne Hq Hu. cbn [serve].
  rewrite (GetReadyCommand_ready b cmd clk t); [|by rewrite Hb| |done..].
  2:{ unfold all_ready. by rewrite Hb. }
  cbn [mbind outcome_bind]. rewrite Hu. cbn [mbind outcome_bind cmd_type].
  by rewrite (proj2 (type_eqb_false _ _) Hne).
Qed.

Lemma serve_open fuel n :
  ∃ bs', serve (S fuel) (mkBankState OPEN tm (Row cmd) n) cmd clk
    = Ok ([cmd_type cmd], bs') ∧ bank_wf bs'.
Proof using Hl Ha Hr.
  cbn [serve]. rewrite (GetReadyCommand_ready _ cmd clk (cmd_type cmd)); [|done..| |].
  - destruct cmd as [[] a h]; try discriminate Ha; cbn; eexists;
      (split; [reflexivity|]); (split; [eexists; constructor|done]).
  - intros E. by rewrite E in Ha.
  - destruct cmd as [[] a h]; try discriminate Ha; cbn; by rewrite Z.eqb_refl.
Qed.

Lemma serve_closed fuel :
  ∃ t bs', serve (S (S fuel)) (mkBankState CLOSED tm (-1) 0) cmd clk
    = Ok ([t; cmd_type cmd], bs') ∧ t ∈ [ACTIVATE; PIM_ACTIVATE] ∧ bank_wf bs'.
Proof using Hl Ha Hr.
  destruct (serve_open fuel 0) as (bs' & Hs & Hw).
  assert (∃ t, t ∈ [ACTIVATE; PIM_ACTIVATE] ∧ t ≠ cmd_type cmd ∧ t ≠ SIZE ∧
    required_type (mkBankState CLOSED tm (-1) 0) cmd = Ok t ∧
    UpdateState (mkBankState CLOSED tm (-1) 0) (mkCommand t (cmd_addr cmd) (cmd_hex_addr cmd))
    = Ok (mkBankState OPEN tm (Row cmd) 0)) as (t & Ht & Hne & Hz & Hq & Hu).
  { destruct cmd as [[] a h]; try discriminate Ha; cbn;
      first [exists ACTIVATE; split; [set_solver|done]
            |exists PIM_ACTIVATE; split; [set_solver|done]]. }
  exists t, bs'. split; [|done].
  by rewrite (serve_step _ (mkBankState CLOSED tm (-1) 0) t _ eq_refl Hz Hne Hq Hu), Hs.
Qed.

(** A state that needs one more command before it is closed. *)
Lemma serve_via t b :
  cmd_timing_ b = tm → t ∈ [PRECHARGE; SREF_EXIT] → required_type b cmd = Ok t →
  UpdateState b (mkCommand t (cmd_addr cmd) (cmd_hex_addr cmd))
  = Ok (mkBankState CLOSED tm (-1) 0) →
  ∃ t' bs', serve 3 b cmd clk = Ok ([t; t'; cmd_type cmd], bs') ∧
    t' ∈ [ACTIVATE; PIM_ACTIVATE] ∧ bank_wf bs'.
Proof using Hl Ha Hr.
  intros Hb Ht Hq Hu. destruct (serve_closed 0%nat) as (t' & bs' & Hs & Ht' & Hw).
  exists t', bs'. split; [|done].
  rewrite (serve_step _ _ t (mkBankState CLOSED tm (-1) 0) Hb); [by rewrite Hs| | |done..].
  - intros ->. set_solver.
  - intros ->. rewrite !elem_of_cons, elem_of_nil in Ht.
    destruct Ht as [Ht|[Ht|[]]]; by rewrite Ht in Ha.
Qed.
End Serve.

(** ** Properties *)

(** [C12] A bank implements the protocol of a DRAM bank in both directions:
    from related states, [UpdateState] returns exactly when the protocol
    allows the command, and then the states are related again. *)
Theorem bank_refines_protocol bs p c :
  bank_rel bs p →
  (∀ bs', UpdateState bs c = Ok bs' → ∃ p', protocol_step p c p' ∧ bank_rel bs' p') ∧
  (∀ p', protocol_step p c p' → ∃ bs', UpdateState bs c = Ok bs' ∧ bank_rel bs' p').
Proof.
  intros Hr. split; intros; [by eapply UpdateState_sound|by eapply UpdateState_complete].
Qed.

Lemma bank_refines_protocol_witness :
  ∃ bs', UpdateState BankState_init (mkCommand ACTIVATE (mkAddress 0 0 0 0 7 0) 0) = Ok bs' ∧
    bank_rel bs' (Active 7 0).
Proof.
  apply (bank_refines_protocol BankState_init Idle); [constructor|].
  by apply step_activate.
Defined.

(** [C33] Liveness of a bank: whatever its state, once no timing constraint is
    pending, issuing what [GetReadyCommand] asks for serves the request after
    at most two preparatory commands (precharge or self-refresh exit, then
    activation); no step aborts and the request is the last command issued. *)
Theorem bank_serves_request bs cmd clk :
  bank_wf bs → is_access (cmd_type cmd) = true → all_ready bs clk →
  ∃ l bs', serve 3 bs cmd clk = Ok (l ++ [cmd_type cmd], bs') ∧ (length l ≤ 2)%nat ∧
    Forall (λ t, t ∈ [PRECHARGE; SREF_EXIT; ACTIVATE; PIM_ACTIVATE]) l ∧ bank_wf bs'.
Proof.
  intros [[p Hp] Hl] Ha Hr.
  assert (Hvia : ∀ t, t ∈ [PRECHARGE; SREF_EXIT] → required_type bs cmd = Ok t →
    UpdateState bs (mkCommand t (cmd_addr cmd) (cmd_hex_addr cmd))
      = Ok (mkBankState CLOSED (cmd_timing_ bs) (-1) 0) →
    ∃ l bs', serve 3 bs cmd clk = Ok (l ++ [cmd_type cmd], bs') ∧ (length l ≤ 2)%nat ∧
    Forall (λ t, t ∈ [PRECHARGE; SREF_EXIT; ACTIVATE; PIM_ACTIVATE]) l ∧ bank_wf bs').
  { intros t Ht Hq Hu.
    destruct (serve_via cmd clk _ Hl Ha Hr t bs eq_refl Ht Hq Hu) as (t' & bs' & Hs & Ht' & Hw).
    exists [t; t'], bs'. split; [exact Hs|]. split; [done|]. split; [|done].
    solve_Forall set_solver. }
  destruct Hp as [tm|tm r n|tm].
  - destruct (serve_closed cmd clk tm Hl Ha Hr 1) as (t & bs' & Hs & Ht & Hw).
    exists [t], bs'. split; [exact Hs|]. split; [simpl; lia|]. split; [|done].
    solve_Forall set_solver.
  - destruct (decide (Row cmd = r)) as [<-|Hne].
    + destruct (serve_open cmd clk tm Hl Ha Hr 2 n) as (bs' & Hs & Hw). exists [], bs'.
      split; [exact Hs|]. split; [simpl; lia|]. by split; [constructor|].
    + apply (Hvia PRECHARGE); [set_solver| |done].
      destruct cmd as [[] a h]; try discriminate Ha; cbn; by rewrite (proj2 (Z.eqb_neq _ _)).
  - apply (Hvia SREF_EXIT); [set_solver| |done].
    by destruct cmd as [[] a h]; try discriminate Ha.
Qed.

Lemma bank_serves_request_witness :
  let bs := mkBankState OPEN (replicate 17 5) 3 2 in
  let cmd := mkCommand LH_READ (mkAddress 0 0 0 0 8 1) 0 in
  ∃ l bs', serve 3 bs cmd 9 = Ok (l ++ [LH_READ], bs') ∧ (length l ≤ 2)%nat ∧
    Forall (λ t, t ∈ [PRECHARGE; SREF_EXIT; ACTIVATE; PIM_ACTIVATE]) l ∧ bank_wf bs'.
Proof.
  intros bs cmd. apply (bank_serves_request bs cmd 9);
    [split; [exists (Active 3 2); constructor|reflexivity]
    |reflexivity
    |apply Forall_replicate; lia].
Defined.

(** The only commands a bank ever asks for are executable: whatever
    [GetReadyCommand] answers, the bank accepts it without aborting, the
    command respects the bank's own timing, and it carries the request's
    address. *)
Theorem bank_ready_is_executable bs cmd clk ready :
  bank_wf bs → GetReadyCommand bs cmd clk = Ok ready → IsValid ready = true →
  cmd_timing bs (cmd_type ready) ≤ clk ∧ cmd_addr ready = cmd_addr cmd ∧
  ∃ bs', UpdateState bs ready = Ok bs' ∧ bank_wf bs'.
Proof.
  intros Hw H Hv. destruct (GetReadyCommand_inv _ _ _ _ H Hv) as (_ & Ht & Ha & _).
  destruct (GetReadyCommand_executable _ _ _ _ H Hv) as [bs' Hbs'].
  eauto 6 with dramsim.
Qed.

Lemma bank_ready_is_executable_witness :
  let cmd := mkCommand GH_READ (mkAddress 0 0 0 0 8 1) 0 in
  let ready := mkCommand PIM_ACTIVATE (mkAddress 0 0 0 0 8 1) 0 in
  cmd_timing BankState_init PIM_ACTIVATE ≤ 4 ∧ cmd_addr ready = cmd_addr cmd ∧
  ∃ bs', UpdateState BankState_init ready = Ok bs' ∧ bank_wf bs'.
Proof.
  intros cmd ready. apply (bank_ready_is_executable BankState_init cmd 4 ready);
    [apply BankState_init_wf|reflexivity|reflexivity].
Defined.
