(* ===== verification/ChannelState.v ===== *)
(** * A channel: src/src/channel_state.h and src/src/channel_state.cc

    The state of all banks of a channel, the queue of pending refreshes and
    the activation windows.  The three-dimensional vector [bank_states_] has
    fixed dimensions and is a finite map from (rank, bank group, bank); an
    absent key is an index out of range. *)
From stdpp Require Import base tactics numbers list list_numbers gmap strings sets.
From S2P Require Import Prelude Common Double Configuration Timing BankState.

Local Open Scope Z_scope.

Record ChannelState := mkChannelState {
  rank_idle_cycles : list Z;
  rank_is_sref_ : list bool;
  bank_states_ : gmap (Z * Z * Z) BankState;
  refresh_q_ : list Command;
  four_aw_ : list (list Z);
  thirty_two_aw_ : list (list Z)
}.

Definition set_rank_idle_cycles v cs :=
  mkChannelState v (rank_is_sref_ cs) (bank_states_ cs) (refresh_q_ cs) (four_aw_ cs)
    (thirty_two_aw_ cs).
Definition set_rank_is_sref v cs :=
  mkChannelState (rank_idle_cycles cs) v (bank_states_ cs) (refresh_q_ cs) (four_aw_ cs)
    (thirty_two_aw_ cs).
Definition set_bank_states v cs :=
  mkChannelState (rank_idle_cycles cs) (rank_is_sref_ cs) v (refresh_q_ cs) (four_aw_ cs)
    (thirty_two_aw_ cs).
Definition set_refresh_q v cs :=
  mkChannelState (rank_idle_cycles cs) (rank_is_sref_ cs) (bank_states_ cs) v (four_aw_ cs)
    (thirty_two_aw_ cs).
Definition set_four_aw v cs :=
  mkChannelState (rank_idle_cycles cs) (rank_is_sref_ cs) (bank_states_ cs) (refresh_q_ cs) v
    (thirty_two_aw_ cs).
Definition set_thirty_two_aw v cs :=
  mkChannelState (rank_idle_cycles cs) (rank_is_sref_ cs) (bank_states_ cs) (refresh_q_ cs)
    (four_aw_ cs) v.

(** The (bank group, bank) pairs of a rank, in the order of the loops. *)
Definition rank_coords (config : Config) : list (Z * Z) :=
  j ← seqZ 0 (bankgroups config); k ← seqZ 0 (banks_per_group config); [(j, k)].

(** All bank coordinates. *)
Definition all_coords (config : Config) : list (Z * Z * Z) :=
  i ← seqZ 0 (ranks config); '(j, k) ← rank_coords config; [(i, j, k)].

Definition ChannelState_init (config : Config) : ChannelState :=
  let n := Z.to_nat (ranks config) in
  {| rank_idle_cycles := replicate n 0;
     rank_is_sref_ := replicate n false;
     bank_states_ := list_to_map ((λ x, (x, BankState_init)) <$> all_coords config);
     refresh_q_ := [];
     four_aw_ := replicate n [];
     thirty_two_aw_ := replicate n [] |}.

(** [bank_states_[r][g][b]]. *)
Definition bank_at (cs : ChannelState) (r g b : Z) : outcome BankState :=
  from_option_or OutOfRange (bank_states_ cs !! (r, g, b)).
Definition set_bank (cs : ChannelState) (r g b : Z) (bs : BankState) : ChannelState :=
  set_bank_states (<[(r, g, b) := bs]> (bank_states_ cs)) cs.

Definition IsRowOpen (cs : ChannelState) (r g b : Z) : outcome bool :=
  bs ← bank_at cs r g b; Ok (BankState.IsRowOpen bs).
Definition OpenRow (cs : ChannelState) (r g b : Z) : outcome Z :=
  bs ← bank_at cs r g b; Ok (BankState.OpenRow bs).
Definition RowHitCount (cs : ChannelState) (r g b : Z) : outcome Z :=
  bs ← bank_at cs r g b; Ok (BankState.RowHitCount bs).
Definition IsRankSelfRefreshing (cs : ChannelState) (r : Z) : outcome bool :=
  vget (rank_is_sref_ cs) r.
Definition IsRefreshWaiting (cs : ChannelState) : bool :=
  negb (bool_decide (refresh_q_ cs = [])).
Definition PendingRefCommand (cs : ChannelState) : outcome Command :=
  from_option_or OutOfRange (head (refresh_q_ cs)).

Fixpoint all_idle_scan (cs : ChannelState) (r : Z) (l : list (Z * Z)) : outcome bool :=
  match l with
  | [] => Ok true
  | (j, k) :: l =>
      op ← IsRowOpen cs r j k;
      if (op : bool) then Ok false else all_idle_scan cs r l
  end.

Definition IsAllBankIdleInRank (config : Config) (cs : ChannelState) (r : Z) : outcome bool :=
  all_idle_scan cs r (rank_coords config).

Definition IsRWPendingOnRef (cs : ChannelState) (cmd : Command) : outcome bool :=
  bs ← bank_at cs (Rank cmd) (Bankgroup cmd) (Bank cmd);
  Ok (BankState.IsRowOpen bs && (BankState.RowHitCount bs =? 0)
      && (BankState.OpenRow bs =? Row cmd)).

(** [refresh_q_.erase] of the first element the loop's test selects. *)
Fixpoint erase_first {A} (p : A → bool) (l : list A) : list A :=
  match l with
  | [] => []
  | x :: l => if p x then l else x :: erase_first p l
  end.

Definition BankNeedRefresh (cs : ChannelState) (r g b : Z) (need : bool) : ChannelState :=
  if need then
    set_refresh_q
      (refresh_q_ cs ++ [mkCommand REFRESH_BANK (mkAddress (-1) r g b (-1) (-1)) (u64 (-1))]) cs
  else
    set_refresh_q
      (erase_first (λ c, (Rank c =? r) && (Bankgroup c =? g) && (Bank c =? b))
         (refresh_q_ cs)) cs.

Definition RankNeedRefresh (cs : ChannelState) (r : Z) (need : bool) : ChannelState :=
  if need then
    set_refresh_q
      (refresh_q_ cs
       ++ [mkCommand REFRESH (mkAddress (-1) r (-1) (-1) (-1) (-1)) (u64 (-1))]) cs
  else
    set_refresh_q (erase_first (λ c, Rank c =? r) (refresh_q_ cs)) cs.

(** ** Activation windows *)

Definition aw_ready (limit : nat) (w : list Z) (curr_time : Z) : bool :=
  match w with
  | [] => true
  | t :: _ => negb ((curr_time <? t) && bool_decide (limit ≤ length w)%nat)
  end.

Definition IsFAWReady (cs : ChannelState) (r curr_time : Z) : outcome bool :=
  w ← vget (four_aw_ cs) r; Ok (aw_ready 4 w curr_time).

Definition Is32AWReady (cs : ChannelState) (r curr_time : Z) : outcome bool :=
  w ← vget (thirty_two_aw_ cs) r; Ok (aw_ready 32 w curr_time).

Definition ActivationWindowOk (config : Config) (cs : ChannelState) (r curr_time : Z)
    : outcome bool :=
  tfaw_ok ← IsFAWReady cs r curr_time;
  if IsGDDR config then
    (if negb tfaw_ok then Ok false else Is32AWReady cs r curr_time)
  else Ok tfaw_ok.

(** Drop the front of a window if it has expired, then append. *)
Definition aw_push (w : list Z) (curr_time delay : Z) : list Z :=
  match w with
  | [] => []
  | t :: w' => if t <=? curr_time then w' else w
  end ++ [u64 (curr_time + delay)].

Definition UpdateActivationTimes (config : Config) (cs : ChannelState) (r curr_time : Z)
    : outcome ChannelState :=
  w ← vget (four_aw_ cs) r;
  f ← vset (four_aw_ cs) r (aw_push w curr_time (tFAW config));
  let cs := set_four_aw f cs in
  if IsGDDR config then
    w ← vget (thirty_two_aw_ cs) r;
    f ← vset (thirty_two_aw_ cs) r (aw_push w curr_time (t32AW config));
    Ok (set_thirty_two_aw f cs)
  else Ok cs.

(** ** Which command can be issued now *)

(** The two loops over the banks of a rank: [inl] is the early return. *)
Fixpoint rank_scan (cs : ChannelState) (cmd : Command) (clk : Z) (l : list (Z * Z))
    (ready_cmd : Command) (num_ready : Z) : outcome (Command + (Command * Z)) :=
  match l with
  | [] => Ok (inr (ready_cmd, num_ready))
  | (j, k) :: l =>
      bs ← bank_at cs (Rank cmd) j k;
      ready_cmd ← BankState.GetReadyCommand bs cmd clk;
      if negb (IsValid ready_cmd) then rank_scan cs cmd clk l ready_cmd num_ready
      else if negb (type_eqb (cmd_type ready_cmd) (cmd_type cmd)) then
        Ok (inl (mkCommand (cmd_type ready_cmd) (mkAddress (-1) (Rank cmd) j k (-1) (-1))
                   (cmd_hex_addr ready_cmd)))
      else rank_scan cs cmd clk l ready_cmd (num_ready + 1)
  end.

Definition GetReadyCommand (config : Config) (cs : ChannelState) (cmd : Command) (clk : Z)
    : outcome Command :=
  if IsRankCMD cmd then
    r ← rank_scan cs cmd clk (rank_coords config) Command_default 0;
    match r with
    | inl ready_cmd => Ok ready_cmd
    | inr (ready_cmd, num_ready) =>
        if num_ready =? banks config then Ok ready_cmd else Ok Command_default
    end
  else
    bs ← bank_at cs (Rank cmd) (Bankgroup cmd) (Bank cmd);
    ready_cmd ← BankState.GetReadyCommand bs cmd clk;
    if negb (IsValid ready_cmd) then Ok Command_default
    else if type_eqb (cmd_type ready_cmd) ACTIVATE
         || type_eqb (cmd_type ready_cmd) PIM_ACTIVATE then
      ok ← ActivationWindowOk config cs (Rank ready_cmd) clk;
      if negb ok then Ok Command_default else Ok ready_cmd
    else Ok ready_cmd.

(** ** Executing a command *)

Definition update_bank_state (cs : ChannelState) (r g b : Z) (cmd : Command)
    : outcome ChannelState :=
  bs ← bank_at cs r g b;
  bs ← BankState.UpdateState bs cmd;
  Ok (set_bank cs r g b bs).

Definition UpdateState (config : Config) (cs : ChannelState) (cmd : Command)
    : outcome ChannelState :=
  if IsRankCMD cmd then
    cs ← for_each (λ '(j, k) cs, update_bank_state cs (Rank cmd) j k cmd)
           (rank_coords config) cs;
    if IsRefresh cmd then Ok (RankNeedRefresh cs (Rank cmd) false)
    else if type_eqb (cmd_type cmd) SREF_ENTER then
      v ← vset (rank_is_sref_ cs) (Rank cmd) true; Ok (set_rank_is_sref v cs)
    else if type_eqb (cmd_type cmd) SREF_EXIT then
      v ← vset (rank_is_sref_ cs) (Rank cmd) false; Ok (set_rank_is_sref v cs)
    else Ok cs
  else
    cs ← update_bank_state cs (Rank cmd) (Bankgroup cmd) (Bank cmd) cmd;
    if IsRefresh cmd
    then Ok (BankNeedRefresh cs (Rank cmd) (Bankgroup cmd) (Bank cmd) false)
    else Ok cs.

(** [for (auto cmd_timing : cmd_timing_list)
       bank_states_[r][g][b].UpdateTiming(cmd_timing.first, clk + cmd_timing.second);] *)
Definition update_bank_timing (cs : ChannelState) (r g b : Z) (l : list (CommandType * Z))
    (clk : Z) : outcome ChannelState :=
  for_each
    (λ '(t, d) cs,
       bs ← bank_at cs r g b;
       Ok (set_bank cs r g b (BankState.UpdateTiming bs t (u64 (clk + d)))))
    l cs.

Definition UpdateSameBankTiming (cs : ChannelState) (addr : Address)
    (l : list (CommandType * Z)) (clk : Z) : outcome ChannelState :=
  update_bank_timing cs (rank addr) (bankgroup addr) (bank addr) l clk.

Definition UpdateOtherBanksSameBankgroupTiming (config : Config) (cs : ChannelState)
    (addr : Address) (l : list (CommandType * Z)) (clk : Z) : outcome ChannelState :=
  for_range (banks_per_group config)
    (λ k cs, if negb (k =? bank addr)
             then update_bank_timing cs (rank addr) (bankgroup addr) k l clk else Ok cs) cs.

Definition UpdateOtherBankgroupsSameRankTiming (config : Config) (cs : ChannelState)
    (addr : Address) (l : list (CommandType * Z)) (clk : Z) : outcome ChannelState :=
  for_range (bankgroups config)
    (λ j cs, if negb (j =? bankgroup addr)
             then for_range (banks_per_group config)
                    (λ k cs, update_bank_timing cs (rank addr) j k l clk) cs
             else Ok cs) cs.

Definition UpdateOtherRanksTiming (config : Config) (cs : ChannelState) (addr : Address)
    (l : list (CommandType * Z)) (clk : Z) : outcome ChannelState :=
  for_range (ranks config)
    (λ i cs, if negb (i =? rank addr)
             then for_range (bankgroups config)
                    (λ j cs, for_range (banks_per_group config)
                       (λ k cs, update_bank_timing cs i j k l clk) cs) cs
             else Ok cs) cs.

Definition UpdateSameRankTiming (config : Config) (cs : ChannelState) (addr : Address)
    (l : list (CommandType * Z)) (clk : Z) : outcome ChannelState :=
  for_range (bankgroups config)
    (λ j cs, for_range (banks_per_group config)
       (λ k cs, update_bank_timing cs (rank addr) j k l clk) cs) cs.

(** The four scopes of the first group of [case]s. *)
Definition update_scopes (config : Config) (timing : Timing) (cs : ChannelState)
    (cmd : Command) (clk : Z) : outcome ChannelState :=
  let a := cmd_addr cmd in
  let t := cmd_type cmd in
  cs ← UpdateSameBankTiming cs a (same_bank timing t) clk;
  cs ← UpdateOtherBanksSameBankgroupTiming config cs a
         (other_banks_same_bankgroup timing t) clk;
  cs ← UpdateOtherBankgroupsSameRankTiming config cs a
         (other_bankgroups_same_rank timing t) clk;
  UpdateOtherRanksTiming config cs a (other_ranks timing t) clk.

Definition UpdateTiming (config : Config) (timing : Timing) (cs : ChannelState)
    (cmd : Command) (clk : Z) : outcome ChannelState :=
  match cmd_type cmd with
  | ACTIVATE | PIM_ACTIVATE =>
      cs ← UpdateActivationTimes config cs (Rank cmd) clk;
      update_scopes config timing cs cmd clk
  | READ | READ_PRECHARGE | WRITE | WRITE_PRECHARGE | PRECHARGE | REFRESH_BANK =>
      update_scopes config timing cs cmd clk
  | REFRESH | SREF_ENTER | SREF_EXIT =>
      UpdateSameRankTiming config cs (cmd_addr cmd) (same_rank timing (cmd_type cmd)) clk
  | LH_READ | LH_READ_PRECHARGE | GH_READ | GH_READ_PRECHARGE | PIM_WRITE
  | PIM_WRITE_PRECHARGE =>
      UpdateSameBankTiming cs (cmd_addr cmd) (same_bank timing (cmd_type cmd)) clk
  | SIZE => Fail (AbruptExit "channel_state.cc" 194)
  end.

Definition UpdateTimingAndStates (config : Config) (timing : Timing) (cs : ChannelState)
    (cmd : Command) (clk : Z) : outcome ChannelState :=
  cs ← UpdateState config cs cmd;
  UpdateTiming config timing cs cmd clk.

(** ** Specification *)

Notation coord := (Z * Z * Z)%type.

(** The coordinates of the bank a command names. *)
Definition cmd_coord (c : Command) : coord := (Rank c, Bankgroup c, Bank c).

Definition valid_coord (config : Config) (c : coord) : Prop :=
  let '(r, g, b) := c in
  0 ≤ r < ranks config ∧ 0 ≤ g < bankgroups config ∧ 0 ≤ b < banks_per_group config.

(** The delays that issuing [cmd] imposes on the bank at [c]: the table is
    chosen by where the bank lies relative to the command. *)
Definition delays (timing : Timing) (cmd : Command) (c : coord) : list (CommandType * Z) :=
  let '(r, g, b) := c in
  let t := cmd_type cmd in
  match t with
  | REFRESH | SREF_ENTER | SREF_EXIT => if r =? Rank cmd then same_rank timing t else []
  | LH_READ | LH_READ_PRECHARGE | GH_READ | GH_READ_PRECHARGE | PIM_WRITE
  | PIM_WRITE_PRECHARGE =>
      if (r =? Rank cmd) && (g =? Bankgroup cmd) && (b =? Bank cmd)
      then same_bank timing t else []
  | _ =>
      if negb (r =? Rank cmd) then other_ranks timing t
      else if negb (g =? Bankgroup cmd) then other_bankgroups_same_rank timing t
      else if negb (b =? Bank cmd) then other_banks_same_bankgroup timing t
      else same_bank timing t
  end.

(** Applying a list of delays to one bank. *)
Definition update_timings (bs : BankState) (l : list (CommandType * Z)) (clk : Z)
    : BankState :=
  foldl (λ bs '(t, d), BankState.UpdateTiming bs t (u64 (clk + d))) bs l.

Definition is_rank_cmd_type (t : CommandType) : bool :=
  match t with REFRESH | SREF_ENTER | SREF_EXIT => true | _ => false end.

(** A command that [UpdateTiming] accepts: it names an existing bank, or an
    existing rank if it is a rank command. *)
Definition cmd_in_range (config : Config) (cmd : Command) : Prop :=
  cmd_type cmd ≠ SIZE ∧
  if is_rank_cmd_type (cmd_type cmd) then 0 ≤ Rank cmd < ranks config
  else valid_coord config (cmd_coord cmd).

(** The bank after a command it accepts. *)
Definition state_after (cmd : Command) (bs : BankState) : BankState :=
  ok_or bs (BankState.UpdateState bs cmd).

Definition rank_cells (config : Config) (r : Z) : list coord :=
  (λ '(j, k), (r, j, k)) <$> rank_coords config.

(** The banks a command executes on. *)
Definition target_cells (config : Config) (cmd : Command) : list coord :=
  if IsRankCMD cmd then rank_cells config (Rank cmd) else [cmd_coord cmd].

(** What [UpdateState] does outside the banks. *)
Definition flags_after (cs : ChannelState) (cmd : Command) : list bool :=
  match cmd_type cmd with
  | SREF_ENTER => <[Z.to_nat (Rank cmd) := true]> (rank_is_sref_ cs)
  | SREF_EXIT => <[Z.to_nat (Rank cmd) := false]> (rank_is_sref_ cs)
  | _ => rank_is_sref_ cs
  end.
Definition refresh_q_after (cs : ChannelState) (cmd : Command) : list Command :=
  match cmd_type cmd with
  | REFRESH => erase_first (λ c, Rank c =? Rank cmd) (refresh_q_ cs)
  | REFRESH_BANK =>
      erase_first (λ c, (Rank c =? Rank cmd) && (Bankgroup c =? Bankgroup cmd)
                        && (Bank c =? Bank cmd)) (refresh_q_ cs)
  | _ => refresh_q_ cs
  end.

(** The activation windows after a command issued at [clk]. *)
Definition four_after (config : Config) (cs : ChannelState) (cmd : Command) (clk : Z)
    : list (list Z) :=
  if is_activation (cmd_type cmd)
  then alter (λ w, aw_push w clk (tFAW config)) (Z.to_nat (Rank cmd)) (four_aw_ cs)
  else four_aw_ cs.
Definition thirty_two_after (config : Config) (cs : ChannelState) (cmd : Command) (clk : Z)
    : list (list Z) :=
  if is_activation (cmd_type cmd) && IsGDDR config
  then alter (λ w, aw_push w clk (t32AW config)) (Z.to_nat (Rank cmd)) (thirty_two_aw_ cs)
  else thirty_two_aw_ cs.

(** The bank at [c] after a command issued at [clk]: executed if the bank is
    a target, then delayed. *)
Definition bank_after (config : Config) (timing : Timing) (cmd : Command) (clk : Z)
    (c : coord) (bs : BankState) : BankState :=
  update_timings (if bool_decide (c ∈ target_cells config cmd) then state_after cmd bs else bs)
    (delays timing cmd c) clk.

(** The organisation of a channel as [Config] computes it. *)
Record dims_ok (config : Config) : Prop := {
  ranks_pos : 0 < ranks config;
  bankgroups_pos : 0 < bankgroups config;
  banks_per_group_pos : 0 < banks_per_group config;
  banks_product : banks config = bankgroups config * banks_per_group config
}.

(** Every bank the command executes on accepts it. *)
Definition accepted (config : Config) (cs : ChannelState) (cmd : Command) : Prop :=
  ∀ c, c ∈ target_cells config cmd → ∃ bs bs', bank_states_ cs !! c = Some bs ∧
    BankState.UpdateState bs cmd = Ok bs'.

(** The invariant of a channel. *)
Record chan_wf (config : Config) (cs : ChannelState) : Prop := {
  wf_coords c : is_Some (bank_states_ cs !! c) ↔ valid_coord config c;
  wf_banks : map_Forall (λ _ bs, bank_wf bs) (bank_states_ cs);
  wf_idle : length (rank_idle_cycles cs) = Z.to_nat (ranks config);
  wf_sref : length (rank_is_sref_ cs) = Z.to_nat (ranks config);
  wf_four : length (four_aw_ cs) = Z.to_nat (ranks config);
  wf_thirty_two : length (thirty_two_aw_ cs) = Z.to_nat (ranks config);
  wf_sref_banks r g b bs flag :
    bank_states_ cs !! (r, g, b) = Some bs → rank_is_sref_ cs !! Z.to_nat r = Some flag →
    (state_ bs = SREF ↔ flag = true)
}.

(** [cs'] is [cs] with every bank replaced by its image. *)
Record banks_updated (f : coord → BankState → BankState) (cs cs' : ChannelState) : Prop := {
  bu_lookup c : bank_states_ cs' !! c = f c <$> bank_states_ cs !! c;
  bu_rest : cs' = set_bank_states (bank_states_ cs') cs
}.

(** ** Loops over banks *)

Lemma for_each_nested {A B S} (f : A → B → S → outcome S) (g : A → list B) l s :
  for_each (λ x s, for_each (f x) (g x) s) l s
  = for_each (λ '(x, y) s, f x y s) (x ← l; y ← g x; [(x, y)]) s.
Proof.
  revert s. induction l as [|x l IH]; intros s; [done|]. csimpl.
  rewrite for_each_app.
  assert (Hx : ∀ m s, for_each (λ '(x, y) s, f x y s) (y ← m; [(x, y)]) s
    = for_each (f x) m s).
  { induction m as [|y m IHm]; intros s'; [done|]. csimpl.
    destruct (f x y s'); simpl; [apply IHm|done]. }
  rewrite Hx. destruct (for_each (f x) (g x) s); simpl; auto.
Qed.

Lemma for_each_if {A S} (p : A → bool) (f : A → S → outcome S) l s :
  for_each (λ x s, if p x then f x s else Ok s) l s
  = for_each f (filter (λ x, p x = true) l) s.
Proof.
  revert s. induction l as [|x l IH]; intros s; [done|]. simpl.
  rewrite filter_cons. destruct (p x) eqn:E; simpl.
  - destruct (f x s); simpl; auto.
  - apply IH.
Qed.

Lemma set_bank_states_id cs : set_bank_states (bank_states_ cs) cs = cs.
Proof. by destruct cs. Qed.

Lemma banks_updated_id cs : banks_updated (λ _ b, b) cs cs.
Proof. split; [|by rewrite set_bank_states_id]. intros c. by rewrite option_fmap_id. Qed.

Lemma banks_updated_trans f g cs1 cs2 cs3 :
  banks_updated f cs1 cs2 → banks_updated g cs2 cs3 →
  banks_updated (λ c b, g c (f c b)) cs1 cs3.
Proof.
  intros [H1 H1'] [H2 H2']. split.
  - intros c. rewrite H2, H1. by destruct (bank_states_ cs1 !! c).
  - rewrite H2', H1'. done.
Qed.

Lemma banks_updated_ext f g cs cs' :
  (∀ c b, bank_states_ cs !! c = Some b → f c b = g c b) →
  banks_updated f cs cs' → banks_updated g cs cs'.
Proof.
  intros Hfg [H H']. split; [|done]. intros c. rewrite H.
  destruct (bank_states_ cs !! c) eqn:E; simpl; [|done]. f_equal. by apply Hfg.
Qed.

Lemma update_bank_timing_spec cs r g b bs l clk :
  bank_states_ cs !! (r, g, b) = Some bs →
  update_bank_timing cs r g b l clk
  = Ok (set_bank_states (<[(r, g, b) := update_timings bs l clk]> (bank_states_ cs)) cs).
Proof.
  unfold update_bank_timing. revert cs bs.
  induction l as [|[t d] l IH]; intros cs bs Hb; simpl.
  - rewrite insert_id by done. by rewrite set_bank_states_id.
  - unfold bank_at. rewrite Hb. simpl.
    rewrite (IH _ (BankState.UpdateTiming bs t (u64 (clk + d)))).
    + simpl. unfold set_bank_states at 1. simpl. by rewrite insert_insert_eq.
    + simpl. apply lookup_insert_eq.
Qed.

(** One pass over a duplicate-free list of existing banks. *)
Lemma timing_pass cs cl l clk :
  NoDup cl → (∀ c, c ∈ cl → is_Some (bank_states_ cs !! c)) →
  ∃ cs', for_each (λ '(r, g, b) cs, update_bank_timing cs r g b l clk) cl cs = Ok cs' ∧
    banks_updated (λ c bs, if bool_decide (c ∈ cl) then update_timings bs l clk else bs) cs cs'.
Proof.
  revert cs. induction cl as [|[[r g] b] cl IH]; intros cs Hnd Hex; simpl.
  - exists cs. split; [done|]. apply (banks_updated_ext (λ _ b, b)); [|apply banks_updated_id].
    done.
  - apply NoDup_cons in Hnd as [Hnin Hnd].
    destruct (Hex (r, g, b)) as [bs Hbs]; [by left|].
    rewrite (update_bank_timing_spec _ _ _ _ _ _ _ Hbs). simpl.
    destruct (IH (set_bank_states (<[(r, g, b):=update_timings bs l clk]> (bank_states_ cs)) cs))
      as (cs' & -> & Hup); [done|..].
    { intros c Hc. simpl. apply lookup_insert_is_Some'. right. apply Hex. by right. }
    exists cs'. split; [done|]. destruct Hup as [Hl Hr]. split; [|by rewrite Hr].
    intros c. rewrite Hl. simpl. destruct (decide (c = (r, g, b))) as [->|Hne].
    + rewrite lookup_insert_eq, Hbs. simpl.
      rewrite (bool_decide_eq_false_2 ((r, g, b) ∈ cl)) by done.
      by rewrite (bool_decide_eq_true_2 ((r, g, b) ∈ (r, g, b) :: cl)) by (by left).
    + rewrite lookup_insert_ne by congruence. destruct (bank_states_ cs !! c); simpl; [|done].
      f_equal. assert (Hiff : c ∈ (r, g, b) :: cl ↔ c ∈ cl) by set_solver.
      by rewrite (bool_decide_ext _ _ Hiff).
Qed.

Lemma elem_of_range n k : k ∈ seqZ 0 n ↔ 0 ≤ k < n.
Proof. rewrite elem_of_seqZ. lia. Qed.

Lemma elem_of_pairs {A B} (l : list A) (g : A → list B) x y :
  (x, y) ∈ (x ← l; y ← g x; [(x, y)]) ↔ x ∈ l ∧ y ∈ g x.
Proof. rewrite list_elem_of_bind. setoid_rewrite list_elem_of_bind. set_solver. Qed.

Lemma NoDup_pairs {A B} (l : list A) (g : A → list B) :
  NoDup l → (∀ x, NoDup (g x)) → NoDup (x ← l; y ← g x; [(x, y)]).
Proof.
  intros Hl Hg. induction Hl as [|x l Hx Hl IH]; [constructor|]. csimpl.
  apply NoDup_app. split; [|split; [|done]].
  - clear -Hg. specialize (Hg x). induction Hg as [|y m Hy Hm IH]; [constructor|]. csimpl.
    constructor; [|done]. rewrite list_elem_of_bind. set_solver.
  - intros [x' y']. rewrite list_elem_of_bind. intros (y & Hxy & _).
    apply list_elem_of_singleton in Hxy. simplify_eq. by rewrite elem_of_pairs; intros [? _].
Qed.

(** The pairs of a rank, as the nested loops visit them. *)
Lemma rank_loop {S} (config : Config) (f : Z → Z → S → outcome S) s :
  for_range (bankgroups config) (λ j s, for_range (banks_per_group config) (f j) s) s
  = for_each (λ '(j, k) s, f j k s) (rank_coords config) s.
Proof. apply (for_each_nested f (λ _, seqZ 0 (banks_per_group config))). Qed.

Lemma elem_of_rank_coords (config : Config) j k :
  (j, k) ∈ rank_coords config ↔
  0 ≤ j < bankgroups config ∧ 0 ≤ k < banks_per_group config.
Proof.
  unfold rank_coords.
  rewrite (elem_of_pairs _ (λ _, seqZ 0 (banks_per_group config))), !elem_of_range. done.
Qed.

Lemma NoDup_rank_coords config : NoDup (rank_coords config).
Proof. apply NoDup_pairs; intros; apply NoDup_seqZ. Qed.

(** ** The five passes of the source *)

Section Passes.
Context (config : Config) (cs : ChannelState).
Hypothesis Hco : ∀ c, is_Some (bank_states_ cs !! c) ↔ valid_coord config c.

(** A pass over banks that exist, described by a membership test. *)
Lemma timing_pass_scope (cl : list coord) (p : coord → bool) l clk :
  NoDup cl → (∀ c, c ∈ cl ↔ valid_coord config c ∧ p c = true) →
  ∃ cs', for_each (λ '(r, g, b) cs, update_bank_timing cs r g b l clk) cl cs = Ok cs' ∧
    banks_updated (λ c bs, if p c then update_timings bs l clk else bs) cs cs'.
Proof using Hco.
  intros Hnd Hcl.
  destruct (timing_pass cs cl l clk Hnd) as (cs' & He & Hup).
  { intros c Hc. apply Hco. by apply Hcl. }
  exists cs'. split; [done|]. revert Hup. apply banks_updated_ext.
  intros c b Hb. assert (valid_coord config c) by (apply Hco; by eexists).
  destruct (p c) eqn:E.
  - rewrite bool_decide_eq_true_2; [done|]. by apply Hcl.
  - rewrite bool_decide_eq_false_2; [done|]. rewrite Hcl. intros [_ ?]. congruence.
Qed.

Lemma same_bank_pass addr l clk :
  valid_coord config (rank addr, bankgroup addr, bank addr) →
  ∃ cs', UpdateSameBankTiming cs addr l clk = Ok cs' ∧
    banks_updated (λ '(r, g, b) bs,
      if (r =? rank addr) && (g =? bankgroup addr) && (b =? bank addr)
      then update_timings bs l clk else bs) cs cs'.
Proof using Hco.
  intros Hv.
  destruct (timing_pass_scope [(rank addr, bankgroup addr, bank addr)]
    (λ '(r, g, b), (r =? rank addr) && (g =? bankgroup addr) && (b =? bank addr)) l clk)
    as (cs' & He & Hup).
  - apply NoDup_singleton.
  - intros [[r g] b]. rewrite list_elem_of_singleton, !andb_true_iff, !Z.eqb_eq.
    split; [by intros [= -> -> ->]|by intros [_ [[-> ->] ->]]].
  - exists cs'. split.
    + unfold UpdateSameBankTiming. simpl in He.
      destruct (update_bank_timing _ _ _ _ _ _); [done|discriminate].
    + revert Hup. apply banks_updated_ext. by intros [[r g] b].
Qed.

Lemma other_banks_pass addr l clk :
  0 ≤ rank addr < ranks config → 0 ≤ bankgroup addr < bankgroups config →
  ∃ cs', UpdateOtherBanksSameBankgroupTiming config cs addr l clk = Ok cs' ∧
    banks_updated (λ '(r, g, b) bs,
      if (r =? rank addr) && (g =? bankgroup addr) && negb (b =? bank addr)
      then update_timings bs l clk else bs) cs cs'.
Proof using Hco.
  intros Hr Hg.
  destruct (timing_pass_scope
    ((λ k, (rank addr, bankgroup addr, k)) <$>
       filter (λ k, negb (k =? bank addr) = true) (seqZ 0 (banks_per_group config)))
    (λ '(r, g, b), (r =? rank addr) && (g =? bankgroup addr) && negb (b =? bank addr)) l clk)
    as (cs' & He & Hup).
  - apply (NoDup_fmap_2 _). apply NoDup_filter, NoDup_seqZ.
  - intros [[r g] b]. rewrite list_elem_of_fmap. setoid_rewrite list_elem_of_filter.
    setoid_rewrite elem_of_range. rewrite !andb_true_iff, !Z.eqb_eq. unfold valid_coord.
    naive_solver.
  - exists cs'. split; [|revert Hup; apply banks_updated_ext; by intros [[r g] b]].
    unfold UpdateOtherBanksSameBankgroupTiming, for_range.
    rewrite (for_each_if (λ k, negb (k =? bank addr))), <- He, <- for_each_fmap. done.
Qed.

Lemma same_rank_pass addr l clk :
  0 ≤ rank addr < ranks config →
  ∃ cs', UpdateSameRankTiming config cs addr l clk = Ok cs' ∧
    banks_updated (λ '(r, g, b) bs,
      if r =? rank addr then update_timings bs l clk else bs) cs cs'.
Proof using Hco.
  intros Hr.
  destruct (timing_pass_scope ((λ '(j, k), (rank addr, j, k)) <$> rank_coords config)
    (λ '(r, g, b), r =? rank addr) l clk) as (cs' & He & Hup).
  - apply (NoDup_fmap_2_strong _); [|apply NoDup_rank_coords].
    intros [? ?] [? ?] _ _. congruence.
  - intros [[r g] b]. rewrite list_elem_of_fmap, Z.eqb_eq. unfold valid_coord. split.
    + intros ([j k] & [= -> -> ->] & Hjk%elem_of_rank_coords). done.
    + intros [(? & ? & ?) ->]. exists (g, b). by rewrite elem_of_rank_coords.
  - exists cs'. split; [|revert Hup; apply banks_updated_ext; by intros [[r g] b]].
    unfold UpdateSameRankTiming. rewrite rank_loop, <- He, <- for_each_fmap.
    apply for_each_ext. by intros [j k].
Qed.

Lemma other_bankgroups_pass addr l clk :
  0 ≤ rank addr < ranks config →
  ∃ cs', UpdateOtherBankgroupsSameRankTiming config cs addr l clk = Ok cs' ∧
    banks_updated (λ '(r, g, b) bs,
      if (r =? rank addr) && negb (g =? bankgroup addr)
      then update_timings bs l clk else bs) cs cs'.
Proof using Hco.
  intros Hr.
  set (gs := filter (λ j, negb (j =? bankgroup addr) = true) (seqZ 0 (bankgroups config))).
  destruct (timing_pass_scope
    ((λ '(j, k), (rank addr, j, k)) <$>
       (j ← gs; k ← seqZ 0 (banks_per_group config); [(j, k)]))
    (λ '(r, g, b), (r =? rank addr) && negb (g =? bankgroup addr)) l clk)
    as (cs' & He & Hup).
  - apply (NoDup_fmap_2_strong _); [intros [? ?] [? ?] _ _; congruence|].
    apply NoDup_pairs; intros; [apply NoDup_filter|]; apply NoDup_seqZ.
  - intros [[r g] b]. rewrite list_elem_of_fmap, andb_true_iff, Z.eqb_eq.
    unfold valid_coord. split.
    + intros ([j k] & [= -> -> ->] & Hjk).
      rewrite (elem_of_pairs _ (λ _, seqZ 0 (banks_per_group config))) in Hjk.
      unfold gs in Hjk. rewrite list_elem_of_filter, !elem_of_range in Hjk. naive_solver.
    + intros [(? & ? & ?) [-> ?]]. exists (g, b). split; [done|].
      rewrite (elem_of_pairs _ (λ _, seqZ 0 (banks_per_group config))).
      unfold gs. by rewrite list_elem_of_filter, !elem_of_range.
  - exists cs'. split; [|revert Hup; apply banks_updated_ext; by intros [[r g] b]].
    unfold UpdateOtherBankgroupsSameRankTiming, for_range at 1.
    rewrite (for_each_if (λ j, negb (j =? bankgroup addr))). fold gs. unfold for_range.
    rewrite (for_each_nested (λ j k cs, update_bank_timing cs (rank addr) j k l clk)
      (λ _, seqZ 0 (banks_per_group config))).
    rewrite <- He, <- for_each_fmap. apply for_each_ext. by intros [j k].
Qed.

Lemma other_ranks_pass addr l clk :
  ∃ cs', UpdateOtherRanksTiming config cs addr l clk = Ok cs' ∧
    banks_updated (λ '(r, g, b) bs,
      if negb (r =? rank addr) then update_timings bs l clk else bs) cs cs'.
Proof using Hco.
  set (rs := filter (λ i, negb (i =? rank addr) = true) (seqZ 0 (ranks config))).
  destruct (timing_pass_scope
    ((λ '(i, jk), (i, jk.1, jk.2)) <$> (i ← rs; jk ← rank_coords config; [(i, jk)]))
    (λ '(r, g, b), negb (r =? rank addr)) l clk) as (cs' & He & Hup).
  - apply (NoDup_fmap_2_strong _); [intros [? [? ?]] [? [? ?]] _ _; simpl; congruence|].
    apply NoDup_pairs; intros; [apply NoDup_filter, NoDup_seqZ|apply NoDup_rank_coords].
  - intros [[r g] b]. rewrite list_elem_of_fmap. unfold valid_coord. split.
    + intros ([i [j k]] & [= -> -> ->] & Hjk).
      rewrite (elem_of_pairs _ (λ _, rank_coords config)), elem_of_rank_coords in Hjk.
      unfold rs in Hjk. rewrite list_elem_of_filter, !elem_of_range in Hjk. naive_solver.
    + intros [(? & ? & ?) ?]. exists (r, (g, b)). split; [done|].
      rewrite (elem_of_pairs _ (λ _, rank_coords config)), elem_of_rank_coords.
      unfold rs. by rewrite list_elem_of_filter, !elem_of_range.
  - exists cs'. split; [|revert Hup; apply banks_updated_ext; by intros [[r g] b]].
    unfold UpdateOtherRanksTiming, for_range at 1.
    rewrite (for_each_if (λ i, negb (i =? rank addr))). fold rs.
    rewrite <- He, <- for_each_fmap.
    etrans; [apply for_each_ext; intros i s _; apply rank_loop|].
    etrans; [apply (for_each_nested (λ i '(j, k) cs, update_bank_timing cs i j k l clk)
      (λ _, rank_coords config))|].
    apply for_each_ext. by intros [i [j k]].
Qed.
End Passes.

(** ** [UpdateTiming] implements the specification of delays *)

Lemma banks_updated_coords f cs cs' c :
  banks_updated f cs cs' → is_Some (bank_states_ cs' !! c) ↔ is_Some (bank_states_ cs !! c).
Proof. intros [H _]. rewrite H. apply fmap_is_Some. Qed.

Lemma update_timings_nil bs clk : update_timings bs [] clk = bs.
Proof. done. Qed.

Lemma update_scopes_spec config timing cs cmd clk :
  (∀ c, is_Some (bank_states_ cs !! c) ↔ valid_coord config c) →
  valid_coord config (cmd_coord cmd) →
  ∃ cs', update_scopes config timing cs cmd clk = Ok cs' ∧
    banks_updated (λ '(r, g, b) bs,
      update_timings bs
        (if negb (r =? Rank cmd) then other_ranks timing (cmd_type cmd)
         else if negb (g =? Bankgroup cmd) then other_bankgroups_same_rank timing (cmd_type cmd)
         else if negb (b =? Bank cmd) then other_banks_same_bankgroup timing (cmd_type cmd)
         else same_bank timing (cmd_type cmd)) clk) cs cs'.
Proof.
  intros Hco Hv. pose proof Hv as (Hr & Hg & Hb). unfold update_scopes.
  destruct (same_bank_pass config cs Hco (cmd_addr cmd) (same_bank timing (cmd_type cmd)) clk Hv)
    as (cs1 & -> & H1). simpl.
  assert (Hco1 : ∀ c, is_Some (bank_states_ cs1 !! c) ↔ valid_coord config c).
  { intros c. by rewrite (banks_updated_coords _ _ _ _ H1). }
  destruct (other_banks_pass config cs1 Hco1 (cmd_addr cmd)
    (other_banks_same_bankgroup timing (cmd_type cmd)) clk Hr Hg) as (cs2 & -> & H2). simpl.
  assert (Hco2 : ∀ c, is_Some (bank_states_ cs2 !! c) ↔ valid_coord config c).
  { intros c. by rewrite (banks_updated_coords _ _ _ _ H2). }
  destruct (other_bankgroups_pass config cs2 Hco2 (cmd_addr cmd)
    (other_bankgroups_same_rank timing (cmd_type cmd)) clk Hr) as (cs3 & -> & H3). simpl.
  assert (Hco3 : ∀ c, is_Some (bank_states_ cs3 !! c) ↔ valid_coord config c).
  { intros c. by rewrite (banks_updated_coords _ _ _ _ H3). }
  destruct (other_ranks_pass config cs3 Hco3 (cmd_addr cmd)
    (other_ranks timing (cmd_type cmd)) clk) as (cs4 & -> & H4).
  exists cs4. split; [done|].
  pose proof (banks_updated_trans _ _ _ _ _ H1
    (banks_updated_trans _ _ _ _ _ H2 (banks_updated_trans _ _ _ _ _ H3 H4))) as H.
  revert H. apply banks_updated_ext. intros [[r g] b] bs _.
  unfold Rank, Bankgroup, Bank.
  by destruct (r =? rank (cmd_addr cmd)), (g =? bankgroup (cmd_addr cmd)),
    (b =? bank (cmd_addr cmd)).
Qed.

Lemma vset_alter {A} (l : list A) i x (f : A → A) :
  l !! i = Some x → <[i := f x]> l = alter f i l.
Proof.
  intros H. apply list_eq. intros j. destruct (decide (i = j)) as [->|Hne].
  - rewrite list_lookup_insert_eq, list_lookup_alter_eq, H; [done|]. by eapply lookup_lt_Some.
  - by rewrite list_lookup_insert_ne, list_lookup_alter_ne.
Qed.

Lemma UpdateActivationTimes_ok (config : Config) cs cmd clk :
  is_activation (cmd_type cmd) = true →
  0 ≤ Rank cmd < vsize (four_aw_ cs) → 0 ≤ Rank cmd < vsize (thirty_two_aw_ cs) →
  UpdateActivationTimes config cs (Rank cmd) clk
  = Ok (set_thirty_two_aw (thirty_two_after config cs cmd clk)
          (set_four_aw (four_after config cs cmd clk) cs)).
Proof.
  intros Ha H4 H32. unfold UpdateActivationTimes, four_after, thirty_two_after. rewrite Ha.
  destruct (vget_in_range _ _ H4) as [w Hw]. rewrite Hw. cbn [mbind outcome_bind].
  apply vget_Ok in Hw as [_ Hw].
  rewrite (vset_in_range _ _ _ H4). cbn [mbind outcome_bind andb].
  rewrite (vset_alter _ _ _ (λ w, aw_push w clk (tFAW config)) Hw).
  destruct (IsGDDR config); [|done].
  cbn [set_four_aw thirty_two_aw_].
  destruct (vget_in_range _ _ H32) as [w' Hw']. rewrite Hw'. cbn [mbind outcome_bind].
  apply vget_Ok in Hw' as [_ Hw'].
  rewrite (vset_in_range _ _ _ H32). cbn [mbind outcome_bind].
  by rewrite (vset_alter _ _ _ (λ w, aw_push w clk (t32AW config)) Hw').
Qed.

Lemma windows_unchanged (config : Config) cs cmd clk :
  is_activation (cmd_type cmd) = false →
  set_thirty_two_aw (thirty_two_after config cs cmd clk)
    (set_four_aw (four_after config cs cmd clk) cs) = cs.
Proof. intros Ha. unfold four_after, thirty_two_after. rewrite Ha. by destruct cs. Qed.

Lemma UpdateTiming_spec (config : Config) timing cs cmd clk :
  (∀ c, is_Some (bank_states_ cs !! c) ↔ valid_coord config c) →
  length (four_aw_ cs) = Z.to_nat (ranks config) →
  length (thirty_two_aw_ cs) = Z.to_nat (ranks config) →
  cmd_in_range config cmd →
  ∃ cs', UpdateTiming config timing cs cmd clk = Ok cs' ∧
    banks_updated (λ c bs, update_timings bs (delays timing cmd c) clk)
      (set_thirty_two_aw (thirty_two_after config cs cmd clk)
         (set_four_aw (four_after config cs cmd clk) cs)) cs'.
Proof.
  intros Hco H4 H32 [Hsz Hr].
  set (cs0 := set_thirty_two_aw _ _).
  assert (Hco0 : ∀ c, is_Some (bank_states_ cs0 !! c) ↔ valid_coord config c) by done.
  assert (Hact : is_activation (cmd_type cmd) = true →
    UpdateActivationTimes config cs (Rank cmd) clk = Ok cs0).
  { intros Ha. assert (0 ≤ Rank cmd < ranks config).
    { destruct (cmd_type cmd); try discriminate Ha; by destruct Hr. }
    apply UpdateActivationTimes_ok; [done|unfold vsize; lia..]. }
  assert (Hcs : is_activation (cmd_type cmd) = false → cs = cs0).
  { intros Ha. symmetry. by apply windows_unchanged. }
  pose proof (update_scopes_spec config timing cs0 cmd clk Hco0) as Hscopes.
  pose proof (same_bank_pass config cs0 Hco0 (cmd_addr cmd)
    (same_bank timing (cmd_type cmd)) clk) as Hbank.
  pose proof (same_rank_pass config cs0 Hco0 (cmd_addr cmd)
    (same_rank timing (cmd_type cmd)) clk) as Hrank.
  unfold UpdateTiming. clearbody cs0.
  destruct (cmd_type cmd) eqn:Ht; try (by destruct Hsz);
    cbn [is_activation is_rank_cmd_type] in *;
    try (rewrite (Hact eq_refl); cbn [mbind outcome_bind]); try rewrite (Hcs eq_refl).
  all: first [destruct (Hscopes Hr) as (cs' & -> & Hup)
             |destruct (Hbank Hr) as (cs' & -> & Hup)
             |destruct (Hrank Hr) as (cs' & -> & Hup)].
  all: exists cs'; split; [reflexivity|]; revert Hup; apply banks_updated_ext;
    intros [[r g] b] bs _; unfold delays; rewrite Ht; try done.
  all: unfold Rank, Bankgroup, Bank; by repeat case_match.
Qed.

(** ** Executing state changes *)

Lemma IsRankCMD_type cmd : IsRankCMD cmd = is_rank_cmd_type (cmd_type cmd).
Proof. by destruct cmd as [[] ? ?]. Qed.

Lemma UpdateState_sref bs c bs' :
  BankState.UpdateState bs c = Ok bs' →
  (state_ bs = SREF ↔ cmd_type c = SREF_EXIT) ∧ (state_ bs' = SREF ↔ cmd_type c = SREF_ENTER).
Proof.
  destruct bs as [[] tm r n], c as [[] a h]; cbn; intros H; try discriminate H;
    injection H as <-; cbn; split; split; congruence.
Qed.

Lemma state_pass cs cl cmd cs' :
  NoDup cl →
  for_each (λ '(r, g, b) cs, update_bank_state cs r g b cmd) cl cs = Ok cs' →
  (∀ c, c ∈ cl → ∃ bs bs', bank_states_ cs !! c = Some bs ∧
     BankState.UpdateState bs cmd = Ok bs') ∧
  banks_updated (λ c bs, if bool_decide (c ∈ cl) then state_after cmd bs else bs) cs cs'.
Proof.
  revert cs. induction cl as [|[[r g] b] cl IH]; intros cs Hnd; simpl.
  { intros [= <-]. split; [set_solver|]. apply banks_updated_id. }
  apply NoDup_cons in Hnd as [Hnin Hnd]. unfold update_bank_state at 1, bank_at.
  intros (cs1 & (bs & Hb%from_option_or_Ok & (bs' & Hu & [= <-])%bind_Ok)%bind_Ok & H)%bind_Ok.
  apply IH in H as [Hex [Hl Hr]]; [|done]. simpl in *. split.
  - intros c. rewrite elem_of_cons. intros [->|Hc]; [by exists bs, bs'|].
    destruct (Hex c Hc) as (b1 & b2 & Hb1 & Hu1). exists b1, b2. split; [|done].
    by rewrite lookup_insert_ne in Hb1 by (intros <-; done).
  - split; [|by rewrite Hr]. intros c. rewrite Hl.
    destruct (decide (c = (r, g, b))) as [->|Hne].
    + rewrite lookup_insert_eq, Hb. simpl.
      rewrite (bool_decide_eq_false_2 ((r, g, b) ∈ cl)) by done.
      rewrite (bool_decide_eq_true_2 ((r, g, b) ∈ (r, g, b) :: cl)) by (by left).
      unfold state_after. by rewrite Hu.
    + rewrite lookup_insert_ne by congruence. destruct (bank_states_ cs !! c); simpl; [|done].
      f_equal. assert (Hiff : c ∈ (r, g, b) :: cl ↔ c ∈ cl) by set_solver.
      by rewrite (bool_decide_ext _ _ Hiff).
Qed.

Lemma state_pass_total cs cl cmd :
  NoDup cl →
  (∀ c, c ∈ cl → ∃ bs bs', bank_states_ cs !! c = Some bs ∧
     BankState.UpdateState bs cmd = Ok bs') →
  ∃ cs', for_each (λ '(r, g, b) cs, update_bank_state cs r g b cmd) cl cs = Ok cs'.
Proof.
  revert cs. induction cl as [|[[r g] b] cl IH]; intros cs Hnd Hex; simpl; [by eexists|].
  apply NoDup_cons in Hnd as [Hnin Hnd].
  destruct (Hex (r, g, b)) as (bs & bs' & Hb & Hu); [by left|].
  assert (update_bank_state cs r g b cmd = Ok (set_bank cs r g b bs')) as ->.
  { unfold update_bank_state, bank_at. rewrite Hb. simpl. by rewrite Hu. }
  apply (IH (set_bank cs r g b bs')); [done|]. intros c Hc. simpl.
  rewrite lookup_insert_ne by (intros <-; done). apply Hex. by right.
Qed.

Lemma NoDup_rank_cells config r : NoDup (rank_cells config r).
Proof.
  apply (NoDup_fmap_2_strong _); [|apply NoDup_rank_coords]. intros [? ?] [? ?] _ _. congruence.
Qed.

Lemma elem_of_rank_cells (config : Config) r c :
  c ∈ rank_cells config r ↔
  c.1.1 = r ∧ 0 ≤ c.1.2 < bankgroups config ∧ 0 ≤ c.2 < banks_per_group config.
Proof.
  unfold rank_cells. rewrite list_elem_of_fmap. destruct c as [[r' g] b]. simpl. split.
  - intros ([j k] & [= -> -> ->] & H%elem_of_rank_coords). done.
  - intros [-> H]. exists (g, b). by rewrite elem_of_rank_coords.
Qed.

Lemma NoDup_target_cells config cmd : NoDup (target_cells config cmd).
Proof. unfold target_cells. case_match; [apply NoDup_rank_cells|apply NoDup_singleton]. Qed.

Lemma UpdateState_spec config cs cmd cs' :
  UpdateState config cs cmd = Ok cs' →
  accepted config cs cmd ∧
  (∀ c, bank_states_ cs' !! c
     = (λ bs, if bool_decide (c ∈ target_cells config cmd) then state_after cmd bs else bs)
       <$> bank_states_ cs !! c) ∧
  rank_idle_cycles cs' = rank_idle_cycles cs ∧ four_aw_ cs' = four_aw_ cs ∧
  thirty_two_aw_ cs' = thirty_two_aw_ cs ∧ rank_is_sref_ cs' = flags_after cs cmd ∧
  refresh_q_ cs' = refresh_q_after cs cmd ∧
  (is_rank_cmd_type (cmd_type cmd) = true → cmd_type cmd ≠ REFRESH →
     0 ≤ Rank cmd < vsize (rank_is_sref_ cs)).
Proof.
  intros H. unfold UpdateState in H.
  assert (∃ cs1, for_each (λ '(r, g, b) cs, update_bank_state cs r g b cmd)
            (target_cells config cmd) cs = Ok cs1 ∧
    (if IsRankCMD cmd then
       if IsRefresh cmd then Ok (RankNeedRefresh cs1 (Rank cmd) false)
       else if type_eqb (cmd_type cmd) SREF_ENTER then
         v ← vset (rank_is_sref_ cs1) (Rank cmd) true; Ok (set_rank_is_sref v cs1)
       else if type_eqb (cmd_type cmd) SREF_EXIT then
         v ← vset (rank_is_sref_ cs1) (Rank cmd) false; Ok (set_rank_is_sref v cs1)
       else Ok cs1
     else if IsRefresh cmd
     then Ok (BankNeedRefresh cs1 (Rank cmd) (Bankgroup cmd) (Bank cmd) false)
     else Ok cs1) = Ok cs') as (cs1 & H1 & H2).
  { unfold target_cells. destruct (IsRankCMD cmd); apply bind_Ok in H as (cs1 & H1 & H);
      exists cs1; (split; [|done]).
    - rewrite <- H1. unfold rank_cells. rewrite <- for_each_fmap.
      apply for_each_ext. by intros [j k].
    - simpl. rewrite H1. done. }
  clear H. apply state_pass in H1 as (Hex & Hl & Hr); [|apply NoDup_target_cells].
  split; [exact Hex|].
  assert (Hrest : rank_idle_cycles cs1 = rank_idle_cycles cs ∧ four_aw_ cs1 = four_aw_ cs ∧
    thirty_two_aw_ cs1 = thirty_two_aw_ cs ∧ rank_is_sref_ cs1 = rank_is_sref_ cs ∧
    refresh_q_ cs1 = refresh_q_ cs) by (by rewrite Hr).
  destruct Hrest as (R1 & R2 & R3 & R4 & R5).
  rewrite IsRankCMD_type in H2. unfold IsRefresh, flags_after, refresh_q_after in *.
  destruct (cmd_type cmd); cbn in H2; try (apply bind_Ok in H2 as (v & Hv & H2);
    apply vset_Ok in Hv as [Hv ->]); injection H2 as <-;
    rewrite ?R4 in *; simpl; rewrite ?R1, ?R2, ?R3, ?R4, ?R5; repeat split; try done;
    unfold vsize in *; lia.
Qed.

(** ** A whole command *)

Lemma UpdateState_size bs c bs' : BankState.UpdateState bs c = Ok bs' → cmd_type c ≠ SIZE.
Proof. intros H E. by destruct bs as [[] tm r n], c as [[] a h]. Qed.

Lemma accepted_in_range (config : Config) cs cmd :
  dims_ok config → (∀ c, is_Some (bank_states_ cs !! c) ↔ valid_coord config c) →
  accepted config cs cmd → cmd_in_range config cmd.
Proof.
  intros [Hr Hg Hb _] Hco Hacc.
  assert (∃ c, c ∈ target_cells config cmd ∧
    (c = cmd_coord cmd ∨ IsRankCMD cmd = true ∧ c.1.1 = Rank cmd)) as (c & Hc & Hcase).
  { unfold target_cells. destruct (IsRankCMD cmd); [|exists (cmd_coord cmd); set_solver].
    exists (Rank cmd, 0, 0). split; [|by right]. apply elem_of_rank_cells. simpl. lia. }
  destruct (Hacc c Hc) as (bs & bs' & Hbs & Hu).
  assert (Hv : valid_coord config c) by (apply Hco; by eexists).
  split; [by eapply UpdateState_size|]. rewrite <- IsRankCMD_type.
  destruct Hcase as [->|[-> <-]].
  - destruct (IsRankCMD cmd); [apply Hv|done].
  - destruct c as [[r g] b]. apply Hv.
Qed.

Lemma flags_after_length cs cmd : length (flags_after cs cmd) = length (rank_is_sref_ cs).
Proof. unfold flags_after. case_match; by rewrite ?length_insert. Qed.

Lemma four_after_length (config : Config) cs cmd clk :
  length (four_after config cs cmd clk) = length (four_aw_ cs).
Proof. unfold four_after. case_match; by rewrite ?length_alter. Qed.

Lemma thirty_two_after_length (config : Config) cs cmd clk :
  length (thirty_two_after config cs cmd clk) = length (thirty_two_aw_ cs).
Proof. unfold thirty_two_after. case_match; by rewrite ?length_alter. Qed.

Lemma UpdateState_total (config : Config) cs cmd :
  accepted config cs cmd →
  (is_rank_cmd_type (cmd_type cmd) = true → 0 ≤ Rank cmd < vsize (rank_is_sref_ cs)) →
  ∃ cs', UpdateState config cs cmd = Ok cs'.
Proof.
  intros Hacc Hr. unfold UpdateState.
  destruct (state_pass_total cs (target_cells config cmd) cmd) as [cs1 H1];
    [apply NoDup_target_cells|done|].
  pose proof (state_pass _ _ _ _ (NoDup_target_cells _ _) H1) as (_ & _ & Hrest).
  assert (Hs : rank_is_sref_ cs1 = rank_is_sref_ cs) by (by rewrite Hrest). clear Hrest.
  unfold target_cells in H1. rewrite <- IsRankCMD_type in Hr. destruct (IsRankCMD cmd).
  - unfold rank_cells in H1. rewrite <- for_each_fmap in H1.
    assert (for_each (λ '(j, k) cs, update_bank_state cs (Rank cmd) j k cmd)
      (rank_coords config) cs = Ok cs1) as ->
      by (rewrite <- H1; apply for_each_ext; by intros [j k]).
    cbn [mbind outcome_bind]. rewrite Hs, !(vset_in_range _ _ _ (Hr eq_refl)).
    cbn [mbind outcome_bind]. repeat case_match; by eexists.
  - simpl in H1. apply bind_Ok in H1 as (? & -> & [= <-]). cbn [mbind outcome_bind].
    case_match; by eexists.
Qed.

(** What a successful [UpdateTimingAndStates] does to each part of the state. *)
Lemma UpdateTimingAndStates_spec (config : Config) timing cs cmd clk cs' :
  dims_ok config → chan_wf config cs →
  UpdateTimingAndStates config timing cs cmd clk = Ok cs' →
  accepted config cs cmd ∧ cmd_in_range config cmd ∧
  (∀ c, bank_states_ cs' !! c = bank_after config timing cmd clk c <$> bank_states_ cs !! c) ∧
  cs' = mkChannelState (rank_idle_cycles cs) (flags_after cs cmd) (bank_states_ cs')
    (refresh_q_after cs cmd) (four_after config cs cmd clk) (thirty_two_after config cs cmd clk).
Proof.
  intros Hd Hw H. unfold UpdateTimingAndStates in H. apply bind_Ok in H as (cs1 & H1 & H2).
  apply UpdateState_spec in H1 as (Hacc & Hl & Hidle & H4 & H32 & Hs & Hq & _).
  pose proof (accepted_in_range config cs cmd Hd (wf_coords _ _ Hw) Hacc) as Hin.
  destruct (UpdateTiming_spec config timing cs1 cmd clk) as (cs2 & E & Hb & Hrest).
  - intros c. rewrite Hl, fmap_is_Some. apply (wf_coords _ _ Hw).
  - rewrite H4. apply (wf_four _ _ Hw).
  - rewrite H32. apply (wf_thirty_two _ _ Hw).
  - done.
  - rewrite E in H2. injection H2 as ->. split; [done|]. split; [done|]. split.
    + intros c. rewrite Hb. simpl. rewrite Hl. unfold bank_after.
      by destruct (bank_states_ cs !! c).
    + etrans; [exact Hrest|]. unfold set_bank_states, four_after, thirty_two_after. simpl.
      by rewrite Hidle, Hs, Hq, H4, H32.
Qed.

Lemma UpdateTimingAndStates_total (config : Config) timing cs cmd clk :
  dims_ok config → chan_wf config cs → accepted config cs cmd →
  ∃ cs', UpdateTimingAndStates config timing cs cmd clk = Ok cs'.
Proof.
  intros Hd Hw Hacc. pose proof (accepted_in_range config cs cmd Hd (wf_coords _ _ Hw) Hacc) as Hin.
  destruct (UpdateState_total config cs cmd Hacc) as [cs1 H1].
  { intros Hr. destruct Hin as [_ Hin]. rewrite Hr in Hin. unfold vsize.
    rewrite (wf_sref _ _ Hw). lia. }
  unfold UpdateTimingAndStates. rewrite H1. cbn [mbind outcome_bind].
  apply UpdateState_spec in H1 as (_ & Hl & _ & H4 & H32 & _).
  destruct (UpdateTiming_spec config timing cs1 cmd clk) as (cs2 & E & _); [..|by exists cs2].
  - intros c. rewrite Hl, fmap_is_Some. apply (wf_coords _ _ Hw).
  - rewrite H4. apply (wf_four _ _ Hw).
  - rewrite H32. apply (wf_thirty_two _ _ Hw).
  - done.
Qed.

(** ** The invariant *)

Lemma update_timings_state bs l clk : state_ (update_timings bs l clk) = state_ bs.
Proof.
  revert bs. induction l as [|[t d] l IH]; intros bs; [done|].
  exact (IH (BankState.UpdateTiming bs t (u64 (clk + d)))).
Qed.

Lemma update_timings_wf bs l clk : bank_wf bs → bank_wf (update_timings bs l clk).
Proof.
  revert bs. induction l as [|[t d] l IH]; intros bs Hb; [done|].
  apply IH. by apply UpdateTiming_wf.
Qed.

Lemma elem_of_all_coords (config : Config) c : c ∈ all_coords config ↔ valid_coord config c.
Proof.
  destruct c as [[r g] b]. unfold all_coords. rewrite list_elem_of_bind. split.
  - intros (i & Hc & Hi%elem_of_range). apply list_elem_of_bind in Hc as ([j k] & Hc & Hjk).
    apply elem_of_rank_coords in Hjk. apply list_elem_of_singleton in Hc. by simplify_eq.
  - intros (Hr & Hg & Hb). exists r. rewrite elem_of_range. split; [|done].
    apply list_elem_of_bind. exists (g, b). by rewrite elem_of_rank_coords, list_elem_of_singleton.
Qed.

Lemma ChannelState_init_lookup (config : Config) c bs :
  bank_states_ (ChannelState_init config) !! c = Some bs ↔
  valid_coord config c ∧ bs = BankState_init.
Proof.
  rewrite <- elem_of_all_coords. simpl. split.
  - intros H%elem_of_list_to_map_2. apply list_elem_of_fmap in H as (x & [= -> ->] & ?). done.
  - intros [Hc ->]. destruct (list_to_map ((λ x, (x, BankState_init)) <$> all_coords config)
      !! c) as [bs|] eqn:E.
    + apply elem_of_list_to_map_2 in E. apply list_elem_of_fmap in E as (x & [= _ ->] & _). done.
    + apply not_elem_of_list_to_map_2 in E. destruct E. rewrite <- list_fmap_compose.
      simpl. apply list_elem_of_fmap. by exists c.
Qed.

Lemma chan_wf_init (config : Config) : chan_wf config (ChannelState_init config).
Proof.
  split; try (simpl; by rewrite length_replicate).
  - intros c. split.
    + intros [bs H]. by apply ChannelState_init_lookup in H as [? _].
    + intros Hc. exists BankState_init. by apply ChannelState_init_lookup.
  - intros c bs [_ ->]%ChannelState_init_lookup. auto with dramsim.
  - intros r g b bs flag [_ ->]%ChannelState_init_lookup.
    simpl. intros [-> _]%lookup_replicate. done.
Qed.

(** Execution preserves the invariant. *)
Lemma state_after_Ok cmd bs bs' :
  BankState.UpdateState bs cmd = Ok bs' → state_after cmd bs = bs'.
Proof. intros H. unfold state_after. by rewrite H. Qed.

Lemma accepted_state_after (config : Config) cs cmd c bs :
  accepted config cs cmd → c ∈ target_cells config cmd → bank_states_ cs !! c = Some bs →
  BankState.UpdateState bs cmd = Ok (state_after cmd bs).
Proof.
  intros Hacc Hc Hb. destruct (Hacc c Hc) as (b1 & b2 & Hb1 & Hu). simplify_eq.
  by rewrite (state_after_Ok _ _ _ Hu).
Qed.

Lemma sref_after (config : Config) timing cs cmd clk r g b bs flag :
  chan_wf config cs → accepted config cs cmd → cmd_in_range config cmd →
  bank_states_ cs !! (r, g, b) = Some bs → flags_after cs cmd !! Z.to_nat r = Some flag →
  (state_ (bank_after config timing cmd clk (r, g, b) bs) = SREF ↔ flag = true).
Proof.
  intros Hw Hacc [_ Hin] Hb Hf. unfold bank_after. rewrite update_timings_state.
  assert (Hv : valid_coord config (r, g, b)) by (apply (wf_coords _ _ Hw); by eexists).
  destruct Hv as (Hr & Hg & Hk).
  destruct (lookup_lt_is_Some_2 (rank_is_sref_ cs) (Z.to_nat r)) as [old Hold].
  { rewrite (wf_sref _ _ Hw). lia. }
  pose proof (wf_sref_banks _ _ Hw _ _ _ _ _ Hb Hold) as Hiff.
  case_bool_decide as Hc.
  - pose proof (accepted_state_after _ _ _ _ _ Hacc Hc Hb) as Hu.
    apply UpdateState_sref in Hu as [H1 H2].
    assert (r = Rank cmd).
    { unfold target_cells in Hc. case_match; [by apply elem_of_rank_cells in Hc as [? _]|].
      apply list_elem_of_singleton in Hc. by injection Hc. }
    subst r. rewrite H2. unfold flags_after in Hf.
    destruct (cmd_type cmd); try (rewrite Hf in Hold; injection Hold as ->);
      rewrite ?list_lookup_insert_eq in Hf by (rewrite (wf_sref _ _ Hw); lia); naive_solver.
  - assert (flags_after cs cmd !! Z.to_nat r = rank_is_sref_ cs !! Z.to_nat r) as E;
      [|rewrite E in Hf; by rewrite Hf in Hold; injection Hold as ->].
    assert (Hne : IsRankCMD cmd = true → r ≠ Rank cmd).
    { intros Hrk ->. apply Hc. unfold target_cells. rewrite Hrk.
      by apply elem_of_rank_cells. }
    rewrite IsRankCMD_type in Hne. unfold flags_after.
    destruct (cmd_type cmd); try done; simpl in *; specialize (Hne eq_refl);
      by rewrite list_lookup_insert_ne by lia.
Qed.

Lemma chan_wf_step (config : Config) timing cs cmd clk cs' :
  dims_ok config → chan_wf config cs →
  UpdateTimingAndStates config timing cs cmd clk = Ok cs' → chan_wf config cs'.
Proof.
  intros Hd Hw H. destruct (UpdateTimingAndStates_spec _ _ _ _ _ _ Hd Hw H)
    as (Hacc & Hin & Hb & Hcs). clear H.
  split; try (rewrite Hcs; simpl; rewrite ?flags_after_length, ?four_after_length,
    ?thirty_two_after_length; by destruct Hw).
  - intros c. rewrite Hb, fmap_is_Some. apply Hw.
  - intros c bs'. rewrite Hb. intros (bs & Hbs & ->)%fmap_Some.
    apply update_timings_wf. pose proof (wf_banks _ _ Hw _ _ Hbs).
    case_bool_decide; [|done].
    eapply UpdateState_wf; [done|]. by eapply accepted_state_after.
  - intros r g b bs' flag. rewrite Hb. intros (bs & Hbs & ->)%fmap_Some.
    rewrite Hcs. simpl. by apply sref_after.
Qed.

(** The invariant does not constrain the refresh queue or the idle counters. *)
Lemma chan_wf_refresh_q (config : Config) cs q :
  chan_wf config cs → chan_wf config (set_refresh_q q cs).
Proof. intros []. by split. Qed.

Lemma chan_wf_idle (config : Config) cs v :
  chan_wf config cs → length v = length (rank_idle_cycles cs) →
  chan_wf config (set_rank_idle_cycles v cs).
Proof. intros [] Hv. split; try done. simpl. by rewrite Hv. Qed.

(** ** What [GetReadyCommand] answers *)

Lemma bank_at_Ok cs r g b bs : bank_at cs r g b = Ok bs ↔ bank_states_ cs !! (r, g, b) = Some bs.
Proof. apply from_option_or_Ok. Qed.

(** The early return of the scan: a precharge of one open bank. *)
Lemma rank_scan_inl cs cmd clk l rc n ready :
  is_rank_cmd_type (cmd_type cmd) = true →
  rank_scan cs cmd clk l rc n = Ok (inl ready) →
  ∃ j k bs, (j, k) ∈ l ∧ bank_states_ cs !! (Rank cmd, j, k) = Some bs ∧
    state_ bs = OPEN ∧ cmd_timing bs PRECHARGE ≤ clk ∧
    cmd_type ready = PRECHARGE ∧ cmd_coord ready = (Rank cmd, j, k).
Proof.
  intros Ht. revert rc n. induction l as [|[j k] l IH]; intros rc n; [done|]. cbn [rank_scan].
  intros (bs & Hb%bank_at_Ok & H)%bind_Ok. apply bind_Ok in H as (rd & Hrd & H).
  destruct (IsValid rd) eqn:Hv; cbn [negb] in H.
  2:{ apply IH in H as (j' & k' & bs' & ? & ?). exists j', k', bs'. split; [by right|done]. }
  destruct (type_eqb _ _) eqn:E; cbn [negb] in H.
  1:{ apply IH in H as (j' & k' & bs' & ? & ?). exists j', k', bs'. split; [by right|done]. }
  injection H as <-. exists j, k, bs. split; [by left|]. split; [done|].
  apply GetReadyCommand_inv in Hrd as (Hq & Htm & _ & _); [|done].
  apply type_eqb_false in E. unfold required_type in Hq.
  destruct (state_ bs), (cmd_type cmd); try discriminate Ht; try discriminate Hq;
    injection Hq as Hq; first [by destruct E|by rewrite <- Hq in Htm].
Qed.

(** A scan that finds every bank ready. *)
Lemma rank_scan_inr cs cmd clk l rc n rc' n' :
  rank_scan cs cmd clk l rc n = Ok (inr (rc', n')) →
  n' ≤ n + vsize l ∧
  (n' = n + vsize l →
   Forall (λ '(j, k), ∃ bs, bank_states_ cs !! (Rank cmd, j, k) = Some bs ∧
     required_type bs cmd = Ok (cmd_type cmd) ∧ cmd_timing bs (cmd_type cmd) ≤ clk) l ∧
   (l = [] ∧ rc' = rc ∨ cmd_type rc' = cmd_type cmd ∧ cmd_addr rc' = cmd_addr cmd)).
Proof.
  unfold vsize. revert rc n. induction l as [|[j k] l IH]; intros rc n.
  { intros [= -> ->]. split; [simpl; lia|]. intros _. split; [constructor|by left]. }
  cbn [rank_scan]. intros (bs & Hb%bank_at_Ok & H)%bind_Ok. apply bind_Ok in H as (rd & Hrd & H).
  destruct (IsValid rd) eqn:Hv; cbn [negb] in H.
  2:{ apply IH in H as [H _]. rewrite length_cons. split; [lia|]. intros. lia. }
  destruct (type_eqb _ _) eqn:E; cbn [negb] in H; [|discriminate].
  apply IH in H as [Hle Hall]. rewrite length_cons. split; [lia|]. intros Hn.
  destruct Hall as [Hall Hrc]; [lia|].
  apply GetReadyCommand_inv in Hrd as (Hq & Htm & Ha & _); [|done].
  apply type_eqb_true in E. split.
  - constructor; [|done]. exists bs. by rewrite <- E.
  - destruct Hrc as [[-> ->]|]; auto.
Qed.

Lemma length_rank_coords (config : Config) :
  0 ≤ bankgroups config → 0 ≤ banks_per_group config →
  vsize (rank_coords config) = bankgroups config * banks_per_group config.
Proof.
  intros Hg Hb. unfold vsize, rank_coords.
  assert (∀ l : list Z, length (j ← l; k ← seqZ 0 (banks_per_group config); [(j, k)])
    = length l * Z.to_nat (banks_per_group config))%nat as ->.
  { induction l as [|j l IH]; [done|]. csimpl. rewrite length_app, IH.
    assert (∀ m : list Z, length (k ← m; [(j, k)]) = length m) as ->
      by (induction m; csimpl; congruence). rewrite length_seqZ. lia. }
  rewrite length_seqZ. nia.
Qed.

(** A command that the state of a bank asks for is one the bank accepts. *)
Lemma required_accepted bs cmd c t :
  required_type bs cmd = Ok t → cmd_type c = t → ∃ bs', BankState.UpdateState bs c = Ok bs'.
Proof.
  intros Hq Ht. destruct bs as [[] tm r n], cmd as [[] a h]; cbn in Hq;
    try (destruct (_ =? _) in Hq); try discriminate Hq; injection Hq as <-;
    unfold BankState.UpdateState; cbn [state_]; rewrite Ht; by eexists.
Qed.

Lemma coord_of_addr a b : cmd_addr a = cmd_addr b → cmd_coord a = cmd_coord b.
Proof. unfold cmd_coord, Rank, Bankgroup, Bank. by intros ->. Qed.

(** The answer to a request for a rank command. *)
Lemma rank_request_accepted (config : Config) cs cmd clk ready :
  dims_ok config → chan_wf config cs → IsRankCMD cmd = true →
  GetReadyCommand config cs cmd clk = Ok ready → IsValid ready = true →
  accepted config cs ready ∧
  (∀ c bs, c ∈ target_cells config ready → bank_states_ cs !! c = Some bs →
     cmd_timing bs (cmd_type ready) ≤ clk).
Proof.
  intros Hd Hw Hrk H Hv. unfold GetReadyCommand in H. rewrite Hrk in H.
  pose proof Hrk as Hrk'. rewrite IsRankCMD_type in Hrk'.
  apply bind_Ok in H as ([rd|[rd n]] & Hs & H).
  - injection H as ->.
    apply rank_scan_inl in Hs as (j & k & bs & _ & Hb & Hst & Htm & Ht & Hc); [|done].
    assert (Htg : target_cells config ready = [(Rank cmd, j, k)]).
    { unfold target_cells. by rewrite IsRankCMD_type, Ht, Hc. }
    unfold accepted. rewrite Htg. split.
    + intros c ->%list_elem_of_singleton. exists bs.
      unfold BankState.UpdateState. rewrite Hst, Ht. by eexists.
    + intros c bs' ->%list_elem_of_singleton Hb'. rewrite Hb in Hb'. injection Hb' as <-.
      by rewrite Ht.
  - destruct (n =? banks config) eqn:En; injection H as <-; [|discriminate Hv].
    apply Z.eqb_eq in En. destruct Hd as [_ Hg Hk Hp].
    apply rank_scan_inr in Hs as [_ Hall].
    rewrite length_rank_coords in Hall by lia. destruct Hall as [Hall Hrc]; [lia|].
    destruct Hrc as [[_ ->]|[Ht Ha]]; [discriminate Hv|].
    assert (Htg : target_cells config rd = rank_cells config (Rank cmd)).
    { unfold target_cells. rewrite IsRankCMD_type, Ht, Hrk'. unfold Rank. by rewrite Ha. }
    assert (Hcell : ∀ c, c ∈ target_cells config rd → ∃ bs, bank_states_ cs !! c = Some bs ∧
      required_type bs cmd = Ok (cmd_type cmd) ∧ cmd_timing bs (cmd_type cmd) ≤ clk).
    { intros c. rewrite Htg. unfold rank_cells.
      intros ([j k] & -> & Hjk)%list_elem_of_fmap. rewrite Forall_forall in Hall.
      exact (Hall _ Hjk). }
    split.
    + intros c Hc. destruct (Hcell c Hc) as (bs & Hb & Hq & _). exists bs.
      destruct (required_accepted bs cmd rd _ Hq Ht) as [bs' ?]. by exists bs'.
    + intros c bs Hc Hb. destruct (Hcell c Hc) as (bs' & Hb' & _ & Htm). rewrite Ht.
      by simplify_eq.
Qed.

(** The answer to a request for a bank command. *)
Lemma bank_request_inv (config : Config) cs cmd clk ready :
  IsRankCMD cmd = false →
  GetReadyCommand config cs cmd clk = Ok ready → IsValid ready = true →
  ∃ bs, bank_states_ cs !! cmd_coord ready = Some bs ∧ cmd_addr ready = cmd_addr cmd ∧
    required_type bs cmd = Ok (cmd_type ready) ∧ cmd_timing bs (cmd_type ready) ≤ clk ∧
    (is_activation (cmd_type ready) = true →
       ActivationWindowOk config cs (Rank ready) clk = Ok true).
Proof.
  intros Hrk H Hv. unfold GetReadyCommand in H. rewrite Hrk in H.
  apply bind_Ok in H as (bs & Hb%bank_at_Ok & H). apply bind_Ok in H as (rd & Hrd & H).
  destruct (IsValid rd) eqn:Hv'; cbn [negb] in H; [|injection H as <-; discriminate Hv].
  assert (Hact : type_eqb (cmd_type rd) ACTIVATE || type_eqb (cmd_type rd) PIM_ACTIVATE
    = is_activation (cmd_type rd)) by (by destruct (cmd_type rd)). rewrite Hact in H.
  assert (Hok : rd = ready ∧ (is_activation (cmd_type ready) = true →
    ActivationWindowOk config cs (Rank ready) clk = Ok true)).
  { destruct (is_activation (cmd_type rd)) eqn:Ha.
    - apply bind_Ok in H as ([|] & Hwin & H); injection H as <-; [by split|discriminate Hv].
    - injection H as <-. by rewrite Ha. }
  destruct Hok as [-> Hwin].
  apply GetReadyCommand_inv in Hrd as (Hq & Htm & Ha & _); [|done].
  exists bs. by rewrite (coord_of_addr _ _ Ha).
Qed.

Lemma bank_request_accepted (config : Config) cs cmd clk ready :
  chan_wf config cs → IsRankCMD cmd = false →
  GetReadyCommand config cs cmd clk = Ok ready → IsValid ready = true →
  accepted config cs ready.
Proof.
  intros Hw Hrk H Hv.
  destruct (bank_request_inv _ _ _ _ _ Hrk H Hv) as (bs & Hb & _ & Hq & _).
  destruct (IsRankCMD ready) eqn:Hrd.
  - (* only a self-refresh exit is a rank command here *)
    assert (cmd_type ready = SREF_EXIT ∧ state_ bs = SREF) as [Ht Hst].
    { rewrite IsRankCMD_type in Hrd, Hrk. unfold required_type in Hq.
      destruct (state_ bs), (cmd_type cmd); try discriminate Hrk;
        try (destruct (_ =? _) in Hq); try discriminate Hq; injection Hq as Hq;
        rewrite <- Hq in *; done. }
    unfold accepted, target_cells. rewrite Hrd. intros [[r g] b] Hc.
    apply elem_of_rank_cells in Hc as (Hr & Hg & Hk). simpl in *. subst r.
    pose proof (proj1 (wf_coords _ _ Hw _) (mk_is_Some _ _ Hb)) as (Hr & _ & _).
    destruct (proj2 (wf_coords _ _ Hw (Rank ready, g, b))) as [bs2 Hb2]; [done|].
    destruct (lookup_lt_is_Some_2 (rank_is_sref_ cs) (Z.to_nat (Rank ready))) as [f Hf].
    { rewrite (wf_sref _ _ Hw). lia. }
    pose proof (proj1 (wf_sref_banks _ _ Hw _ _ _ _ _ Hb Hf) Hst) as Hft.
    pose proof (proj2 (wf_sref_banks _ _ Hw _ _ _ _ _ Hb2 Hf) Hft) as Hst2.
    exists bs2. unfold BankState.UpdateState. rewrite Hst2, Ht. by eexists.
  - unfold accepted, target_cells. rewrite Hrd. intros c ->%list_elem_of_singleton.
    destruct (required_accepted _ _ ready _ Hq eq_refl) as [bs' Hu]. by exists bs, bs'.
Qed.

Lemma GetReadyCommand_accepted (config : Config) cs cmd clk ready :
  dims_ok config → chan_wf config cs →
  GetReadyCommand config cs cmd clk = Ok ready → IsValid ready = true →
  accepted config cs ready.
Proof.
  intros Hd Hw H Hv. destruct (IsRankCMD cmd) eqn:Hrk.
  - by destruct (rank_request_accepted _ _ _ _ _ Hd Hw Hrk H Hv).
  - by eapply bank_request_accepted.
Qed.

(** When a request cannot abort: an access to an existing bank, or a refresh or
    a self-refresh entry of banks that are not self-refreshing. *)
Lemma required_type_total bs cmd :
  bank_wf bs → is_access (cmd_type cmd) = true ∨
    (state_ bs ≠ SREF ∧ cmd_type cmd ∈ [REFRESH; REFRESH_BANK; SREF_ENTER]) →
  ∃ t, required_type bs cmd = Ok t.
Proof.
  intros [[p Hp] _] H.
  assert (cmd_type cmd ∈ [READ; READ_PRECHARGE; WRITE; WRITE_PRECHARGE; LH_READ;
    LH_READ_PRECHARGE; GH_READ; GH_READ_PRECHARGE; PIM_WRITE; PIM_WRITE_PRECHARGE] ∨
    state_ bs ≠ SREF ∧ cmd_type cmd ∈ [REFRESH; REFRESH_BANK; SREF_ENTER]) as Hin.
  { destruct H as [H|H]; [left|by right]. destruct (cmd_type cmd); try discriminate H;
      rewrite !elem_of_cons; tauto. }
  clear H. rewrite !elem_of_cons, elem_of_nil in Hin.
  unfold required_type. destruct Hp; simpl in *; repeat case_match; naive_solver.
Qed.

Lemma GetReadyCommand_total bs cmd clk t :
  required_type bs cmd = Ok t → ∃ ready, BankState.GetReadyCommand bs cmd clk = Ok ready.
Proof. intros H. unfold BankState.GetReadyCommand. rewrite H. simpl. case_match; by eexists. Qed.

Lemma ActivationWindowOk_total (config : Config) cs r clk :
  chan_wf config cs → 0 ≤ r < ranks config →
  ∃ b, ActivationWindowOk config cs r clk = Ok b.
Proof.
  intros Hw Hr. unfold ActivationWindowOk, IsFAWReady, Is32AWReady.
  destruct (vget_in_range (four_aw_ cs) r) as [w ->].
  { unfold vsize. rewrite (wf_four _ _ Hw). lia. }
  destruct (vget_in_range (thirty_two_aw_ cs) r) as [w' ->].
  { unfold vsize. rewrite (wf_thirty_two _ _ Hw). lia. }
  simpl. repeat case_match; by eexists.
Qed.

Lemma rank_scan_total cs cmd clk l rc n :
  (∀ jk, jk ∈ l → ∃ bs t, bank_states_ cs !! (Rank cmd, jk.1, jk.2) = Some bs ∧
     required_type bs cmd = Ok t) →
  ∃ r, rank_scan cs cmd clk l rc n = Ok r.
Proof.
  revert rc n. induction l as [|[j k] l IH]; intros rc n H; cbn [rank_scan]; [by eexists|].
  destruct (H (j, k)) as (bs & t & Hb & Hq); [by left|]. simpl in Hb.
  unfold bank_at. rewrite Hb. cbn [mbind outcome_bind from_option_or].
  destruct (GetReadyCommand_total bs cmd clk t Hq) as [rd ->]. cbn [mbind outcome_bind].
  assert (H' : ∀ jk, jk ∈ l → ∃ bs t, bank_states_ cs !! (Rank cmd, jk.1, jk.2) = Some bs ∧
    required_type bs cmd = Ok t) by (intros; apply H; by right).
  repeat case_match; [by apply IH|by eexists|by apply IH].
Qed.

Lemma requests_total (config : Config) cs cmd clk :
  dims_ok config → chan_wf config cs → cmd_in_range config cmd →
  is_access (cmd_type cmd) = true ∨
  (vget (rank_is_sref_ cs) (Rank cmd) = Ok false ∧
   cmd_type cmd ∈ [REFRESH; REFRESH_BANK; SREF_ENTER]) →
  ∃ ready, GetReadyCommand config cs cmd clk = Ok ready.
Proof.
  intros Hd Hw [_ Hv] Hcase. rewrite <- IsRankCMD_type in Hv.
  assert (Hr : 0 ≤ Rank cmd < ranks config) by (destruct (IsRankCMD cmd); [done|apply Hv]).
  assert (Hq : ∀ g b bs, bank_states_ cs !! (Rank cmd, g, b) = Some bs →
    ∃ t, required_type bs cmd = Ok t).
  { intros g b bs Hb. apply required_type_total; [by eapply (wf_banks _ _ Hw)|].
    destruct Hcase as [|[[_ Hf]%vget_Ok Ht]]; [by left|right]. split; [|done].
    rewrite (wf_sref_banks _ _ Hw _ _ _ _ _ Hb Hf). done. }
  unfold GetReadyCommand. destruct (IsRankCMD cmd).
  - destruct (rank_scan_total cs cmd clk (rank_coords config) Command_default 0)
      as [[rd|[rd n]] ->].
    + intros [j k] [Hj Hk]%elem_of_rank_coords.
      destruct (proj2 (wf_coords _ _ Hw (Rank cmd, j, k))) as [bs Hb]; [done|].
      destruct (Hq j k bs Hb) as [t ?]. by exists bs, t.
    + by eexists.
    + simpl. case_match; by eexists.
  - destruct (proj2 (wf_coords _ _ Hw _) Hv) as [bs Hb]. unfold bank_at. unfold cmd_coord in Hb.
    rewrite Hb. cbn [from_option_or mbind outcome_bind]. destruct (Hq _ _ _ Hb) as [t Ht].
    destruct (GetReadyCommand_total bs cmd clk t Ht) as [rd Hrd]. rewrite Hrd.
    cbn [mbind outcome_bind]. destruct (IsValid rd) eqn:Hvr; [|by eexists]. cbn [negb].
    apply GetReadyCommand_inv in Hrd as (_ & _ & Ha & _); [|done].
    assert (Rank rd = Rank cmd) as -> by (unfold Rank; by rewrite Ha).
    destruct (ActivationWindowOk_total config cs (Rank cmd) clk Hw Hr) as [b ->]. simpl.
    repeat case_match; by eexists.
Qed.

(** Answers to bank requests keep the hexadecimal address. *)
Lemma bank_request_hex (config : Config) cs cmd clk ready :
  IsRankCMD cmd = false →
  GetReadyCommand config cs cmd clk = Ok ready → IsValid ready = true →
  cmd_hex_addr ready = cmd_hex_addr cmd.
Proof.
  intros Hrk H Hv. unfold GetReadyCommand in H. rewrite Hrk in H.
  apply bind_Ok in H as (bs & _ & H). apply bind_Ok in H as (rd & Hrd & H).
  assert (rd = ready) as ->.
  { destruct (IsValid rd); cbn [negb] in H; [|injection H as <-; discriminate Hv].
    destruct (_ || _); [|by injection H].
    apply bind_Ok in H as ([|] & _ & H); injection H as <-; [done|discriminate Hv]. }
  by apply GetReadyCommand_inv in Hrd as (_ & _ & _ & ?).
Qed.

(** ** Properties *)

(** [C14] The channel never asks for a command that would abort: a valid answer
    of [GetReadyCommand] to any request is executed by
    [UpdateTimingAndStates], whatever the clock, and the channel stays well
    formed.  A self-refresh exit wakes a whole rank, which relies on the
    invariant that all banks of a rank sleep together. *)
Theorem channel_ready_is_executable (config : Config) timing cs cmd clk ready clk' :
  dims_ok config → chan_wf config cs →
  GetReadyCommand config cs cmd clk = Ok ready → IsValid ready = true →
  ∃ cs', UpdateTimingAndStates config timing cs ready clk' = Ok cs' ∧ chan_wf config cs'.
Proof.
  intros Hd Hw H Hv. pose proof (GetReadyCommand_accepted _ _ _ _ _ Hd Hw H Hv) as Hacc.
  destruct (UpdateTimingAndStates_total config timing cs ready clk' Hd Hw Hacc) as [cs' Hcs'].
  exists cs'. split; [done|]. by eapply chan_wf_step.
Qed.

Lemma channel_ready_is_executable_witness :
  let cs := ChannelState_init hbm2_config in
  let ready := mkCommand REFRESH (mkAddress 0 0 0 0 0 0) 0 in
  ∃ cs', UpdateTimingAndStates hbm2_config (Timing_of hbm2_config) cs ready 10 = Ok cs' ∧
    chan_wf hbm2_config cs'.
Proof.
  intros cs ready.
  apply (channel_ready_is_executable hbm2_config (Timing_of hbm2_config) cs ready 7 ready 10);
    [split; vm_compute; reflexivity|apply chan_wf_init|vm_compute; reflexivity|reflexivity].
Defined.

(** [C13] The effect of executing a command, on every part of the channel:
    exactly the target banks (one bank, or all banks of the rank for a rank
    command) execute it; every bank is delayed by the timing table of its
    position relative to the command, and by no other; only an activation
    touches the activation windows of its rank, only self-refresh commands
    touch the self-refresh flags, and only a refresh removes a pending
    refresh. *)
Theorem channel_update_effect (config : Config) timing cs cmd clk cs' :
  dims_ok config → chan_wf config cs →
  UpdateTimingAndStates config timing cs cmd clk = Ok cs' →
  (∀ c, bank_states_ cs' !! c = bank_after config timing cmd clk c <$> bank_states_ cs !! c) ∧
  rank_idle_cycles cs' = rank_idle_cycles cs ∧ rank_is_sref_ cs' = flags_after cs cmd ∧
  refresh_q_ cs' = refresh_q_after cs cmd ∧ four_aw_ cs' = four_after config cs cmd clk ∧
  thirty_two_aw_ cs' = thirty_two_after config cs cmd clk.
Proof.
  intros Hd Hw H. destruct (UpdateTimingAndStates_spec _ _ _ _ _ _ Hd Hw H)
    as (_ & _ & Hb & Hcs). split; [exact Hb|]. by rewrite Hcs.
Qed.

Lemma channel_update_effect_witness :
  ∃ cs', UpdateTimingAndStates hbm2_config (Timing_of hbm2_config)
      (ChannelState_init hbm2_config) (mkCommand ACTIVATE (mkAddress 0 0 1 2 5 0) 0) 7 = Ok cs' ∧
    four_aw_ cs' = [[7 + tFAW hbm2_config]].
Proof.
  destruct (UpdateTimingAndStates_total hbm2_config (Timing_of hbm2_config)
    (ChannelState_init hbm2_config) (mkCommand ACTIVATE (mkAddress 0 0 1 2 5 0) 0) 7)
    as [cs' H]; [split; vm_compute; reflexivity|apply chan_wf_init| |].
  - intros c ->%list_elem_of_singleton. exists BankState_init.
    eexists. split; [apply ChannelState_init_lookup; by vm_compute|reflexivity].
  - exists cs'. split; [exact H|].
    destruct (channel_update_effect hbm2_config (Timing_of hbm2_config)
      (ChannelState_init hbm2_config) (mkCommand ACTIVATE (mkAddress 0 0 1 2 5 0) 0) 7 cs')
      as (_ & _ & _ & _ & H4 & _);
      [split; vm_compute; reflexivity|apply chan_wf_init|exact H|].
    etransitivity; [exact H4|]. vm_compute. reflexivity.
Defined.

(** [C35] Requests do not abort: for a well-formed channel, [GetReadyCommand]
    returns for every access to an existing bank, and for every refresh or
    self-refresh entry of a rank that is not self-refreshing. *)
Theorem channel_requests_total (config : Config) cs cmd clk :
  dims_ok config → chan_wf config cs → cmd_in_range config cmd →
  is_access (cmd_type cmd) = true ∨
  (vget (rank_is_sref_ cs) (Rank cmd) = Ok false ∧
   cmd_type cmd ∈ [REFRESH; REFRESH_BANK; SREF_ENTER]) →
  ∃ ready, GetReadyCommand config cs cmd clk = Ok ready.
Proof. apply requests_total. Qed.

Lemma channel_requests_total_witness :
  ∃ ready, GetReadyCommand hbm2_config (ChannelState_init hbm2_config)
    (mkCommand REFRESH (mkAddress 0 0 0 0 0 0) 0) 3 = Ok ready.
Proof.
  apply channel_requests_total;
    [split; vm_compute; reflexivity|apply chan_wf_init
    |split; [discriminate|split; vm_compute; congruence]|].
  right. split; [vm_compute; reflexivity|left].
Defined.

(** A request to leave self refresh aborts the simulator in every state:
    [GetReadyCommand] has no case for it, whichever state the rank is in. *)
Theorem sref_exit_request_aborts (config : Config) cs cmd clk :
  dims_ok config → chan_wf config cs → 0 ≤ Rank cmd < ranks config →
  cmd_type cmd = SREF_EXIT →
  ∃ line, GetReadyCommand config cs cmd clk = Fail (AbruptExit "bankstate.cc" line).
Proof.
  intros [_ Hg Hb _] Hw Hr Ht. unfold GetReadyCommand. rewrite IsRankCMD_type, Ht.
  cbn [is_rank_cmd_type].
  destruct (rank_coords config) as [|[j k] l] eqn:E.
  { assert (H : (0, 0) ∈ rank_coords config) by (apply elem_of_rank_coords; lia).
    rewrite E in H. by apply elem_of_nil in H. }
  assert (Hjk : (j, k) ∈ rank_coords config) by (rewrite E; by left).
  apply elem_of_rank_coords in Hjk as [Hj Hk].
  destruct (proj2 (wf_coords _ _ Hw (Rank cmd, j, k))) as [bs Hbs]; [done|].
  cbn [rank_scan]. unfold bank_at at 1. rewrite Hbs. cbn [from_option_or mbind outcome_bind].
  destruct (wf_banks _ _ Hw _ _ Hbs) as [[p Hp] _].
  unfold BankState.GetReadyCommand, required_type.
  destruct Hp; simpl; rewrite Ht; simpl; by eexists.
Qed.

Lemma sref_exit_request_aborts_witness :
  ∃ line, GetReadyCommand hbm2_config (ChannelState_init hbm2_config)
    (mkCommand SREF_EXIT (mkAddress 0 0 0 0 0 0) 0) 3 = Fail (AbruptExit "bankstate.cc" line).
Proof.
  apply sref_exit_request_aborts;
    [split; vm_compute; reflexivity|apply chan_wf_init|by vm_compute|reflexivity].
Defined.
