(* ===== verification/ChannelTiming.v ===== *)
(** * Timing safety of a channel

    The channel does not remember which commands were issued: every bank keeps
    one number per command type and every rank two short windows.  This file
    relates them to the history of issued commands: the numbers are the
    latest of all delays imposed so far, and the windows are the most recent
    activations.  It follows that no two commands of a run are closer than the
    timing tables and the activation windows allow. *)
From stdpp Require Import base tactics numbers list list_numbers gmap strings sets.
From S2P Require Import Prelude Common Double Configuration Timing BankState ChannelState.

Local Open Scope Z_scope.

(** The issued commands with their cycles, the most recent first. *)
Notation history := (list (Z * Command)).

(** The moments before which the delays [l], counted from [clk], forbid [t]. *)
Definition bounds_of (l : list (CommandType * Z)) (clk : Z) (t : CommandType) : list Z :=
  omap (λ '(t', d), if type_eqb t' t then Some (u64 (clk + d)) else None) l.

(** The earliest moment a history allows a command of type [t] at bank [c]. *)
Fixpoint earliest (timing : Timing) (h : history) (c : coord) (t : CommandType) : Z :=
  match h with
  | [] => 0
  | (clk, cmd) :: h =>
      foldr Z.max (earliest timing h c t) (bounds_of (delays timing cmd c) clk t)
  end.

(** The runs of a channel: commands are issued when [GetReadyCommand] answers
    them, at cycles that do not go back; the refresh queue and the idle
    counters may change in between. *)
Inductive run (config : Config) (timing : Timing) : history → Z → ChannelState → Prop :=
| run_init : run config timing [] 0 (ChannelState_init config)
| run_issue h now cs clk req ready cs' :
    run config timing h now cs → now ≤ clk →
    GetReadyCommand config cs req clk = Ok ready → IsValid ready = true →
    UpdateTimingAndStates config timing cs ready clk = Ok cs' →
    run config timing ((clk, ready) :: h) clk cs'
| run_refresh_q h now cs q :
    run config timing h now cs → run config timing h now (set_refresh_q q cs)
| run_idle h now cs v :
    run config timing h now cs → length v = length (rank_idle_cycles cs) →
    run config timing h now (set_rank_idle_cycles v cs).

(** The banks whose timing is consulted before a command: its targets, except
    that leaving self refresh consults the bank of the waiting request. *)
Definition checked_cells (config : Config) (cmd : Command) : list coord :=
  if type_eqb (cmd_type cmd) SREF_EXIT then [cmd_coord cmd] else target_cells config cmd.

(** The cycles of the activations in a rank, the most recent first. *)
Definition activations (r : Z) (h : history) : list Z :=
  (omap (λ '(clk, cmd),
     if is_activation (cmd_type cmd) && (Rank cmd =? r) then Some clk else None) h).

(** A window holds the expiry of the last few activations, and all older ones
    have expired. *)
Record window_ok (limit : nat) (delay : Z) (w acts : list Z) (now : Z) : Prop := {
  wo_length : (length w ≤ limit)%nat;
  wo_enough : (length w ≤ length acts)%nat;
  wo_content : w = (λ a, u64 (a + delay)) <$> reverse (take (length w) acts);
  wo_expired : Forall (λ a, u64 (a + delay) ≤ now) (drop (length w) acts)
}.

(** Every activation is followed, [limit] activations later, only after the
    window has passed. *)
Definition spaced (limit : nat) (delay : Z) (acts : list Z) : Prop :=
  ∀ i a a0, acts !! i = Some a → acts !! (i + limit)%nat = Some a0 → u64 (a0 + delay) ≤ a.

(** No table delays the end marker of the enumeration. *)
Definition timing_wf (timing : Timing) : Prop :=
  ∀ cmd c, Forall (λ p, p.1 ≠ SIZE) (delays timing cmd c).

Definition timing_rel (timing : Timing) (h : history) (cs : ChannelState) : Prop :=
  ∀ c bs t, bank_states_ cs !! c = Some bs → t ≠ SIZE →
    cmd_timing bs t = earliest timing h c t.

Definition windows_rel (limit : nat) (delay : Z) (ws : list (list Z)) (h : history) (now : Z)
    : Prop :=
  ∀ r w, 0 ≤ r → ws !! Z.to_nat r = Some w →
    window_ok limit delay w (activations r h) now ∧ spaced limit delay (activations r h).

(** Issuing a list of requests at given cycles, as long as each is answered. *)
Fixpoint issue_all (config : Config) (timing : Timing) (l : list (Z * Command))
    (h : history) (now : Z) (cs : ChannelState) : outcome (history * Z * ChannelState) :=
  match l with
  | [] => Ok (h, now, cs)
  | (clk, req) :: l =>
      _ ← ensure (now <=? clk) AssertFailed;
      ready ← GetReadyCommand config cs req clk;
      _ ← ensure (IsValid ready) AssertFailed;
      cs' ← UpdateTimingAndStates config timing cs ready clk;
      issue_all config timing l ((clk, ready) :: h) clk cs'
  end.

(** ** Timings are the history's bounds *)

Lemma bounds_of_cons t' d l clk t :
  bounds_of ((t', d) :: l) clk t
  = (if type_eqb t' t then [u64 (clk + d)] else []) ++ bounds_of l clk t.
Proof. unfold bounds_of. csimpl. by destruct (type_eqb t' t). Qed.

Lemma foldr_max_acc (l : list Z) x y :
  foldr Z.max (Z.max x y) l = Z.max y (foldr Z.max x l).
Proof. induction l as [|z l IH]; simpl; [lia|]. rewrite IH. lia. Qed.

Lemma foldr_max_ge (l : list Z) x : x ≤ foldr Z.max x l.
Proof. induction l; simpl; lia. Qed.

Lemma foldr_max_elem (l : list Z) x y : y ∈ l → y ≤ foldr Z.max x l.
Proof. induction 1; simpl; lia. Qed.

Lemma cmd_timing_update_timings bs l clk t :
  length (cmd_timing_ bs) = 17%nat → Forall (λ p, p.1 ≠ SIZE) l →
  cmd_timing (update_timings bs l clk) t
  = foldr Z.max (cmd_timing bs t) (bounds_of l clk t).
Proof.
  intros Hlen Hl. revert bs Hlen.
  induction Hl as [|[t' d] l Hx Hl IH]; intros bs Hlen; [done|].
  change (update_timings bs ((t', d) :: l) clk)
    with (update_timings (BankState.UpdateTiming bs t' (u64 (clk + d))) l clk).
  rewrite IH by (simpl; by rewrite length_insert).
  rewrite cmd_timing_UpdateTiming by done. rewrite bounds_of_cons.
  destruct (type_eqb t' t); simpl; [|done]. by rewrite foldr_max_acc.
Qed.

Lemma state_after_timing (config : Config) cs cmd c bs :
  accepted config cs cmd → c ∈ target_cells config cmd → bank_states_ cs !! c = Some bs →
  cmd_timing_ (state_after cmd bs) = cmd_timing_ bs.
Proof.
  intros. eapply UpdateState_timing. by eapply accepted_state_after.
Qed.

Lemma timing_rel_issue (config : Config) timing h cs clk cmd cs' :
  dims_ok config → timing_wf timing → chan_wf config cs → timing_rel timing h cs →
  UpdateTimingAndStates config timing cs cmd clk = Ok cs' →
  timing_rel timing ((clk, cmd) :: h) cs'.
Proof.
  intros Hd Htw Hw Hrel H. destruct (UpdateTimingAndStates_spec _ _ _ _ _ _ Hd Hw H)
    as (Hacc & _ & Hb & _).
  intros c bs' t. rewrite Hb. intros (bs & Hbs & ->)%fmap_Some Ht.
  destruct (wf_banks _ _ Hw _ _ Hbs) as [_ Hlen]. unfold bank_after. simpl.
  assert (cmd_timing_ (if bool_decide (c ∈ target_cells config cmd) then state_after cmd bs
    else bs) = cmd_timing_ bs) as E.
  { case_bool_decide; [|done]. by eapply state_after_timing. }
  rewrite cmd_timing_update_timings by (by rewrite ?E; auto).
  f_equal. rewrite <- (Hrel c bs t Hbs Ht). unfold cmd_timing. by rewrite E.
Qed.

(** ** Invariants of a run *)

Section Run.
Context (config : Config) (timing : Timing).
Hypothesis Hdims : dims_ok config.
Hypothesis Htiming : timing_wf timing.

Lemma run_wf h now cs : run config timing h now cs → chan_wf config cs.
Proof using Hdims.
  induction 1 as [|h now cs clk req ready cs' _ IH _ _ _ H|h now cs q _ IH|h now cs v _ IH Hv].
  - apply chan_wf_init.
  - by eapply chan_wf_step.
  - by apply chan_wf_refresh_q.
  - by apply chan_wf_idle.
Qed.

Lemma run_timing h now cs : run config timing h now cs → timing_rel timing h cs.
Proof using Hdims Htiming.
  induction 1 as [|h now cs clk req ready cs' Hr IH _ _ _ H|h now cs q _ IH|h now cs v _ IH Hv].
  - intros c bs t [_ ->]%ChannelState_init_lookup Ht. destruct t; by try reflexivity.
  - eapply timing_rel_issue; eauto using run_wf.
  - exact IH.
  - exact IH.
Qed.

(** A valid answer respects the timing of the banks it consults. *)
Lemma GetReadyCommand_timing cs req clk ready c bs :
  chan_wf config cs → GetReadyCommand config cs req clk = Ok ready → IsValid ready = true →
  c ∈ checked_cells config ready → bank_states_ cs !! c = Some bs →
  cmd_timing bs (cmd_type ready) ≤ clk.
Proof using Hdims.
  intros Hw H Hv Hc Hb. destruct (IsRankCMD req) eqn:Hrk.
  - destruct (rank_request_accepted _ _ _ _ _ Hdims Hw Hrk H Hv) as [Hacc Ht].
    apply (Ht c bs); [|done]. unfold checked_cells in Hc.
    destruct (type_eqb (cmd_type ready) SREF_EXIT) eqn:E; [|done].
    apply type_eqb_true in E. apply list_elem_of_singleton in Hc as ->.
    unfold target_cells. rewrite IsRankCMD_type, E. apply elem_of_rank_cells. simpl.
    pose proof (proj1 (wf_coords _ _ Hw _) (mk_is_Some _ _ Hb)) as (? & ? & ?). done.
  - destruct (bank_request_inv _ _ _ _ _ Hrk H Hv) as (bs' & Hb' & Ha & Hq & Ht & _).
    assert (c = cmd_coord ready) as ->; [|by simplify_eq].
    unfold checked_cells, target_cells in Hc.
    destruct (type_eqb (cmd_type ready) SREF_EXIT) eqn:E; [by apply list_elem_of_singleton|].
    destruct (IsRankCMD ready) eqn:Hr2; [|by apply list_elem_of_singleton].
    exfalso. rewrite IsRankCMD_type in Hrk, Hr2. apply type_eqb_false in E.
    unfold required_type in Hq. destruct (state_ bs'), (cmd_type req); try discriminate Hrk;
      try (destruct (_ =? _) in Hq); try discriminate Hq; injection Hq as Hq;
      rewrite <- Hq in *; done.
Qed.
End Run.

(** ** Facts about the program's tables *)

Lemma Timing_of_wf config : timing_wf (Timing_of config).
Proof.
  intros [t a h] [[r g] b]. unfold delays, Timing_of, Timing_row. cbn [cmd_type].
  generalize (Delays_of config) as d. intros d.
  destruct t; cbn; repeat case_match; solve_Forall done.
Qed.

(** Only entering self refresh delays leaving it, and it delays all banks of
    the rank alike. *)
Lemma bounds_sref_exit config clk cmd r g b g' b' :
  bounds_of (delays (Timing_of config) cmd (r, g, b)) clk SREF_EXIT
  = bounds_of (delays (Timing_of config) cmd (r, g', b')) clk SREF_EXIT.
Proof.
  destruct cmd as [t a h]. unfold delays, Timing_of, Timing_row. cbn [cmd_type].
  generalize (Delays_of config) as d. intros d.
  destruct t; cbn; repeat case_match; reflexivity.
Qed.

Lemma earliest_sref_exit config h r g b g' b' :
  earliest (Timing_of config) h (r, g, b) SREF_EXIT
  = earliest (Timing_of config) h (r, g', b') SREF_EXIT.
Proof.
  induction h as [|[clk cmd] h IH]; [done|]. cbn [earliest].
  by rewrite (bounds_sref_exit config clk cmd r g b g' b'), IH.
Qed.

Lemma earliest_app timing h1 h2 c t : earliest timing h2 c t ≤ earliest timing (h1 ++ h2) c t.
Proof.
  induction h1 as [|[clk cmd] h1 IH]; simpl; [lia|]. etrans; [exact IH|]. apply foldr_max_ge.
Qed.

Lemma elem_of_bounds_of l clk t d : (t, d) ∈ l → u64 (clk + d) ∈ bounds_of l clk t.
Proof.
  intros H. unfold bounds_of. apply list_elem_of_omap. exists (t, d). split; [done|].
  by rewrite (proj2 (type_eqb_true t t) eq_refl).
Qed.

(** Every delay a past command imposes is part of the bound. *)
Lemma earliest_elem timing h1 h2 clk cmd c t d :
  (t, d) ∈ delays timing cmd c →
  u64 (clk + d) ≤ earliest timing (h1 ++ (clk, cmd) :: h2) c t.
Proof.
  intros H. etrans; [|apply earliest_app]. simpl. by apply foldr_max_elem, elem_of_bounds_of.
Qed.

(** What a request for a rank command can be answered with. *)
Lemma rank_request_type (config : Config) cs req clk ready :
  dims_ok config → IsRankCMD req = true →
  GetReadyCommand config cs req clk = Ok ready → IsValid ready = true →
  cmd_type ready = PRECHARGE ∨
  (cmd_type ready = cmd_type req ∧ (cmd_type req = REFRESH ∨ cmd_type req = SREF_ENTER)).
Proof.
  intros [_ Hg Hk Hp] Hrk H Hv. unfold GetReadyCommand in H. rewrite Hrk in H.
  rewrite IsRankCMD_type in Hrk. apply bind_Ok in H as ([rd|[rd n]] & Hs & H).
  { injection H as ->. apply rank_scan_inl in Hs as (?&?&?&?&?&?&?&?&?); [by left|done]. }
  destruct (n =? banks config) eqn:En; injection H as <-; [|discriminate Hv].
  apply Z.eqb_eq in En. apply rank_scan_inr in Hs as [_ Hall].
  rewrite length_rank_coords in Hall by lia. destruct Hall as [Hall Hrc]; [lia|].
  destruct Hrc as [[_ ->]|[Ht _]]; [discriminate Hv|]. right. split; [done|].
  destruct (rank_coords config) as [|[j k] l] eqn:El.
  { assert (H : (0, 0) ∈ rank_coords config) by (apply elem_of_rank_coords; lia).
    rewrite El in H. by apply elem_of_nil in H. }
  apply Forall_cons_1 in Hall as [(b1 & _ & Hq & _) _]. unfold required_type in Hq.
  by destruct (cmd_type req), (state_ b1); auto.
Qed.

(** What holds at the moment a command is issued: every target bank allows it. *)
Lemma issue_respects_history (config : Config) h now cs req clk ready c :
  dims_ok config → run config (Timing_of config) h now cs →
  GetReadyCommand config cs req clk = Ok ready → IsValid ready = true →
  c ∈ target_cells config ready →
  earliest (Timing_of config) h c (cmd_type ready) ≤ clk.
Proof.
  intros Hd Hrun H Hv Hc. pose proof (run_wf _ _ Hd _ _ _ Hrun) as Hw.
  pose proof (run_timing _ _ Hd (Timing_of_wf config) _ _ _ Hrun) as Hrel.
  pose proof (GetReadyCommand_accepted _ _ _ _ _ Hd Hw H Hv) as Hacc.
  assert (Hsz : cmd_type ready ≠ SIZE).
  { destruct (Hacc c Hc) as (? & ? & _ & ?). by eapply UpdateState_size. }
  assert (Hchk : ∀ c bs, c ∈ checked_cells config ready → bank_states_ cs !! c = Some bs →
    earliest (Timing_of config) h c (cmd_type ready) ≤ clk).
  { intros c' bs' Hc' Hb'. rewrite <- (Hrel _ _ _ Hb' Hsz). by eapply GetReadyCommand_timing. }
  destruct (Hacc c Hc) as (bs & _ & Hb & _).
  destruct (type_eqb (cmd_type ready) SREF_EXIT) eqn:E.
  - assert (IsRankCMD req = false) as Hrk.
    { apply type_eqb_true in E. apply not_true_iff_false. intros Hrk.
      destruct (rank_request_type config cs req clk ready) as [|[? [|]]]; congruence. }
    destruct (bank_request_inv _ _ _ _ _ Hrk H Hv) as (bs' & Hb' & _).
    apply type_eqb_true in E. destruct c as [[r g] b].
    unfold target_cells in Hc. rewrite IsRankCMD_type, E in Hc.
    apply elem_of_rank_cells in Hc as [Hr _]. simpl in Hr. subst r.
    specialize (Hchk (cmd_coord ready) bs'). rewrite E in *.
    unfold cmd_coord in Hchk.
    rewrite (earliest_sref_exit config h _ g b (Bankgroup ready) (Bank ready)).
    apply Hchk; [|done]. unfold checked_cells. rewrite E. apply list_elem_of_singleton. done.
  - apply (Hchk c bs); [|done]. unfold checked_cells. by rewrite E.
Qed.

(** ** Activation windows *)

Lemma window_ok_mono limit delay w acts now now' :
  now ≤ now' → window_ok limit delay w acts now → window_ok limit delay w acts now'.
Proof.
  intros Hle [H1 H2 H3 H4]. split; try done. eapply Forall_impl; [exact H4|]. simpl. lia.
Qed.

Lemma window_ok_empty limit delay now : window_ok limit delay [] [] now.
Proof. split; simpl; try lia; done. Qed.

Lemma spaced_nil limit delay : spaced limit delay [].
Proof. intros i a a0 H. by rewrite lookup_nil in H. Qed.

(** The front of a window is the oldest activation it remembers. *)
Lemma window_front limit delay t w acts now :
  window_ok limit delay (t :: w) acts now →
  ∃ a, acts !! length w = Some a ∧ t = u64 (a + delay) ∧
    w = (λ a, u64 (a + delay)) <$> reverse (take (length w) acts).
Proof.
  intros [_ Hen Hc _]. rewrite length_cons in Hen, Hc.
  destruct (lookup_lt_is_Some_2 acts (length w)) as [a Ha]; [lia|].
  rewrite (take_S_r _ _ _ Ha), reverse_app in Hc. simpl in Hc. injection Hc as -> Hw.
  by exists a.
Qed.

Lemma window_issue limit delay w acts now clk :
  (0 < limit)%nat → now ≤ clk → window_ok limit delay w acts now →
  aw_ready limit w clk = true → window_ok limit delay (aw_push w clk delay) (clk :: acts) clk.
Proof.
  intros Hlim Hclk Hok Hready. apply (window_ok_mono _ _ _ _ _ _ Hclk) in Hok.
  assert (Hpush : ∀ w', window_ok limit delay w' acts clk → (length w' < limit)%nat →
    window_ok limit delay (w' ++ [u64 (clk + delay)]) (clk :: acts) clk).
  { intros w' [H1 H2 H3 H4] Hl. split; rewrite ?length_app; cbn [length].
    - lia.
    - lia.
    - rewrite Nat.add_comm. simpl. rewrite reverse_cons, fmap_app, <- H3. done.
    - by rewrite Nat.add_comm. }
  destruct w as [|t w]; unfold aw_push; [apply (Hpush []); [done|simpl; lia]|].
  destruct (t <=? clk) eqn:E; split_bool.
  - apply Hpush; [|apply wo_length in Hok; simpl in Hok; lia].
    destruct (window_front _ _ _ _ _ _ Hok) as (a & Ha & -> & Hw).
    destruct Hok as [H1 H2 _ H4]. simpl in *. split; [lia..|done|].
    rewrite (drop_S _ _ _ Ha). by constructor.
  - apply (Hpush (t :: w)); [done|]. unfold aw_ready in Hready.
    rewrite (proj2 (Z.ltb_lt _ _) E) in Hready. cbn [andb] in Hready. split_bool.
    lia.
Qed.

Lemma spaced_issue limit delay w acts now clk :
  (0 < limit)%nat → now ≤ clk → window_ok limit delay w acts now →
  aw_ready limit w clk = true → spaced limit delay acts → spaced limit delay (clk :: acts).
Proof.
  intros Hlim Hclk Hok Hready Hsp i a a0.
  destruct i as [|i]; [|by apply Hsp]. simpl. intros [= <-].
  destruct limit as [|n]; [lia|]. simpl. intros Ha0.
  destruct (decide (length w ≤ n)%nat) as [Hle|Hgt].
  - pose proof (wo_expired _ _ _ _ _ Hok) as Hex. rewrite Forall_lookup in Hex.
    enough (u64 (a0 + delay) ≤ now) by lia. apply (Hex (n - length w)%nat).
    rewrite lookup_drop. by replace (length w + (n - length w))%nat with n by lia.
  - pose proof (wo_length _ _ _ _ _ Hok) as Hlen. destruct w as [|t w]; [simpl in *; lia|].
    destruct (window_front _ _ _ _ _ _ Hok) as (a & Ha & -> & _). simpl in Hgt, Hlen.
    replace (length w) with n in Ha by lia. rewrite Ha0 in Ha. injection Ha as <-.
    unfold aw_ready in Hready. split_bool. apply andb_false_iff in Hready as [H|H]; split_bool.
    + done.
    + simpl in H. lia.
Qed.

Lemma activations_cons r clk cmd h :
  activations r ((clk, cmd) :: h)
  = if is_activation (cmd_type cmd) && (Rank cmd =? r) then clk :: activations r h
    else activations r h.
Proof. unfold activations. csimpl. by destruct (_ && _). Qed.

(** An activation is issued only when the windows of its rank allow it. *)
Lemma activation_allowed (config : Config) cs req clk ready :
  dims_ok config → GetReadyCommand config cs req clk = Ok ready → IsValid ready = true →
  is_activation (cmd_type ready) = true →
  ∃ w, four_aw_ cs !! Z.to_nat (Rank ready) = Some w ∧ aw_ready 4 w clk = true ∧
    (IsGDDR config = true →
     ∃ w', thirty_two_aw_ cs !! Z.to_nat (Rank ready) = Some w' ∧ aw_ready 32 w' clk = true).
Proof.
  intros Hd H Hv Ha. destruct (IsRankCMD req) eqn:Hrk.
  { exfalso. destruct (rank_request_type _ _ _ _ _ Hd Hrk H Hv) as [E|[E [E'|E']]];
      rewrite E in Ha; rewrite ?E' in Ha; discriminate. }
  destruct (bank_request_inv _ _ _ _ _ Hrk H Hv) as (_ & _ & _ & _ & _ & Hwin).
  specialize (Hwin Ha). unfold ActivationWindowOk, IsFAWReady, Is32AWReady in Hwin.
  apply bind_Ok in Hwin as (ok & H4 & Hwin).
  apply bind_Ok in H4 as (w & [_ Hw]%vget_Ok & [= <-]). exists w. split; [done|].
  destruct (IsGDDR config).
  - destruct (aw_ready 4 w clk); cbn [negb] in Hwin; [|discriminate]. split; [done|].
    intros _. apply bind_Ok in Hwin as (w' & [_ Hw']%vget_Ok & [= Hr]). by exists w'.
  - injection Hwin as ->. done.
Qed.

(** One command keeps the relation, whether or not it activates. *)
Lemma windows_rel_issue limit delay ws h now clk cmd :
  (0 < limit)%nat → now ≤ clk → 0 ≤ Rank cmd → windows_rel limit delay ws h now →
  (is_activation (cmd_type cmd) = true →
   ∃ w, ws !! Z.to_nat (Rank cmd) = Some w ∧ aw_ready limit w clk = true) →
  windows_rel limit delay
    (if is_activation (cmd_type cmd)
     then alter (λ w, aw_push w clk delay) (Z.to_nat (Rank cmd)) ws else ws)
    ((clk, cmd) :: h) clk.
Proof.
  intros Hlim Hclk Hrk Hrel Hact r w Hr. rewrite activations_cons.
  destruct (is_activation (cmd_type cmd)) eqn:Ha; cbn [andb].
  2:{ intros Hw. destruct (Hrel r w Hr Hw). eauto using window_ok_mono. }
  destruct (Rank cmd =? r) eqn:E; split_bool.
  - subst r. rewrite list_lookup_alter_eq. intros (w0 & Hw0 & ->)%fmap_Some.
    destruct (Hact eq_refl) as (w1 & Hw1 & Hready). simplify_eq.
    destruct (Hrel _ _ Hr Hw0). eauto using window_issue, spaced_issue.
  - rewrite list_lookup_alter_ne by lia. intros Hw.
    destruct (Hrel r w Hr Hw). eauto using window_ok_mono.
Qed.

Lemma run_windows (config : Config) timing h now cs :
  dims_ok config → run config timing h now cs →
  windows_rel 4 (tFAW config) (four_aw_ cs) h now ∧
  (IsGDDR config = true → windows_rel 32 (t32AW config) (thirty_two_aw_ cs) h now).
Proof.
  intros Hd. induction 1
    as [|h now cs clk req ready cs' Hrun IH Hclk Hrd Hv H|h now cs q _ IH|h now cs v _ IH Hv].
  - split; [|intros _]; intros r w _; simpl; intros [-> _]%lookup_replicate;
      (split; [apply window_ok_empty|apply spaced_nil]).
  - pose proof (run_wf _ _ Hd _ _ _ Hrun) as Hw.
    destruct (UpdateTimingAndStates_spec _ _ _ _ _ _ Hd Hw H) as (_ & Hin & _ & ->). simpl.
    assert (Hr0 : 0 ≤ Rank ready).
    { destruct Hin as [_ Hin]. destruct (is_rank_cmd_type _); [lia|destruct Hin as [? _]; lia]. }
    pose proof (activation_allowed _ _ _ _ _ Hd Hrd Hv) as Hact.
    destruct IH as [IH4 IH32]. split.
    + apply (windows_rel_issue 4 (tFAW config)) with (now := now); [lia|done..|].
      intros Ha. destruct (Hact Ha) as (w & ? & ? & _). eauto.
    + intros Hg. unfold thirty_two_after. rewrite Hg, andb_true_r.
      apply windows_rel_issue with (now := now); [lia|done|done|auto|].
      intros Ha. destruct (Hact Ha) as (w & _ & _ & Hw'). by apply Hw'.
  - exact IH.
  - exact IH.
Qed.

Lemma issue_all_run (config : Config) timing l h now cs h' now' cs' :
  run config timing h now cs → issue_all config timing l h now cs = Ok (h', now', cs') →
  run config timing h' now' cs'.
Proof.
  revert h now cs. induction l as [|[clk req] l IH]; intros h now cs Hrun.
  { by intros [= <- <- <-]. }
  cbn [issue_all]. intros ([] & Hle%ensure_Ok & (rd & Hrd & ([] & Hv%ensure_Ok &
    (cs1 & Hu & H)%bind_Ok)%bind_Ok)%bind_Ok)%bind_Ok. split_bool.
  eapply IH; [|exact H]. by eapply run_issue.
Qed.

(** A run that issues a list of requests, if every request is answered. *)
Lemma issue_all_exists (config : Config) timing l h :
  (x ← issue_all config timing l [] 0 (ChannelState_init config); Ok x.1.1) = Ok h →
  ∃ now cs, run config timing h now cs.
Proof.
  destruct (issue_all _ _ _ _ _ _) as [[[h' now'] cs']|] eqn:E; intros [= <-].
  exists now', cs'. eapply issue_all_run; [apply run_init|exact E].
Qed.

(** ** Properties *)

(** Timing safety: in every run, a command is issued no earlier than
    every delay that every earlier command imposes on each bank it executes
    on.  The delays are those of the timing tables for the position of the
    bank relative to the earlier command. *)
Theorem issued_commands_respect_timing (config : Config) h now cs h1 h2 h3 c1 c2 clk1 clk2 c d :
  dims_ok config → run config (Timing_of config) h now cs →
  h = h3 ++ (clk2, c2) :: h2 ++ (clk1, c1) :: h1 →
  c ∈ target_cells config c2 →
  (cmd_type c2, d) ∈ delays (Timing_of config) c1 c →
  0 ≤ clk1 + d < 2 ^ 64 →
  clk1 + d ≤ clk2.
Proof.
  intros Hd Hrun Hh Hc Hdel Hrange. revert h3 Hh. induction Hrun
    as [|h now cs clk req ready cs' Hrun IH Hclk Hrd Hv H|h now cs q _ IH|h now cs v _ IH Hv];
    intros h3 Hh; [by destruct h3| |by eapply IH..].
  destruct h3 as [|e h3]; simplify_eq/=; [|by eapply IH].
  rewrite <- (u64_id (clk1 + d)) by done. etrans; [by apply earliest_elem|].
  by eapply issue_respects_history.
Qed.

Lemma issued_commands_respect_timing_witness :
  let a := mkCommand ACTIVATE (mkAddress 0 0 1 2 5 0) 0 in
  let r := mkCommand READ (mkAddress 0 0 1 2 5 0) 0 in
  ∃ d, (READ, d) ∈ delays (Timing_of hbm2_config) a (0, 1, 2) ∧ 3 + d ≤ 40 ∧ 0 < d.
Proof.
  intros a r. exists (activate_to_read (Delays_of hbm2_config)).
  split; [vm_compute; do 2 right; left|]. split; [|vm_compute; reflexivity].
  destruct (issue_all_exists hbm2_config (Timing_of hbm2_config) [(3, r); (40, r)]
    [(40, r); (3, a)]) as (now & cs & Hrun); [vm_compute; reflexivity|].
  refine (issued_commands_respect_timing hbm2_config _ now cs [] [] [] a r 3 40 (0, 1, 2)
    (activate_to_read (Delays_of hbm2_config)) _ Hrun eq_refl _ _ _).
  - split; vm_compute; reflexivity.
  - vm_compute. left.
  - vm_compute. do 2 right. left.
  - by vm_compute.
Defined.

(** The four-activation window: in every run, five activations of the
    same rank are never issued within [tFAW] cycles, although the channel only
    remembers at most four expiry times per rank. *)
Theorem four_activation_window (config : Config) timing h now cs r i a a0 :
  dims_ok config → run config timing h now cs → 0 ≤ r < ranks config →
  activations r h !! i = Some a → activations r h !! (i + 4)%nat = Some a0 →
  0 ≤ a0 + tFAW config < 2 ^ 64 →
  a0 + tFAW config ≤ a ∧ ∃ w, four_aw_ cs !! Z.to_nat r = Some w ∧ (length w ≤ 4)%nat.
Proof.
  intros Hd Hrun Hr Ha Ha0 Hrange.
  destruct (run_windows _ _ _ _ _ Hd Hrun) as [H4 _].
  destruct (lookup_lt_is_Some_2 (four_aw_ cs) (Z.to_nat r)) as [w Hw].
  { rewrite (wf_four _ _ (run_wf _ _ Hd _ _ _ Hrun)). lia. }
  destruct (H4 r w) as [Hok Hsp]; [lia|done|]. split.
  - rewrite <- (u64_id (a0 + _)) by done. by eapply Hsp.
  - exists w. split; [done|]. by eapply wo_length.
Qed.

Lemma four_activation_window_witness :
  let req k := mkCommand READ (mkAddress 0 0 (k `div` 4) (k mod 4) 5 0) 0 in
  ∃ h, (∃ now cs, run hbm2_config (Timing_of hbm2_config) h now cs ∧
    ∃ w, four_aw_ cs !! 0%nat = Some w ∧ (length w ≤ 4)%nat) ∧
  activations 0 h = [400; 300; 200; 100; 0] ∧ 0 + tFAW hbm2_config ≤ 400.
Proof.
  intros req.
  set (reqs := (λ k, (100 * k, req k)) <$> [0; 1; 2; 3; 4]).
  set (h := (λ k, (100 * k, mkCommand ACTIVATE (mkAddress 0 0 (k `div` 4) (k mod 4) 5 0) 0))
    <$> [4; 3; 2; 1; 0]).
  destruct (issue_all_exists hbm2_config (Timing_of hbm2_config) reqs h)
    as (now & cs & Hrun); [vm_compute; reflexivity|].
  destruct (four_activation_window hbm2_config (Timing_of hbm2_config) h now cs 0 0 400 0)
    as [Ht Hw]; [split; vm_compute; reflexivity|exact Hrun|by vm_compute|reflexivity
                |reflexivity|by vm_compute|].
  exists h. split; [exists now, cs; split; [exact Hrun|exact Hw]|]. split; [reflexivity|exact Ht].
Defined.

(** A bank refresh does not delay the bank it refreshes: its delays are
    stored in the same-rank table, which [UpdateTiming] does not consult for
    this command, so the refreshed bank is left exactly as it was. *)
Theorem bank_refresh_leaves_bank (config : Config) cs cmd clk cs' :
  dims_ok config → chan_wf config cs → cmd_type cmd = REFRESH_BANK →
  UpdateTimingAndStates config (Timing_of config) cs cmd clk = Ok cs' →
  bank_states_ cs' !! cmd_coord cmd = bank_states_ cs !! cmd_coord cmd ∧
  (ACTIVATE, refresh_to_activate_bank (Delays_of config))
    ∈ same_rank (Timing_of config) REFRESH_BANK.
Proof.
  intros Hd Hw Ht H. split; [|left].
  destruct (UpdateTimingAndStates_spec _ _ _ _ _ _ Hd Hw H) as (Hacc & _ & Hb & _).
  rewrite Hb. unfold bank_after, delays, cmd_coord. rewrite Ht, !Z.eqb_refl. cbn [negb].
  destruct (bank_states_ cs !! _) as [bs|] eqn:E; [|done].
  cbn [fmap option_fmap option_map]. f_equal. simpl.
  case_bool_decide as Hc; [|done].
  pose proof (accepted_state_after _ _ _ _ _ Hacc Hc E) as Hu.
  unfold BankState.UpdateState in Hu. rewrite Ht in Hu.
  by destruct (state_ bs); [discriminate Hu|injection Hu as <-|discriminate Hu..].
Qed.

Lemma bank_refresh_leaves_bank_witness :
  ∃ cs', UpdateTimingAndStates hbm2_config (Timing_of hbm2_config)
      (ChannelState_init hbm2_config) (mkCommand REFRESH_BANK (mkAddress 0 0 1 2 0 0) 0) 7
      = Ok cs' ∧
    bank_states_ cs' !! (0, 1, 2) = Some BankState_init.
Proof.
  destruct (UpdateTimingAndStates_total hbm2_config (Timing_of hbm2_config)
    (ChannelState_init hbm2_config) (mkCommand REFRESH_BANK (mkAddress 0 0 1 2 0 0) 0) 7)
    as [cs' H]; [split; vm_compute; reflexivity|apply chan_wf_init| |].
  - intros c ->%list_elem_of_singleton. exists BankState_init.
    eexists. split; [apply ChannelState_init_lookup; by vm_compute|reflexivity].
  - exists cs'. split; [exact H|].
    destruct (bank_refresh_leaves_bank hbm2_config
      (ChannelState_init hbm2_config) (mkCommand REFRESH_BANK (mkAddress 0 0 1 2 0 0) 0) 7 cs')
      as [E _]; [split; vm_compute; reflexivity|apply chan_wf_init|reflexivity|exact H|].
    etransitivity; [exact E|]. apply ChannelState_init_lookup.
    split; [repeat split; vm_compute; congruence|reflexivity].
Defined.
