(* ===== verification/Refresh.v ===== *)
(** * Refresh: src/src/refresh.h and src/src/refresh.cc

    A counter of cycles that, every refresh interval, appends a refresh to the
    channel's queue of pending refreshes: of one rank, or of one bank in the
    fixed order bank group, bank, rank. *)
From stdpp Require Import base tactics numbers list list_numbers gmap strings sets.
From S2P Require Import Prelude Common Double Configuration Timing BankState ChannelState.

Local Open Scope Z_scope.

Record Refresh := mkRefresh {
  ref_clk_ : Z;
  refresh_interval_ : Z;
  refresh_policy_ : RefreshPolicy;
  next_rank_ : Z;
  next_bg_ : Z;
  next_bank_ : Z
}.

Definition Refresh_init (config : Config) : outcome Refresh :=
  interval ←
    match refresh_policy config with
    | RANK_LEVEL_SIMULTANEOUS => Ok (tREFI config)
    | BANK_LEVEL_STAGGERED => Ok (tREFIb config)
    | _ => idiv (tREFI config) (ranks config)
    end;
  Ok (mkRefresh 0 interval (refresh_policy config) 0 0 0).

Definition set_next (rf : Refresh) (r g b : Z) : Refresh :=
  mkRefresh (ref_clk_ rf) (refresh_interval_ rf) (refresh_policy_ rf) r g b.
Definition set_ref_clk (rf : Refresh) (clk : Z) : Refresh :=
  mkRefresh clk (refresh_interval_ rf) (refresh_policy_ rf) (next_rank_ rf) (next_bg_ rf)
    (next_bank_ rf).

(** [int] remainder, undefined for a zero divisor. *)
Definition irem (a b : Z) : outcome Z :=
  if b =? 0 then Fail DivisionByZero else Ok (Z.rem a b).

Definition IterateNext (config : Config) (rf : Refresh) : outcome Refresh :=
  match refresh_policy_ rf with
  | RANK_LEVEL_STAGGERED =>
      r ← irem (next_rank_ rf + 1) (ranks config);
      Ok (set_next rf r (next_bg_ rf) (next_bank_ rf))
  | BANK_LEVEL_STAGGERED =>
      g ← irem (next_bg_ rf + 1) (bankgroups config);
      if g =? 0 then
        b ← irem (next_bank_ rf + 1) (banks_per_group config);
        if b =? 0 then
          r ← irem (next_rank_ rf + 1) (ranks config);
          Ok (set_next rf r g b)
        else Ok (set_next rf (next_rank_ rf) g b)
      else Ok (set_next rf (next_rank_ rf) g (next_bank_ rf))
  | _ => Fail (AbruptExit "refresh.cc" 87)
  end.

(** The loop of the simultaneous policy, with its [break]. *)
Fixpoint simultaneous_scan (cs : ChannelState) (l : list Z) : outcome ChannelState :=
  match l with
  | [] => Ok cs
  | i :: l =>
      sref ← IsRankSelfRefreshing cs i;
      if negb sref then Ok (RankNeedRefresh cs i true) else simultaneous_scan cs l
  end.

Definition InsertRefresh (config : Config) (rf : Refresh) (cs : ChannelState)
    : outcome (Refresh * ChannelState) :=
  match refresh_policy_ rf with
  | RANK_LEVEL_SIMULTANEOUS =>
      cs ← simultaneous_scan cs (seqZ 0 (ranks config));
      Ok (rf, cs)
  | RANK_LEVEL_STAGGERED =>
      sref ← IsRankSelfRefreshing cs (next_rank_ rf);
      let cs := if negb sref then RankNeedRefresh cs (next_rank_ rf) true else cs in
      rf ← IterateNext config rf;
      Ok (rf, cs)
  | BANK_LEVEL_STAGGERED =>
      sref ← IsRankSelfRefreshing cs (next_rank_ rf);
      let cs := if negb sref
                then BankNeedRefresh cs (next_rank_ rf) (next_bg_ rf) (next_bank_ rf) true
                else cs in
      rf ← IterateNext config rf;
      Ok (rf, cs)
  | REFRESH_POLICY_SIZE => Fail (AbruptExit "refresh.cc" 64)
  end.

(** [clk_ % refresh_interval_] converts the interval to [uint64_t]. *)
Definition ClockTick (config : Config) (rf : Refresh) (cs : ChannelState)
    : outcome (Refresh * ChannelState) :=
  if u64 (refresh_interval_ rf) =? 0 then Fail DivisionByZero
  else
    '(rf, cs) ←
      (if (ref_clk_ rf mod u64 (refresh_interval_ rf) =? 0) && (0 <? ref_clk_ rf)
       then InsertRefresh config rf cs else Ok (rf, cs));
    Ok (set_ref_clk rf (u64 (ref_clk_ rf + 1)), cs).

Definition refresh_within (config : Config) (rf : Refresh) (bound : Z) : outcome bool :=
  m ← irem (Z.max 0 (s32 (ref_clk_ rf) - 1)) (refresh_interval_ rf);
  Ok (refresh_interval_ rf - m <? bound).

Definition pim_refresh_coming (config : Config) (rf : Refresh) : outcome bool :=
  refresh_within config rf (tRAS config + 3).
Definition pim_refresh_coming2 (config : Config) (rf : Refresh) : outcome bool :=
  refresh_within config rf 3.

(** ** Specification *)

(** The [n]-th bank of the round, counted in mixed radix. *)
Definition nth_bank (config : Config) (n : Z) : coord :=
  ((n `div` (bankgroups config * banks_per_group config)) mod ranks config,
   n mod bankgroups config,
   (n `div` bankgroups config) mod banks_per_group config).

Definition bank_refresh_cmd (c : coord) : Command :=
  let '(r, g, b) := c in mkCommand REFRESH_BANK (mkAddress (-1) r g b (-1) (-1)) (u64 (-1)).
Definition rank_refresh_cmd (r : Z) : Command :=
  mkCommand REFRESH (mkAddress (-1) r (-1) (-1) (-1) (-1)) (u64 (-1)).

(** The refresh the [n]-th insertion of a staggered policy asks for. *)
Definition nth_refresh (config : Config) (n : Z) : Command :=
  match refresh_policy config with
  | BANK_LEVEL_STAGGERED => bank_refresh_cmd (nth_bank config n)
  | _ => rank_refresh_cmd (n mod ranks config)
  end.

(** The state after [n] insertions at cycle [clk]. *)
Definition refresh_at (config : Config) (interval n clk : Z) : Refresh :=
  match refresh_policy config with
  | BANK_LEVEL_STAGGERED =>
      let '(r, g, b) := nth_bank config n in
      mkRefresh clk interval (refresh_policy config) r g b
  | _ => mkRefresh clk interval (refresh_policy config) (n mod ranks config) 0 0
  end.

Definition is_staggered (p : RefreshPolicy) : bool :=
  match p with RANK_LEVEL_STAGGERED | BANK_LEVEL_STAGGERED => true | _ => false end.

(** Ticking a number of times. *)
Fixpoint ticks (config : Config) (n : nat) (rf : Refresh) (cs : ChannelState)
    : outcome (Refresh * ChannelState) :=
  match n with
  | O => Ok (rf, cs)
  | S n => '(rf, cs) ← ticks config n rf cs; ClockTick config rf cs
  end.

(** The insertions made by the first [clk] ticks. *)
Definition insertions (interval clk : Z) : Z := Z.max 0 ((clk - 1) `div` interval).

(** No rank is self-refreshing. *)
Definition awake (config : Config) (cs : ChannelState) : Prop :=
  rank_is_sref_ cs = replicate (Z.to_nat (ranks config)) false.

(** A whole round of bank refreshes. *)
Definition round_length (config : Config) : Z :=
  bankgroups config * banks_per_group config * ranks config.

(** ** The order of bank refreshes *)

Lemma div_mod_succ n m :
  0 < m → 0 ≤ n →
  (n + 1) mod m = (if (n mod m + 1) mod m =? 0 then 0 else n mod m + 1) ∧
  (n + 1) `div` m = n `div` m + (if (n mod m + 1) mod m =? 0 then 1 else 0).
Proof.
  intros Hm Hn. pose proof (Z.mod_pos_bound n m Hm). pose proof (Z.div_mod n m ltac:(lia)).
  destruct (decide (n mod m + 1 = m)) as [E|E].
  - rewrite E, Z.mod_same by lia. cbn [Z.eqb]. split; symmetry.
    + apply (Z.mod_unique _ _ (n `div` m + 1)); [left; lia|lia].
    + apply (Z.div_unique _ _ _ 0); [left; lia|lia].
  - rewrite (Z.mod_small (n mod m + 1)), (proj2 (Z.eqb_neq _ _)) by lia. split; symmetry.
    + apply (Z.mod_unique _ _ (n `div` m)); [left; lia|lia].
    + apply (Z.div_unique _ _ _ (n mod m + 1)); [left; lia|lia].
Qed.

Lemma irem_pos a m : 0 < m → 0 ≤ a → irem a m = Ok (a mod m).
Proof.
  intros. unfold irem. rewrite (proj2 (Z.eqb_neq m 0)) by lia. by rewrite Z.rem_mod_nonneg by lia.
Qed.

Lemma irem_succ n m : 0 < m → irem (n mod m + 1) m = Ok ((n + 1) mod m).
Proof.
  intros Hm. pose proof (Z.mod_pos_bound n m Hm). rewrite irem_pos by lia.
  by rewrite Z.add_mod_idemp_l by lia.
Qed.

(** [IterateNext] moves from the [n]-th refresh to the next one. *)
Lemma IterateNext_nth (config : Config) interval n clk :
  dims_ok config → is_staggered (refresh_policy config) = true → 0 ≤ n →
  IterateNext config (refresh_at config interval n clk)
  = Ok (refresh_at config interval (n + 1) clk).
Proof.
  intros [Hr Hg Hb _] Hp Hn. unfold refresh_at, IterateNext, nth_bank.
  destruct (refresh_policy config); try discriminate Hp; cbn.
  - by rewrite irem_succ.
  - rewrite <- !Z.div_div by lia.
    set (m := n `div` bankgroups config).
    assert (0 ≤ m) by (apply Z.div_pos; lia).
    destruct (div_mod_succ n (bankgroups config)) as [_ E2]; [lia..|].
    destruct (div_mod_succ m (banks_per_group config)) as [_ E4]; [lia..|].
    rewrite Z.add_mod_idemp_l in E2, E4 by lia. rewrite E2. fold m.
    rewrite (irem_succ n) by done. cbn [mbind outcome_bind].
    destruct ((n + 1) mod _ =? 0) eqn:Eg; [|by rewrite Z.add_0_r].
    apply Z.eqb_eq in Eg. rewrite Eg, (irem_succ m) by done. cbn [mbind outcome_bind]. rewrite E4.
    destruct ((m + 1) mod _ =? 0) eqn:Eb; [|by rewrite Z.add_0_r].
    by rewrite irem_succ.
Qed.

(** The order visits every bank exactly once in a round. *)
Lemma nth_bank_valid (config : Config) n : dims_ok config → valid_coord config (nth_bank config n).
Proof.
  intros [Hr Hg Hb _]. unfold nth_bank, valid_coord. repeat split; apply Z.mod_pos_bound; lia.
Qed.

Lemma nth_bank_inverse (config : Config) r g b :
  dims_ok config → valid_coord config (r, g, b) →
  let n := g + bankgroups config * (b + banks_per_group config * r) in
  nth_bank config n = (r, g, b) ∧ 0 ≤ n < round_length config.
Proof.
  intros [Hr Hg Hb _] (H1 & H2 & H3) n. unfold nth_bank, round_length.
  assert (0 ≤ b + banks_per_group config * r < banks_per_group config * ranks config) as Hbr by nia.
  split; [|unfold n; nia].
  rewrite <- Z.div_div by lia.
  assert (n `div` bankgroups config = b + banks_per_group config * r) as ->.
  { symmetry. apply (Z.div_unique _ _ _ g); [left; lia|unfold n; lia]. }
  assert (n mod bankgroups config = g) as ->.
  { symmetry. apply (Z.mod_unique _ _ (b + banks_per_group config * r)); [left; lia|unfold n; lia]. }
  assert ((b + banks_per_group config * r) `div` banks_per_group config = r) as ->.
  { symmetry. apply (Z.div_unique _ _ _ b); [left; lia|lia]. }
  assert ((b + banks_per_group config * r) mod banks_per_group config = b) as ->.
  { symmetry. apply (Z.mod_unique _ _ r); [left; lia|lia]. }
  by rewrite Z.mod_small by lia.
Qed.

Lemma nth_bank_inj (config : Config) n m :
  dims_ok config → 0 ≤ n < round_length config → 0 ≤ m < round_length config →
  nth_bank config n = nth_bank config m → n = m.
Proof.
  unfold round_length. intros [Hr Hg Hb _] Hn Hm. unfold nth_bank. rewrite <- !Z.div_div by lia.
  intros [= E1 E2 E3].
  rewrite !(Z.mod_small _ (ranks config)) in E1.
  - pose proof (Z.div_mod n (bankgroups config)). pose proof (Z.div_mod m (bankgroups config)).
    pose proof (Z.div_mod (n `div` bankgroups config) (banks_per_group config)).
    pose proof (Z.div_mod (m `div` bankgroups config) (banks_per_group config)).
    rewrite E1, E3 in *. lia.
  - split; [apply Z.div_pos; [apply Z.div_pos|]; lia|].
    apply Z.div_lt_upper_bound; [lia|]. apply Z.div_lt_upper_bound; lia.
  - split; [apply Z.div_pos; [apply Z.div_pos|]; lia|].
    apply Z.div_lt_upper_bound; [lia|]. apply Z.div_lt_upper_bound; lia.
Qed.

(** ** The schedule *)

Lemma awake_rank (config : Config) cs r :
  awake config cs → 0 ≤ r < ranks config → IsRankSelfRefreshing cs r = Ok false.
Proof.
  intros Ha Hr. unfold IsRankSelfRefreshing. rewrite Ha. apply vget_Ok. split; [lia|].
  apply lookup_replicate. split; [done|lia].
Qed.

Lemma InsertRefresh_nth (config : Config) interval n clk cs :
  dims_ok config → is_staggered (refresh_policy config) = true → 0 ≤ n → awake config cs →
  InsertRefresh config (refresh_at config interval n clk) cs
  = Ok (refresh_at config interval (n + 1) clk,
        set_refresh_q (refresh_q_ cs ++ [nth_refresh config n]) cs).
Proof.
  intros Hd Hp Hn Ha. pose proof (IterateNext_nth config interval n clk Hd Hp Hn) as Hit.
  pose proof (nth_bank_valid config n Hd) as Hv.
  pose proof (Z.mod_pos_bound n (ranks config) (ranks_pos _ Hd)) as Hr.
  unfold InsertRefresh. unfold refresh_at, nth_refresh in *.
  destruct (refresh_policy config); try discriminate Hp.
  - cbn [refresh_policy_ next_rank_]. rewrite (awake_rank config) by done.
    cbn [mbind outcome_bind negb]. by rewrite Hit.
  - destruct (nth_bank config n) as [[r g] b]. cbn [refresh_policy_ next_rank_].
    rewrite (awake_rank config) by (done || apply Hv).
    cbn [mbind outcome_bind negb]. by rewrite Hit.
Qed.

Lemma refresh_at_clk (config : Config) interval n clk clk' :
  set_ref_clk (refresh_at config interval n clk) clk' = refresh_at config interval n clk'.
Proof. unfold refresh_at, set_ref_clk. by repeat case_match. Qed.

Lemma refresh_at_fields (config : Config) interval n clk :
  ref_clk_ (refresh_at config interval n clk) = clk ∧
  refresh_interval_ (refresh_at config interval n clk) = interval.
Proof. unfold refresh_at. by repeat case_match. Qed.

Lemma Refresh_init_at (config : Config) rf :
  dims_ok config → Refresh_init config = Ok rf →
  rf = refresh_at config (refresh_interval_ rf) 0 0.
Proof.
  intros [Hr Hg Hb _]. unfold Refresh_init, refresh_at, nth_bank.
  intros (i & Hi & [= <-])%bind_Ok. cbn.
  by case_match.
Qed.

Lemma insertions_step interval clk :
  0 < interval → 0 ≤ clk →
  insertions interval (clk + 1)
  = insertions interval clk + (if (clk mod interval =? 0) && (0 <? clk) then 1 else 0).
Proof.
  intros Hi Hc. unfold insertions. rewrite Z.add_simpl_r.
  destruct (decide (clk = 0)) as [->|Hne].
  { rewrite Z.div_0_l, andb_false_r by lia.
    pose proof (Z.div_lt_upper_bound (0 - 1) interval 0). lia. }
  rewrite (proj2 (Z.ltb_lt 0 clk)), andb_true_r by lia.
  destruct (div_mod_succ (clk - 1) interval) as [E1 E2]; [lia..|].
  rewrite Z.add_mod_idemp_l, Z.sub_add in E1, E2 by lia.
  pose proof (Z.div_pos (clk - 1) interval). rewrite E2. destruct (_ =? 0); lia.
Qed.

Lemma ClockTick_nth (config : Config) interval clk cs :
  dims_ok config → is_staggered (refresh_policy config) = true →
  0 < interval < 2 ^ 31 → 0 ≤ clk < 2 ^ 64 - 1 → awake config cs →
  ClockTick config (refresh_at config interval (insertions interval clk) clk) cs
  = Ok (refresh_at config interval (insertions interval (clk + 1)) (clk + 1),
        set_refresh_q (refresh_q_ cs
          ++ (nth_refresh config <$> seqZ (insertions interval clk)
                (insertions interval (clk + 1) - insertions interval clk))) cs).
Proof.
  intros Hd Hp Hi Hc Ha. unfold ClockTick.
  destruct (refresh_at_fields config interval (insertions interval clk) clk) as [-> ->].
  rewrite (u64_id interval), (proj2 (Z.eqb_neq interval 0)) by lia.
  assert (0 ≤ insertions interval clk) by (unfold insertions; lia).
  rewrite insertions_step by lia. destruct (_ && _).
  - rewrite InsertRefresh_nth by done. cbn [mbind outcome_bind].
    destruct (refresh_at_fields config interval (insertions interval clk + 1) clk) as [-> _].
    rewrite refresh_at_clk, u64_id by lia.
    replace (insertions interval clk + 1 - insertions interval clk) with 1 by lia.
    by rewrite seqZ_cons by lia.
  - cbn [mbind outcome_bind].
    destruct (refresh_at_fields config interval (insertions interval clk) clk) as [-> _].
    rewrite refresh_at_clk, u64_id, Z.add_0_r, Z.sub_diag by lia. cbn.
    rewrite app_nil_r. by destruct cs.
Qed.

Lemma ticks_nth (config : Config) interval n cs :
  dims_ok config → is_staggered (refresh_policy config) = true →
  0 < interval < 2 ^ 31 → Z.of_nat n < 2 ^ 64 → awake config cs →
  ticks config n (refresh_at config interval 0 0) cs
  = Ok (refresh_at config interval (insertions interval (Z.of_nat n)) (Z.of_nat n),
        set_refresh_q (refresh_q_ cs
          ++ (nth_refresh config <$> seqZ 0 (insertions interval (Z.of_nat n)))) cs).
Proof.
  intros Hd Hp Hi Hn Ha. induction n as [|n IH].
  { assert (insertions interval (Z.of_nat 0) = 0) as ->.
    { unfold insertions. pose proof (Z.div_lt_upper_bound (0 - 1) interval 0). simpl. lia. }
    cbn. rewrite app_nil_r. by destruct cs. }
  cbn [ticks]. rewrite IH by lia. cbn [mbind outcome_bind].
  rewrite ClockTick_nth by (done || lia). replace (Z.of_nat (S n)) with (Z.of_nat n + 1) by lia.
  assert (∀ q q', set_refresh_q q (set_refresh_q q' cs) = set_refresh_q q cs) as -> by done.
  do 3 f_equal. cbn [set_refresh_q refresh_q_]. rewrite <- (assoc (++)), <- fmap_app.
  assert (0 ≤ insertions interval (Z.of_nat n) ≤ insertions interval (Z.of_nat n + 1)).
  { rewrite insertions_step by lia. unfold insertions at 1. destruct (_ && _); lia. }
  do 2 f_equal. rewrite <- (Z.add_0_l (insertions interval (Z.of_nat n))) at 2.
  rewrite <- seqZ_app by lia. f_equal. lia.
Qed.

(** ** Anticipating a refresh *)

Lemma next_multiple m i :
  0 < i → 0 ≤ m → ∀ bound,
  i - m mod i < bound ↔ ∃ k, m < k < m + bound ∧ k mod i = 0.
Proof.
  intros Hi Hm bound. pose proof (Z.mod_pos_bound m i Hi). pose proof (Z.div_mod m i ltac:(lia)).
  split.
  - intros Hb. exists (m + (i - m mod i)). split; [lia|].
    symmetry. apply (Z.mod_unique _ _ (m `div` i + 1)); [left; lia|lia].
  - intros (k & Hk & Hk0). pose proof (Z.div_mod k i ltac:(lia)).
    assert (m `div` i < k `div` i) by nia. nia.
Qed.

Lemma refresh_within_spec (config : Config) rf bound :
  0 < refresh_interval_ rf → 1 ≤ ref_clk_ rf < 2 ^ 31 →
  ∃ b, refresh_within config rf bound = Ok b ∧
    (b = true ↔ ∃ k, ref_clk_ rf - 1 < k < ref_clk_ rf - 1 + bound ∧
       k mod refresh_interval_ rf = 0).
Proof.
  intros Hi Hc. unfold refresh_within. rewrite s32_id, Z.max_r by lia.
  rewrite irem_pos by lia. cbn [mbind outcome_bind].
  eexists. split; [reflexivity|]. rewrite Z.ltb_lt. apply next_multiple; lia.
Qed.

(** ** Properties *)

(** [C32] The refresh schedule: under a staggered policy and while no rank is
    self-refreshing, [n] clock ticks append exactly one refresh per completed
    interval, and the [k]-th one names the [k]-th rank, or the [k]-th bank, of
    the round. *)
Theorem refresh_schedule (config : Config) rf cs n :
  dims_ok config → is_staggered (refresh_policy config) = true →
  Refresh_init config = Ok rf → 0 < refresh_interval_ rf < 2 ^ 31 →
  awake config cs → Z.of_nat n < 2 ^ 64 →
  ∃ rf', ticks config n rf cs
    = Ok (rf', set_refresh_q (refresh_q_ cs ++ (nth_refresh config <$>
            seqZ 0 (insertions (refresh_interval_ rf) (Z.of_nat n)))) cs) ∧
    ref_clk_ rf' = Z.of_nat n.
Proof.
  intros Hd Hp Hinit Hi Ha Hn. pose proof (Refresh_init_at _ _ Hd Hinit) as E.
  set (i := refresh_interval_ rf) in *. clearbody i. rewrite E, ticks_nth by done. eexists. split; [reflexivity|].
  apply refresh_at_fields.
Qed.

Lemma refresh_schedule_witness :
  ∃ rf rf', Refresh_init ddr4_config = Ok rf ∧
    ticks ddr4_config 4000 rf (ChannelState_init ddr4_config)
    = Ok (rf', set_refresh_q (nth_refresh ddr4_config <$>
            seqZ 0 (insertions (refresh_interval_ rf) 4000)) (ChannelState_init ddr4_config)) ∧
    0 < insertions (refresh_interval_ rf) 4000.
Proof.
  destruct (Refresh_init ddr4_config) as [rf|] eqn:E; [|vm_compute in E; discriminate].
  exists rf. assert (E' := E). vm_compute in E'. injection E' as <-.
  destruct (refresh_schedule ddr4_config _ (ChannelState_init ddr4_config) 4000
    ltac:(split; vm_compute; reflexivity)
    ltac:(vm_compute; reflexivity) E) as (rf' & H & _);
    [split; vm_compute; reflexivity|vm_compute; reflexivity|vm_compute; reflexivity|].
  exists rf'. split; [reflexivity|]. split; [exact H|vm_compute; reflexivity].
Defined.

(** Fairness of bank-level refresh: a round visits every bank of the
    channel, and visits it only once; no other coordinate is ever named. *)
Theorem bank_refresh_round (config : Config) :
  dims_ok config →
  NoDup (nth_bank config <$> seqZ 0 (round_length config)) ∧
  ∀ c, c ∈ (nth_bank config <$> seqZ 0 (round_length config)) ↔ valid_coord config c.
Proof.
  intros Hd. split.
  - apply NoDup_fmap_2_strong; [|apply NoDup_seqZ].
    intros n m Hn%elem_of_range Hm%elem_of_range. by apply nth_bank_inj.
  - intros c. rewrite list_elem_of_fmap. split.
    + intros (n & -> & _). by apply nth_bank_valid.
    + intros Hv. destruct c as [[r g] b].
      destruct (nth_bank_inverse config r g b Hd Hv) as [E Hn].
      eexists. split; [by rewrite E|]. by apply elem_of_range.
Qed.

Lemma bank_refresh_round_witness :
  (1, 1, 0) ∈ (nth_bank ddr4_config <$> seqZ 0 (round_length ddr4_config)).
Proof.
  apply (bank_refresh_round ddr4_config); [split; vm_compute; reflexivity|].
  repeat split; vm_compute; congruence.
Defined.

(** [C37] [pim_refresh_coming] anticipates refreshes exactly: after the tick of
    cycle [clk - 1] it answers true if and only if a refresh is due less than
    [tRAS + 3] cycles later.  This holds for a positive interval and as long as
    [clk] is below 2^31: the code converts it to [int]. *)
Theorem pim_refresh_coming_exact (config : Config) rf :
  0 < refresh_interval_ rf → 1 ≤ ref_clk_ rf < 2 ^ 31 →
  ∃ b, pim_refresh_coming config rf = Ok b ∧
    (b = true ↔ ∃ k, ref_clk_ rf - 1 < k < ref_clk_ rf - 1 + (tRAS config + 3) ∧
       k mod refresh_interval_ rf = 0).
Proof. apply refresh_within_spec. Qed.

Lemma pim_refresh_coming_exact_witness :
  ∃ b, pim_refresh_coming hbm2_config (mkRefresh 95 100 RANK_LEVEL_STAGGERED 0 0 0) = Ok b ∧
    (b = true ↔ ∃ k, 95 - 1 < k < 95 - 1 + (tRAS hbm2_config + 3) ∧ k mod 100 = 0).
Proof.
  apply (pim_refresh_coming_exact hbm2_config (mkRefresh 95 100 RANK_LEVEL_STAGGERED 0 0 0));
    simpl; lia.
Defined.

(** The simultaneous policy refreshes one rank only: with all ranks
    awake, an insertion requests a refresh of rank 0 and of no other rank, so
    the remaining ranks are never refreshed. *)
Theorem simultaneous_refreshes_first_rank (config : Config) rf cs :
  dims_ok config → awake config cs → refresh_policy_ rf = RANK_LEVEL_SIMULTANEOUS →
  InsertRefresh config rf cs
  = Ok (rf, set_refresh_q (refresh_q_ cs ++ [rank_refresh_cmd 0]) cs).
Proof.
  intros Hd Ha Hp. unfold InsertRefresh. rewrite Hp.
  pose proof (ranks_pos _ Hd) as Hr. rewrite seqZ_cons by lia. cbn [simultaneous_scan].
  by rewrite (awake_rank config) by (done || lia).
Qed.

Lemma simultaneous_refreshes_first_rank_witness :
  InsertRefresh ddr4_config (mkRefresh 100 100 RANK_LEVEL_SIMULTANEOUS 0 0 0)
    (ChannelState_init ddr4_config)
  = Ok (mkRefresh 100 100 RANK_LEVEL_SIMULTANEOUS 0 0 0,
        set_refresh_q [rank_refresh_cmd 0] (ChannelState_init ddr4_config)).
Proof.
  apply (simultaneous_refreshes_first_rank ddr4_config);
    [split; vm_compute; reflexivity|vm_compute; reflexivity|reflexivity].
Defined.
