(* ===== verification/SimpleStats.v ===== *)
(** * Statistics: src/src/simple_stats.h and src/src/simple_stats.cc

    Named counters, vectors of counters, histograms and derived energies, kept
    for the current epoch and for the whole simulation.  A
    [std::unordered_map] is a finite map; the order in which the program
    iterates over one is unspecified, and stands here for the order of
    [map_to_list].  Reading a name that was never registered yields zero or an
    empty container, as [operator[]] does; the constructor registers every
    name the class itself uses. *)
From stdpp Require Import base tactics numbers list list_numbers gmap strings sets pretty.
From S2P Require Import Prelude Common Double Configuration.

Local Open Scope Z_scope.

(** The values stored in the JSON document. *)
Inductive Json :=
| JNull
| JNum (z : Z)
| JDouble (d : double)
| JObj (l : list (string * Json)).

Record SimpleStats := mkSimpleStats {
  channel_id_ : Z;
  header_descs_ : gmap string string;
  counters_ : gmap string Z;
  epoch_counters_ : gmap string Z;
  vec_counters_ : gmap string (list Z);
  epoch_vec_counters_ : gmap string (list Z);
  doubles_ : gmap string double;
  vec_doubles_ : gmap string (list double);
  calculated_ : gmap string double;
  histo_headers_ : gmap string (list string);
  histo_bounds_ : gmap string (Z * Z);
  bin_widths_ : gmap string Z;
  histo_counts_ : gmap string (gmap Z Z);
  epoch_histo_counts_ : gmap string (gmap Z Z);
  histo_bins_ : gmap string (list Z);
  epoch_histo_bins_ : gmap string (list Z);
  j_data_ : gmap string Json;
  print_pairs_ : list (string * string)
}.

Definition set_header_descs_ (v : gmap string string) (s : SimpleStats) : SimpleStats :=
  mkSimpleStats (channel_id_ s) v (counters_ s) (epoch_counters_ s) (vec_counters_ s)
    (epoch_vec_counters_ s) (doubles_ s) (vec_doubles_ s) (calculated_ s) (histo_headers_ s)
    (histo_bounds_ s) (bin_widths_ s) (histo_counts_ s) (epoch_histo_counts_ s) (histo_bins_
    s) (epoch_histo_bins_ s) (j_data_ s) (print_pairs_ s).
Definition set_counters_ (v : gmap string Z) (s : SimpleStats) : SimpleStats :=
  mkSimpleStats (channel_id_ s) (header_descs_ s) v (epoch_counters_ s) (vec_counters_ s)
    (epoch_vec_counters_ s) (doubles_ s) (vec_doubles_ s) (calculated_ s) (histo_headers_ s)
    (histo_bounds_ s) (bin_widths_ s) (histo_counts_ s) (epoch_histo_counts_ s) (histo_bins_
    s) (epoch_histo_bins_ s) (j_data_ s) (print_pairs_ s).
Definition set_epoch_counters_ (v : gmap string Z) (s : SimpleStats) : SimpleStats :=
  mkSimpleStats (channel_id_ s) (header_descs_ s) (counters_ s) v (vec_counters_ s)
    (epoch_vec_counters_ s) (doubles_ s) (vec_doubles_ s) (calculated_ s) (histo_headers_ s)
    (histo_bounds_ s) (bin_widths_ s) (histo_counts_ s) (epoch_histo_counts_ s) (histo_bins_
    s) (epoch_histo_bins_ s) (j_data_ s) (print_pairs_ s).
Definition set_vec_counters_ (v : gmap string (list Z)) (s : SimpleStats) : SimpleStats :=
  mkSimpleStats (channel_id_ s) (header_descs_ s) (counters_ s) (epoch_counters_ s) v
    (epoch_vec_counters_ s) (doubles_ s) (vec_doubles_ s) (calculated_ s) (histo_headers_ s)
    (histo_bounds_ s) (bin_widths_ s) (histo_counts_ s) (epoch_histo_counts_ s) (histo_bins_
    s) (epoch_histo_bins_ s) (j_data_ s) (print_pairs_ s).
Definition set_epoch_vec_counters_ (v : gmap string (list Z)) (s : SimpleStats) : SimpleStats :=
  mkSimpleStats (channel_id_ s) (header_descs_ s) (counters_ s) (epoch_counters_ s)
    (vec_counters_ s) v (doubles_ s) (vec_doubles_ s) (calculated_ s) (histo_headers_ s)
    (histo_bounds_ s) (bin_widths_ s) (histo_counts_ s) (epoch_histo_counts_ s) (histo_bins_
    s) (epoch_histo_bins_ s) (j_data_ s) (print_pairs_ s).
Definition set_doubles_ (v : gmap string double) (s : SimpleStats) : SimpleStats :=
  mkSimpleStats (channel_id_ s) (header_descs_ s) (counters_ s) (epoch_counters_ s)
    (vec_counters_ s) (epoch_vec_counters_ s) v (vec_doubles_ s) (calculated_ s)
    (histo_headers_ s) (histo_bounds_ s) (bin_widths_ s) (histo_counts_ s)
    (epoch_histo_counts_ s) (histo_bins_ s) (epoch_histo_bins_ s) (j_data_ s) (print_pairs_
    s).
Definition set_vec_doubles_ (v : gmap string (list double)) (s : SimpleStats) : SimpleStats :=
  mkSimpleStats (channel_id_ s) (header_descs_ s) (counters_ s) (epoch_counters_ s)
    (vec_counters_ s) (epoch_vec_counters_ s) (doubles_ s) v (calculated_ s) (histo_headers_
    s) (histo_bounds_ s) (bin_widths_ s) (histo_counts_ s) (epoch_histo_counts_ s)
    (histo_bins_ s) (epoch_histo_bins_ s) (j_data_ s) (print_pairs_ s).
Definition set_calculated_ (v : gmap string double) (s : SimpleStats) : SimpleStats :=
  mkSimpleStats (channel_id_ s) (header_descs_ s) (counters_ s) (epoch_counters_ s)
    (vec_counters_ s) (epoch_vec_counters_ s) (doubles_ s) (vec_doubles_ s) v
    (histo_headers_ s) (histo_bounds_ s) (bin_widths_ s) (histo_counts_ s)
    (epoch_histo_counts_ s) (histo_bins_ s) (epoch_histo_bins_ s) (j_data_ s) (print_pairs_
    s).
Definition set_histo_headers_ (v : gmap string (list string)) (s : SimpleStats) : SimpleStats :=
  mkSimpleStats (channel_id_ s) (header_descs_ s) (counters_ s) (epoch_counters_ s)
    (vec_counters_ s) (epoch_vec_counters_ s) (doubles_ s) (vec_doubles_ s) (calculated_ s)
    v (histo_bounds_ s) (bin_widths_ s) (histo_counts_ s) (epoch_histo_counts_ s)
    (histo_bins_ s) (epoch_histo_bins_ s) (j_data_ s) (print_pairs_ s).
Definition set_histo_bounds_ (v : gmap string (Z * Z)) (s : SimpleStats) : SimpleStats :=
  mkSimpleStats (channel_id_ s) (header_descs_ s) (counters_ s) (epoch_counters_ s)
    (vec_counters_ s) (epoch_vec_counters_ s) (doubles_ s) (vec_doubles_ s) (calculated_ s)
    (histo_headers_ s) v (bin_widths_ s) (histo_counts_ s) (epoch_histo_counts_ s)
    (histo_bins_ s) (epoch_histo_bins_ s) (j_data_ s) (print_pairs_ s).
Definition set_bin_widths_ (v : gmap string Z) (s : SimpleStats) : SimpleStats :=
  mkSimpleStats (channel_id_ s) (header_descs_ s) (counters_ s) (epoch_counters_ s)
    (vec_counters_ s) (epoch_vec_counters_ s) (doubles_ s) (vec_doubles_ s) (calculated_ s)
    (histo_headers_ s) (histo_bounds_ s) v (histo_counts_ s) (epoch_histo_counts_ s)
    (histo_bins_ s) (epoch_histo_bins_ s) (j_data_ s) (print_pairs_ s).
Definition set_histo_counts_ (v : gmap string (gmap Z Z)) (s : SimpleStats) : SimpleStats :=
  mkSimpleStats (channel_id_ s) (header_descs_ s) (counters_ s) (epoch_counters_ s)
    (vec_counters_ s) (epoch_vec_counters_ s) (doubles_ s) (vec_doubles_ s) (calculated_ s)
    (histo_headers_ s) (histo_bounds_ s) (bin_widths_ s) v (epoch_histo_counts_ s)
    (histo_bins_ s) (epoch_histo_bins_ s) (j_data_ s) (print_pairs_ s).
Definition set_epoch_histo_counts_ (v : gmap string (gmap Z Z)) (s : SimpleStats) : SimpleStats :=
  mkSimpleStats (channel_id_ s) (header_descs_ s) (counters_ s) (epoch_counters_ s)
    (vec_counters_ s) (epoch_vec_counters_ s) (doubles_ s) (vec_doubles_ s) (calculated_ s)
    (histo_headers_ s) (histo_bounds_ s) (bin_widths_ s) (histo_counts_ s) v (histo_bins_ s)
    (epoch_histo_bins_ s) (j_data_ s) (print_pairs_ s).
Definition set_histo_bins_ (v : gmap string (list Z)) (s : SimpleStats) : SimpleStats :=
  mkSimpleStats (channel_id_ s) (header_descs_ s) (counters_ s) (epoch_counters_ s)
    (vec_counters_ s) (epoch_vec_counters_ s) (doubles_ s) (vec_doubles_ s) (calculated_ s)
    (histo_headers_ s) (histo_bounds_ s) (bin_widths_ s) (histo_counts_ s)
    (epoch_histo_counts_ s) v (epoch_histo_bins_ s) (j_data_ s) (print_pairs_ s).
Definition set_epoch_histo_bins_ (v : gmap string (list Z)) (s : SimpleStats) : SimpleStats :=
  mkSimpleStats (channel_id_ s) (header_descs_ s) (counters_ s) (epoch_counters_ s)
    (vec_counters_ s) (epoch_vec_counters_ s) (doubles_ s) (vec_doubles_ s) (calculated_ s)
    (histo_headers_ s) (histo_bounds_ s) (bin_widths_ s) (histo_counts_ s)
    (epoch_histo_counts_ s) (histo_bins_ s) v (j_data_ s) (print_pairs_ s).
Definition set_j_data_ (v : gmap string Json) (s : SimpleStats) : SimpleStats :=
  mkSimpleStats (channel_id_ s) (header_descs_ s) (counters_ s) (epoch_counters_ s)
    (vec_counters_ s) (epoch_vec_counters_ s) (doubles_ s) (vec_doubles_ s) (calculated_ s)
    (histo_headers_ s) (histo_bounds_ s) (bin_widths_ s) (histo_counts_ s)
    (epoch_histo_counts_ s) (histo_bins_ s) (epoch_histo_bins_ s) v (print_pairs_ s).
Definition set_print_pairs_ (v : list (string * string)) (s : SimpleStats) : SimpleStats :=
  mkSimpleStats (channel_id_ s) (header_descs_ s) (counters_ s) (epoch_counters_ s)
    (vec_counters_ s) (epoch_vec_counters_ s) (doubles_ s) (vec_doubles_ s) (calculated_ s)
    (histo_headers_ s) (histo_bounds_ s) (bin_widths_ s) (histo_counts_ s)
    (epoch_histo_counts_ s) (histo_bins_ s) (epoch_histo_bins_ s) (j_data_ s) v.

(** [m[k]] of an [unordered_map], read. *)
Definition get_or {A} (d : A) (m : gmap string A) (k : string) : A := default d (m !! k).

(** [m.emplace(k, v)] keeps an existing entry. *)
Definition emplace {A} (k : string) (v : A) (m : gmap string A) : gmap string A :=
  match m !! k with Some _ => m | None => <[k := v]> m end.

Definition zero : double := d_of_Z 0.

(** ** Registration *)

Definition InitStat (name stat_type description : string) (s : SimpleStats) : SimpleStats :=
  let s := set_header_descs_ (emplace name description (header_descs_ s)) s in
  if bool_decide (stat_type = "counter"%string) then
    set_epoch_counters_ (emplace name 0 (epoch_counters_ s))
      (set_counters_ (emplace name 0 (counters_ s)) s)
  else if bool_decide (stat_type = "double"%string) then
    set_doubles_ (emplace name zero (doubles_ s)) s
  else if bool_decide (stat_type = "calculated"%string) then
    set_calculated_ (emplace name zero (calculated_ s)) s
  else s.

Definition InitVecStat (name stat_type description part_name : string) (vec_len : Z)
    (s : SimpleStats) : SimpleStats :=
  let descs :=
    foldl (λ m i,
      let trailing := ("." +:+ pretty i)%string in
      emplace (name +:+ trailing) (description +:+ " " +:+ part_name +:+ trailing) m)
      (header_descs_ s) (seqZ 0 vec_len) in
  let s := set_header_descs_ descs s in
  let n := Z.to_nat vec_len in
  if bool_decide (stat_type = "vec_counter"%string) then
    set_epoch_vec_counters_ (emplace name (replicate n 0) (epoch_vec_counters_ s))
      (set_vec_counters_ (emplace name (replicate n 0) (vec_counters_ s)) s)
  else if bool_decide (stat_type = "vec_double"%string) then
    set_vec_doubles_ (emplace name (replicate n zero) (vec_doubles_ s)) s
  else s.

(** The bucket names of a histogram. *)
Definition histo_names (name : string) (start_val end_val num_bins : Z) : list string :=
  let bin_width := Z.quot (end_val - start_val) num_bins in
  [name +:+ "[-" +:+ pretty start_val +:+ "]"]
  ++ ((λ i,
         let bucket_start := start_val + (i - 1) * bin_width in
         let bucket_end := start_val + i * bin_width - 1 in
         name +:+ "[" +:+ pretty bucket_start +:+ "-" +:+ pretty bucket_end +:+ "]")
      <$> seqZ 1 num_bins)
  ++ [name +:+ "[" +:+ pretty end_val +:+ "-]"].

Definition InitHistoStat (name description : string) (start_val end_val num_bins : Z)
    (s : SimpleStats) : SimpleStats :=
  let headers := histo_names name start_val end_val num_bins in
  let bins := replicate (Z.to_nat (num_bins + 2)) 0 in
  let s := set_bin_widths_
    (emplace name (Z.quot (end_val - start_val) num_bins) (bin_widths_ s)) s in
  let s := set_histo_bounds_ (emplace name (start_val, end_val) (histo_bounds_ s)) s in
  let s := set_histo_counts_ (emplace name ∅ (histo_counts_ s)) s in
  let s := set_epoch_histo_counts_ (emplace name ∅ (epoch_histo_counts_ s)) s in
  let s := set_header_descs_
    (foldl (λ m h, emplace h description m) (header_descs_ s) headers) s in
  let s := set_histo_headers_ (emplace name headers (histo_headers_ s)) s in
  let s := set_histo_bins_ (emplace name bins (histo_bins_ s)) s in
  set_epoch_histo_bins_ (emplace name bins (epoch_histo_bins_ s)) s.

Definition empty_stats (channel_id : Z) : SimpleStats :=
  mkSimpleStats channel_id ∅ ∅ ∅ ∅ ∅ ∅ ∅ ∅ ∅ ∅ ∅ ∅ ∅ ∅ ∅ ∅ [].

(** The registrations of the constructor, in its order. *)
Definition counter_stats : list (string * string) := [
  ("num_cycles", "Number of DRAM cycles");
  ("epoch_num", "Number of epochs");
  ("num_reads_done", "Number of read requests issued");
  ("num_writes_done", "Number of read requests issued");
  ("num_write_buf_hits", "Number of write buffer hits");
  ("num_read_row_hits", "Number of read row buffer hits");
  ("num_write_row_hits", "Number of write row buffer hits");
  ("num_read_cmds", "Number of READ/READP commands");
  ("num_write_cmds", "Number of WRITE/WRITEP commands");
  ("num_pim_write_buf_hits", "Number of write buffer hits");
  ("num_lh_read_row_hits", "Number of LH read row buffer hits");
  ("num_gh_read_row_hits", "Number of GH read row buffer hits");
  ("num_pim_write_row_hits", "Number of write row buffer hits");
  ("num_lh_read_cmds", "Number of LH READ/READP commands");
  ("num_gh_read_cmds", "Number of GH READ/READP commands");
  ("num_pim_write_cmds", "Number of WRITE/WRITEP commands");
  ("num_act_cmds", "Number of ACT commands");
  ("num_pre_cmds", "Number of PRE commands");
  ("num_ondemand_pres", "Number of ondemend PRE commands");
  ("num_ref_cmds", "Number of REF commands");
  ("num_refb_cmds", "Number of REFb commands");
  ("num_srefe_cmds", "Number of SREFE commands");
  ("num_srefx_cmds", "Number of SREFX commands");
  ("hbm_dual_cmds", "Number of cycles dual cmds issued")]%string.

Definition double_stats : list (string * string) := [
  ("act_energy", "Activation energy");
  ("read_energy", "Read energy");
  ("write_energy", "Write energy");
  ("lh_read_energy", "LH Read energy");
  ("gh_read_energy", "GH Read energy");
  ("pim_write_energy", "Write energy");
  ("ref_energy", "Refresh energy");
  ("refb_energy", "Refresh-bank energy")]%string.

Definition calculated_stats : list (string * string) := [
  ("average_bandwidth", "Average bandwidth");
  ("total_energy", "Total energy (pJ)");
  ("average_power", "Average power (mW)");
  ("average_read_latency", "Average read request latency (cycles)");
  ("average_interarrival", "Average request interarrival latency (cycles)")]%string.

Definition SimpleStats_init (config : Config) (channel_id : Z) : SimpleStats :=
  let s := empty_stats channel_id in
  let s := foldl (λ s '(n, d), InitStat n "counter" d s) s counter_stats in
  let s := foldl (λ s '(n, d), InitStat n "double" d s) s double_stats in
  let s := InitVecStat "all_bank_idle_cycles" "vec_counter" "Cyles of all bank idle in rank"
             "rank" (ranks config) s in
  let s := InitVecStat "rank_active_cycles" "vec_counter" "Cyles of rank active" "rank"
             (ranks config) s in
  let s := InitVecStat "sref_cycles" "vec_counter" "Cyles of rank in SREF mode" "rank"
             (ranks config) s in
  let s := InitVecStat "act_stb_energy" "vec_double" "Active standby energy" "rank"
             (ranks config) s in
  let s := InitVecStat "pre_stb_energy" "vec_double" "Precharge standby energy" "rank"
             (ranks config) s in
  let s := InitVecStat "sref_energy" "vec_double" "SREF energy" "rank" (ranks config) s in
  let s := InitHistoStat "read_latency" "Read request latency (cycles)" 0 200 10 s in
  let s := InitHistoStat "write_latency" "Write cmd latency (cycles)" 0 200 10 s in
  let s := InitHistoStat "interarrival_latency" "Request interarrival latency (cycles)"
             0 100 10 s in
  foldl (λ s '(n, d), InitStat n "calculated" d s) s calculated_stats.

(** ** Counting *)

Definition Increment (name : string) (s : SimpleStats) : SimpleStats :=
  set_epoch_counters_
    (<[name := u64 (get_or 0 (epoch_counters_ s) name + 1)]> (epoch_counters_ s)) s.

Definition IncrementVecBy (name : string) (pos num : Z) (s : SimpleStats)
    : outcome SimpleStats :=
  let vec := get_or [] (epoch_vec_counters_ s) name in
  x ← vget vec pos;
  vec ← vset vec pos (u64 (x + num));
  Ok (set_epoch_vec_counters_ (<[name := vec]> (epoch_vec_counters_ s)) s).

Definition IncrementVec (name : string) (pos : Z) (s : SimpleStats) : outcome SimpleStats :=
  IncrementVecBy name pos 1 s.

(** One more occurrence of a value; the argument is converted to [int]. *)
Definition count_value (value : Z) (m : gmap Z Z) : gmap Z Z :=
  match m !! value with
  | None => <[value := 1]> m
  | Some n => <[value := u64 (n + 1)]> m
  end.

Definition AddValue (name : string) (value : Z) (s : SimpleStats) : SimpleStats :=
  set_epoch_histo_counts_
    (<[name := count_value (s32 value) (get_or ∅ (epoch_histo_counts_ s) name)]>
       (epoch_histo_counts_ s)) s.

Definition RankBackgroundEnergy (s : SimpleStats) (rank : Z) : outcome double :=
  a ← from_option_or UncaughtException (vec_doubles_ s !! "act_stb_energy"%string);
  p ← from_option_or UncaughtException (vec_doubles_ s !! "pre_stb_energy"%string);
  r ← from_option_or UncaughtException (vec_doubles_ s !! "sref_energy"%string);
  x ← vget a rank; y ← vget p rank; z ← vget r rank;
  Ok (x + y + z)%double.

(** [for (auto& it : m) it.second = z;] and the same over vectors. *)
Definition clear_all {A} (z : A) (m : gmap string A) : gmap string A := (λ _, z) <$> m.
Definition clear_vecs {A} (z : A) (m : gmap string (list A)) : gmap string (list A) :=
  (λ v, replicate (length v) z) <$> m.

Definition Reset (s : SimpleStats) : SimpleStats :=
  let s := set_counters_ (clear_all 0 (counters_ s)) s in
  let s := set_epoch_counters_ (clear_all 0 (epoch_counters_ s)) s in
  let s := set_vec_counters_ (clear_vecs 0 (vec_counters_ s)) s in
  let s := set_epoch_vec_counters_ (clear_vecs 0 (epoch_vec_counters_ s)) s in
  let s := set_doubles_ (clear_all zero (doubles_ s)) s in
  let s := set_vec_doubles_ (clear_vecs zero (vec_doubles_ s)) s in
  let s := set_calculated_ (clear_all zero (calculated_ s)) s in
  let s := set_histo_counts_ (clear_all ∅ (histo_counts_ s)) s in
  set_epoch_histo_counts_ (clear_all ∅ (epoch_histo_counts_ s)) s.

(** ** Folding an epoch into the totals *)

(** [for (i = 0; i < vec.size(); i++) acc[i] += vec[i];] *)
Fixpoint add_vec (acc vec : list Z) : outcome (list Z) :=
  match vec, acc with
  | [], _ => Ok acc
  | x :: vec, y :: acc => r ← add_vec acc vec; Ok (u64 (y + x) :: r)
  | _ :: _, [] => Fail OutOfRange
  end.

Definition UpdateCounters (s : SimpleStats) : outcome SimpleStats :=
  let s := set_counters_
    (foldl (λ m '(k, v), <[k := u64 (get_or 0 m k + v)]> m) (counters_ s)
       (map_to_list (epoch_counters_ s))) s in
  vc ← for_each (λ '(k, vec) m,
         v ← add_vec (get_or [] m k) vec; Ok (<[k := v]> m))
         (map_to_list (epoch_vec_counters_ s)) (vec_counters_ s);
  Ok (set_vec_counters_ vc s).

(** The bin of a value, given the bounds and the width of the bins. *)
Definition bin_index (bounds : Z * Z) (width : Z) (num_bins : Z) (value : Z) : outcome Z :=
  if value <? bounds.1 then Ok 0
  else if bounds.2 <? value then Ok (num_bins - 1)
  else q ← idiv (value - bounds.1) width; Ok (q + 1).

Definition fill_bins (bounds : Z * Z) (width : Z) (counts : gmap Z Z) (bins : list Z)
    : outcome (list Z) :=
  for_each (λ '(value, count) bins,
      i ← bin_index bounds width (vsize bins) value;
      x ← vget bins i; vset bins i (u64 (x + count)))
    (map_to_list counts) (replicate (length bins) 0).

(** Merging a histogram of an epoch into the overall one. *)
Definition merge_counts (final epoch : gmap Z Z) : gmap Z Z :=
  foldl (λ m '(v, c),
    match m !! v with None => <[v := c]> m | Some n => <[v := u64 (n + c)]> m end)
    final (map_to_list epoch).

(** [for (i = 0; i < final.size(); i++) final[i] += epoch[i];] *)
Fixpoint add_bins (final epoch : list Z) : outcome (list Z) :=
  match final, epoch with
  | [], _ => Ok []
  | y :: final, x :: epoch => r ← add_bins final epoch; Ok (u64 (y + x) :: r)
  | _ :: _, [] => Fail OutOfRange
  end.

Definition UpdateHistoBins (s : SimpleStats) : outcome SimpleStats :=
  eb ← for_each (λ '(name, bins) m,
         b ← fill_bins (get_or (0, 0) (histo_bounds_ s) name) (get_or 0 (bin_widths_ s) name)
               (get_or ∅ (epoch_histo_counts_ s) name) bins;
         Ok (<[name := b]> m))
         (map_to_list (epoch_histo_bins_ s)) (epoch_histo_bins_ s);
  let s := set_epoch_histo_bins_ eb s in
  for_each (λ '(name, epoch_counts) s,
      let s := set_histo_counts_
        (<[name := merge_counts (get_or ∅ (histo_counts_ s) name) epoch_counts]>
           (histo_counts_ s)) s in
      b ← add_bins (get_or [] (histo_bins_ s) name) (get_or [] (epoch_histo_bins_ s) name);
      Ok (set_histo_bins_ (<[name := b]> (histo_bins_ s)) s))
    (map_to_list (epoch_histo_counts_ s)) s.

(** The average of a histogram; the products are taken in [uint64_t]. *)
Definition GetHistoAvg (counts : gmap Z Z) : double :=
  let '(accu_sum, count) :=
    foldl (λ '(a, n) '(v, c), (u64 (a + u64 (u64 v * c)), u64 (n + c))) (0, 0)
      (map_to_list counts) in
  if count =? 0 then zero else (d_of_Z accu_sum / d_of_Z count)%double.

(** ** Derived statistics *)

Definition set_double (name : string) (d : double) (s : SimpleStats) : SimpleStats :=
  set_doubles_ (<[name := d]> (doubles_ s)) s.
Definition set_calculated (name : string) (d : double) (s : SimpleStats) : SimpleStats :=
  set_calculated_ (<[name := d]> (calculated_ s)) s.

(** [doubles_[energy] = counters[cmds] * inc;] *)
Definition energy_of (counters : gmap string Z) (cmds : string) (inc : double) : double :=
  (d_of_Z (get_or 0 counters cmds) * inc)%double.

(** [vec_doubles_[name][i] = d;] *)
Definition set_vec_double (name : string) (i : Z) (d : double) (s : SimpleStats)
    : outcome SimpleStats :=
  v ← vset (get_or [] (vec_doubles_ s) name) i d;
  Ok (set_vec_doubles_ (<[name := v]> (vec_doubles_ s)) s).

(** The loop over ranks that computes the background energy. *)
Definition background (config : Config) (vc : gmap string (list Z)) (s : SimpleStats)
    : outcome (SimpleStats * double) :=
  for_range (ranks config)
    (λ i '(s, e),
       a ← vget (get_or [] vc "rank_active_cycles") i;
       p ← vget (get_or [] vc "all_bank_idle_cycles") i;
       r ← vget (get_or [] vc "sref_cycles") i;
       let act_stb := (d_of_Z a * act_stb_energy_inc config)%double in
       let pre_stb := (d_of_Z p * pre_stb_energy_inc config)%double in
       let sref_energy := (d_of_Z r * sref_energy_inc config)%double in
       s ← set_vec_double "act_stb_energy" i act_stb s;
       s ← set_vec_double "pre_stb_energy" i pre_stb s;
       s ← set_vec_double "sref_energy" i sref_energy s;
       Ok (s, (e + (act_stb + pre_stb + sref_energy))%double))
    (s, zero).

(** The calculated statistics that both functions derive from counters. *)
Definition average_bandwidth (config : Config) (counters : gmap string Z) : double :=
  let total_reqs :=
    u64 (get_or 0 counters "num_reads_done" + get_or 0 counters "num_writes_done") in
  let total_time := (d_of_Z (get_or 0 counters "num_cycles") * tCK config)%double in
  (d_of_Z (u64 (total_reqs * request_size_bytes config)) / total_time)%double.

(** ** Printing

    [fmt_double] is fmt's text of a [double] and [stat_text] the line that
    [PrintStatText] formats; both come from the fmt library. *)
Section Printing.
Context (fmt_double : double → string) (stat_text : string → string → string → string).

(** What a call writes, and where to. *)
Inductive Output :=
| JsonOut (file : string) (prefix : string) (data : gmap string Json)
| TextOut (file : string) (truncate : bool) (lines : list string).

Definition json_of (l : list (string * Json)) : Json :=
  match l with [] => JNull | _ => JObj l end.

Definition add_print (name text : string) (j : Json) (s : SimpleStats) : SimpleStats :=
  set_j_data_ (<[name := j]> (j_data_ s))
    (set_print_pairs_ (print_pairs_ s ++ [(name, text)]) s).

(** One vector statistic: a line per element, and one JSON object. *)
Definition print_vec {A} (text : A → string) (json : A → Json) (name : string) (v : list A)
    (s : SimpleStats) : SimpleStats :=
  let s := set_print_pairs_ (print_pairs_ s
    ++ imap (λ i x, (name +:+ "." +:+ pretty (Z.of_nat i), text x)) v) s in
  set_j_data_ (<[name := json_of (imap (λ i x, (pretty (Z.of_nat i), json x)) v)]>
    (j_data_ s)) s.

Definition print_bins (name : string) (bins : list Z) (s : SimpleStats)
    : outcome SimpleStats :=
  for_each (λ '(i, x) s,
      h ← vget (get_or [] (histo_headers_ s) name) i;
      Ok (add_print h (pretty x) (JNum x) s))
    (imap (λ i x, (Z.of_nat i, x)) bins) s.

Definition UpdatePrints (epoch : bool) (s : SimpleStats) : outcome SimpleStats :=
  let s := set_j_data_ (<["channel"%string := JNum (channel_id_ s)]> (j_data_ s)) s in
  let ref_counters := if epoch then epoch_counters_ s else counters_ s in
  let s := foldl (λ s '(k, v), add_print k (pretty v) (JNum v) s) s
             (map_to_list ref_counters) in
  let s := set_j_data_
    (<["epoch_num"%string := JNum (get_or 0 (counters_ s) "epoch_num")]> (j_data_ s)) s in
  let s := foldl (λ s '(k, v), print_vec pretty JNum k v s) s
             (map_to_list (if epoch then epoch_vec_counters_ s else vec_counters_ s)) in
  s ← for_each (λ '(k, v) s, print_bins k v s)
        (map_to_list (if epoch then epoch_histo_bins_ s else histo_bins_ s)) s;
  let s := if epoch then s else
    foldl (λ s '(k, m),
      set_j_data_ (<[k := json_of ((λ '(v, c), (pretty v, JNum c)) <$> map_to_list (m : gmap Z Z))]>
        (j_data_ s)) s) s (map_to_list (histo_counts_ s)) in
  let s := foldl (λ s '(k, d), add_print k (fmt_double d) (JDouble d) s) s
             (map_to_list (doubles_ s)) in
  let s := foldl (λ s '(k, v), print_vec fmt_double JDouble k v s) s
             (map_to_list (vec_doubles_ s)) in
  Ok (foldl (λ s '(k, d), add_print k (fmt_double d) (JDouble d) s) s
        (map_to_list (calculated_ s))).

Definition UpdateEpochStats (config : Config) (s : SimpleStats) : outcome SimpleStats :=
  s ← UpdateCounters s;
  let ec := epoch_counters_ s in
  let s := set_double "act_energy" (energy_of ec "num_act_cmds" (act_energy_inc config)) s in
  let s := set_double "read_energy" (energy_of ec "num_read_cmds" (read_energy_inc config)) s in
  let s := set_double "write_energy"
             (energy_of ec "num_write_cmds" (write_energy_inc config)) s in
  let s := set_double "lh_read_energy"
             (energy_of ec "num_lh_read_cmds" (lh_read_energy_inc config)) s in
  let s := set_double "gh_read_energy"
             (energy_of ec "num_gh_read_cmds" (gh_read_energy_inc config)) s in
  let s := set_double "pim_write_energy"
             (energy_of ec "num_pim_write_cmds" (pim_write_energy_inc config)) s in
  let s := set_double "ref_energy" (energy_of ec "num_ref_cmds" (ref_energy_inc config)) s in
  let s := set_double "refb_energy" (energy_of ec "num_refb_cmds" (refb_energy_inc config)) s in
  '(s, background_energy) ← background config (epoch_vec_counters_ s) s;
  s ← UpdateHistoBins s;
  let s := set_calculated "average_bandwidth" (average_bandwidth config ec) s in
  let d := get_or zero (doubles_ s) in
  let total_energy :=
    (d "act_energy"%string + d "read_energy"%string + d "write_energy"%string
     + d "lh_read_energy"%string + d "gh_read_energy"%string + d "pim_write_energy"%string
     + d "ref_energy"%string + d "refb_energy"%string + background_energy)%double in
  let s := set_calculated "total_energy" total_energy s in
  let s := set_calculated "average_power"
             (total_energy / d_of_Z (get_or 0 ec "num_cycles"))%double s in
  rl ← from_option_or UncaughtException (epoch_histo_counts_ s !! "read_latency"%string);
  ia ← from_option_or UncaughtException (epoch_histo_counts_ s !! "interarrival_latency"%string);
  let s := set_calculated "average_read_latency" (GetHistoAvg rl) s in
  let s := set_calculated "average_interarrival" (GetHistoAvg ia) s in
  s ← UpdatePrints true s;
  let s := set_epoch_counters_ (clear_all 0 (epoch_counters_ s)) s in
  let s := set_epoch_vec_counters_ (clear_vecs 0 (epoch_vec_counters_ s)) s in
  Ok (set_epoch_histo_counts_ (clear_all ∅ (epoch_histo_counts_ s)) s).

Definition UpdateFinalStats (config : Config) (s : SimpleStats) : outcome SimpleStats :=
  s ← UpdateCounters s;
  let c := counters_ s in
  let ec := epoch_counters_ s in
  let s := set_double "act_energy" (energy_of c "num_act_cmds" (act_energy_inc config)) s in
  let s := set_double "read_energy" (energy_of c "num_read_cmds" (read_energy_inc config)) s in
  let s := set_double "write_energy" (energy_of c "num_write_cmds" (write_energy_inc config)) s in
  let s := set_double "ref_energy" (energy_of c "num_ref_cmds" (ref_energy_inc config)) s in
  let s := set_double "refb_energy" (energy_of c "num_refb_cmds" (refb_energy_inc config)) s in
  let s := set_double "lh_read_energy"
             (energy_of ec "num_lh_read_cmds" (lh_read_energy_inc config)) s in
  let s := set_double "gh_read_energy"
             (energy_of ec "num_gh_read_cmds" (gh_read_energy_inc config)) s in
  let s := set_double "pim_write_energy"
             (energy_of ec "num_pim_write_cmds" (pim_write_energy_inc config)) s in
  '(s, background_energy) ← background config (vec_counters_ s) s;
  s ← UpdateHistoBins s;
  let s := set_calculated "average_bandwidth" (average_bandwidth config c) s in
  let d := get_or zero (doubles_ s) in
  let total_energy :=
    (d "act_energy"%string + d "read_energy"%string + d "write_energy"%string
     + d "ref_energy"%string + d "lh_read_energy"%string + d "gh_read_energy"%string
     + d "pim_write_energy"%string + d "refb_energy"%string + background_energy)%double in
  let s := set_calculated "total_energy" total_energy s in
  let s := set_calculated "average_power"
             (total_energy / d_of_Z (get_or 0 c "num_cycles"))%double s in
  rl ← from_option_or UncaughtException (histo_counts_ s !! "read_latency"%string);
  ia ← from_option_or UncaughtException (histo_counts_ s !! "interarrival_latency"%string);
  let s := set_calculated "average_read_latency" (GetHistoAvg rl) s in
  let s := set_calculated "average_interarrival" (GetHistoAvg ia) s in
  UpdatePrints false s.

Definition newline : string := String (Ascii.ascii_of_nat 10) EmptyString.
Definition quote : string := String (Ascii.ascii_of_nat 34) EmptyString.

Definition GetTextHeader (is_final : bool) (s : SimpleStats) : outcome string :=
  let header := "###########################################" +:+ newline
                +:+ "## Statistics of Channel " +:+ pretty (channel_id_ s) in
  n ← (if is_final then Ok EmptyString else
         n ← from_option_or UncaughtException (counters_ s !! "epoch_num"%string);
         Ok (" of epoch " +:+ pretty n));
  Ok (header +:+ n +:+ newline +:+ "###########################################" +:+ newline).

(** The lines of the pairs collected by [UpdatePrints]. *)
Definition print_lines (s : SimpleStats) : list string :=
  (λ '(n, v), stat_text n v (get_or EmptyString (header_descs_ s) n)) <$> print_pairs_ s.

Definition PrintEpochStats (config : Config) (s : SimpleStats)
    : outcome (SimpleStats * list Output) :=
  s ← UpdateEpochStats config s;
  let j := if 1 <=? output_level config
           then [JsonOut (json_epoch_name config) EmptyString (j_data_ s)] else [] in
  t ← (if 2 <=? output_level config then
         h ← GetTextHeader false s; Ok [TextOut EmptyString false (h :: print_lines s)]
       else Ok []);
  Ok (set_print_pairs_ [] s, j ++ t).

Definition PrintFinalStats (config : Config) (s : SimpleStats)
    : outcome (SimpleStats * list Output) :=
  s ← UpdateFinalStats config s;
  let j := if 0 <=? output_level config
           then [JsonOut (json_stats_name config)
                   (quote +:+ pretty (channel_id_ s) +:+ quote +:+ ":") (j_data_ s)]
           else [] in
  t ← (if 1 <=? output_level config then
         h ← GetTextHeader true s;
         Ok [TextOut (txt_stats_name config) (channel_id_ s =? 0) (h :: print_lines s)]
       else Ok []);
  Ok (set_print_pairs_ [] s, j ++ t).
End Printing.

(** ** Specification *)

(** The number of times a counter was incremented since the last reset. *)
Definition total (s : SimpleStats) (name : string) : Z :=
  u64 (get_or 0 (counters_ s) name + get_or 0 (epoch_counters_ s) name).

(** Every counter is a [uint64_t]. *)
Definition counters_wf (s : SimpleStats) : Prop :=
  map_Forall (λ _ v, 0 ≤ v < 2 ^ 64) (counters_ s) ∧
  map_Forall (λ _ v, 0 ≤ v < 2 ^ 64) (epoch_counters_ s).

(** What the derived statistics leave alone. *)
Record frame (s s' : SimpleStats) : Prop := {
  fr_counters : counters_ s' = counters_ s;
  fr_epoch : epoch_counters_ s' = epoch_counters_ s;
  fr_doubles : doubles_ s' = doubles_ s
}.

(** A value lies in the range that the name of its bin announces; bin [0] holds
    what is below the range and bin [n + 1] what is not. *)
Definition in_bucket (lo hi width n i value : Z) : Prop :=
  (i = 0 ∧ value < lo) ∨
  (1 ≤ i ≤ n ∧ lo + (i - 1) * width ≤ value ≤ lo + i * width - 1) ∨
  (i = n + 1 ∧ hi ≤ value).
#[global] Instance in_bucket_dec lo hi width n i value : Decision (in_bucket lo hi width n i value).
Proof. unfold in_bucket. apply _. Defined.

(** The number of recorded values that lie in the range of bin [i]. *)
Definition bucket_mass (lo hi width n i : Z) (counts : list (Z * Z)) : Z :=
  foldr Z.add 0 (filter (λ vc, in_bucket lo hi width n i vc.1) counts).*2.

(** The total number of values recorded in a histogram. *)
Definition mass (counts : gmap Z Z) : Z :=
  foldr Z.add 0 (map_to_list counts).*2.

(** ** Lemmas *)

#[global] Instance frame_preorder : PreOrder frame.
Proof.
  split.
  - intros s. by split.
  - intros s1 s2 s3 [] []. split; congruence.
Qed.

Lemma get_or_insert {A} (d : A) m k k' v :
  get_or d (<[k := v]> m) k' = if bool_decide (k = k') then v else get_or d m k'.
Proof.
  unfold get_or. case_bool_decide as E; [subst; by rewrite lookup_insert_eq|].
  by rewrite lookup_insert_ne.
Qed.

(** Folding a list of named increments into a map of counters. *)
Lemma foldl_add_notin m l k :
  k ∉ l.*1 →
  get_or 0 (foldl (λ m '(k, v), <[k := u64 (get_or 0 m k + v)]> m) m l) k = get_or 0 m k.
Proof.
  revert m. induction l as [|[k' v] l IH]; intros m Hk; [done|]. csimpl in *.
  rewrite IH by set_solver. rewrite get_or_insert, bool_decide_eq_false_2; set_solver.
Qed.

Lemma foldl_add_in m l k v :
  NoDup l.*1 → (k, v) ∈ l →
  get_or 0 (foldl (λ m '(k, v), <[k := u64 (get_or 0 m k + v)]> m) m l) k
  = u64 (get_or 0 m k + v).
Proof.
  revert m. induction l as [|[k' v'] l IH]; intros m Hnd Hin; [by apply elem_of_nil in Hin|].
  csimpl in *. apply NoDup_cons in Hnd as [Hnin Hnd].
  apply elem_of_cons in Hin as [[= -> ->]|Hin].
  - rewrite foldl_add_notin by done. by rewrite get_or_insert, bool_decide_eq_true_2.
  - rewrite IH by done. rewrite get_or_insert, bool_decide_eq_false_2; [done|].
    intros ->. apply Hnin. apply list_elem_of_fmap. by exists (k, v).
Qed.

Lemma UpdateCounters_spec s s' :
  counters_wf s → UpdateCounters s = Ok s' →
  (∀ name, get_or 0 (counters_ s') name = total s name) ∧
  epoch_counters_ s' = epoch_counters_ s ∧ doubles_ s' = doubles_ s.
Proof.
  intros [Hc _] H. unfold UpdateCounters in H. apply bind_Ok in H as (vc & _ & [= <-]).
  split; [|done]. intros name. simpl. unfold total.
  destruct (epoch_counters_ s !! name) as [v|] eqn:E.
  - rewrite (foldl_add_in _ _ name v); [|apply NoDup_fst_map_to_list|by apply elem_of_map_to_list].
    unfold get_or at 3. by rewrite E.
  - rewrite foldl_add_notin.
    + unfold get_or at 3. rewrite E. simpl. rewrite Z.add_0_r. unfold get_or.
      destruct (counters_ s !! name) as [c|] eqn:Ec; simpl; [|done].
      symmetry. apply u64_id. by apply (Hc name).
    + intros Hin. apply list_elem_of_fmap in Hin as ([k v] & -> & Hin).
      apply elem_of_map_to_list in Hin. simpl in E. congruence.
Qed.

Lemma background_frame config vc s s' e : background config vc s = Ok (s', e) → frame s s'.
Proof.
  intros H. change (frame s (s', e).1). revert H. unfold background, for_range.
  apply (for_each_inv (λ x, frame s x.1)); [|reflexivity].
  intros i [s1 e1] [s2 e2] _ H1 H. simpl in *. unfold set_vec_double in H. invert_ok.
  etrans; [exact H1|]. by split.
Qed.

Lemma UpdateHistoBins_frame s s' : UpdateHistoBins s = Ok s' → frame s s'.
Proof.
  unfold UpdateHistoBins. intros (eb & _ & H)%bind_Ok. revert H.
  apply (for_each_inv (frame s)); [|by split].
  intros [name counts] s1 s2 _ H1 H. invert_ok. etrans; [exact H1|]. by split.
Qed.

Lemma foldl_frame {A} (f : SimpleStats → A → SimpleStats) l s :
  (∀ s x, frame s (f s x)) → frame s (foldl f s l).
Proof.
  intros Hf. revert s. induction l as [|x l IH]; intros s; [reflexivity|]. simpl.
  etrans; [apply Hf|apply IH].
Qed.

Lemma frame_j_data v s : frame s (set_j_data_ v s).
Proof. by split. Qed.

Lemma UpdatePrints_frame fd epoch s s' : UpdatePrints fd epoch s = Ok s' → frame s s'.
Proof.
  unfold UpdatePrints. intros (s1 & H1 & H)%bind_Ok. injection H as <-.
  set (s0 := foldl _ _ _) in H1.
  assert (H0 : frame s s0).
  { unfold s0. etrans; [|apply foldl_frame; by intros ? []].
    etrans; [|apply frame_j_data]. etrans; [|apply foldl_frame; by intros ? []].
    apply frame_j_data. }
  clearbody s0.
  assert (H2 : frame s0 s1).
  { revert H1. apply (for_each_inv (frame s0)); [|reflexivity].
    intros [k v] s2 s3 _ H2. unfold print_bins. apply (for_each_inv (frame s0)); [|exact H2].
    intros [i x] s4 s5 _ H4 H. invert_ok. etrans; [exact H4|]. by split. }
  etrans; [exact H0|]. etrans; [exact H2|].
  do 3 (etrans; [|apply foldl_frame; by intros ? []]).
  destruct epoch; [reflexivity|]. apply foldl_frame. by intros ? [].
Qed.

(** The state from which both update functions derive their averages: the
    counters are folded and only the derived numbers changed since. *)
Lemma UpdateEpochStats_inv fd config s s' :
  counters_wf s → UpdateEpochStats fd config s = Ok s' →
  (∀ name, get_or 0 (counters_ s') name = total s name) ∧
  epoch_counters_ s' = clear_all 0 (epoch_counters_ s) ∧
  doubles_ s' !! "lh_read_energy"%string
  = Some (energy_of (epoch_counters_ s) "num_lh_read_cmds" (lh_read_energy_inc config)).
Proof.
  intros Hwf H. unfold UpdateEpochStats in H. apply bind_Ok in H as (s1 & H1 & H).
  destruct (UpdateCounters_spec _ _ Hwf H1) as (Ht & He & _).
  apply bind_Ok in H as ([s2 e] & [Hc2 He2 Hd2]%background_frame & H).
  apply bind_Ok in H as (s3 & [Hc3 He3 Hd3]%UpdateHistoBins_frame & H).
  apply bind_Ok in H as (rl & _ & H). apply bind_Ok in H as (ia & _ & H).
  apply bind_Ok in H as (s4 & [Hc4 He4 Hd4]%UpdatePrints_frame & H). injection H as <-.
  cbn [set_epoch_histo_counts_ set_epoch_vec_counters_ set_epoch_counters_ counters_
    epoch_counters_ doubles_].
  rewrite Hc4, He4, Hd4. cbn [set_calculated set_calculated_ counters_ epoch_counters_ doubles_].
  rewrite Hc3, He3, Hd3, Hc2, He2, Hd2.
  cbn [set_double set_doubles_ counters_ epoch_counters_ doubles_]. rewrite He.
  split; [exact Ht|]. split; [reflexivity|].
  by rewrite !lookup_insert_ne, lookup_insert_eq by discriminate.
Qed.

Lemma UpdateFinalStats_inv fd config s s' :
  counters_wf s → UpdateFinalStats fd config s = Ok s' →
  (∀ name, get_or 0 (counters_ s') name = total s name) ∧
  epoch_counters_ s' = epoch_counters_ s ∧
  doubles_ s' !! "read_energy"%string
  = Some (d_of_Z (total s "num_read_cmds") * read_energy_inc config)%double ∧
  doubles_ s' !! "lh_read_energy"%string
  = Some (energy_of (epoch_counters_ s) "num_lh_read_cmds" (lh_read_energy_inc config)).
Proof.
  intros Hwf H. unfold UpdateFinalStats in H. apply bind_Ok in H as (s1 & H1 & H).
  destruct (UpdateCounters_spec _ _ Hwf H1) as (Ht & He & _).
  apply bind_Ok in H as ([s2 e] & [Hc2 He2 Hd2]%background_frame & H).
  apply bind_Ok in H as (s3 & [Hc3 He3 Hd3]%UpdateHistoBins_frame & H).
  apply bind_Ok in H as (rl & _ & H). apply bind_Ok in H as (ia & _ & H).
  apply UpdatePrints_frame in H as [Hc4 He4 Hd4].
  rewrite Hc4, He4, Hd4. cbn [set_calculated set_calculated_ counters_ epoch_counters_ doubles_].
  rewrite Hc3, He3, Hd3, Hc2, He2, Hd2.
  cbn [set_double set_doubles_ counters_ epoch_counters_ doubles_]. rewrite He.
  split; [exact Ht|]. split; [reflexivity|]. unfold energy_of at 1 2 3.
  split; [|by rewrite !lookup_insert_ne, lookup_insert_eq by discriminate].
  rewrite !lookup_insert_ne, lookup_insert_eq by discriminate.
  unfold energy_of. by rewrite Ht.
Qed.

(** ** Histograms *)

Lemma bin_index_spec lo hi width n value :
  0 < width → 0 < n → hi = lo + n * width →
  ∃ i, bin_index (lo, hi) width (n + 2) value = Ok i ∧ 0 ≤ i < n + 2 ∧
    in_bucket lo hi width n i value.
Proof.
  intros Hw Hn ->. unfold bin_index, in_bucket. cbn [fst snd].
  destruct (value <? lo) eqn:E1; split_bool; [exists 0; split; [done|lia]|].
  destruct (_ <? value) eqn:E2; split_bool; [exists (n + 1); split; [f_equal; lia|lia]|].
  unfold idiv. rewrite (proj2 (Z.eqb_neq width 0)) by lia. cbn [mbind outcome_bind].
  rewrite Z.quot_div_nonneg by lia. eexists. split; [reflexivity|].
  pose proof (Z.div_mod (value - lo) width ltac:(lia)).
  pose proof (Z.mod_pos_bound (value - lo) width ltac:(lia)).
  set (q := (value - lo) `div` width) in *. set (r := (value - lo) mod width) in *.
  assert (0 ≤ q ≤ n) by nia. split; [lia|]. destruct (decide (q = n)) as [->|].
  - right; right. split; [lia|]. nia.
  - right; left. split; [lia|]. nia.
Qed.

Lemma u64_add_idemp a b : u64 (u64 a + b) = u64 (a + b).
Proof. unfold u64. by rewrite Z.add_mod_idemp_l by lia. Qed.

Lemma u64_add_idemp_r a b : u64 (a + u64 b) = u64 (a + b).
Proof. unfold u64. by rewrite Z.add_mod_idemp_r by lia. Qed.

Lemma sum_insert (l : list Z) i x y :
  l !! i = Some x → foldr Z.add 0 (<[i := y]> l) = foldr Z.add 0 l + (y - x).
Proof.
  revert i. induction l as [|z l IH]; intros [|i] H; try discriminate H; simpl in *.
  - injection H as ->. lia.
  - rewrite (IH i H). lia.
Qed.

Lemma u64_sum_insert (l : list Z) i x c :
  l !! i = Some x →
  u64 (foldr Z.add 0 (<[i := u64 (x + c)]> l)) = u64 (foldr Z.add 0 l + c).
Proof.
  intros H. rewrite (sum_insert _ _ _ _ H).
  replace (foldr Z.add 0 l + (u64 (x + c) - x)) with (u64 (x + c) + (foldr Z.add 0 l - x)) by lia.
  rewrite u64_add_idemp. f_equal. lia.
Qed.

Lemma in_bucket_unique lo hi width n i j value :
  0 < width → 0 < n → hi = lo + n * width →
  in_bucket lo hi width n i value → in_bucket lo hi width n j value → i = j.
Proof.
  intros Hw Hn -> Hi Hj. unfold in_bucket in *. destruct (Z.lt_trichotomy i j) as [?|[?|?]]; [exfalso|done|exfalso];
    destruct Hi as [[? ?]|[[? ?]|[? ?]]], Hj as [[? ?]|[[? ?]|[? ?]]]; nia.
Qed.

Lemma bucket_mass_cons lo hi width n i v c l :
  bucket_mass lo hi width n i ((v, c) :: l)
  = (if decide (in_bucket lo hi width n i v) then c else 0) + bucket_mass lo hi width n i l.
Proof. unfold bucket_mass. rewrite filter_cons. cbn [fst]. by destruct (decide _). Qed.

(** The loop that fills the bins, from any contents on. *)
Lemma fill_loop lo hi width n l : ∀ bins,
  0 < width → 0 < n → hi = lo + n * width → vsize bins = n + 2 → Forall (λ y, u64 y = y) bins →
  ∃ bins', for_each (λ '(value, count) bins,
      i ← bin_index (lo, hi) width (vsize bins) value;
      x ← vget bins i; vset bins i (u64 (x + count))) l bins = Ok bins' ∧
    vsize bins' = n + 2 ∧ u64 (foldr Z.add 0 bins') = u64 (foldr Z.add 0 bins + foldr Z.add 0 l.*2) ∧
    ∀ k y, bins !! k = Some y → bins' !! k = Some (u64 (y + bucket_mass lo hi width n (Z.of_nat k) l)).
Proof.
  induction l as [|[v c] l IH]; intros bins Hw Hn Hhi Hlen Hu; csimpl.
  { exists bins. rewrite Z.add_0_r. split_and!; [done..|]. intros k y Hk. rewrite Hk. f_equal.
    unfold bucket_mass. cbn. rewrite Z.add_0_r. symmetry. exact (Forall_lookup_1 _ _ _ _ Hu Hk). }
  rewrite Hlen. destruct (bin_index_spec lo hi width n v Hw Hn Hhi) as (i & -> & Hi & Hb).
  cbn [mbind outcome_bind]. rewrite <- Hlen in Hi.
  destruct (vget_in_range _ _ Hi) as [x Hx]. rewrite Hx. cbn [mbind outcome_bind].
  rewrite (vset_in_range _ _ _ Hi). cbn [mbind outcome_bind]. apply vget_Ok in Hx as [Hi0 Hx].
  destruct (IH (<[Z.to_nat i := u64 (x + c)]> bins)) as (bins' & -> & Hl & Hs & Hk); [done..| | |].
  { unfold vsize. by rewrite length_insert. }
  { apply Forall_insert; [done|]. apply u64_id, u64_range. }
  exists bins'. split; [done|]. split; [done|]. split.
  { rewrite Hs, <- u64_add_idemp, (u64_sum_insert _ _ _ _ Hx), u64_add_idemp. f_equal. lia. }
  intros k y Hy. rewrite bucket_mass_cons. destruct (decide (k = Z.to_nat i)) as [->|Hne].
  - rewrite Hx in Hy. injection Hy as <-. rewrite Z2Nat.id in * by lia. rewrite decide_True by done.
    rewrite (Hk (Z.to_nat i) (u64 (x + c))) by (apply list_lookup_insert_eq; by eapply lookup_lt_Some).
    rewrite Z2Nat.id by lia. f_equal. rewrite u64_add_idemp. f_equal. lia.
  - rewrite decide_False, Z.add_0_l; [by apply Hk; rewrite list_lookup_insert_ne|].
    intros Hb'. pose proof (in_bucket_unique _ _ _ _ _ _ _ Hw Hn Hhi Hb Hb'). lia.
Qed.

Lemma fill_bins_spec lo hi width n counts bins :
  0 < width → 0 < n → hi = lo + n * width → vsize bins = n + 2 →
  ∃ bins', fill_bins (lo, hi) width counts bins = Ok bins' ∧ vsize bins' = n + 2 ∧
    u64 (foldr Z.add 0 bins') = u64 (mass counts) ∧
    ∀ i, 0 ≤ i < n + 2 →
      bins' !! Z.to_nat i = Some (u64 (bucket_mass lo hi width n i (map_to_list counts))).
Proof.
  intros Hw Hn Hhi Hlen. unfold fill_bins, mass.
  destruct (fill_loop lo hi width n (map_to_list counts) (replicate (length bins) 0))
    as (bins' & -> & Hl & Hs & Hk); [done..| | |].
  { unfold vsize. by rewrite length_replicate. }
  { by apply Forall_replicate. }
  exists bins'. split; [done|]. split; [done|]. split.
  - rewrite Hs. f_equal. assert (∀ k, foldr Z.add 0 (replicate k 0) = 0) as -> by (induction k; simpl; lia). lia.
  - intros i Hi. rewrite (Hk (Z.to_nat i) 0); [by rewrite Z2Nat.id by lia|].
    apply lookup_replicate. unfold vsize in Hlen. split; [done|lia].
Qed.

(** Executable checks of success, without computing the result. *)
Lemma is_ok_exists {A} (o : outcome A) : is_ok o = true → ∃ a, o = Ok a.
Proof. destruct o; [by eexists|done]. Qed.

Lemma clear_all_wf m : map_Forall (λ _ (v : Z), 0 ≤ v < 2 ^ 64) (clear_all 0 m).
Proof.
  intros k v H. unfold clear_all in H. apply lookup_fmap_Some in H as (? & <- & _). lia.
Qed.

Lemma get_or_clear_all m k : get_or 0 (clear_all 0 m) k = 0.
Proof. unfold get_or, clear_all. rewrite lookup_fmap. by destruct (m !! k). Qed.

Lemma UpdateEpochStats_wf fd config s s' :
  counters_wf s → UpdateEpochStats fd config s = Ok s' → counters_wf s'.
Proof.
  intros Hwf H. destruct (UpdateEpochStats_inv _ _ _ _ Hwf H) as (Ht & He & _). split.
  - intros k v Hv. specialize (Ht k). unfold get_or in Ht. rewrite Hv in Ht. simpl in Ht.
    rewrite Ht. apply u64_range.
  - rewrite He. apply clear_all_wf.
Qed.

Lemma emplace_Forall (P : Z → Prop) k v m :
  P v → map_Forall (λ _ x, P x) m → map_Forall (λ _ x, P x) (emplace k v m).
Proof.
  intros Hv Hm. unfold emplace. destruct (m !! k); [done|]. by apply map_Forall_insert_2.
Qed.

Lemma InitStat_wf n t d s : counters_wf s → counters_wf (InitStat n t d s).
Proof.
  intros [H1 H2]. unfold InitStat.
  repeat case_bool_decide; split; simpl; try done;
    apply (emplace_Forall (λ v, 0 ≤ v < 2 ^ 64)); done || lia.
Qed.

Lemma InitVecStat_wf n t d p l s : counters_wf s → counters_wf (InitVecStat n t d p l s).
Proof. intros [H1 H2]. unfold InitVecStat. repeat case_bool_decide; by split. Qed.

Lemma InitHistoStat_wf n d a b k s : counters_wf s → counters_wf (InitHistoStat n d a b k s).
Proof. intros [H1 H2]. by split. Qed.

Lemma foldl_InitStat_wf t l s :
  counters_wf s → counters_wf (foldl (λ s '(n, d), InitStat n t d s) s l).
Proof.
  revert s. induction l as [|[n d] l IH]; intros s H; [done|]. by apply IH, InitStat_wf.
Qed.

Lemma SimpleStats_init_wf config ch : counters_wf (SimpleStats_init config ch).
Proof.
  unfold SimpleStats_init. apply foldl_InitStat_wf.
  do 3 apply InitHistoStat_wf. do 6 apply InitVecStat_wf. do 2 apply foldl_InitStat_wf.
  split; apply map_Forall_empty.
Qed.

Lemma Increment_wf n s : counters_wf s → counters_wf (Increment n s).
Proof.
  intros [H1 H2]. split; [exact H1|]. simpl.
  apply map_Forall_insert_2; [apply u64_range|exact H2].
Qed.

(** ** Properties *)

(** [C38] Counters are conserved across epochs: [Increment] adds one to the
    total of its counter and to no other, and the end of an epoch moves the
    epoch's counts into the totals without losing or duplicating any. *)
Theorem counters_conserved fd (config : Config) s s' n :
  counters_wf s → UpdateEpochStats fd config (Increment n s) = Ok s' →
  ∀ name, get_or 0 (counters_ s') name
    = u64 (total s name + (if bool_decide (n = name) then 1 else 0)) ∧
  get_or 0 (epoch_counters_ s') name = 0 ∧
  total s' name = get_or 0 (counters_ s') name.
Proof.
  intros Hwf%(Increment_wf n) H name.
  destruct (UpdateEpochStats_inv _ _ _ _ Hwf H) as (Ht & He' & _).
  assert (get_or 0 (epoch_counters_ s') name = 0) as E0 by (rewrite He'; apply get_or_clear_all).
  split; [|split; [done|]].
  - rewrite Ht. unfold total. simpl. rewrite get_or_insert. case_bool_decide as E.
    + subst. rewrite u64_add_idemp, u64_add_idemp_r. f_equal. lia.
    + by rewrite Z.add_0_r, u64_add_idemp, Z.add_0_r || (rewrite u64_add_idemp; f_equal; lia).
  - unfold total. rewrite E0, Z.add_0_r. apply u64_id. rewrite Ht. apply u64_range.
Qed.

Lemma counters_conserved_witness :
  ∃ s', UpdateEpochStats (λ _, EmptyString) hbm2_config
      (Increment "num_act_cmds" (SimpleStats_init hbm2_config 0)) = Ok s' ∧
    get_or 0 (counters_ s') "num_act_cmds" = 1 ∧ get_or 0 (epoch_counters_ s') "num_act_cmds" = 0.
Proof.
  destruct (is_ok_exists (UpdateEpochStats (λ _, EmptyString) hbm2_config
    (Increment "num_act_cmds" (SimpleStats_init hbm2_config 0)))) as [s' H];
    [vm_compute; reflexivity|].
  exists s'. split; [exact H|].
  destruct (counters_conserved (λ _, EmptyString) hbm2_config (SimpleStats_init hbm2_config 0) s'
    "num_act_cmds") with (name := "num_act_cmds"%string) as (E1 & E2 & _).
  - apply SimpleStats_init_wf.
  - exact H.
  - split; [|exact E2]. etransitivity; [exact E1|]. vm_compute. reflexivity.
Defined.

(** [C39] Histograms conserve counts: filling the bins of a histogram whose
    range is a multiple of the bin width never leaves the vector, every bin
    ends with exactly the number of recorded values that lie in the range its
    name announces (the first and the last bin with those below and not below
    the range), and the bins sum to the number of all recorded values, both
    modulo 2^64. *)
Theorem histogram_conserved lo hi width n counts bins :
  0 < width → 0 < n → hi = lo + n * width → vsize bins = n + 2 →
  ∃ bins', fill_bins (lo, hi) width counts bins = Ok bins' ∧ vsize bins' = n + 2 ∧
    u64 (foldr Z.add 0 bins') = u64 (mass counts) ∧
    ∀ i, 0 ≤ i < n + 2 →
      bins' !! Z.to_nat i = Some (u64 (bucket_mass lo hi width n i (map_to_list counts))).
Proof. apply fill_bins_spec. Qed.

Lemma histogram_conserved_witness :
  ∃ bins', fill_bins (0, 200) 20 {[ 5 := 3; 200 := 4; 700 := 2 ]} (replicate 12 0) = Ok bins' ∧
    bins' !! 1%nat = Some 3 ∧ u64 (foldr Z.add 0 bins') = 9.
Proof.
  destruct (histogram_conserved 0 200 20 10 {[ 5 := 3; 200 := 4; 700 := 2 ]} (replicate 12 0))
    as (bins' & H1 & _ & H3 & H4); [lia|lia|lia|reflexivity|].
  exists bins'. split; [exact H1|]. split; [etransitivity; [apply (H4 1); lia|vm_compute; reflexivity]|].
  etransitivity; [exact H3|]. vm_compute. reflexivity.
Defined.

(** The final energies of processing-in-memory accesses only see the
    last epoch: when the final statistics follow the end of an epoch, the
    local-read energy is computed from a count of zero, however many such
    reads were executed, while the ordinary read energy is computed from the
    total count. *)
Theorem final_pim_energy_ignores_epochs fd (config : Config) s s1 s2 :
  counters_wf s → UpdateEpochStats fd config s = Ok s1 → UpdateFinalStats fd config s1 = Ok s2 →
  doubles_ s2 !! "lh_read_energy"%string = Some (d_of_Z 0 * lh_read_energy_inc config)%double ∧
  doubles_ s2 !! "read_energy"%string
  = Some (d_of_Z (total s "num_read_cmds") * read_energy_inc config)%double ∧
  get_or 0 (counters_ s2) "num_lh_read_cmds" = total s "num_lh_read_cmds".
Proof.
  intros Hwf H1 H2. pose proof (UpdateEpochStats_wf _ _ _ _ Hwf H1) as Hwf1.
  destruct (UpdateEpochStats_inv _ _ _ _ Hwf H1) as (Ht & He & _).
  destruct (UpdateFinalStats_inv _ _ _ _ Hwf1 H2) as (Ht2 & _ & Hr & Hl).
  assert (Htot : ∀ n, total s1 n = total s n).
  { intros n. unfold total at 1. rewrite He, get_or_clear_all, Z.add_0_r, Ht.
    apply u64_id, u64_range. }
  rewrite Hl, Hr, Ht2, !Htot. split; [|done].
  unfold energy_of. by rewrite He, get_or_clear_all.
Qed.

Lemma final_pim_energy_ignores_epochs_witness :
  let s := Increment "num_lh_read_cmds" (SimpleStats_init hbm2_config 0) in
  ∃ s1 s2, UpdateEpochStats (λ _, EmptyString) hbm2_config s = Ok s1 ∧
    UpdateFinalStats (λ _, EmptyString) hbm2_config s1 = Ok s2 ∧
    doubles_ s2 !! "lh_read_energy"%string
      = Some (d_of_Z 0 * lh_read_energy_inc hbm2_config)%double ∧
    get_or 0 (counters_ s2) "num_lh_read_cmds" = 1.
Proof.
  intros s. destruct (is_ok_exists (s1 ← UpdateEpochStats (λ _, EmptyString) hbm2_config s;
    s2 ← UpdateFinalStats (λ _, EmptyString) hbm2_config s1; Ok (s1, s2))) as [[s1 s2] H];
    [vm_compute; reflexivity|].
  apply bind_Ok in H as (s1' & H1 & H). apply bind_Ok in H as (s2' & H2 & [= <- <-]).
  exists s1', s2'. split; [exact H1|]. split; [exact H2|].
  destruct (final_pim_energy_ignores_epochs (λ _, EmptyString) hbm2_config s s1' s2')
    as (E1 & _ & E2); [|exact H1|exact H2|].
  - apply Increment_wf, SimpleStats_init_wf.
  - split; [exact E1|]. etransitivity; [exact E2|]. vm_compute. reflexivity.
Defined.
