(* ===== verification/StatsSafety.v ===== *)
(** * The statistics never fail

    The shape of a [SimpleStats] object (which vectors and histograms exist
    and how long they are) is fixed by the constructor and kept by every
    operation.  A consequence is that closing an epoch, and printing the final
    statistics, never reads a vector out of range, never divides by a zero bin
    width and never misses a name. *)
From stdpp Require Import base tactics numbers list list_numbers gmap strings sets.
From S2P Require Import Prelude Common Double Configuration SimpleStats.

Local Open Scope Z_scope.

(** ** The shape *)

Definition vec_names : list string :=
  ["all_bank_idle_cycles"; "rank_active_cycles"; "sref_cycles"]%string.
Definition energy_names : list string :=
  ["act_stb_energy"; "pre_stb_energy"; "sref_energy"]%string.
Definition histo_table : gmap string (Z * Z) :=
  {[ "read_latency" := (0, 200); "write_latency" := (0, 200);
     "interarrival_latency" := (0, 100) ]}%string.
Definition num_bins : Z := 10.

Definition sizes_of (names : list string) (n : nat) : gmap string nat :=
  list_to_map ((λ x, (x, n)) <$> names).
Definition bin_sizes : gmap string nat := (λ _, Z.to_nat (num_bins + 2)) <$> histo_table.

Record stats_ok (config : Config) (s : SimpleStats) : Prop := {
  so_epoch_vec : length <$> epoch_vec_counters_ s = sizes_of vec_names (Z.to_nat (ranks config));
  so_vec : length <$> vec_counters_ s = sizes_of vec_names (Z.to_nat (ranks config));
  so_energy : length <$> vec_doubles_ s = sizes_of energy_names (Z.to_nat (ranks config));
  so_bounds : histo_bounds_ s = histo_table;
  so_widths : bin_widths_ s = (λ b : Z * Z, Z.quot (b.2 - b.1) num_bins) <$> histo_table;
  so_headers : length <$> histo_headers_ s = bin_sizes;
  so_bins : length <$> histo_bins_ s = bin_sizes;
  so_epoch_bins : length <$> epoch_histo_bins_ s = bin_sizes;
  so_counts : dom (histo_counts_ s) = dom histo_table;
  so_epoch_counts : dom (epoch_histo_counts_ s) = dom histo_table;
  so_epoch_num : is_Some (counters_ s !! "epoch_num"%string)
}.

(** An update that keeps the shape, whatever the number of ranks. *)
Definition keeps_shape (s s' : SimpleStats) : Prop :=
  ∀ config : Config, stats_ok config s → stats_ok config s'.

(** ** Lengths in a map of vectors *)

#[global] Instance keeps_shape_preorder : PreOrder keeps_shape.
Proof. split; [by intros s config|]. intros s1 s2 s3 H1 H2 config H. by apply H2, H1. Qed.

Lemma lens_lookup {A} (m : gmap string (list A)) sh k v :
  length <$> m = sh → m !! k = Some v → sh !! k = Some (length v).
Proof. intros <- H. by rewrite lookup_fmap, H. Qed.

Lemma lens_get {A} (m : gmap string (list A)) sh k n :
  length <$> m = sh → sh !! k = Some n → length (get_or [] m k) = n ∧ m !! k = Some (get_or [] m k).
Proof.
  intros <- H. rewrite lookup_fmap in H. unfold get_or. destruct (m !! k) as [v|]; [|done].
  simpl in *. by injection H.
Qed.

Lemma lens_insert {A} (m : gmap string (list A)) sh k v :
  length <$> m = sh → sh !! k = Some (length v) → length <$> <[k := v]> m = sh.
Proof. intros <- H. by rewrite fmap_insert, insert_id. Qed.

Lemma lens_clear {A} (z : A) (m : gmap string (list A)) : length <$> clear_vecs z m = length <$> m.
Proof.
  unfold clear_vecs. rewrite <- map_fmap_compose. apply map_fmap_ext.
  intros k v _. apply length_replicate.
Qed.

Lemma sizes_of_lookup names n k : k ∈ names → sizes_of names n !! k = Some n.
Proof.
  unfold sizes_of. induction names as [|x names IH]; intros H; [by apply elem_of_nil in H|].
  csimpl. destruct (decide (x = k)) as [->|]; [apply lookup_insert_eq|].
  rewrite lookup_insert_ne by done. apply IH. by apply elem_of_cons in H as [->|].
Qed.

Lemma dom_insert_same {A} (m : gmap string A) k v (d : gset string) :
  dom m = d → k ∈ d → dom (<[k := v]> m) = d.
Proof. intros <- H. rewrite dom_insert_L. set_solver. Qed.

(** ** Operations that count *)

Ltac shape := intros []; split; simpl; try done.

Lemma stats_ok_prints (config : Config) s j p :
  stats_ok config s → stats_ok config (set_j_data_ j (set_print_pairs_ p s)).
Proof. by shape. Qed.

Lemma keeps_Increment n s : keeps_shape s (Increment n s).
Proof. intros config. by shape. Qed.

Lemma keeps_AddValue n v s : n ∈ dom histo_table → keeps_shape s (AddValue n v s).
Proof. intros Hn config. shape. by apply dom_insert_same. Qed.

Lemma keeps_latencies v s :
  keeps_shape s (AddValue "read_latency" v s) ∧ keeps_shape s (AddValue "write_latency" v s) ∧
  keeps_shape s (AddValue "interarrival_latency" v s).
Proof. split_and!; apply keeps_AddValue; set_solver. Qed.

Lemma stats_ok_IncrementVecBy (config : Config) n i num s :
  n ∈ vec_names → 0 ≤ i < ranks config → stats_ok config s →
  ∃ s', IncrementVecBy n i num s = Ok s' ∧ stats_ok config s'.
Proof.
  intros Hn Hi Hs. pose proof (sizes_of_lookup _ (Z.to_nat (ranks config)) _ Hn) as Hsz.
  destruct (lens_get _ _ _ _ (so_epoch_vec _ _ Hs) Hsz) as [Hlen _].
  unfold IncrementVecBy.
  assert (Hr : 0 ≤ i < vsize (get_or [] (epoch_vec_counters_ s) n)) by (unfold vsize; lia).
  destruct (vget_in_range _ _ Hr) as [x ->]. cbn [mbind outcome_bind].
  rewrite (vset_in_range _ _ _ Hr). cbn [mbind outcome_bind]. eexists. split; [reflexivity|].
  destruct Hs. split; simpl; try done. apply lens_insert; [done|].
  by rewrite length_insert, Hlen.
Qed.

Lemma stats_ok_IncrementVec (config : Config) n i s :
  n ∈ vec_names → 0 ≤ i < ranks config → stats_ok config s →
  ∃ s', IncrementVec n i s = Ok s' ∧ stats_ok config s'.
Proof. apply stats_ok_IncrementVecBy. Qed.

Lemma stats_ok_Reset (config : Config) s : stats_ok config s → stats_ok config (Reset s).
Proof.
  shape; rewrite ?lens_clear; try done; unfold clear_all; rewrite ?dom_fmap_L; try done.
  rewrite lookup_fmap. destruct so_epoch_num0 as [x ->]. by eexists.
Qed.

(** ** Closing an epoch *)

Lemma add_vec_total acc vec :
  length vec = length acc → ∃ r, add_vec acc vec = Ok r ∧ length r = length acc.
Proof.
  revert acc. induction vec as [|x vec IH]; intros [|y acc] H; try discriminate H; simpl.
  - by eexists.
  - destruct (IH acc) as (r & -> & Hr); [simpl in H; lia|]. simpl. eexists. split; [reflexivity|]. simpl. by rewrite Hr.
Qed.

Lemma add_bins_total final epoch :
  length epoch = length final → ∃ r, add_bins final epoch = Ok r ∧ length r = length final.
Proof.
  revert epoch. induction final as [|y final IH]; intros [|x epoch] H; try discriminate H; simpl.
  - by eexists.
  - destruct (IH epoch) as (r & -> & Hr); [simpl in H; lia|]. simpl. eexists. split; [reflexivity|]. simpl. by rewrite Hr.
Qed.

Lemma foldl_counters_some (m : gmap string Z) l k :
  is_Some (m !! k) →
  is_Some (foldl (λ m '(k, v), <[k := u64 (get_or 0 m k + v)]> m) m l !! k).
Proof.
  revert m. induction l as [|[k' v] l IH]; intros m H; [done|]. csimpl. apply IH.
  by apply lookup_insert_is_Some'; right.
Qed.

Lemma UpdateCounters_total (config : Config) s :
  stats_ok config s → ∃ s', UpdateCounters s = Ok s' ∧ stats_ok config s'.
Proof.
  intros Hs. unfold UpdateCounters.
  destruct (for_each_total (λ m, length <$> m = sizes_of vec_names (Z.to_nat (ranks config)))
    (λ '(k, vec) m, v ← add_vec (get_or [] m k) vec; Ok (<[k := v]> m))
    (map_to_list (epoch_vec_counters_ s)) (vec_counters_ s)) as (vc & Hvc & Hsz).
  - intros [k vec] m Hin Hm. apply elem_of_map_to_list in Hin.
    pose proof (lens_lookup _ _ _ _ (so_epoch_vec _ _ Hs) Hin) as Hk.
    destruct (lens_get _ _ _ _ Hm Hk) as [Hlen _].
    destruct (add_vec_total (get_or [] m k) vec) as (r & -> & Hr); [done|].
    eexists. split; [reflexivity|]. apply lens_insert; [done|]. by rewrite Hr, Hlen.
  - apply Hs.
  - eexists. split; [apply bind_Ok; exists vc; by split|].
    destruct Hs. split; simpl; try done. by apply foldl_counters_some.
Qed.

Lemma set_vec_double_total (config : Config) n i d s :
  n ∈ energy_names → 0 ≤ i < ranks config → stats_ok config s →
  ∃ s', set_vec_double n i d s = Ok s' ∧ stats_ok config s' ∧
    epoch_vec_counters_ s' = epoch_vec_counters_ s ∧ vec_counters_ s' = vec_counters_ s.
Proof.
  intros Hn Hi Hs. pose proof (sizes_of_lookup _ (Z.to_nat (ranks config)) _ Hn) as Hsz.
  destruct (lens_get _ _ _ _ (so_energy _ _ Hs) Hsz) as [Hlen _]. unfold set_vec_double.
  rewrite vset_in_range by (unfold vsize; lia). cbn [mbind outcome_bind].
  eexists. split; [reflexivity|]. split; [|done]. destruct Hs. split; simpl; try done.
  apply lens_insert; [done|]. by rewrite length_insert, Hlen.
Qed.

Lemma background_total (config : Config) vc s :
  length <$> vc = sizes_of vec_names (Z.to_nat (ranks config)) → stats_ok config s →
  ∃ s' e, background config vc s = Ok (s', e) ∧ stats_ok config s'.
Proof.
  intros Hvc Hs. unfold background, for_range.
  destruct (for_each_total (λ x : SimpleStats * double, stats_ok config x.1)
    (λ i '(s, e),
       a ← vget (get_or [] vc "rank_active_cycles") i;
       p ← vget (get_or [] vc "all_bank_idle_cycles") i;
       r ← vget (get_or [] vc "sref_cycles") i;
       let act_stb := (d_of_Z a * act_stb_energy_inc config)%double in
       let pre_stb := (d_of_Z p * pre_stb_energy_inc config)%double in
       let sref_energy := (d_of_Z r * sref_energy_inc config)%double in
       s ← set_vec_double "act_stb_energy" i act_stb s;
       s ← set_vec_double "pre_stb_energy" i pre_stb s;
       s ← set_vec_double "sref_energy" i sref_energy s;
       Ok (s, (e + (act_stb + pre_stb + sref_energy))%double))
    (seqZ 0 (ranks config)) (s, zero)) as ([s' e] & H & Hs'); [|done|by exists s', e].
  intros i [s1 e1] Hi Hs1. apply elem_of_seqZ in Hi. simpl in Hs1.
  assert (Hget : ∀ n, n ∈ vec_names → ∃ x, vget (get_or [] vc n) i = Ok x).
  { intros n Hn. apply vget_in_range.
    destruct (lens_get _ _ _ _ Hvc (sizes_of_lookup _ _ _ Hn)). unfold vsize. lia. }
  destruct (Hget "rank_active_cycles"%string) as [a ->]; [set_solver|].
  destruct (Hget "all_bank_idle_cycles"%string) as [p ->]; [set_solver|].
  destruct (Hget "sref_cycles"%string) as [r ->]; [set_solver|]. cbn [mbind outcome_bind].
  edestruct (set_vec_double_total config "act_stb_energy" i) as (s2 & -> & Hs2 & _);
    [set_solver|lia|exact Hs1|]. cbn [mbind outcome_bind].
  edestruct (set_vec_double_total config "pre_stb_energy" i) as (s3 & -> & Hs3 & _);
    [set_solver|lia|exact Hs2|]. cbn [mbind outcome_bind].
  edestruct (set_vec_double_total config "sref_energy" i) as (s4 & -> & Hs4 & _);
    [set_solver|lia|exact Hs3|]. cbn [mbind outcome_bind]. by eexists.
Qed.

(** ** Histograms *)

(** Every registered histogram has bins of equal width over its range. *)
Lemma histo_table_spec name b :
  histo_table !! name = Some b →
  0 < Z.quot (b.2 - b.1) num_bins ∧ b.2 = b.1 + num_bins * Z.quot (b.2 - b.1) num_bins.
Proof.
  intros H. assert (Hall : map_Forall (λ _ b, 0 < Z.quot (b.2 - b.1) num_bins ∧
    b.2 = b.1 + num_bins * Z.quot (b.2 - b.1) num_bins) histo_table).
  { unfold histo_table. repeat (apply map_Forall_insert_2; [done|]).
    apply map_Forall_empty. }
  exact (Hall _ _ H).
Qed.

Lemma bin_sizes_lookup name k :
  bin_sizes !! name = Some k →
  k = Z.to_nat (num_bins + 2) ∧ ∃ b, histo_table !! name = Some b.
Proof. unfold bin_sizes. rewrite lookup_fmap_Some. intros (b & <- & H). split; [done|by eexists]. Qed.

(** The two loops of [UpdateHistoBins]. *)
Lemma epoch_bins_total (config : Config) s :
  stats_ok config s →
  ∃ eb, for_each (λ '(name, bins) m,
       b ← fill_bins (get_or (0, 0) (histo_bounds_ s) name) (get_or 0 (bin_widths_ s) name)
             (get_or ∅ (epoch_histo_counts_ s) name) bins;
       Ok (<[name := b]> m))
    (map_to_list (epoch_histo_bins_ s)) (epoch_histo_bins_ s) = Ok eb ∧ length <$> eb = bin_sizes.
Proof.
  intros Hs. apply (for_each_total (λ m, length <$> m = bin_sizes)); [|apply Hs].
  intros [name bins] m Hin Hm. apply elem_of_map_to_list in Hin.
  pose proof (lens_lookup _ _ _ _ (so_epoch_bins _ _ Hs) Hin) as Hk.
  destruct (bin_sizes_lookup _ _ Hk) as (Hlen & b & Hb).
  destruct (histo_table_spec _ _ Hb) as [Hw Hr].
  rewrite (so_bounds _ _ Hs), (so_widths _ _ Hs). unfold get_or at 1 2.
  rewrite lookup_fmap, Hb. cbn [default from_option fmap option_fmap option_map id].
  destruct (fill_bins_spec b.1 b.2 (Z.quot (b.2 - b.1) num_bins) num_bins
    (get_or ∅ (epoch_histo_counts_ s) name) bins) as (r & H & Hr' & _); try done.
  { unfold vsize. by rewrite Hlen. }
  destruct b as [lo hi]. simpl in *. rewrite H. cbn [mbind outcome_bind].
  eexists. split; [reflexivity|]. apply lens_insert; [done|]. rewrite Hk. f_equal.
  unfold vsize in Hr'. unfold num_bins in *. lia.
Qed.

Lemma merge_bins_total (config : Config) name counts s :
  name ∈ dom histo_table → stats_ok config s →
  ∃ s', (let s := set_histo_counts_
           (<[name := merge_counts (get_or ∅ (histo_counts_ s) name) counts]> (histo_counts_ s)) s in
         b ← add_bins (get_or [] (histo_bins_ s) name) (get_or [] (epoch_histo_bins_ s) name);
         Ok (set_histo_bins_ (<[name := b]> (histo_bins_ s)) s)) = Ok s' ∧ stats_ok config s'.
Proof.
  intros Hd Hs. pose proof Hd as [b Hb]%elem_of_dom.
  assert (Hk : bin_sizes !! name = Some (Z.to_nat (num_bins + 2)))
    by (unfold bin_sizes; by rewrite lookup_fmap, Hb).
  destruct (lens_get _ _ _ _ (so_bins _ _ Hs) Hk) as [Hl1 _].
  destruct (lens_get _ _ _ _ (so_epoch_bins _ _ Hs) Hk) as [Hl2 _]. simpl.
  destruct (add_bins_total (get_or [] (histo_bins_ s) name)
    (get_or [] (epoch_histo_bins_ s) name)) as (r & -> & Hr); [congruence|].
  cbn [mbind outcome_bind]. eexists. split; [reflexivity|].
  destruct Hs. split; simpl; try done.
  - apply lens_insert; [done|]. by rewrite Hr, Hl1.
  - by apply dom_insert_same.
Qed.

Lemma UpdateHistoBins_total (config : Config) s :
  stats_ok config s → ∃ s', UpdateHistoBins s = Ok s' ∧ stats_ok config s'.
Proof.
  intros Hs. unfold UpdateHistoBins.
  destruct (epoch_bins_total config s Hs) as (eb & -> & Heb). cbn [mbind outcome_bind].
  apply (for_each_total (stats_ok config)); [|destruct Hs; split; done].
  intros [name counts] s1 Hin Hs1. apply elem_of_map_to_list in Hin. simpl in Hin.
  apply merge_bins_total; [|done]. rewrite <- (so_epoch_counts _ _ Hs). by eapply elem_of_dom_2.
Qed.

(** ** Printing *)

Lemma foldl_ok {A} (config : Config) (f : SimpleStats → A → SimpleStats) l s :
  (∀ s x, stats_ok config s → stats_ok config (f s x)) →
  stats_ok config s → stats_ok config (foldl f s l).
Proof. intros Hf. revert s. induction l as [|x l IH]; intros s Hs; [done|]. by apply IH, Hf. Qed.

Lemma print_bins_total (config : Config) name bins s :
  bin_sizes !! name = Some (length bins) → stats_ok config s →
  ∃ s', print_bins name bins s = Ok s' ∧ stats_ok config s'.
Proof.
  intros Hk Hs. unfold print_bins. apply (for_each_total (stats_ok config)); [|done].
  intros [i x] s1 Hin Hs1. apply elem_of_lookup_imap in Hin as (k & y & [= -> <-] & Hy).
  destruct (lens_get _ _ _ _ (so_headers _ _ Hs1) Hk) as [Hlen _].
  destruct (vget_in_range (get_or [] (histo_headers_ s1) name) (Z.of_nat k)) as [h ->].
  { unfold vsize. rewrite Hlen. apply lookup_lt_Some in Hy. lia. }
  cbn [mbind outcome_bind]. eexists. split; [reflexivity|]. by apply stats_ok_prints.
Qed.

Lemma UpdatePrints_total (config : Config) fd epoch s :
  stats_ok config s → ∃ s', UpdatePrints fd epoch s = Ok s' ∧ stats_ok config s'.
Proof.
  intros Hs. unfold UpdatePrints.
  set (s0 := foldl _ _ (map_to_list (if epoch then epoch_vec_counters_ _ else vec_counters_ _))).
  assert (H0 : stats_ok config s0).
  { unfold s0. apply foldl_ok; [intros ? []; by shape|].
    assert (Hj : ∀ s v, stats_ok config s → stats_ok config (set_j_data_ v s)) by (intros ? ?; by shape).
    apply Hj, foldl_ok; [intros ? []; by shape|]. by apply Hj. }
  clearbody s0. clear Hs s.
  destruct (for_each_total (stats_ok config) (λ '(k, v) s, print_bins k v s)
    (map_to_list (if epoch then epoch_histo_bins_ s0 else histo_bins_ s0)) s0)
    as (s1 & -> & H1); [|done|].
  - intros [k v] s1 Hin Hs1. apply elem_of_map_to_list in Hin.
    apply print_bins_total; [|done].
    destruct epoch; eapply lens_lookup; try exact Hin; apply H0.
  - cbn [mbind outcome_bind]. eexists. split; [reflexivity|].
    do 3 (apply foldl_ok; [intros ? []; by shape|]).
    destruct epoch; [done|]. apply foldl_ok; [intros ? []; by shape|done].
Qed.

Lemma histo_total (config : Config) (m : gmap string (gmap Z Z)) n :
  dom m = dom histo_table → n ∈ dom histo_table →
  ∃ c, from_option_or UncaughtException (m !! n) = Ok c ∧ True.
Proof. intros <- [c ->]%elem_of_dom. by exists c. Qed.

Lemma UpdateEpochStats_total (config : Config) fd s :
  stats_ok config s → ∃ s', UpdateEpochStats fd config s = Ok s' ∧ stats_ok config s'.
Proof.
  intros Hs. unfold UpdateEpochStats.
  apply (bind_total (stats_ok config)); [by apply UpdateCounters_total|]. intros s1 H1.
  eapply (bind_total (λ x, stats_ok config x.1)).
  { edestruct (background_total config) as (s2 & e & H & H2); [| |exists (s2, e); split; [exact H|exact H2]].
    - apply H1.
    - destruct H1. by split. }
  intros [s2 e] H2. apply (bind_total (stats_ok config)); [by apply UpdateHistoBins_total|].
  intros s3 H3. do 2 (eapply (bind_total (λ _, True)); [apply (histo_total config); [apply H3|set_solver]|intros ? _]).
  eapply (bind_total (stats_ok config)); [apply UpdatePrints_total; destruct H3; by split|].
  intros s4 H4. eexists. split; [reflexivity|].
  destruct H4. split; simpl; rewrite ?lens_clear; try done.
  unfold clear_all. by rewrite dom_fmap_L.
Qed.

Lemma UpdateFinalStats_total (config : Config) fd s :
  stats_ok config s → ∃ s', UpdateFinalStats fd config s = Ok s' ∧ stats_ok config s'.
Proof.
  intros Hs. unfold UpdateFinalStats.
  apply (bind_total (stats_ok config)); [by apply UpdateCounters_total|]. intros s1 H1.
  eapply (bind_total (λ x, stats_ok config x.1)).
  { edestruct (background_total config) as (s2 & e & H & H2); [| |exists (s2, e); split; [exact H|exact H2]].
    - apply H1.
    - destruct H1. by split. }
  intros [s2 e] H2. apply (bind_total (stats_ok config)); [by apply UpdateHistoBins_total|].
  intros s3 H3. do 2 (eapply (bind_total (λ _, True)); [apply (histo_total config); [apply H3|set_solver]|intros ? _]).
  apply UpdatePrints_total. destruct H3. by split.
Qed.

Lemma PrintEpochStats_total (config : Config) fd st s :
  stats_ok config s → ∃ s' out, PrintEpochStats fd st config s = Ok (s', out) ∧ stats_ok config s'.
Proof.
  intros Hs. unfold PrintEpochStats.
  destruct (UpdateEpochStats_total config fd s Hs) as (s1 & -> & H1). cbn [mbind outcome_bind].
  unfold GetTextHeader. destruct (so_epoch_num _ _ H1) as [n ->].
  destruct (2 <=? _); cbn [from_option_or mbind outcome_bind];
    (eexists _, _; split; [reflexivity|]; revert H1; by shape).
Qed.

Lemma PrintFinalStats_total (config : Config) fd st s :
  stats_ok config s → ∃ s' out, PrintFinalStats fd st config s = Ok (s', out) ∧ stats_ok config s'.
Proof.
  intros Hs. unfold PrintFinalStats.
  destruct (UpdateFinalStats_total config fd s Hs) as (s1 & -> & H1). cbn [mbind outcome_bind].
  unfold GetTextHeader. destruct (1 <=? _); cbn [mbind outcome_bind];
    (eexists _, _; split; [reflexivity|]; revert H1; by shape).
Qed.

(** ** The constructor *)

Lemma lens_replicate {A} (z : A) names n :
  length <$> (list_to_map ((λ x, (x, replicate n z)) <$> names) : gmap string (list A))
  = sizes_of names n.
Proof.
  unfold sizes_of. induction names as [|x names IH]; csimpl; [apply fmap_empty|].
  by rewrite fmap_insert, IH, length_replicate.
Qed.

Lemma SimpleStats_init_ok (config : Config) ch : stats_ok config (SimpleStats_init config ch).
Proof.
  split.
  - rewrite <- (lens_replicate 0). reflexivity.
  - rewrite <- (lens_replicate 0). reflexivity.
  - rewrite <- (lens_replicate zero). reflexivity.
  - reflexivity.
  - reflexivity.
  - reflexivity.
  - reflexivity.
  - reflexivity.
  - reflexivity.
  - reflexivity.
  - exists 0. reflexivity.
Qed.

(** ** Properties *)

(** [C31] The statistics never fail: from the constructor on, whatever was
    counted, the end of an epoch and the final report return (no vector is
    indexed out of range, no bin width is zero, no name is missing) and keep
    the shape of the statistics, so that the next epoch returns too. *)
Theorem stats_never_fail (config : Config) fd st s :
  stats_ok config s →
  (∃ s' out, PrintEpochStats fd st config s = Ok (s', out) ∧ stats_ok config s') ∧
  (∃ s' out, PrintFinalStats fd st config s = Ok (s', out) ∧ stats_ok config s') ∧
  (∀ n, stats_ok config (Increment n s)) ∧
  (∀ n v, n ∈ dom histo_table → stats_ok config (AddValue n v s)) ∧
  (∀ n i, n ∈ vec_names → 0 ≤ i < ranks config →
     ∃ s', IncrementVec n i s = Ok s' ∧ stats_ok config s') ∧
  stats_ok config (Reset s).
Proof.
  intros Hs. split_and!.
  - by apply PrintEpochStats_total.
  - by apply PrintFinalStats_total.
  - intros n. by apply keeps_Increment.
  - intros n v Hn. by apply keeps_AddValue.
  - intros n i Hn Hi. by apply stats_ok_IncrementVec.
  - by apply stats_ok_Reset.
Qed.

Lemma stats_never_fail_witness :
  stats_ok hbm2_config (SimpleStats_init hbm2_config 3) ∧
  ∃ s' out, PrintEpochStats (λ _, "x"%string) (λ _ _ _, "y"%string) hbm2_config
      (SimpleStats_init hbm2_config 3) = Ok (s', out) ∧ stats_ok hbm2_config s'.
Proof.
  pose proof (SimpleStats_init_ok hbm2_config 3) as H. split; [exact H|].
  exact (proj1 (stats_never_fail hbm2_config (λ _, "x"%string) (λ _ _ _, "y"%string) _ H)).
Defined.
