(* ===== verification/CommandQueue.v ===== *)
(** * Command queues: src/src/command_queue.h and src/src/command_queue.cc

    Commands wait in one queue per bank or per rank.  Every cycle the queues
    are visited in turn and the first command that can make progress is
    issued; queues that are being refreshed are skipped.  The class holds
    references to the channel state and the statistics, which are arguments
    here; the statistics are returned when they change. *)
From stdpp Require Import base tactics numbers list list_numbers gmap strings sets.
From S2P Require Import Prelude Common Double Configuration Timing BankState ChannelState.
From S2P Require Import SimpleStats.

Local Open Scope Z_scope.

Inductive QueueStructure := PER_RANK | PER_BANK | QUEUE_STRUCTURE_SIZE.

#[global] Instance QueueStructure_eq_dec : EqDecision QueueStructure.
Proof. solve_decision. Defined.

Record CommandQueue := mkCommandQueue {
  rank_q_empty : list bool;
  queue_structure_ : QueueStructure;
  queues_ : list (list Command);
  ref_q_indices_ : gset Z;
  is_in_ref_ : bool;
  num_queues_ : Z;
  queue_size_ : Z;
  queue_idx_ : Z;
  cq_clk_ : Z
}.

Definition set_rank_q_empty v q :=
  mkCommandQueue v (queue_structure_ q) (queues_ q) (ref_q_indices_ q) (is_in_ref_ q)
    (num_queues_ q) (queue_size_ q) (queue_idx_ q) (cq_clk_ q).
Definition set_queues v q :=
  mkCommandQueue (rank_q_empty q) (queue_structure_ q) v (ref_q_indices_ q) (is_in_ref_ q)
    (num_queues_ q) (queue_size_ q) (queue_idx_ q) (cq_clk_ q).
Definition set_ref v b q :=
  mkCommandQueue (rank_q_empty q) (queue_structure_ q) (queues_ q) v b
    (num_queues_ q) (queue_size_ q) (queue_idx_ q) (cq_clk_ q).
Definition set_queue_idx v q :=
  mkCommandQueue (rank_q_empty q) (queue_structure_ q) (queues_ q) (ref_q_indices_ q)
    (is_in_ref_ q) (num_queues_ q) (queue_size_ q) v (cq_clk_ q).
Definition set_cq_clk v q :=
  mkCommandQueue (rank_q_empty q) (queue_structure_ q) (queues_ q) (ref_q_indices_ q)
    (is_in_ref_ q) (num_queues_ q) (queue_size_ q) (queue_idx_ q) v.

Definition CommandQueue_init (config : Config) : outcome CommandQueue :=
  '(structure, n) ←
    (if bool_decide (queue_structure config = "PER_BANK"%string) then
       Ok (PER_BANK, banks config * ranks config)
     else if bool_decide (queue_structure config = "PER_RANK"%string) then
       Ok (PER_RANK, ranks config)
     else Fail (AbruptExit "command_queue.cc" 25));
  Ok (mkCommandQueue (replicate (Z.to_nat (ranks config)) true) structure
        (replicate (Z.to_nat n) []) ∅ false n (u64 (cmd_queue_size config)) 0 0).

Definition ClockTick (q : CommandQueue) : CommandQueue := set_cq_clk (u64 (cq_clk_ q + 1)) q.

Definition GetQueueIndex (config : Config) (q : CommandQueue) (rank bankgroup bank : Z) : Z :=
  match queue_structure_ q with
  | PER_RANK => rank
  | _ => rank * banks config + bankgroup * banks_per_group config + bank
  end.

Definition cmd_queue_index (config : Config) (q : CommandQueue) (cmd : Command) : Z :=
  GetQueueIndex config q (Rank cmd) (Bankgroup cmd) (Bank cmd).

Definition WillAcceptCommand (config : Config) (q : CommandQueue) (rank bankgroup bank : Z)
    : outcome bool :=
  queue ← vget (queues_ q) (GetQueueIndex config q rank bankgroup bank);
  Ok (vsize queue <? queue_size_ q).

Definition QueueEmpty (q : CommandQueue) : bool :=
  forallb (λ l, bool_decide (l = [])) (queues_ q).

Definition QueueUsage (q : CommandQueue) : Z :=
  foldl (λ usage l, s32 (usage + vsize l)) 0 (queues_ q).

Definition AddCommand (config : Config) (q : CommandQueue) (cmd : Command)
    : outcome (CommandQueue * bool) :=
  let i := cmd_queue_index config q cmd in
  queue ← vget (queues_ q) i;
  if vsize queue <? queue_size_ q then
    queues ← vset (queues_ q) i (queue ++ [cmd]);
    empty ← vset (rank_q_empty q) (Rank cmd) false;
    Ok (set_rank_q_empty empty (set_queues queues q), true)
  else Ok (q, false).

(** ** Choosing a command *)

Definition same_bank_cmd (a b : Command) : bool :=
  (Rank a =? Rank b) && (Bankgroup a =? Bankgroup b) && (Bank a =? Bank b).

(** [cmd_it] splits the queue into the commands before it and itself with the
    commands after it. *)
Definition ArbitratePrecharge (cs : ChannelState) (before : list Command) (cmd : Command)
    (after : list Command) (stats : SimpleStats) : outcome (bool * SimpleStats) :=
  if existsb (λ prev, same_bank_cmd prev cmd) before then Ok (false, stats)
  else
    open_row ← OpenRow cs (Rank cmd) (Bankgroup cmd) (Bank cmd);
    let pending_row_hits_exist :=
      existsb (λ p, (Row p =? open_row) && same_bank_cmd p cmd) (cmd :: after) in
    hits ← RowHitCount cs (Rank cmd) (Bankgroup cmd) (Bank cmd);
    let rowhit_limit_reached := 4 <=? hits in
    if negb pending_row_hits_exist || rowhit_limit_reached
    then Ok (true, Increment "num_ondemand_pres" stats)
    else Ok (false, stats).

Definition HasRWDependency (before : list Command) (cmd : Command) : bool :=
  existsb (λ it, IsRead it && (Row it =? Row cmd) && (Column it =? Column cmd)
                 && (Bank it =? Bank cmd) && (Bankgroup it =? Bankgroup cmd)) before.

Fixpoint first_ready (config : Config) (cs : ChannelState) (clk : Z)
    (before queue : list Command) (stats : SimpleStats) : outcome (Command * SimpleStats) :=
  match queue with
  | [] => Ok (Command_default, stats)
  | it :: after =>
      cmd ← GetReadyCommand config cs it clk;
      if negb (IsValid cmd) then first_ready config cs clk (before ++ [it]) after stats
      else if type_eqb (cmd_type cmd) PRECHARGE then
        '(ok, stats) ← ArbitratePrecharge cs before it after stats;
        if negb ok then first_ready config cs clk (before ++ [it]) after stats
        else Ok (cmd, stats)
      else if IsWrite cmd then
        if HasRWDependency before it
        then first_ready config cs clk (before ++ [it]) after stats
        else Ok (cmd, stats)
      else Ok (cmd, stats)
  end.

Definition GetFirstReadyInQueue (config : Config) (cs : ChannelState) (clk : Z)
    (queue : list Command) (stats : SimpleStats) : outcome (Command * SimpleStats) :=
  first_ready config cs clk [] queue stats.

(** The erasing loop; [None] is the end of the queue. *)
Fixpoint erase_cmd (cmd : Command) (queue : list Command) : option (list Command) :=
  match queue with
  | [] => None
  | it :: queue =>
      if (cmd_hex_addr cmd =? cmd_hex_addr it) && type_eqb (cmd_type cmd) (cmd_type it)
      then Some queue else cons it <$> erase_cmd cmd queue
  end.

Definition EraseRWCommand (config : Config) (q : CommandQueue) (cmd : Command)
    : outcome CommandQueue :=
  let i := cmd_queue_index config q cmd in
  queue ← vget (queues_ q) i;
  queue ← from_option_or (ExitProcess 1) (erase_cmd cmd queue);
  queues ← vset (queues_ q) i queue;
  Ok (set_queues queues q).

Definition GetNextQueue (q : CommandQueue) : CommandQueue :=
  let i := queue_idx_ q + 1 in
  set_queue_idx (if i =? num_queues_ q then 0 else i) q.

(** The loop of [GetCommandToIssue], [n] iterations from its end. *)
Fixpoint issue_scan (config : Config) (cs : ChannelState) (n : nat) (q : CommandQueue)
    (stats : SimpleStats) : outcome (Command * CommandQueue * SimpleStats) :=
  match n with
  | O => Ok (Command_default, q, stats)
  | S n =>
      let q := GetNextQueue q in
      queue ← vget (queues_ q) (queue_idx_ q);
      if is_in_ref_ q && bool_decide (queue_idx_ q ∈ ref_q_indices_ q)
      then issue_scan config cs n q stats
      else
        '(cmd, stats) ← GetFirstReadyInQueue config cs (cq_clk_ q) queue stats;
        if IsValid cmd then
          q ← (if IsReadWrite cmd then EraseRWCommand config q cmd else Ok q);
          Ok (cmd, q, stats)
        else issue_scan config cs n q stats
  end.

Definition GetCommandToIssue (config : Config) (cs : ChannelState) (q : CommandQueue)
    (stats : SimpleStats) : outcome (Command * CommandQueue * SimpleStats) :=
  issue_scan config cs (Z.to_nat (num_queues_ q)) q stats.

(** ** Refreshing *)

Definition GetRefQIndices (config : Config) (q : CommandQueue) (ref : Command)
    : outcome CommandQueue :=
  if type_eqb (cmd_type ref) REFRESH then
    match queue_structure_ q with
    | PER_BANK =>
        s ← for_range (num_queues_ q)
              (λ i s, r ← idiv i (banks config);
                      Ok (if r =? Rank ref then {[ i ]} ∪ s else s)) (ref_q_indices_ q);
        Ok (set_ref s (is_in_ref_ q) q)
    | _ => Ok (set_ref ({[ Rank ref ]} ∪ ref_q_indices_ q) (is_in_ref_ q) q)
    end
  else Ok (set_ref ({[ cmd_queue_index config q ref ]} ∪ ref_q_indices_ q) (is_in_ref_ q) q).

Definition FinishRefresh (config : Config) (cs : ChannelState) (q : CommandQueue)
    : outcome (Command * CommandQueue) :=
  ref ← PendingRefCommand cs;
  q ← (if negb (is_in_ref_ q) then
         q ← GetRefQIndices config q ref; Ok (set_ref (ref_q_indices_ q) true q)
       else Ok q);
  cmd ← GetReadyCommand config cs ref (cq_clk_ q);
  Ok (cmd, if IsRefresh cmd then set_ref ∅ false q else q).

(** ** Specification *)

(** A command made from a transaction. *)
Definition request_ok (config : Config) (c : Command) : Prop :=
  IsReadWrite c = true ∧ valid_coord config (cmd_coord c) ∧
  cmd_addr c = AddressMapping config (cmd_hex_addr c).

Definition expected_queues (config : Config) (q : CommandQueue) : Z :=
  match queue_structure_ q with
  | PER_RANK => ranks config
  | _ => banks config * ranks config
  end.

Record cq_wf (config : Config) (q : CommandQueue) : Prop := {
  cw_struct : queue_structure_ q ≠ QUEUE_STRUCTURE_SIZE;
  cw_num : num_queues_ q = expected_queues config q;
  cw_len : vsize (queues_ q) = num_queues_ q;
  cw_idx : 0 ≤ queue_idx_ q < num_queues_ q;
  cw_empty : length (rank_q_empty q) = Z.to_nat (ranks config);
  cw_size : Forall (λ l, vsize l ≤ queue_size_ q) (queues_ q);
  cw_cmds i l c : queues_ q !! i = Some l → c ∈ l →
    request_ok config c ∧ Z.to_nat (cmd_queue_index config q c) = i
}.

(** When a waiting command may be precharged for: it is the oldest of its bank
    in the queue, and the open row is either not wanted or served enough. *)
Definition precharge_allowed (cs : ChannelState) (before : list Command) (it : Command)
    (after : list Command) : Prop :=
  (∀ prev, prev ∈ before → cmd_coord prev ≠ cmd_coord it) ∧
  ∃ bs, bank_states_ cs !! cmd_coord it = Some bs ∧
    ((∀ p, p ∈ it :: after → cmd_coord p = cmd_coord it → Row p ≠ open_row_ bs) ∨
     4 ≤ row_hit_count_ bs).

(** The place in a rank that a command accesses. *)
Definition location (c : Command) : Z * Z * Z * Z := (Bankgroup c, Bank c, Row c, Column c).

(** None of the commands [before] reads what [it] accesses. *)
Definition no_earlier_read (before : list Command) (it : Command) : Prop :=
  ∀ r, r ∈ before → IsRead r = true → location r ≠ location it.

(** The command [cmd] may be issued on behalf of [it]. *)
Definition issuable (config : Config) (cs : ChannelState) (clk : Z) (before : list Command)
    (it : Command) (after : list Command) (cmd : Command) : Prop :=
  GetReadyCommand config cs it clk = Ok cmd ∧ IsValid cmd = true ∧
  (cmd_type cmd = PRECHARGE → precharge_allowed cs before it after) ∧
  (IsWrite cmd = true → no_earlier_read before it).

(** What the scan of a queue may answer: an issuable command if there is one,
    and the invalid command otherwise. *)
Definition answer (config : Config) (cs : ChannelState) (clk : Z)
    (before queue : list Command) (cmd : Command) : Prop :=
  if IsValid cmd then
    ∃ mid it after, queue = mid ++ it :: after ∧
      issuable config cs clk (before ++ mid) it after cmd
  else ∀ mid it after c, queue = mid ++ it :: after →
      ¬ issuable config cs clk (before ++ mid) it after c.

(** Whether a queue is skipped because of a refresh. *)
Definition blocked (q : CommandQueue) (i : Z) : bool :=
  is_in_ref_ q && bool_decide (i ∈ ref_q_indices_ q).

(** The queue visited [k] steps after the current one. *)
Definition visit (q : CommandQueue) (k : Z) : Z := (queue_idx_ q + k) mod num_queues_ q.

(** Nothing can be issued from queue [i]. *)
Definition idle_at (config : Config) (cs : ChannelState) (q : CommandQueue) (i : Z) : Prop :=
  blocked q i = true ∨
  ∃ queue, queues_ q !! Z.to_nat i = Some queue ∧
    ∀ mid it after c, queue = mid ++ it :: after →
      ¬ issuable config cs (cq_clk_ q) mid it after c.

(** [cmd] is issued from queue [i], which becomes the current one: a read or
    write leaves the queue, any other command leaves the queues alone. *)
Definition served_at (config : Config) (cs : ChannelState) (q : CommandQueue) (i : Z)
    (cmd : Command) (q' : CommandQueue) : Prop :=
  blocked q i = false ∧ queue_idx_ q' = i ∧
  ∃ queue mid it after, queues_ q !! Z.to_nat i = Some queue ∧ queue = mid ++ it :: after ∧
    issuable config cs (cq_clk_ q) mid it after cmd ∧
    if IsReadWrite cmd
    then ∃ queue', queue ≡ₚ cmd :: queue' ∧ queues_ q' = <[Z.to_nat i := queue']> (queues_ q)
    else queues_ q' = queues_ q.

(** Everything but the queues and the current index is unchanged. *)
Definition same_setup (q q' : CommandQueue) : Prop :=
  q' = set_queues (queues_ q') (set_queue_idx (queue_idx_ q') q).

(** The commands waiting in all queues. *)
Definition waiting (q : CommandQueue) : list Command := concat (queues_ q).

(** The commands a pending refresh keeps from being issued. *)
Definition targets (ref c : Command) : Prop :=
  Rank c = Rank ref ∧
  (cmd_type ref = REFRESH ∨ (Bankgroup c = Bankgroup ref ∧ Bank c = Bank ref)).

(** The queues between the call of [FinishRefresh] that starts to work on the
    refresh [ref] and the one that issues it. *)
Inductive refreshing (config : Config) (ref : Command) : CommandQueue → Prop :=
| refreshing_start cs q cmd q' :
    cq_wf config q → is_in_ref_ q = false → PendingRefCommand cs = Ok ref →
    FinishRefresh config cs q = Ok (cmd, q') → IsRefresh cmd = false → refreshing config ref q'
| refreshing_again cs q cmd q' :
    refreshing config ref q → FinishRefresh config cs q = Ok (cmd, q') → IsRefresh cmd = false →
    refreshing config ref q'
| refreshing_issue cs q stats cmd q' stats' :
    refreshing config ref q → chan_wf config cs →
    GetCommandToIssue config cs q stats = Ok (cmd, q', stats') → refreshing config ref q'
| refreshing_add q cmd q' b :
    refreshing config ref q → request_ok config cmd → AddCommand config q cmd = Ok (q', b) →
    refreshing config ref q'
| refreshing_clock q : refreshing config ref q → refreshing config ref (ClockTick q).

(** The queues of everything a refresh targets are held back. *)
Record holds (config : Config) (ref : Command) (q : CommandQueue) : Prop := {
  ho_wf : cq_wf config q;
  ho_on : is_in_ref_ q = true;
  ho_queues c : valid_coord config (cmd_coord c) → targets ref c →
    cmd_queue_index config q c ∈ ref_q_indices_ q
}.

(** ** Concrete states for the examples *)

Definition read_at (config : Config) (hex : Z) : Command :=
  mkCommand READ (AddressMapping config hex) hex.

(** A queue that holds the given reads. *)
Definition queue_with (config : Config) (hexes : list Z) : outcome CommandQueue :=
  q ← CommandQueue_init config;
  for_each (λ hex q, '(q, _) ← AddCommand config q (read_at config hex); Ok q) hexes q.

Definition no_queue : CommandQueue := mkCommandQueue [] PER_BANK [] ∅ false 0 0 0 0.
Definition hbm2_queue : CommandQueue := ok_or no_queue (queue_with hbm2_config [4096; 65536]).
Definition ddr4_queue : CommandQueue :=
  ok_or no_queue (queue_with ddr4_config [0; 2 ^ 10; 2 ^ 11; 2 ^ 12; 2 ^ 13; 2 ^ 14; 2 ^ 15]).

(** The command issued, without the states. *)
Definition issued (config : Config) (cs : ChannelState) (q : CommandQueue) : outcome Command :=
  '(cmd, _, _) ← GetCommandToIssue config cs q (SimpleStats_init config 0); Ok cmd.

(** A channel with an open bank that is to be refreshed. *)
Definition refreshing_channel : ChannelState :=
  ok_or (ChannelState_init ddr4_config)
    (cs ← UpdateTimingAndStates ddr4_config (Timing_of ddr4_config)
            (ChannelState_init ddr4_config) (mkCommand ACTIVATE (mkAddress 0 0 0 0 3 0) 0) 0;
     Ok (BankNeedRefresh cs 0 0 0 true)).

(** ** Indices of queues *)

Lemma queue_index_range (config : Config) q r g b :
  dims_ok config → valid_coord config (r, g, b) →
  0 ≤ GetQueueIndex config q r g b < expected_queues config q.
Proof.
  intros [Hr Hg Hb Hp] (H1 & H2 & H3). unfold GetQueueIndex, expected_queues.
  destruct (queue_structure_ q); [done| |]; rewrite Hp;
    assert (0 ≤ g * banks_per_group config + b < bankgroups config * banks_per_group config)
      by nia; nia.
Qed.

Lemma cmd_queue_index_range (config : Config) q c :
  dims_ok config → cq_wf config q → valid_coord config (cmd_coord c) →
  0 ≤ cmd_queue_index config q c < vsize (queues_ q).
Proof.
  intros Hd Hw Hv. rewrite (cw_len _ _ Hw), (cw_num _ _ Hw). by apply queue_index_range.
Qed.

(** ** Choosing from one queue *)

Lemma request_not_rank (config : Config) c : request_ok config c → IsRankCMD c = false.
Proof. intros [H _]. by destruct c as [[] a h]. Qed.

Lemma request_total (config : Config) cs c clk :
  dims_ok config → chan_wf config cs → request_ok config c →
  ∃ ready, GetReadyCommand config cs c clk = Ok ready.
Proof.
  intros Hd Hw (Hrw & Hv & _). apply requests_total; try done.
  - destruct c as [[] a h]; try discriminate Hrw; by split.
  - left. by destruct c as [[] a h].
Qed.

(** A read or write that is ready is the waiting command itself. *)
Lemma ready_rw_is_request (config : Config) cs c clk ready :
  request_ok config c → GetReadyCommand config cs c clk = Ok ready →
  IsReadWrite ready = true → ready = c.
Proof.
  intros Hq H Hrw. pose proof (request_not_rank _ _ Hq) as Hrk.
  assert (Hv : IsValid ready = true) by (by destruct ready as [[] a h]).
  pose proof (bank_request_hex _ _ _ _ _ Hrk H Hv) as Hhex.
  destruct (bank_request_inv _ _ _ _ _ Hrk H Hv) as (bs & _ & Ha & Hreq & _).
  destruct Hq as [Hc _]. destruct ready as [t a h], c as [t' a' h']. simpl in *. subst.
  assert (t = t') as ->; [|done].
  unfold required_type in Hreq. destruct t'; try discriminate Hc; simpl in Hreq;
    destruct (state_ bs); try (destruct (_ =? _) in Hreq); try discriminate Hreq;
    injection Hreq as <-; by try discriminate Hrw.
Qed.

Lemma bank_lookup_total cs c bs :
  bank_states_ cs !! cmd_coord c = Some bs →
  OpenRow cs (Rank c) (Bankgroup c) (Bank c) = Ok (open_row_ bs) ∧
  RowHitCount cs (Rank c) (Bankgroup c) (Bank c) = Ok (row_hit_count_ bs).
Proof.
  intros H. unfold OpenRow, RowHitCount, bank_at. unfold cmd_coord in H. by rewrite H.
Qed.

Lemma same_bank_coord a b : same_bank_cmd a b = true ↔ cmd_coord a = cmd_coord b.
Proof.
  unfold same_bank_cmd, cmd_coord. rewrite !andb_true_iff, !Z.eqb_eq. split; [intros [[-> ->] ->]; done|].
  by intros [= -> -> ->].
Qed.

Lemma existsb_false {A} (f : A → bool) l : existsb f l = false ↔ ∀ x, x ∈ l → f x = false.
Proof.
  rewrite <- not_true_iff_false, existsb_exists. split.
  - intros H x Hx. apply not_true_iff_false. intros Hf. apply H. exists x. by rewrite <- list_elem_of_In.
  - intros H (x & Hx%list_elem_of_In & Hf). by rewrite (H x Hx) in Hf.
Qed.

Lemma no_earlier_read_spec before it : HasRWDependency before it = false ↔ no_earlier_read before it.
Proof.
  unfold HasRWDependency, no_earlier_read, location. rewrite existsb_false.
  split; intros H r Hr; specialize (H r Hr).
  - intros Hread [= E1 E2 E3 E4]. by rewrite Hread, E1, E2, E3, E4, !Z.eqb_refl in H.
  - destruct (IsRead r); [|done]. specialize (H eq_refl). apply not_true_iff_false. intros E. split_bool. congruence.
Qed.

Lemma ArbitratePrecharge_spec cs before it after stats bs :
  bank_states_ cs !! cmd_coord it = Some bs →
  ∃ ok stats', ArbitratePrecharge cs before it after stats = Ok (ok, stats') ∧
    (ok = true ↔ precharge_allowed cs before it after).
Proof.
  intros Hb. unfold ArbitratePrecharge, precharge_allowed.
  destruct (existsb (λ prev, same_bank_cmd prev it) before) eqn:Ebefore.
  { exists false, stats. split; [done|]. split; [done|]. intros [H _].
    apply existsb_exists in Ebefore as (x & Hx%list_elem_of_In & E%same_bank_coord). by apply H in Hx. }
  assert (Hbefore : ∀ prev, prev ∈ before → cmd_coord prev ≠ cmd_coord it).
  { intros prev Hp E%same_bank_coord. by rewrite (proj1 (existsb_false _ _) Ebefore prev Hp) in E. }
  destruct (bank_lookup_total cs it bs Hb) as [-> ->]. cbn [mbind outcome_bind].
  destruct (existsb _ (it :: after)) eqn:E; cbn [negb orb].
  - destruct (4 <=? row_hit_count_ bs) eqn:E4; split_bool; eexists _, _; (split; [done|]).
    + split; [|done]. intros _. split; [done|]. exists bs. auto.
    + split; [done|]. intros (_ & bs' & Hb' & H). simplify_eq. destruct H as [H|]; [|lia].
      apply existsb_exists in E as (x & Hx%list_elem_of_In & [Er Ec%same_bank_coord]%andb_true_iff).
      apply Z.eqb_eq in Er. by destruct (H x Hx Ec).
  - eexists _, _. split; [done|]. split; [|done]. intros _. split; [done|]. exists bs. split; [done|]. left.
    intros p Hp Ec%same_bank_coord Er%Z.eqb_eq. pose proof (proj1 (existsb_false _ _) E p Hp) as Hf. cbn in Hf.
    by rewrite Er, Ec in Hf.
Qed.

Lemma answer_skip (config : Config) cs clk before it queue cmd :
  (∀ c, ¬ issuable config cs clk before it queue c) →
  answer config cs clk (before ++ [it]) queue cmd →
  answer config cs clk before (it :: queue) cmd.
Proof.
  unfold answer. intros Hno H. destruct (IsValid cmd).
  - destruct H as (mid & it' & after & -> & H). exists (it :: mid), it', after.
    split; [done|]. by rewrite <- (assoc (++)) in H.
  - intros [|x mid] it' after c [= <- Hqueue]; [subst; by rewrite app_nil_r|].
    specialize (H mid it' after c Hqueue). by rewrite <- (assoc (++)) in H.
Qed.

Lemma answer_take (config : Config) cs clk before it queue cmd :
  issuable config cs clk before it queue cmd → answer config cs clk before (it :: queue) cmd.
Proof.
  unfold answer. intros Hi. pose proof Hi as (_ & Hv & _). rewrite Hv.
  exists [], it, queue. by rewrite app_nil_r.
Qed.

Lemma issuable_ready (config : Config) cs clk before it after c cmd :
  issuable config cs clk before it after c → GetReadyCommand config cs it clk = Ok cmd →
  c = cmd.
Proof. intros (H & _) H'. rewrite H in H'. by injection H'. Qed.

Lemma first_ready_spec (config : Config) cs clk before queue stats :
  dims_ok config → chan_wf config cs → Forall (request_ok config) queue →
  ∃ cmd stats', first_ready config cs clk before queue stats = Ok (cmd, stats') ∧
    answer config cs clk before queue cmd.
Proof.
  intros Hd Hw Hq. revert before stats.
  induction Hq as [|it queue Hit Hq IH]; intros before stats; cbn [first_ready].
  { exists Command_default, stats. split; [done|]. by intros [] ? ? ?. }
  destruct (request_total config cs it clk Hd Hw Hit) as [cmd Hcmd]. rewrite Hcmd.
  cbn [mbind outcome_bind].
  assert (Hskip : ∀ stats, (∀ c, ¬ issuable config cs clk before it queue c) →
    ∃ cmd stats', first_ready config cs clk (before ++ [it]) queue stats = Ok (cmd, stats') ∧
      answer config cs clk before (it :: queue) cmd).
  { intros s1 Hno. destruct (IH (before ++ [it]) s1) as (c1 & s2 & -> & H1).
    exists c1, s2. split; [done|]. by apply answer_skip. }
  assert (Htake : ∀ stats, issuable config cs clk before it queue cmd →
    ∃ cmd0 stats', Ok (cmd, stats) = Ok (cmd0, stats' : SimpleStats) ∧
      answer config cs clk before (it :: queue) cmd0) by eauto using answer_take.
  destruct (IsValid cmd) eqn:Hv; cbn [negb].
  2:{ apply Hskip. intros c Hi. pose proof (issuable_ready _ _ _ _ _ _ _ _ Hi Hcmd) as ->.
      destruct Hi as (_ & ? & _). congruence. }
  destruct (type_eqb (cmd_type cmd) PRECHARGE) eqn:Hp.
  - apply type_eqb_true in Hp. destruct Hit as (_ & Hvc & _).
    destruct (proj2 (wf_coords _ _ Hw _) Hvc) as [bs Hbs].
    destruct (ArbitratePrecharge_spec cs before it queue stats bs Hbs) as (ok & s1 & -> & Hok).
    cbn [mbind outcome_bind]. destruct ok; cbn [negb].
    + apply Htake. split; [done|]. split; [done|]. split; [intros _; by apply Hok|].
      intros Hwr. unfold IsWrite in Hwr. by rewrite Hp in Hwr.
    + apply Hskip. intros c Hi. pose proof (issuable_ready _ _ _ _ _ _ _ _ Hi Hcmd) as ->.
      destruct Hi as (_ & _ & Hpre & _). by pose proof (proj2 Hok (Hpre Hp)).
  - apply type_eqb_false in Hp. destruct (IsWrite cmd) eqn:Hwr.
    + destruct (HasRWDependency before it) eqn:Hdep.
      * apply Hskip. intros c Hi. pose proof (issuable_ready _ _ _ _ _ _ _ _ Hi Hcmd) as ->.
        destruct Hi as (_ & _ & _ & Hdp). apply Hdp, no_earlier_read_spec in Hwr. congruence.
      * apply no_earlier_read_spec in Hdep. apply Htake. by repeat split.
    + apply Htake. split; [done|]. split; [done|]. split; [done|]. by rewrite Hwr.
Qed.

(** ** Visiting the queues *)

Lemma GetNextQueue_idx (config : Config) q :
  cq_wf config q → queue_idx_ (GetNextQueue q) = visit q 1.
Proof.
  intros Hw. pose proof (cw_idx _ _ Hw) as Hi. unfold GetNextQueue, visit. simpl.
  destruct (_ =? _) eqn:E; split_bool; [rewrite E, Z.mod_same; lia|].
  symmetry. apply Z.mod_small. lia.
Qed.

Lemma visit_next (config : Config) q k :
  cq_wf config q → visit (GetNextQueue q) k = visit q (k + 1).
Proof.
  intros Hw. unfold visit at 1. rewrite (GetNextQueue_idx _ _ Hw). unfold visit. simpl.
  pose proof (cw_idx _ _ Hw). rewrite Z.add_mod_idemp_l by lia. f_equal. lia.
Qed.

Lemma visit_range (config : Config) q k : cq_wf config q → 0 ≤ visit q k < num_queues_ q.
Proof. intros Hw. pose proof (cw_idx _ _ Hw). apply Z.mod_pos_bound. lia. Qed.

Lemma visit_surj (config : Config) q i :
  cq_wf config q → 0 ≤ i < num_queues_ q → ∃ k, 1 ≤ k ≤ num_queues_ q ∧ visit q k = i.
Proof.
  intros Hw Hi. pose proof (cw_idx _ _ Hw). unfold visit.
  exists ((i - queue_idx_ q - 1) mod num_queues_ q + 1).
  pose proof (Z.mod_pos_bound (i - queue_idx_ q - 1) (num_queues_ q)). split; [lia|].
  replace (queue_idx_ q + ((i - queue_idx_ q - 1) mod num_queues_ q + 1))
    with ((i - queue_idx_ q - 1) mod num_queues_ q + (queue_idx_ q + 1)) by lia.
  rewrite Z.add_mod_idemp_l by lia.
  replace (i - queue_idx_ q - 1 + (queue_idx_ q + 1)) with i by lia. by apply Z.mod_small.
Qed.

Lemma cq_wf_idx (config : Config) q i :
  0 ≤ i < num_queues_ q → cq_wf config q → cq_wf config (set_queue_idx i q).
Proof. intros Hi []. by split. Qed.

Lemma GetNextQueue_wf (config : Config) q : cq_wf config q → cq_wf config (GetNextQueue q).
Proof.
  intros Hw. pose proof (visit_range _ q 1 Hw) as Hr. rewrite <- (GetNextQueue_idx _ _ Hw) in Hr.
  by apply (cq_wf_idx config q).
Qed.

Lemma queue_requests (config : Config) q i l :
  cq_wf config q → queues_ q !! i = Some l → Forall (request_ok config) l.
Proof. intros Hw Hl. apply Forall_forall. intros c Hc. by destruct (cw_cmds _ _ Hw _ _ _ Hl Hc). Qed.

(** Requests with the same type and hexadecimal address are equal. *)
Lemma request_unique (config : Config) c c' :
  request_ok config c → request_ok config c' →
  cmd_hex_addr c = cmd_hex_addr c' → cmd_type c = cmd_type c' → c = c'.
Proof.
  intros (_ & _ & H) (_ & _ & H') Hh Ht. destruct c as [t a h], c' as [t' a' h']. simpl in *.
  congruence.
Qed.

Lemma erase_cmd_spec (config : Config) cmd queue :
  Forall (request_ok config) queue → cmd ∈ queue →
  ∃ queue', erase_cmd cmd queue = Some queue' ∧ queue ≡ₚ cmd :: queue'.
Proof.
  intros Hq Hc. assert (Hok : request_ok config cmd) by (rewrite Forall_forall in Hq; auto).
  induction Hq as [|it queue Hit Hq IH]; [by apply elem_of_nil in Hc|]. cbn [erase_cmd].
  destruct (_ && _) eqn:E.
  - split_bool. apply type_eqb_true in H0. exists queue. split; [done|].
    by rewrite (request_unique config cmd it).
  - apply elem_of_cons in Hc as [->|Hc].
    + rewrite Z.eqb_refl, type_eqb_refl in E. discriminate.
    + destruct (IH Hc) as (queue' & -> & Hp). exists (it :: queue'). split; [done|].
      rewrite Hp. constructor.
Qed.

Lemma cq_wf_erase (config : Config) q i queue queue' cmd :
  cq_wf config q → queues_ q !! i = Some queue → queue ≡ₚ cmd :: queue' →
  cq_wf config (set_queues (<[i := queue']> (queues_ q)) q).
Proof.
  intros [Hst Hn Hl Hi He Hs Hc] Hq Hp.
  split; [done|done| |done|done| |].
  - simpl. rewrite <- Hl. unfold vsize. by rewrite length_insert.
  - simpl. apply Forall_insert; [done|].
    assert (Hsz : vsize queue ≤ queue_size_ q) by (rewrite Forall_lookup in Hs; eauto).
    apply Permutation_length in Hp. unfold vsize in *. simpl in Hp. lia.
  - intros j l c Hj Hcl. simpl in Hj. destruct (decide (i = j)) as [->|Hne].
    + rewrite list_lookup_insert_eq in Hj by (by eapply lookup_lt_Some). injection Hj as <-.
      apply (Hc j queue c Hq). rewrite Hp. by right.
    + rewrite list_lookup_insert_ne in Hj by done. by apply (Hc j l c).
Qed.

Lemma EraseRWCommand_spec (config : Config) q i queue cmd :
  dims_ok config → cq_wf config q → queues_ q !! i = Some queue → cmd ∈ queue →
  ∃ queue', EraseRWCommand config q cmd = Ok (set_queues (<[i := queue']> (queues_ q)) q) ∧
    queue ≡ₚ cmd :: queue' ∧ cq_wf config (set_queues (<[i := queue']> (queues_ q)) q).
Proof.
  intros Hd Hw Hq Hc. destruct (cw_cmds _ _ Hw _ _ _ Hq Hc) as [(_ & Hv & _) Hidx].
  destruct (erase_cmd_spec config cmd queue) as (queue' & He & Hp);
    [by eapply queue_requests|done|].
  pose proof (cmd_queue_index_range config q cmd Hd Hw Hv) as Hr.
  exists queue'. split; [|split; [done|by eapply cq_wf_erase]].
  unfold EraseRWCommand. unfold vget. rewrite bool_decide_eq_true_2 by lia.
  rewrite Hidx, Hq. cbn [from_option_or mbind outcome_bind]. rewrite He.
  cbn [from_option_or mbind outcome_bind]. rewrite vset_in_range by done.
  cbn [mbind outcome_bind]. by rewrite Hidx.
Qed.

(** Facts that do not depend on the current index. *)
Lemma idle_at_next (config : Config) cs q i :
  idle_at config cs (GetNextQueue q) i ↔ idle_at config cs q i.
Proof. done. Qed.

Lemma served_at_next (config : Config) cs q i cmd q' :
  served_at config cs (GetNextQueue q) i cmd q' ↔ served_at config cs q i cmd q'.
Proof. done. Qed.

(** What one visit does: skip, serve or find nothing. *)
Lemma visit_queue (config : Config) cs q stats :
  dims_ok config → chan_wf config cs → cq_wf config q → blocked q (queue_idx_ q) = false →
  ∃ queue cmd stats', vget (queues_ q) (queue_idx_ q) = Ok queue ∧
    GetFirstReadyInQueue config cs (cq_clk_ q) queue stats = Ok (cmd, stats') ∧
    if IsValid cmd then
      ∃ q', (if IsReadWrite cmd then EraseRWCommand config q cmd else Ok q) = Ok q' ∧
        cq_wf config q' ∧ same_setup q q' ∧ queue_idx_ q' = queue_idx_ q ∧
        served_at config cs q (queue_idx_ q) cmd q'
    else idle_at config cs q (queue_idx_ q).
Proof.
  intros Hd Hcs Hw Hb. pose proof (cw_idx _ _ Hw) as Hi.
  destruct (vget_in_range (queues_ q) (queue_idx_ q)) as [queue Hq].
  { by rewrite (cw_len _ _ Hw). }
  pose proof Hq as [_ Hlk]%vget_Ok.
  destruct (first_ready_spec config cs (cq_clk_ q) [] queue stats Hd Hcs) as (cmd & st & Hf & Ha);
    [by eapply queue_requests|].
  exists queue, cmd, st. split; [done|]. split; [exact Hf|]. unfold answer in Ha.
  destruct (IsValid cmd) eqn:Hv; [|right; by exists queue].
  destruct Ha as (mid & it & after & Hqueue & Hiss).
  destruct (IsReadWrite cmd) eqn:Hrw.
  - assert (Hin : it ∈ queue) by (rewrite Hqueue; set_solver).
    assert (cmd = it) as ->.
    { eapply ready_rw_is_request; [|by destruct Hiss|done].
      by destruct (cw_cmds _ _ Hw _ _ _ Hlk Hin). }
    destruct (EraseRWCommand_spec config q _ queue it Hd Hw Hlk Hin) as (queue' & -> & Hp & Hw').
    eexists. split; [done|]. split; [done|]. split; [done|]. split; [done|].
    split; [done|]. split; [done|]. exists queue, mid, it, after. rewrite Hrw. eauto 6.
  - exists q. split; [done|]. split; [done|]. split; [by destruct q|]. split; [done|].
    split; [done|]. split; [done|]. exists queue, mid, it, after. by rewrite Hrw.
Qed.

Lemma issue_scan_spec (config : Config) cs n q stats :
  dims_ok config → chan_wf config cs → cq_wf config q →
  ∃ cmd q' stats', issue_scan config cs n q stats = Ok (cmd, q', stats') ∧
    cq_wf config q' ∧ same_setup q q' ∧
    if IsValid cmd then
      ∃ k, 1 ≤ k ≤ Z.of_nat n ∧ served_at config cs q (visit q k) cmd q' ∧
        ∀ j, 1 ≤ j < k → idle_at config cs q (visit q j)
    else queues_ q' = queues_ q ∧ queue_idx_ q' = visit q (Z.of_nat n) ∧
      ∀ j, 1 ≤ j ≤ Z.of_nat n → idle_at config cs q (visit q j).
Proof.
  intros Hd Hcs Hw. revert q stats Hw. induction n as [|n IH]; intros q stats Hw; cbn [issue_scan].
  { exists Command_default, q, stats. split; [done|]. split; [done|]. split; [by destruct q|].
    split; [done|]. split; [|intros j Hj; simpl in Hj; lia].
    pose proof (cw_idx _ _ Hw). unfold visit. by rewrite Z.add_0_r, Z.mod_small. }
  pose proof (GetNextQueue_wf _ _ Hw) as Hw1. pose proof (GetNextQueue_idx _ _ Hw) as Hidx.
  set (q1 := GetNextQueue q) in *.
  assert (Hskip : ∀ stats, idle_at config cs q (visit q 1) →
    ∃ cmd q' stats', issue_scan config cs n q1 stats = Ok (cmd, q', stats') ∧
    cq_wf config q' ∧ same_setup q q' ∧
    if IsValid cmd then
      ∃ k, 1 ≤ k ≤ Z.of_nat (S n) ∧ served_at config cs q (visit q k) cmd q' ∧
        ∀ j, 1 ≤ j < k → idle_at config cs q (visit q j)
    else queues_ q' = queues_ q ∧ queue_idx_ q' = visit q (Z.of_nat (S n)) ∧
      ∀ j, 1 ≤ j ≤ Z.of_nat (S n) → idle_at config cs q (visit q j)).
  { intros s1 Hidle. destruct (IH q1 s1 Hw1) as (cmd & q' & s2 & -> & Hw' & Hs & H).
    exists cmd, q', s2. split; [done|]. split; [done|]. split; [done|].
    assert (Hv : ∀ k, visit q1 k = visit q (k + 1)) by (intros; by eapply visit_next).
    destruct (IsValid cmd).
    - destruct H as (k & Hk & Hsv & Hid). exists (k + 1). rewrite Hv in Hsv.
      split; [lia|]. split; [done|]. intros j Hj.
      destruct (decide (j = 1)) as [->|Hne]; [done|].
      specialize (Hid (j - 1)). rewrite Hv in Hid. rewrite Z.sub_add in Hid. apply Hid. lia.
    - destruct H as (Hq & Hx & Hid). split; [done|]. split; [by rewrite Hx, Hv, Nat2Z.inj_succ|]. intros j Hj.
      destruct (decide (j = 1)) as [->|Hne]; [done|].
      specialize (Hid (j - 1)). rewrite Hv, Z.sub_add in Hid. apply Hid. lia. }
  fold (blocked q1 (queue_idx_ q1)). destruct (blocked q1 (queue_idx_ q1)) eqn:Hb.
  - destruct (vget_in_range (queues_ q1) (queue_idx_ q1)) as [queue ->].
    { rewrite (cw_len _ _ Hw1). apply (cw_idx _ _ Hw1). }
    cbn [mbind outcome_bind]. apply Hskip. left. by rewrite <- Hidx.
  - destruct (visit_queue config cs q1 stats Hd Hcs Hw1 Hb) as (queue & cmd & st & -> & Hf & H).
    cbn [mbind outcome_bind]. rewrite Hf. cbn [mbind outcome_bind].
    destruct (IsValid cmd) eqn:Hv; [|apply Hskip; by rewrite <- Hidx].
    destruct H as (q' & -> & Hw' & Hs & Hi & Hsv). cbn [mbind outcome_bind].
    exists cmd, q', st. split; [done|]. split; [done|]. split; [exact Hs|]. rewrite Hv.
    exists 1. rewrite <- Hidx. split; [lia|]. split; [exact Hsv|]. intros; lia.
Qed.

Lemma waiting_erase q i queue queue' cmd :
  queues_ q !! i = Some queue → queue ≡ₚ cmd :: queue' →
  waiting q ≡ₚ cmd :: concat (<[i := queue']> (queues_ q)).
Proof.
  unfold waiting. generalize (queues_ q) as l. intros l. revert i.
  induction l as [|x l IH]; intros [|i] Hi Hp; try discriminate Hi; simpl in *.
  - injection Hi as ->. by rewrite Hp.
  - rewrite (IH i Hi Hp). symmetry. apply Permutation_middle.
Qed.

(** ** Refreshing *)

Lemma rank_indices_fold (config : Config) r l (s : gset Z) :
  banks config ≠ 0 →
  ∃ s', for_each (λ i s, x ← idiv i (banks config);
          Ok (if x =? r then {[ i ]} ∪ s else s)) l s = Ok s' ∧
    ∀ i, i ∈ l → Z.quot i (banks config) = r → i ∈ s'.
Proof.
  intros Hb.
  assert (Hgen : ∀ l (s : gset Z), ∃ s', for_each (λ i s, x ← idiv i (banks config);
      Ok (if x =? r then {[ i ]} ∪ s else s)) l s = Ok s' ∧ s ⊆ s' ∧
    ∀ i, i ∈ l → Z.quot i (banks config) = r → i ∈ s').
  { clear s l. induction l as [|i l IH]; intros s; cbn [for_each].
    { exists s. split; [done|]. split; [done|]. intros i Hi. by apply elem_of_nil in Hi. }
    rewrite (proj2 (idiv_Ok i _ _) (conj Hb eq_refl)). cbn [mbind outcome_bind].
    destruct (IH (if Z.quot i (banks config) =? r then {[i]} ∪ s else s))
      as (s' & -> & Hsub & Hin).
    exists s'. split; [done|]. destruct (Z.eqb_spec (Z.quot i (banks config)) r);
      (split; [set_solver|]); intros j [->|Hj]%elem_of_cons Hq; auto; set_solver. }
  destruct (Hgen l s) as (s' & H1 & _ & H2). eauto.
Qed.

Lemma index_quot (config : Config) r g b :
  dims_ok config → valid_coord config (r, g, b) →
  Z.quot (r * banks config + g * banks_per_group config + b) (banks config) = r.
Proof.
  intros [Hr Hg Hb Hp] (H1 & H2 & H3). rewrite Hp.
  assert (0 ≤ g * banks_per_group config + b < bankgroups config * banks_per_group config) by nia.
  rewrite Z.quot_div_nonneg by nia. symmetry.
  apply (Z.div_unique _ _ _ (g * banks_per_group config + b)); [left; lia|lia].
Qed.

(** Starting a refresh blocks the queues of everything it targets. *)
Lemma GetRefQIndices_spec (config : Config) q ref :
  dims_ok config → cq_wf config q →
  ∃ s, GetRefQIndices config q ref = Ok (set_ref s (is_in_ref_ q) q) ∧
    ∀ c, valid_coord config (cmd_coord c) → targets ref c → cmd_queue_index config q c ∈ s.
Proof.
  intros Hd Hw. unfold GetRefQIndices.
  destruct (type_eqb (cmd_type ref) REFRESH) eqn:E.
  - destruct (queue_structure_ q) eqn:Hs.
    + eexists. split; [reflexivity|]. intros c _ [Hr _]. unfold cmd_queue_index, GetQueueIndex.
      rewrite Hs, Hr. set_solver.
    + destruct (rank_indices_fold config (Rank ref) (seqZ 0 (num_queues_ q)) (ref_q_indices_ q))
        as (s & Hf & Hin).
      { destruct Hd as [_ Hg Hb Hp]. nia. }
      unfold for_range. rewrite Hf. cbn [mbind outcome_bind]. eexists. split; [reflexivity|].
      intros c Hv [Hr _]. apply Hin.
      * apply elem_of_range. rewrite (cw_num _ _ Hw). by apply queue_index_range.
      * unfold cmd_queue_index, GetQueueIndex. rewrite Hs, <- Hr. by apply index_quot.
    + by destruct (cw_struct _ _ Hw).
  - eexists. split; [reflexivity|]. intros c Hv [Hr Ht]. apply type_eqb_false in E.
    destruct Ht as [Ht|[Hg Hb]]; [done|].
    assert (cmd_queue_index config q c = cmd_queue_index config q ref) as ->; [|set_solver].
    unfold cmd_queue_index. by rewrite Hr, Hg, Hb.
Qed.

(** ** Construction and insertion *)

Lemma CommandQueue_init_wf (config : Config) q :
  dims_ok config → CommandQueue_init config = Ok q → cq_wf config q.
Proof.
  intros [Hr Hg Hb Hp] H. unfold CommandQueue_init in H.
  apply bind_Ok in H as ([st n] & Hst & [= <-]).
  assert (Hcases : (st = PER_BANK ∧ n = banks config * ranks config) ∨
    (st = PER_RANK ∧ n = ranks config)).
  { repeat case_bool_decide; simplify_eq; auto. }
  assert (0 < n) by (destruct Hcases as [[_ ->]|[_ ->]]; nia).
  split; simpl.
  - by destruct Hcases as [[-> _]|[-> _]].
  - unfold expected_queues. simpl. by destruct Hcases as [[-> ->]|[-> ->]].
  - unfold vsize. rewrite length_replicate. lia.
  - lia.
  - by rewrite length_replicate.
  - apply Forall_replicate. unfold vsize. simpl. pose proof (u64_range (cmd_queue_size config)). lia.
  - intros i l c [-> _]%lookup_replicate Hc. by apply elem_of_nil in Hc.
Qed.

Lemma waiting_insert q i queue cmd :
  queues_ q !! i = Some queue →
  concat (<[i := queue ++ [cmd]]> (queues_ q)) ≡ₚ cmd :: waiting q.
Proof.
  unfold waiting. generalize (queues_ q) as l. intros l. revert i.
  induction l as [|x l IH]; intros [|i] Hi; try discriminate Hi; simpl in *.
  - injection Hi as ->. rewrite <- (assoc (++)). simpl. symmetry. apply Permutation_middle.
  - rewrite (IH i Hi). symmetry. apply Permutation_middle.
Qed.

Lemma cq_wf_add (config : Config) q i queue cmd e :
  cq_wf config q → queues_ q !! i = Some queue → vsize queue < queue_size_ q →
  request_ok config cmd → Z.to_nat (cmd_queue_index config q cmd) = i →
  length e = length (rank_q_empty q) →
  cq_wf config (set_rank_q_empty e (set_queues (<[i := queue ++ [cmd]]> (queues_ q)) q)).
Proof.
  intros [Hst Hn Hl Hi He Hs Hc] Hq Hsz Hok Hidx Hle. split; [done|done| |done| | |]; simpl.
  - rewrite <- Hl. unfold vsize. by rewrite length_insert.
  - by rewrite Hle.
  - apply Forall_insert; [done|]. unfold vsize in *. rewrite length_app. simpl. lia.
  - intros j l c Hj Hcl. destruct (decide (i = j)) as [->|Hne].
    + rewrite list_lookup_insert_eq in Hj by (by eapply lookup_lt_Some). injection Hj as <-.
      apply elem_of_app in Hcl as [Hcl|Hcl%list_elem_of_singleton]; [by apply (Hc j queue c)|].
      subst c. by split.
    + rewrite list_lookup_insert_ne in Hj by done. by apply (Hc j l c).
Qed.

Lemma AddCommand_spec (config : Config) q cmd :
  dims_ok config → cq_wf config q → request_ok config cmd →
  ∃ q' b, AddCommand config q cmd = Ok (q', b) ∧ cq_wf config q' ∧
    WillAcceptCommand config q (Rank cmd) (Bankgroup cmd) (Bank cmd) = Ok b ∧
    if (b : bool) then waiting q' ≡ₚ cmd :: waiting q ∧ vget (rank_q_empty q') (Rank cmd) = Ok false
    else q' = q.
Proof.
  intros Hd Hw Hok. pose proof Hok as (_ & Hv & _).
  pose proof (cmd_queue_index_range config q cmd Hd Hw Hv) as Hr.
  unfold AddCommand, WillAcceptCommand. fold (cmd_queue_index config q cmd).
  destruct (vget_in_range _ _ Hr) as [queue Hq]. rewrite Hq. cbn [mbind outcome_bind].
  pose proof Hq as [_ Hlk]%vget_Ok.
  destruct (vsize queue <? queue_size_ q) eqn:Hsz; split_bool; [|by exists q, false].
  rewrite (vset_in_range _ _ _ Hr). cbn [mbind outcome_bind].
  assert (Hrk : 0 ≤ Rank cmd < vsize (rank_q_empty q)).
  { destruct Hv as (? & _ & _). unfold vsize. rewrite (cw_empty _ _ Hw). lia. }
  rewrite (vset_in_range _ _ _ Hrk). cbn [mbind outcome_bind]. eexists _, true.
  split; [reflexivity|]. split; [|split; [done|split]].
  - apply cq_wf_add; try done. by rewrite length_insert.
  - by apply waiting_insert.
  - simpl. apply vget_Ok. split; [lia|]. apply list_lookup_insert_eq.
    unfold vsize in Hrk. lia.
Qed.

(** ** Holding queues back during a refresh *)

Lemma holds_keep (config : Config) ref q q' :
  holds config ref q → cq_wf config q' → is_in_ref_ q' = is_in_ref_ q →
  ref_q_indices_ q' = ref_q_indices_ q → queue_structure_ q' = queue_structure_ q → holds config ref q'.
Proof.
  intros [Hw Ho Hq] Hw' E1 E2 E3. split; [done|congruence|]. intros c Hv Ht.
  unfold cmd_queue_index, GetQueueIndex. rewrite E2, E3. by apply Hq.
Qed.

Lemma AddCommand_keeps (config : Config) q cmd q' b :
  AddCommand config q cmd = Ok (q', b) →
  is_in_ref_ q' = is_in_ref_ q ∧ ref_q_indices_ q' = ref_q_indices_ q ∧ queue_structure_ q' = queue_structure_ q.
Proof.
  unfold AddCommand. intros (l & _ & H)%bind_Ok. destruct (_ <? _); [|by injection H as <- _].
  apply bind_Ok in H as (l' & _ & H). apply bind_Ok in H as (e & _ & [= <- _]). done.
Qed.

Lemma refreshing_holds (config : Config) ref q : dims_ok config → refreshing config ref q → holds config ref q.
Proof.
  intros Hd. induction 1 as [cs q cmd q' Hw Hin Hp Hf Hr|cs q cmd q' _ IH Hf Hr|cs q stats cmd q' stats' _ IH Hcs H
    |q cmd q' b _ IH Hok H|q _ IH].
  - unfold FinishRefresh in Hf. rewrite Hp, Hin in Hf. cbn [mbind outcome_bind negb] in Hf.
    destruct (GetRefQIndices_spec config q ref Hd Hw) as (s & Hs & Hcov). rewrite Hs in Hf.
    cbn [mbind outcome_bind] in Hf. apply bind_Ok in Hf as (c & _ & [= -> <-]). rewrite Hr.
    split; [by destruct Hw; split|done|exact Hcov].
  - unfold FinishRefresh in Hf. rewrite (ho_on _ _ _ IH) in Hf. apply bind_Ok in Hf as (r & _ & Hf).
    cbn [mbind outcome_bind negb] in Hf. apply bind_Ok in Hf as (c & _ & [= -> <-]). by rewrite Hr.
  - destruct (issue_scan_spec config cs (Z.to_nat (num_queues_ q)) q stats Hd Hcs (ho_wf _ _ _ IH))
      as (cmd' & q1 & st & H' & Hw1 & Hs & _).
    unfold GetCommandToIssue in H. rewrite H in H'. injection H' as <- <- <-.
    eapply holds_keep; [exact IH|done|by rewrite Hs..].
  - destruct (AddCommand_spec config q cmd Hd (ho_wf _ _ _ IH) Hok) as (q1 & b1 & H1 & Hw1 & _).
    pose proof (AddCommand_keeps _ _ _ _ _ H) as (E1 & E2 & E3). rewrite H in H1. injection H1 as <- <-.
    by eapply holds_keep.
  - eapply holds_keep; [exact IH| |done|done|done]. by destruct (ho_wf _ _ _ IH); split.
Qed.

Lemma holds_issue (config : Config) ref q cs stats cmd q' stats' :
  dims_ok config → holds config ref q → chan_wf config cs →
  GetCommandToIssue config cs q stats = Ok (cmd, q', stats') → IsValid cmd = true → ¬ targets ref cmd.
Proof.
  intros Hd [Hw Ho Hcov] Hcs H Hv Ht. unfold GetCommandToIssue in H.
  destruct (issue_scan_spec config cs (Z.to_nat (num_queues_ q)) q stats Hd Hcs Hw)
    as (cmd' & q1 & st & H' & _ & _ & Hc).
  rewrite H in H'. injection H' as <- <- <-. rewrite Hv in Hc.
  destruct Hc as (k & _ & (Hb & _ & queue & mid & it & after & Hlk & Hq & Hi & _) & _).
  assert (Hit : it ∈ queue) by (rewrite Hq; set_solver).
  destruct (cw_cmds _ _ Hw _ _ _ Hlk Hit) as [Hok Hidx]. destruct Hi as (Hrdy & _ & _).
  destruct (bank_request_inv _ _ _ _ _ (request_not_rank _ _ Hok) Hrdy Hv) as (_ & _ & Ha & _).
  assert (Hti : targets ref it).
  { unfold targets, Rank, Bankgroup, Bank in *. by rewrite <- Ha. }
  destruct Hok as (_ & Hvc & _). pose proof (cmd_queue_index_range config q it Hd Hw Hvc) as Hr.
  pose proof (visit_range _ q k Hw) as Hvr.
  assert (Heq : visit q k = cmd_queue_index config q it) by lia.
  rewrite Heq in Hb. unfold blocked in Hb. rewrite Ho in Hb. cbn [andb] in Hb.
  apply bool_decide_eq_false in Hb. apply Hb. by apply (Hcov it).
Qed.

(** ** The concrete states are well formed *)

Lemma hbm2_dims : dims_ok hbm2_config.
Proof. split; vm_compute; reflexivity. Qed.
Lemma ddr4_dims : dims_ok ddr4_config.
Proof. split; vm_compute; reflexivity. Qed.

Lemma queue_with_wf (config : Config) hexes q :
  dims_ok config → Forall (λ hex, request_ok config (read_at config hex)) hexes →
  queue_with config hexes = Ok q → cq_wf config q.
Proof.
  intros Hd Hok H. unfold queue_with in H. apply bind_Ok in H as (q0 & H0 & H).
  revert H. apply (for_each_inv (cq_wf config)).
  - intros hex q1 q2 Hin Hw H. apply bind_Ok in H as ([q3 b] & H3 & [= <-]).
    rewrite Forall_forall in Hok.
    destruct (AddCommand_spec config q1 (read_at config hex) Hd Hw (Hok _ Hin))
      as (q4 & b' & H4 & Hw4 & _). rewrite H3 in H4. by injection H4 as -> ->.
  - by apply CommandQueue_init_wf.
Qed.

Lemma read_at_ok (config : Config) hex :
  valid_coord config (cmd_coord (read_at config hex)) → request_ok config (read_at config hex).
Proof. intros Hv. by split. Qed.

Lemma hbm2_queue_wf : cq_wf hbm2_config hbm2_queue.
Proof.
  destruct (is_ok_exists (queue_with hbm2_config [4096; 65536])) as [q Hq];
    [vm_compute; reflexivity|].
  unfold hbm2_queue. rewrite Hq. revert Hq. apply queue_with_wf; [apply hbm2_dims|].
  solve_Forall (apply read_at_ok; repeat split; vm_compute; congruence).
Qed.

Lemma ddr4_queue_wf : cq_wf ddr4_config ddr4_queue.
Proof.
  destruct (is_ok_exists (queue_with ddr4_config
    [0; 2 ^ 10; 2 ^ 11; 2 ^ 12; 2 ^ 13; 2 ^ 14; 2 ^ 15])) as [q Hq];
    [vm_compute; reflexivity|].
  unfold ddr4_queue. rewrite Hq. revert Hq. apply queue_with_wf; [apply ddr4_dims|].
  solve_Forall (apply read_at_ok; repeat split; vm_compute; congruence).
Qed.

Lemma issued_inv (config : Config) cs q cmd :
  issued config cs q = Ok cmd →
  ∃ q' st, GetCommandToIssue config cs q (SimpleStats_init config 0) = Ok (cmd, q', st).
Proof.
  unfold issued. intros ([[c q'] st] & H & [= <-])%bind_Ok. by exists q', st.
Qed.

Lemma refreshing_channel_wf : chan_wf ddr4_config refreshing_channel.
Proof.
  unfold refreshing_channel.
  destruct (UpdateTimingAndStates _ _ _ _ _) as [cs|] eqn:E; [|apply chan_wf_init].
  simpl. apply chan_wf_refresh_q. eapply chan_wf_step; [apply ddr4_dims| |exact E].
  apply chan_wf_init.
Qed.

(** ** Properties *)

(** [C4] Choosing a command never fails and never loses a request: for a
    well-formed queue and channel, [GetCommandToIssue] returns (in particular
    the exit after [cannot find cmd!] is unreachable), keeps the queues well
    formed and within their capacity, and removes from the waiting commands
    exactly the read or write it returns, or nothing. *)
Theorem queue_issue_conserves (config : Config) cs q stats :
  dims_ok config → chan_wf config cs → cq_wf config q →
  ∃ cmd q' stats', GetCommandToIssue config cs q stats = Ok (cmd, q', stats') ∧
    cq_wf config q' ∧ same_setup q q' ∧
    if IsReadWrite cmd then waiting q ≡ₚ cmd :: waiting q' else queues_ q' = queues_ q.
Proof.
  intros Hd Hcs Hw.
  destruct (issue_scan_spec config cs (Z.to_nat (num_queues_ q)) q stats Hd Hcs Hw)
    as (cmd & q' & st & H & Hw' & Hs & Hc).
  exists cmd, q', st. split; [exact H|]. split; [done|]. split; [done|].
  destruct (IsValid cmd) eqn:Hv.
  - destruct Hc as (k & _ & (_ & _ & queue & mid & it & after & Hlk & _ & _ & Hq) & _).
    destruct (IsReadWrite cmd); [|done]. destruct Hq as (queue' & Hp & Hq').
    unfold waiting at 2. rewrite Hq'. by eapply waiting_erase.
  - destruct Hc as [Hq _]. by destruct cmd as [[] a h].
Qed.

Lemma queue_issue_conserves_witness :
  ∃ cmd q' stats', GetCommandToIssue hbm2_config (ChannelState_init hbm2_config) hbm2_queue
      (SimpleStats_init hbm2_config 0) = Ok (cmd, q', stats') ∧ cq_wf hbm2_config q'.
Proof.
  destruct (queue_issue_conserves hbm2_config (ChannelState_init hbm2_config) hbm2_queue
    (SimpleStats_init hbm2_config 0)) as (cmd & q' & st & H & Hw & _);
    [apply hbm2_dims|apply chan_wf_init|apply hbm2_queue_wf|].
  exists cmd, q', st. split; [exact H|exact Hw].
Defined.

(** [C15] The scheduling policy is safe: whatever [GetCommandToIssue] returns
    was asked for by a waiting command [it] of an unblocked queue; if it is a
    write, no earlier command of that queue reads the same bank, row and
    column; if it is
    a precharge, [it] is the oldest command of its bank in the queue and the
    open row is either not wanted by the commands from [it] on or has served
    at least four accesses. *)
Theorem queue_issue_policy (config : Config) cs q stats cmd q' stats' :
  dims_ok config → chan_wf config cs → cq_wf config q →
  GetCommandToIssue config cs q stats = Ok (cmd, q', stats') → IsValid cmd = true →
  ∃ i queue mid it after,
    blocked q i = false ∧ queues_ q !! Z.to_nat i = Some queue ∧ queue = mid ++ it :: after ∧
    GetReadyCommand config cs it (cq_clk_ q) = Ok cmd ∧
    (IsWrite cmd = true → no_earlier_read mid it) ∧
    (cmd_type cmd = PRECHARGE → precharge_allowed cs mid it after).
Proof.
  intros Hd Hcs Hw H Hv. unfold GetCommandToIssue in H.
  destruct (issue_scan_spec config cs (Z.to_nat (num_queues_ q)) q stats Hd Hcs Hw)
    as (cmd' & q1 & st & H' & _ & _ & Hc).
  rewrite H in H'. injection H' as <- <- <-. rewrite Hv in Hc.
  destruct Hc as (k & _ & (Hb & _ & queue & mid & it & after & Hlk & Hq & Hi & _) & _).
  destruct Hi as (Hrd & _ & Hpre & Hwr).
  by exists (visit q k), queue, mid, it, after.
Qed.

Lemma queue_issue_policy_witness :
  let cmd := mkCommand ACTIVATE (AddressMapping hbm2_config 65536) 65536 in
  ∃ i queue mid it after,
    blocked hbm2_queue i = false ∧ queues_ hbm2_queue !! Z.to_nat i = Some queue ∧
    queue = mid ++ it :: after ∧
    GetReadyCommand hbm2_config (ChannelState_init hbm2_config) it 0 = Ok cmd.
Proof.
  intros cmd. destruct (issued_inv hbm2_config (ChannelState_init hbm2_config) hbm2_queue cmd)
    as (q' & st & H); [vm_compute; reflexivity|].
  destruct (queue_issue_policy hbm2_config (ChannelState_init hbm2_config) hbm2_queue
    (SimpleStats_init hbm2_config 0) cmd q' st)
    as (i & queue & mid & it & after & H1 & H2 & H3 & H4 & _);
    [apply hbm2_dims|apply chan_wf_init|apply hbm2_queue_wf|exact H|reflexivity|].
  exists i, queue, mid, it, after. split; [exact H1|]. split; [exact H2|]. split; [exact H3|exact H4].
Defined.

(** [C16] Issuing is work conserving and fair: the queues are visited in turn
    starting after the last one visited, so if [GetCommandToIssue] returns the
    invalid command then no unblocked queue has a command that could be
    issued, and otherwise every queue visited before the serving one had
    none; the serving queue becomes the one after which the next call starts,
    and a call that issues nothing starts the next one where it started. *)
Theorem queue_issue_work_conserving (config : Config) cs q stats cmd q' stats' :
  dims_ok config → chan_wf config cs → cq_wf config q →
  GetCommandToIssue config cs q stats = Ok (cmd, q', stats') →
  if IsValid cmd then
    ∃ k, 1 ≤ k ≤ num_queues_ q ∧ served_at config cs q (visit q k) cmd q' ∧
      ∀ j, 1 ≤ j < k → idle_at config cs q (visit q j)
  else queue_idx_ q' = queue_idx_ q ∧ ∀ i, 0 ≤ i < num_queues_ q → idle_at config cs q i.
Proof.
  intros Hd Hcs Hw H. unfold GetCommandToIssue in H. pose proof (cw_idx _ _ Hw).
  destruct (issue_scan_spec config cs (Z.to_nat (num_queues_ q)) q stats Hd Hcs Hw)
    as (cmd' & q1 & st & H' & _ & _ & Hc).
  rewrite H in H'. injection H' as <- <- <-. rewrite Z2Nat.id in Hc by lia.
  destruct (IsValid cmd); [exact Hc|]. destruct Hc as (_ & Hx & Hc). split.
  { unfold visit in Hx. rewrite <- Z.add_mod_idemp_r, Z_mod_same_full, Z.add_0_r, Z.mod_small in Hx by lia. done. }
  intros i Hi. destruct (visit_surj _ _ _ Hw Hi) as (k & Hk & <-). by apply Hc.
Qed.

Lemma queue_issue_work_conserving_witness :
  let cmd := mkCommand ACTIVATE (AddressMapping hbm2_config 65536) 65536 in
  ∃ q' k, 1 ≤ k ≤ num_queues_ hbm2_queue ∧
    served_at hbm2_config (ChannelState_init hbm2_config) hbm2_queue (visit hbm2_queue k) cmd q' ∧
    ∀ j, 1 ≤ j < k →
      idle_at hbm2_config (ChannelState_init hbm2_config) hbm2_queue (visit hbm2_queue j).
Proof.
  intros cmd. destruct (issued_inv hbm2_config (ChannelState_init hbm2_config) hbm2_queue cmd)
    as (q' & st & H); [vm_compute; reflexivity|]. exists q'.
  exact (queue_issue_work_conserving hbm2_config (ChannelState_init hbm2_config) hbm2_queue
    (SimpleStats_init hbm2_config 0) cmd q' st hbm2_dims (chan_wf_init _) hbm2_queue_wf H).
Defined.

(** [C36] A refresh is not disturbed by its own rank from the call of
    [FinishRefresh] that starts it to the call that issues it: through any
    further calls of [FinishRefresh], clock cycles, insertions and issues
    ([refreshing]), whatever the channel does, [GetCommandToIssue] issues
    nothing for the rank (or, for a bank refresh, the bank) that is being
    refreshed; and once the refresh is issued no queue is held back. *)
Theorem refresh_blocks_targets (config : Config) ref q :
  dims_ok config → refreshing config ref q →
  (∀ cs stats cmd q' stats', chan_wf config cs →
     GetCommandToIssue config cs q stats = Ok (cmd, q', stats') → IsValid cmd = true → ¬ targets ref cmd) ∧
  (∀ cs cmd q', FinishRefresh config cs q = Ok (cmd, q') → IsRefresh cmd = true → ∀ i, blocked q' i = false).
Proof.
  intros Hd Hr. pose proof (refreshing_holds _ _ _ Hd Hr) as Hh. split.
  - intros cs stats cmd q' stats' Hcs H Hv. by eapply holds_issue.
  - intros cs cmd q' H Hc i. unfold FinishRefresh in H. apply bind_Ok in H as (r & _ & H).
    apply bind_Ok in H as (q1 & _ & H). apply bind_Ok in H as (c & _ & [= -> <-]). by rewrite Hc.
Qed.

Lemma refresh_blocks_targets_witness :
  let cmd2 := mkCommand ACTIVATE (AddressMapping ddr4_config 32768) 32768 in
  let ref := mkCommand REFRESH_BANK (mkAddress (-1) 0 0 0 (-1) (-1)) (u64 (-1)) in
  ∃ cmd q1 cmd' q2, FinishRefresh ddr4_config refreshing_channel ddr4_queue = Ok (cmd, q1) ∧
    FinishRefresh ddr4_config refreshing_channel (ClockTick q1) = Ok (cmd', q2) ∧
    issued ddr4_config refreshing_channel q2 = Ok cmd2 ∧ ¬ targets ref cmd2.
Proof.
  intros cmd2 ref. destruct (is_ok_exists (FinishRefresh ddr4_config refreshing_channel ddr4_queue))
    as [[cmd q1] H1]; [vm_compute; reflexivity|].
  assert (Hi : ('(c, q) ← FinishRefresh ddr4_config refreshing_channel ddr4_queue;
    '(c', q') ← FinishRefresh ddr4_config refreshing_channel (ClockTick q);
    c2 ← issued ddr4_config refreshing_channel q'; Ok (IsRefresh c, IsRefresh c', c2)) = Ok (false, false, cmd2))
    by (vm_compute; reflexivity).
  rewrite H1 in Hi. cbn [mbind outcome_bind] in Hi. apply bind_Ok in Hi as ([cmd' q2] & H2 & Hi).
  apply bind_Ok in Hi as (c2 & Hi & [= Hr Hr' ->]). destruct (issued_inv _ _ _ _ Hi) as (q3 & st & H3).
  exists cmd, q1, cmd', q2. split; [exact H1|]. split; [exact H2|]. split; [exact Hi|].
  refine (proj1 (refresh_blocks_targets ddr4_config ref q2 ddr4_dims _) refreshing_channel _ cmd2 q3 st
    refreshing_channel_wf H3 eq_refl).
  eapply refreshing_again; [|exact H2|exact Hr']. apply refreshing_clock.
  eapply (refreshing_start ddr4_config ref refreshing_channel ddr4_queue); [exact ddr4_queue_wf|vm_compute; reflexivity|vm_compute; reflexivity|exact H1|exact Hr].
Defined.

(** Adding a command succeeds exactly when [WillAcceptCommand] says so;
    then the command joins the waiting ones, its rank is marked busy and no
    queue exceeds its capacity; otherwise nothing changes. *)
Theorem add_command_accepts (config : Config) q cmd :
  dims_ok config → cq_wf config q → request_ok config cmd →
  ∃ q' b, AddCommand config q cmd = Ok (q', b) ∧ cq_wf config q' ∧
    WillAcceptCommand config q (Rank cmd) (Bankgroup cmd) (Bank cmd) = Ok b ∧
    if (b : bool) then waiting q' ≡ₚ cmd :: waiting q ∧ vget (rank_q_empty q') (Rank cmd) = Ok false
    else q' = q.
Proof. apply AddCommand_spec. Qed.

Lemma add_command_accepts_witness :
  ∃ q' b, AddCommand hbm2_config hbm2_queue (read_at hbm2_config 8192) = Ok (q', b) ∧
    cq_wf hbm2_config q' ∧
    if (b : bool) then waiting q' ≡ₚ read_at hbm2_config 8192 :: waiting hbm2_queue ∧
      vget (rank_q_empty q') 0 = Ok false
    else q' = hbm2_queue.
Proof.
  destruct (add_command_accepts hbm2_config hbm2_queue (read_at hbm2_config 8192))
    as (q' & b & H & Hw & _ & Hb);
    [apply hbm2_dims|apply hbm2_queue_wf
    |apply read_at_ok; repeat split; vm_compute; congruence|].
  exists q', b. split; [exact H|]. split; [exact Hw|exact Hb].
Defined.
