(* ===== verification/Controller.v ===== *)
(** * The memory controller: src/src/controller.h and src/src/controller.cc

    One controller per channel.  It accepts transactions, turns them into
    commands, lets the command queues choose what to issue, interleaves
    refreshes and the commands of the in-memory accelerator, and returns
    completed transactions.

    A [std::multimap] is an association list in the order of insertion, which
    is the order in which the entries of one key are found.  The capacity of
    a transaction queue is the size reserved for it by the constructor. *)
From stdpp Require Import base tactics numbers list list_numbers gmap strings sets.
From S2P Require Import Prelude Common Double Configuration Timing BankState ChannelState.
From S2P Require Import ChannelTiming Refresh SimpleStats CommandQueue.

Local Open Scope Z_scope.

Inductive RowBufPolicy := OPEN_PAGE | CLOSE_PAGE | ROW_BUF_POLICY_SIZE.

Record Controller := mkController {
  channel_id : Z;
  rd_in_cmds_ : list Command;
  rd_w_cmds_ : list Command;
  wr_cmds_ : list Command;
  release_time : list Z;
  wr_multitenant : bool;
  in_pim : bool;
  ctl_clk_ : Z;
  simple_stats_ : SimpleStats;
  channel_state_ : ChannelState;
  cmd_queue_ : CommandQueue;
  refresh_ : Refresh;
  is_unified_queue_ : bool;
  unified_queue_ : list Transaction;
  read_queue_ : list Transaction;
  write_buffer_ : list Transaction;
  pending_rd_q_ : list (Z * Transaction);
  pending_wr_q_ : list (Z * Transaction);
  return_queue_ : list Transaction;
  row_buf_policy_ : RowBufPolicy;
  last_trans_clk_ : Z;
  write_draining_ : Z;
  cmd_trace_ : list (Z * Command)
}.

Definition set_rd_in_cmds_ (v : list Command) (c : Controller) : Controller :=
  mkController (channel_id c) v (rd_w_cmds_ c) (wr_cmds_ c) (release_time c)
    (wr_multitenant c) (in_pim c) (ctl_clk_ c) (simple_stats_ c) (channel_state_ c)
    (cmd_queue_ c) (refresh_ c) (is_unified_queue_ c) (unified_queue_ c) (read_queue_ c)
    (write_buffer_ c) (pending_rd_q_ c) (pending_wr_q_ c) (return_queue_ c)
    (row_buf_policy_ c) (last_trans_clk_ c) (write_draining_ c) (cmd_trace_ c).
Definition set_rd_w_cmds_ (v : list Command) (c : Controller) : Controller :=
  mkController (channel_id c) (rd_in_cmds_ c) v (wr_cmds_ c) (release_time c)
    (wr_multitenant c) (in_pim c) (ctl_clk_ c) (simple_stats_ c) (channel_state_ c)
    (cmd_queue_ c) (refresh_ c) (is_unified_queue_ c) (unified_queue_ c) (read_queue_ c)
    (write_buffer_ c) (pending_rd_q_ c) (pending_wr_q_ c) (return_queue_ c)
    (row_buf_policy_ c) (last_trans_clk_ c) (write_draining_ c) (cmd_trace_ c).
Definition set_wr_cmds_ (v : list Command) (c : Controller) : Controller :=
  mkController (channel_id c) (rd_in_cmds_ c) (rd_w_cmds_ c) v (release_time c)
    (wr_multitenant c) (in_pim c) (ctl_clk_ c) (simple_stats_ c) (channel_state_ c)
    (cmd_queue_ c) (refresh_ c) (is_unified_queue_ c) (unified_queue_ c) (read_queue_ c)
    (write_buffer_ c) (pending_rd_q_ c) (pending_wr_q_ c) (return_queue_ c)
    (row_buf_policy_ c) (last_trans_clk_ c) (write_draining_ c) (cmd_trace_ c).
Definition set_release_time (v : list Z) (c : Controller) : Controller :=
  mkController (channel_id c) (rd_in_cmds_ c) (rd_w_cmds_ c) (wr_cmds_ c) v
    (wr_multitenant c) (in_pim c) (ctl_clk_ c) (simple_stats_ c) (channel_state_ c)
    (cmd_queue_ c) (refresh_ c) (is_unified_queue_ c) (unified_queue_ c) (read_queue_ c)
    (write_buffer_ c) (pending_rd_q_ c) (pending_wr_q_ c) (return_queue_ c)
    (row_buf_policy_ c) (last_trans_clk_ c) (write_draining_ c) (cmd_trace_ c).
Definition set_wr_multitenant (v : bool) (c : Controller) : Controller :=
  mkController (channel_id c) (rd_in_cmds_ c) (rd_w_cmds_ c) (wr_cmds_ c) (release_time c) v
    (in_pim c) (ctl_clk_ c) (simple_stats_ c) (channel_state_ c) (cmd_queue_ c) (refresh_ c)
    (is_unified_queue_ c) (unified_queue_ c) (read_queue_ c) (write_buffer_ c)
    (pending_rd_q_ c) (pending_wr_q_ c) (return_queue_ c) (row_buf_policy_ c)
    (last_trans_clk_ c) (write_draining_ c) (cmd_trace_ c).
Definition set_in_pim (v : bool) (c : Controller) : Controller :=
  mkController (channel_id c) (rd_in_cmds_ c) (rd_w_cmds_ c) (wr_cmds_ c) (release_time c)
    (wr_multitenant c) v (ctl_clk_ c) (simple_stats_ c) (channel_state_ c) (cmd_queue_ c)
    (refresh_ c) (is_unified_queue_ c) (unified_queue_ c) (read_queue_ c) (write_buffer_ c)
    (pending_rd_q_ c) (pending_wr_q_ c) (return_queue_ c) (row_buf_policy_ c)
    (last_trans_clk_ c) (write_draining_ c) (cmd_trace_ c).
Definition set_ctl_clk_ (v : Z) (c : Controller) : Controller :=
  mkController (channel_id c) (rd_in_cmds_ c) (rd_w_cmds_ c) (wr_cmds_ c) (release_time c)
    (wr_multitenant c) (in_pim c) v (simple_stats_ c) (channel_state_ c) (cmd_queue_ c)
    (refresh_ c) (is_unified_queue_ c) (unified_queue_ c) (read_queue_ c) (write_buffer_ c)
    (pending_rd_q_ c) (pending_wr_q_ c) (return_queue_ c) (row_buf_policy_ c)
    (last_trans_clk_ c) (write_draining_ c) (cmd_trace_ c).
Definition set_simple_stats_ (v : SimpleStats) (c : Controller) : Controller :=
  mkController (channel_id c) (rd_in_cmds_ c) (rd_w_cmds_ c) (wr_cmds_ c) (release_time c)
    (wr_multitenant c) (in_pim c) (ctl_clk_ c) v (channel_state_ c) (cmd_queue_ c)
    (refresh_ c) (is_unified_queue_ c) (unified_queue_ c) (read_queue_ c) (write_buffer_ c)
    (pending_rd_q_ c) (pending_wr_q_ c) (return_queue_ c) (row_buf_policy_ c)
    (last_trans_clk_ c) (write_draining_ c) (cmd_trace_ c).
Definition set_channel_state_ (v : ChannelState) (c : Controller) : Controller :=
  mkController (channel_id c) (rd_in_cmds_ c) (rd_w_cmds_ c) (wr_cmds_ c) (release_time c)
    (wr_multitenant c) (in_pim c) (ctl_clk_ c) (simple_stats_ c) v (cmd_queue_ c)
    (refresh_ c) (is_unified_queue_ c) (unified_queue_ c) (read_queue_ c) (write_buffer_ c)
    (pending_rd_q_ c) (pending_wr_q_ c) (return_queue_ c) (row_buf_policy_ c)
    (last_trans_clk_ c) (write_draining_ c) (cmd_trace_ c).
Definition set_cmd_queue_ (v : CommandQueue) (c : Controller) : Controller :=
  mkController (channel_id c) (rd_in_cmds_ c) (rd_w_cmds_ c) (wr_cmds_ c) (release_time c)
    (wr_multitenant c) (in_pim c) (ctl_clk_ c) (simple_stats_ c) (channel_state_ c) v
    (refresh_ c) (is_unified_queue_ c) (unified_queue_ c) (read_queue_ c) (write_buffer_ c)
    (pending_rd_q_ c) (pending_wr_q_ c) (return_queue_ c) (row_buf_policy_ c)
    (last_trans_clk_ c) (write_draining_ c) (cmd_trace_ c).
Definition set_refresh_ (v : Refresh) (c : Controller) : Controller :=
  mkController (channel_id c) (rd_in_cmds_ c) (rd_w_cmds_ c) (wr_cmds_ c) (release_time c)
    (wr_multitenant c) (in_pim c) (ctl_clk_ c) (simple_stats_ c) (channel_state_ c)
    (cmd_queue_ c) v (is_unified_queue_ c) (unified_queue_ c) (read_queue_ c)
    (write_buffer_ c) (pending_rd_q_ c) (pending_wr_q_ c) (return_queue_ c)
    (row_buf_policy_ c) (last_trans_clk_ c) (write_draining_ c) (cmd_trace_ c).
Definition set_unified_queue_ (v : list Transaction) (c : Controller) : Controller :=
  mkController (channel_id c) (rd_in_cmds_ c) (rd_w_cmds_ c) (wr_cmds_ c) (release_time c)
    (wr_multitenant c) (in_pim c) (ctl_clk_ c) (simple_stats_ c) (channel_state_ c)
    (cmd_queue_ c) (refresh_ c) (is_unified_queue_ c) v (read_queue_ c) (write_buffer_ c)
    (pending_rd_q_ c) (pending_wr_q_ c) (return_queue_ c) (row_buf_policy_ c)
    (last_trans_clk_ c) (write_draining_ c) (cmd_trace_ c).
Definition set_read_queue_ (v : list Transaction) (c : Controller) : Controller :=
  mkController (channel_id c) (rd_in_cmds_ c) (rd_w_cmds_ c) (wr_cmds_ c) (release_time c)
    (wr_multitenant c) (in_pim c) (ctl_clk_ c) (simple_stats_ c) (channel_state_ c)
    (cmd_queue_ c) (refresh_ c) (is_unified_queue_ c) (unified_queue_ c) v (write_buffer_ c)
    (pending_rd_q_ c) (pending_wr_q_ c) (return_queue_ c) (row_buf_policy_ c)
    (last_trans_clk_ c) (write_draining_ c) (cmd_trace_ c).
Definition set_write_buffer_ (v : list Transaction) (c : Controller) : Controller :=
  mkController (channel_id c) (rd_in_cmds_ c) (rd_w_cmds_ c) (wr_cmds_ c) (release_time c)
    (wr_multitenant c) (in_pim c) (ctl_clk_ c) (simple_stats_ c) (channel_state_ c)
    (cmd_queue_ c) (refresh_ c) (is_unified_queue_ c) (unified_queue_ c) (read_queue_ c) v
    (pending_rd_q_ c) (pending_wr_q_ c) (return_queue_ c) (row_buf_policy_ c)
    (last_trans_clk_ c) (write_draining_ c) (cmd_trace_ c).
Definition set_pending_rd_q_ (v : list (Z * Transaction)) (c : Controller) : Controller :=
  mkController (channel_id c) (rd_in_cmds_ c) (rd_w_cmds_ c) (wr_cmds_ c) (release_time c)
    (wr_multitenant c) (in_pim c) (ctl_clk_ c) (simple_stats_ c) (channel_state_ c)
    (cmd_queue_ c) (refresh_ c) (is_unified_queue_ c) (unified_queue_ c) (read_queue_ c)
    (write_buffer_ c) v (pending_wr_q_ c) (return_queue_ c) (row_buf_policy_ c)
    (last_trans_clk_ c) (write_draining_ c) (cmd_trace_ c).
Definition set_pending_wr_q_ (v : list (Z * Transaction)) (c : Controller) : Controller :=
  mkController (channel_id c) (rd_in_cmds_ c) (rd_w_cmds_ c) (wr_cmds_ c) (release_time c)
    (wr_multitenant c) (in_pim c) (ctl_clk_ c) (simple_stats_ c) (channel_state_ c)
    (cmd_queue_ c) (refresh_ c) (is_unified_queue_ c) (unified_queue_ c) (read_queue_ c)
    (write_buffer_ c) (pending_rd_q_ c) v (return_queue_ c) (row_buf_policy_ c)
    (last_trans_clk_ c) (write_draining_ c) (cmd_trace_ c).
Definition set_return_queue_ (v : list Transaction) (c : Controller) : Controller :=
  mkController (channel_id c) (rd_in_cmds_ c) (rd_w_cmds_ c) (wr_cmds_ c) (release_time c)
    (wr_multitenant c) (in_pim c) (ctl_clk_ c) (simple_stats_ c) (channel_state_ c)
    (cmd_queue_ c) (refresh_ c) (is_unified_queue_ c) (unified_queue_ c) (read_queue_ c)
    (write_buffer_ c) (pending_rd_q_ c) (pending_wr_q_ c) v (row_buf_policy_ c)
    (last_trans_clk_ c) (write_draining_ c) (cmd_trace_ c).
Definition set_last_trans_clk_ (v : Z) (c : Controller) : Controller :=
  mkController (channel_id c) (rd_in_cmds_ c) (rd_w_cmds_ c) (wr_cmds_ c) (release_time c)
    (wr_multitenant c) (in_pim c) (ctl_clk_ c) (simple_stats_ c) (channel_state_ c)
    (cmd_queue_ c) (refresh_ c) (is_unified_queue_ c) (unified_queue_ c) (read_queue_ c)
    (write_buffer_ c) (pending_rd_q_ c) (pending_wr_q_ c) (return_queue_ c)
    (row_buf_policy_ c) v (write_draining_ c) (cmd_trace_ c).
Definition set_write_draining_ (v : Z) (c : Controller) : Controller :=
  mkController (channel_id c) (rd_in_cmds_ c) (rd_w_cmds_ c) (wr_cmds_ c) (release_time c)
    (wr_multitenant c) (in_pim c) (ctl_clk_ c) (simple_stats_ c) (channel_state_ c)
    (cmd_queue_ c) (refresh_ c) (is_unified_queue_ c) (unified_queue_ c) (read_queue_ c)
    (write_buffer_ c) (pending_rd_q_ c) (pending_wr_q_ c) (return_queue_ c)
    (row_buf_policy_ c) (last_trans_clk_ c) v (cmd_trace_ c).
Definition set_cmd_trace_ (v : list (Z * Command)) (c : Controller) : Controller :=
  mkController (channel_id c) (rd_in_cmds_ c) (rd_w_cmds_ c) (wr_cmds_ c) (release_time c)
    (wr_multitenant c) (in_pim c) (ctl_clk_ c) (simple_stats_ c) (channel_state_ c)
    (cmd_queue_ c) (refresh_ c) (is_unified_queue_ c) (unified_queue_ c) (read_queue_ c)
    (write_buffer_ c) (pending_rd_q_ c) (pending_wr_q_ c) (return_queue_ c)
    (row_buf_policy_ c) (last_trans_clk_ c) (write_draining_ c) v.

Definition Controller_init (config : Config) (channel : Z) : outcome Controller :=
  q ← CommandQueue_init config;
  rf ← Refresh_init config;
  Ok (mkController channel [] [] [] [] false false 0 (SimpleStats_init config channel)
        (ChannelState_init config) q rf (unified_queue config) [] [] [] [] [] []
        (if bool_decide (row_buf_policy config = "CLOSE_PAGE"%string)
         then CLOSE_PAGE else OPEN_PAGE) 0 0 []).

(** Updates of the statistics. *)
Definition increment (name : string) (c : Controller) : Controller :=
  set_simple_stats_ (Increment name (simple_stats_ c)) c.
Definition increment_vec (name : string) (i : Z) (c : Controller) : outcome Controller :=
  s ← IncrementVec name i (simple_stats_ c); Ok (set_simple_stats_ s c).
Definition add_value (name : string) (value : Z) (c : Controller) : Controller :=
  set_simple_stats_ (AddValue name value (simple_stats_ c)) c.

(** ** Multimaps *)

Definition mm_count (a : Z) (m : list (Z * Transaction)) : Z :=
  vsize (filter (λ p, p.1 = a) m).

(** [find] and the remaining entries after erasing what it found. *)
Fixpoint mm_take (a : Z) (m : list (Z * Transaction))
    : option (Transaction * list (Z * Transaction)) :=
  match m with
  | [] => None
  | (k, t) :: m =>
      if k =? a then Some (t, m)
      else '(t', m') ← mm_take a m; Some (t', (k, t) :: m')
  end.

(** ** Transactions *)

Fixpoint return_scan (clk : Z) (kept todo : list Transaction) (c : Controller)
    : (Z * Z) * Controller :=
  match todo with
  | [] => ((u64 (-1), -1), c)
  | it :: todo =>
      if complete_cycle it <=? clk then
        let c := if is_write it then increment "num_writes_done" c
                 else add_value "read_latency" (u64 (ctl_clk_ c - added_cycle it))
                        (increment "num_reads_done" c) in
        ((trans_addr it, if is_write it then 1 else 0), set_return_queue_ (kept ++ todo) c)
      else return_scan clk (kept ++ [it]) todo c
  end.

Definition ReturnDoneTrans (clk : Z) (c : Controller) : (Z * Z) * Controller :=
  return_scan clk [] (return_queue_ c) c.

Definition WillAcceptTransaction (config : Config) (c : Controller) (hex_addr : Z)
    (is_write : bool) : bool :=
  if is_unified_queue_ c then vsize (unified_queue_ c) <? trans_queue_size config
  else if negb is_write then vsize (read_queue_ c) <? trans_queue_size config
  else vsize (write_buffer_ c) <? trans_queue_size config.

Definition set_added (clk : Z) (t : Transaction) : Transaction :=
  mkTransaction (trans_addr t) clk (complete_cycle t) (is_write t) (is_pim t) (active t).
Definition set_complete (clk : Z) (t : Transaction) : Transaction :=
  mkTransaction (trans_addr t) (added_cycle t) clk (is_write t) (is_pim t) (active t).

Definition AddTransaction (trans : Transaction) (c : Controller) : Controller * bool :=
  let trans := set_added (ctl_clk_ c) trans in
  let c := add_value "interarrival_latency" (u64 (ctl_clk_ c - last_trans_clk_ c)) c in
  let c := set_last_trans_clk_ (ctl_clk_ c) c in
  let done := set_complete (u64 (ctl_clk_ c + 1)) trans in
  if is_write trans then
    let c :=
      if mm_count (trans_addr trans) (pending_wr_q_ c) =? 0 then
        let c := set_pending_wr_q_ (pending_wr_q_ c ++ [(trans_addr trans, trans)]) c in
        if is_unified_queue_ c then set_unified_queue_ (unified_queue_ c ++ [trans]) c
        else set_write_buffer_ (write_buffer_ c ++ [trans]) c
      else c in
    (set_return_queue_ (return_queue_ c ++ [done]) c, true)
  else if 0 <? mm_count (trans_addr trans) (pending_wr_q_ c) then
    (set_return_queue_ (return_queue_ c ++ [done]) c, true)
  else
    let c := set_pending_rd_q_ (pending_rd_q_ c ++ [(trans_addr trans, trans)]) c in
    let c :=
      if mm_count (trans_addr trans) (pending_rd_q_ c) =? 1 then
        if is_unified_queue_ c then set_unified_queue_ (unified_queue_ c ++ [trans]) c
        else set_read_queue_ (read_queue_ c ++ [trans]) c
      else c in
    (c, true).

Definition TransToCommand (config : Config) (c : Controller) (trans : Transaction) : Command :=
  let addr := AddressMapping config (trans_addr trans) in
  let cmd_type :=
    match row_buf_policy_ c with
    | OPEN_PAGE => if is_write trans then WRITE else READ
    | _ => if is_write trans then WRITE_PRECHARGE else READ_PRECHARGE
    end in
  mkCommand cmd_type addr (trans_addr trans).

(** The loop over the chosen queue; the result is what remains of it. *)
Fixpoint schedule_scan (config : Config) (kept todo : list Transaction) (c : Controller)
    : outcome (list Transaction * Controller) :=
  match todo with
  | [] => Ok (kept, c)
  | it :: todo =>
      let cmd := TransToCommand config c it in
      accept ← WillAcceptCommand config (cmd_queue_ c) (Rank cmd) (Bankgroup cmd) (Bank cmd);
      if (accept : bool) then
        if negb (is_unified_queue_ c) && IsWrite cmd
           && (0 <? mm_count (trans_addr it) (pending_rd_q_ c))
        then Ok (kept ++ it :: todo, set_write_draining_ 0 c)
        else
          let c := if negb (is_unified_queue_ c) && IsWrite cmd
                   then set_write_draining_ (write_draining_ c - 1) c else c in
          '(q, _) ← AddCommand config (cmd_queue_ c) cmd;
          Ok (kept ++ todo, set_cmd_queue_ q c)
      else schedule_scan config (kept ++ [it]) todo c
  end.

Definition ScheduleTransaction (config : Config) (c : Controller) : outcome Controller :=
  let c :=
    if (write_draining_ c =? 0) && negb (is_unified_queue_ c) then
      if (trans_queue_size config <=? vsize (write_buffer_ c))
         || ((8 <? vsize (write_buffer_ c)) && QueueEmpty (cmd_queue_ c))
      then set_write_draining_ (vsize (write_buffer_ c)) c else c
    else c in
  if is_unified_queue_ c then
    '(l, c) ← schedule_scan config [] (unified_queue_ c) c; Ok (set_unified_queue_ l c)
  else if 0 <? write_draining_ c then
    '(l, c) ← schedule_scan config [] (write_buffer_ c) c; Ok (set_write_buffer_ l c)
  else
    '(l, c) ← schedule_scan config [] (read_queue_ c) c; Ok (set_read_queue_ l c).

(** ** Issuing a command *)

(** [name] and, for a row hit, [hits]. *)
Definition count_access (cmd : Command) (name hits : string) (c : Controller)
    : outcome Controller :=
  let c := increment name c in
  n ← RowHitCount (channel_state_ c) (Rank cmd) (Bankgroup cmd) (Bank cmd);
  Ok (if negb (n =? 0) then increment hits c else c).

Definition UpdateCommandStats (cmd : Command) (c : Controller) : outcome Controller :=
  match cmd_type cmd with
  | READ | READ_PRECHARGE => count_access cmd "num_read_cmds" "num_read_row_hits" c
  | WRITE | WRITE_PRECHARGE => count_access cmd "num_write_cmds" "num_write_row_hits" c
  | ACTIVATE => Ok (increment "num_act_cmds" c)
  | LH_READ | LH_READ_PRECHARGE =>
      count_access cmd "num_lh_read_cmds" "num_lh_read_row_hits" c
  | GH_READ | GH_READ_PRECHARGE =>
      count_access cmd "num_gh_read_cmds" "num_gh_read_row_hits" c
  | PIM_WRITE | PIM_WRITE_PRECHARGE =>
      count_access cmd "num_pim_write_cmds" "num_pim_write_row_hits" c
  | PIM_ACTIVATE => Ok (increment "num_act_cmds" c)
  | PRECHARGE => Ok (increment "num_pre_cmds" c)
  | REFRESH => Ok (increment "num_ref_cmds" c)
  | REFRESH_BANK => Ok (increment "num_refb_cmds" c)
  | SREF_ENTER => Ok (increment "num_srefe_cmds" c)
  | SREF_EXIT => Ok (increment "num_srefx_cmds" c)
  | SIZE => Fail (AbruptExit "controller.cc" 486)
  end.

(** [while (num_reads > 0)]: every pending read of the address completes. *)
Fixpoint complete_reads (config : Config) (num_reads : nat) (a : Z) (c : Controller)
    : outcome Controller :=
  match num_reads with
  | O => Ok c
  | S n =>
      '(t, m) ← from_option_or OutOfRange (mm_take a (pending_rd_q_ c));
      let t := set_complete (u64 (ctl_clk_ c + read_delay config)) t in
      complete_reads config n a
        (set_pending_rd_q_ m (set_return_queue_ (return_queue_ c ++ [t]) c))
  end.

(** Pending and return queues when a read or write is issued. *)
Definition complete_access (config : Config) (cmd : Command) (c : Controller)
    : outcome Controller :=
  if IsRead cmd then
    let num_reads := mm_count (cmd_hex_addr cmd) (pending_rd_q_ c) in
    if negb (in_pim c) && (num_reads =? 0) then Fail (ExitProcess 1)
    else complete_reads config (Z.to_nat num_reads) (cmd_hex_addr cmd) c
  else if IsWrite cmd then
    '(t, m) ← from_option_or (ExitProcess 1) (mm_take (cmd_hex_addr cmd) (pending_wr_q_ c));
    let wr_lat := u64 (ctl_clk_ c - added_cycle t + write_delay config) in
    Ok (set_pending_wr_q_ m (add_value "write_latency" wr_lat c))
  else Ok c.

(** [cmd_trace_ << std::left << std::setw(18) << clk_ << cmd], a stream that
    only a build with CMD_TRACE writes: the clock and the command of a line. *)
Definition trace_command (cmd : Command) (c : Controller) : Controller :=
  set_cmd_trace_ (cmd_trace_ c ++ [(ctl_clk_ c, cmd)]) c.

Definition IssueCommand (config : Config) (timing : Timing) (cmd : Command) (c : Controller)
    : outcome Controller :=
  let c := trace_command cmd c in
  c ← complete_access config cmd c;
  c ← UpdateCommandStats cmd c;
  cs ← UpdateTimingAndStates config timing (channel_state_ c) cmd (ctl_clk_ c);
  Ok (set_channel_state_ cs c).

(** ** The accelerator's commands

    The three loops over the lists that the accelerator's scheduler fills. *)

(** Issue [it], unless it is an activation and a refresh is waiting. *)
Definition issue_pim (config : Config) (timing : Timing) (it : Command) (c : Controller)
    : outcome Controller :=
  if IsRefreshWaiting (channel_state_ c) && type_eqb (cmd_type it) PIM_ACTIVATE then Ok c
  else IssueCommand config timing it c.

Fixpoint rd_w_loop (config : Config) (timing : Timing) (kept todo : list Command)
    (c : Controller) : outcome Controller :=
  match todo with
  | [] => Ok (set_rd_w_cmds_ kept c)
  | it :: todo =>
      let is_act := type_eqb (cmd_type it) PIM_ACTIVATE in
      ready_cmd ←
        (if is_act then
           GetReadyCommand config (channel_state_ c)
             (mkCommand GH_READ (cmd_addr it) (cmd_hex_addr it)) (ctl_clk_ c)
         else if type_eqb (cmd_type it) PRECHARGE then Ok it
         else GetReadyCommand config (channel_state_ c) it (ctl_clk_ c));
      if IsValid ready_cmd && type_eqb (cmd_type ready_cmd) (cmd_type it) then
        c ← issue_pim config timing it c;
        rd_w_loop config timing kept todo c
      else rd_w_loop config timing (kept ++ [it]) todo c
  end.

(** [i] is the number of commands kept so far, the index into
    [release_time]. *)
Fixpoint rd_in_loop (config : Config) (timing : Timing) (i : nat) (kept todo : list Command)
    (c : Controller) : outcome Controller :=
  match todo with
  | [] => Ok (set_rd_in_cmds_ kept c)
  | it :: todo =>
      let is_act := type_eqb (cmd_type it) PIM_ACTIVATE in
      let is_local := type_eqb (cmd_type it) LH_READ_PRECHARGE
                      || type_eqb (cmd_type it) LH_READ in
      let read_type := if is_local then LH_READ else GH_READ in
      ready_cmd ←
        (if is_act then
           GetReadyCommand config (channel_state_ c)
             (mkCommand read_type (cmd_addr it) (cmd_hex_addr it)) (ctl_clk_ c)
         else GetReadyCommand config (channel_state_ c) it (ctl_clk_ c));
      if IsValid ready_cmd && type_eqb (cmd_type ready_cmd) (cmd_type it) then
        rt ← vget (release_time c) (Z.of_nat i);
        if u64 rt <=? ctl_clk_ c then
          c ← issue_pim config timing it c;
          rd_in_loop config timing i kept todo
            (set_release_time (erase_at i (release_time c)) c)
        else rd_in_loop config timing (S i) (kept ++ [it]) todo c
      else rd_in_loop config timing (S i) (kept ++ [it]) todo c
  end.

Fixpoint wr_loop (config : Config) (timing : Timing) (kept todo : list Command)
    (c : Controller) : outcome Controller :=
  match todo with
  | [] => Ok (set_wr_cmds_ kept c)
  | it :: todo =>
      let is_act := type_eqb (cmd_type it) PIM_ACTIVATE in
      ready_cmd ←
        (if is_act then
           GetReadyCommand config (channel_state_ c)
             (mkCommand PIM_WRITE (cmd_addr it) (cmd_hex_addr it)) (ctl_clk_ c)
         else GetReadyCommand config (channel_state_ c) it (ctl_clk_ c));
      if IsValid ready_cmd && type_eqb (cmd_type ready_cmd) (cmd_type it) then
        if negb (IsRefreshWaiting (channel_state_ c) && is_act) then
          c ← IssueCommand config timing it c;
          if wr_multitenant c then Ok (set_wr_cmds_ (kept ++ todo) c)
          else wr_loop config timing kept todo c
        else wr_loop config timing kept todo c
      else wr_loop config timing (kept ++ [it]) todo c
  end.

(** ** Power *)

(** Power updates, part 1: one rank. *)
Definition rank_power (config : Config) (i : Z) (c : Controller) : outcome Controller :=
  sref ← IsRankSelfRefreshing (channel_state_ c) i;
  if (sref : bool) then increment_vec "sref_cycles" i c
  else
    all_idle ← IsAllBankIdleInRank config (channel_state_ c) i;
    if (all_idle : bool) then
      c ← increment_vec "all_bank_idle_cycles" i c;
      n ← vget (rank_idle_cycles (channel_state_ c)) i;
      v ← vset (rank_idle_cycles (channel_state_ c)) i (n + 1);
      Ok (set_channel_state_ (set_rank_idle_cycles v (channel_state_ c)) c)
    else
      c ← increment_vec "rank_active_cycles" i c;
      v ← vset (rank_idle_cycles (channel_state_ c)) i 0;
      Ok (set_channel_state_ (set_rank_idle_cycles v (channel_state_ c)) c).

(** Power updates, part 2: entering and leaving self refresh. *)
Fixpoint sref_scan (config : Config) (timing : Timing) (l : list Z) (c : Controller)
    : outcome Controller :=
  match l with
  | [] => Ok c
  | i :: l =>
      let addr := mkAddress (-1) i (-1) (-1) (-1) (-1) in
      let try (t : CommandType) :=
        cmd ← GetReadyCommand config (channel_state_ c) (mkCommand t addr (u64 (-1)))
                (ctl_clk_ c);
        if IsValid cmd then IssueCommand config timing cmd c
        else sref_scan config timing l c in
      sref ← IsRankSelfRefreshing (channel_state_ c) i;
      empty ← vget (rank_q_empty (cmd_queue_ c)) i;
      if (sref : bool) then
        if negb empty then try SREF_EXIT else sref_scan config timing l c
      else
        idle ← vget (rank_idle_cycles (channel_state_ c)) i;
        if empty && (sref_threshold config <=? idle)
        then try SREF_ENTER else sref_scan config timing l c
  end.

(** ** A clock cycle *)

(** Priorities 1 and 3: the refresh that is waiting, then the queues. *)
Definition choose_command (config : Config) (c : Controller) : outcome (Command * Controller) :=
  '(cmd, c) ←
    (if IsRefreshWaiting (channel_state_ c) then
       '(cmd, q) ← FinishRefresh config (channel_state_ c) (cmd_queue_ c);
       Ok (cmd, set_cmd_queue_ q c)
     else Ok (Command_default, c));
  if negb (IsValid cmd) then
    '(cmd, q, s) ← GetCommandToIssue config (channel_state_ c) (cmd_queue_ c) (simple_stats_ c);
    Ok (cmd, set_simple_stats_ s (set_cmd_queue_ q c))
  else Ok (cmd, c).

(** The issue of the chosen command, and of a second one on HBM; the flag is
    [cmd_issued]. *)
Definition issue_chosen (config : Config) (timing : Timing) (cmd : Command) (c : Controller)
    : outcome (Controller * bool) :=
  if IsValid cmd then
    c ← IssueCommand config timing cmd c;
    if enable_hbm_dual_cmd config then
      '(second_cmd, q, s) ←
        GetCommandToIssue config (channel_state_ c) (cmd_queue_ c) (simple_stats_ c);
      let c := set_simple_stats_ s (set_cmd_queue_ q c) in
      if IsValid second_cmd && negb (eqb (IsReadWrite second_cmd) (IsReadWrite cmd)) then
        c ← IssueCommand config timing second_cmd c;
        Ok (increment "hbm_dual_cmds" c, true)
      else Ok (c, true)
    else Ok (c, true)
  else Ok (c, false).

Definition no_pim_cmds (c : Controller) : bool :=
  bool_decide (rd_w_cmds_ c = []) && bool_decide (rd_in_cmds_ c = [])
  && bool_decide (wr_cmds_ c = []).

Definition issue_phase (config : Config) (timing : Timing) (cmd : Command) (c : Controller)
    : outcome (Controller * bool) :=
  if IsRefresh cmd || no_pim_cmds c then issue_chosen config timing cmd c
  else
    c ← rd_w_loop config timing [] (rd_w_cmds_ c) c;
    c ← rd_in_loop config timing 0 [] (rd_in_cmds_ c) c;
    c ← wr_loop config timing [] (wr_cmds_ c) c;
    Ok (c, true).

Definition ClockTick (config : Config) (timing : Timing) (c : Controller)
    : outcome Controller :=
  '(rf, cs) ← Refresh.ClockTick config (refresh_ c) (channel_state_ c);
  let c := set_channel_state_ cs (set_refresh_ rf c) in
  '(cmd, c) ← choose_command config c;
  '(c, cmd_issued) ← issue_phase config timing cmd c;
  c ← for_range (ranks config) (rank_power config) c;
  c ← (if enable_self_refresh config && negb cmd_issued
       then sref_scan config timing (seqZ 0 (ranks config)) c else Ok c);
  c ← ScheduleTransaction config c;
  let c := set_ctl_clk_ (u64 (ctl_clk_ c + 1)) c in
  let c := set_cmd_queue_ (CommandQueue.ClockTick (cmd_queue_ c)) c in
  Ok (increment "num_cycles" c).

Definition QueueUsage (c : Controller) : Z := CommandQueue.QueueUsage (cmd_queue_ c).
Definition ResetStats (c : Controller) : Controller :=
  set_simple_stats_ (Reset (simple_stats_ c)) c.
Definition IsInRef (c : Controller) : bool := is_in_ref_ (cmd_queue_ c).
Definition pim_refresh_coming (config : Config) (c : Controller) : outcome bool :=
  Refresh.pim_refresh_coming config (refresh_ c).

Definition pim_refresh_coming2 (config : Config) (c : Controller) : outcome bool :=
  Refresh.pim_refresh_coming2 config (refresh_ c).
Definition Controller_GetReadyCommand (config : Config) (c : Controller) (cmd : Command) (clk : Z)
    : outcome Command :=
  ChannelState.GetReadyCommand config (channel_state_ c) cmd clk.

Definition PrintEpochStats (fd : double → string) (st : string → string → string → string)
    (config : Config) (c : Controller) : outcome (Controller * list Output) :=
  let c := increment "epoch_num" c in
  '(s, out) ← SimpleStats.PrintEpochStats fd st config (simple_stats_ c);
  Ok (set_simple_stats_ s c, out).
Definition PrintFinalStats (fd : double → string) (st : string → string → string → string)
    (config : Config) (c : Controller) : outcome (Controller * list Output) :=
  '(s, out) ← SimpleStats.PrintFinalStats fd st config (simple_stats_ c);
  Ok (set_simple_stats_ s c, out).
