(* ===== verification/ControllerSafety.v ===== *)
(** * Safety of the memory controller

    The invariant that ties the components of a controller together, and its
    consequences: in the absence of self refresh a clock cycle never aborts,
    never exits, never indexes out of range, and neither loses nor invents a
    transaction, with or without commands of the accelerator. *)
From stdpp Require Import base tactics numbers list list_numbers gmap strings sets.
From S2P Require Import Prelude Common Double Configuration Timing BankState ChannelState.
From S2P Require Import ChannelTiming Refresh SimpleStats StatsSafety CommandQueue Controller.

Local Open Scope Z_scope.

(** ** The invariant *)

(** A pending refresh names an existing rank or bank. *)
Definition ref_ok (config : Config) (ref : Command) : Prop :=
  (cmd_type ref = REFRESH ∧ 0 ≤ Rank ref < ranks config) ∨
  (cmd_type ref = REFRESH_BANK ∧ valid_coord config (cmd_coord ref)).

(** The refresh counters stay in range. *)
Record refresh_wf (config : Config) (rf : Refresh) : Prop := {
  rw_policy : refresh_policy_ rf ≠ REFRESH_POLICY_SIZE;
  rw_interval : u64 (refresh_interval_ rf) ≠ 0;
  rw_next : valid_coord config (next_rank_ rf, next_bg_ rf, next_bank_ rf)
}.

(** A transaction whose address maps to an existing bank. *)
Definition mappable (config : Config) (t : Transaction) : Prop :=
  valid_coord config (cmd_coord (read_at config (trans_addr t))).

(** Transactions that have not become commands yet. *)
Definition queued (c : Controller) : list Transaction :=
  unified_queue_ c ++ read_queue_ c ++ write_buffer_ c.

(** Addresses of the reads and writes on their way to the memory: queued as
    transactions, waiting as commands, or chosen ([hand]) but not issued. *)
Definition reads_of (ts : list Transaction) : list Z :=
  trans_addr <$> filter (λ t, is_write t = false) ts.
Definition writes_of (ts : list Transaction) : list Z :=
  trans_addr <$> filter (λ t, is_write t = true) ts.
Definition read_hexes (cs : list Command) : list Z :=
  cmd_hex_addr <$> filter (λ c, IsRead c = true) cs.
Definition write_hexes (cs : list Command) : list Z :=
  cmd_hex_addr <$> filter (λ c, IsWrite c = true) cs.

Definition reads_in_flight (hand : list Command) (c : Controller) : list Z :=
  reads_of (queued c) ++ read_hexes (hand ++ waiting (cmd_queue_ c)).
Definition writes_in_flight (hand : list Command) (c : Controller) : list Z :=
  writes_of (queued c) ++ write_hexes (hand ++ waiting (cmd_queue_ c)).

Record ctl_inv (config : Config) (hand : list Command) (c : Controller) : Prop := {
  ci_chan : chan_wf config (channel_state_ c);
  ci_awake : awake config (channel_state_ c);
  ci_queue : cq_wf config (cmd_queue_ c);
  ci_refs : Forall (ref_ok config) (refresh_q_ (channel_state_ c));
  ci_refresh : refresh_wf config (refresh_ c);
  ci_stats : stats_ok config (simple_stats_ c);
  ci_clk : cq_clk_ (cmd_queue_ c) = ctl_clk_ c;
  ci_trans : Forall (mappable config) (queued c);
  ci_reads_nodup : NoDup (reads_in_flight hand c);
  ci_reads a : a ∈ reads_in_flight hand c ↔ a ∈ (pending_rd_q_ c).*1;
  ci_writes : writes_in_flight hand c ≡ₚ (pending_wr_q_ c).*1;
  ci_writes_nodup : NoDup (pending_wr_q_ c).*1
}.

(** Commands of the accelerator that the channel can be asked for: accesses, and
    activations, which it asks for as accesses. *)
Definition pim_cmd_ok (config : Config) (cmd : Command) : Prop :=
  cmd_type cmd ∈ [LH_READ; LH_READ_PRECHARGE; GH_READ; GH_READ_PRECHARGE; PIM_WRITE;
                  PIM_WRITE_PRECHARGE; PIM_ACTIVATE] ∧ valid_coord config (cmd_coord cmd).

(** The lists that the accelerator's scheduler fills. *)
Definition pim_state (c : Controller) : list Command * list Command * list Command * list Z :=
  (rd_w_cmds_ c, rd_in_cmds_ c, wr_cmds_ c, release_time c).

Record pim_ok (config : Config) (c : Controller) : Prop := {
  po_weights : Forall (pim_cmd_ok config) (rd_w_cmds_ c);
  po_inputs : Forall (pim_cmd_ok config) (rd_in_cmds_ c);
  po_outputs : Forall (pim_cmd_ok config) (wr_cmds_ c);
  po_release : length (release_time c) = length (rd_in_cmds_ c)
}.

(** Transactions accepted and not yet returned to the processor, as the
    callbacks that will report them. *)
Definition outstanding (c : Controller) : list callback :=
  trans_callback <$> ((pending_rd_q_ c).*2 ++ return_queue_ c).

(** The chosen command that has left the queues. *)
Definition hand_of (cmd : Command) : list Command := if IsReadWrite cmd then [cmd] else [].

(** Everything a command scheduling or statistics update may change. *)
Definition queue_stats_only (c c' : Controller) : Prop :=
  c' = set_simple_stats_ (simple_stats_ c') (set_cmd_queue_ (cmd_queue_ c') c).

(** The delays between accesses are positive: needed only where two commands
    may be issued in one cycle, and between ranks only if there are several. *)
Definition access_delays_ok (config : Config) : Prop :=
  let d := Delays_of config in
  Forall (λ x, 0 < x < 2 ^ 32)
    [read_to_read_l d; read_to_read_s d; read_to_write d; write_to_read_l d; write_to_read_s d;
     write_to_write_l d; write_to_write_s d] ∧
  (1 < ranks config → Forall (λ x, 0 < x < 2 ^ 32)
    [read_to_read_o d; read_to_write_o d; write_to_read_o d; write_to_write_o d]).

(** The configurations the safety theorem is about. *)
Record supported (config : Config) : Prop := {
  su_dims : dims_ok config;
  su_sref : enable_self_refresh config = false;
  su_policy : refresh_policy config ≠ REFRESH_POLICY_SIZE;
  su_interval rf : Refresh_init config = Ok rf → u64 (refresh_interval_ rf) ≠ 0;
  su_dual : enable_hbm_dual_cmd config = true → access_delays_ok config
}.

(** The accelerator's scheduler appends to the three lists. *)
Definition accelerate (w i o : list Command) (rt : list Z) (c : Controller) : Controller :=
  set_rd_w_cmds_ (rd_w_cmds_ c ++ w) (set_rd_in_cmds_ (rd_in_cmds_ c ++ i)
    (set_wr_cmds_ (wr_cmds_ c ++ o) (set_release_time (release_time c ++ rt) c))).

(** What the processor, the clock, the end of an epoch and the accelerator do to
    a controller. *)
Inductive event :=
| Tick
| Add (t : Transaction)
| Return (clk : Z)
| Epoch
| Accelerate (w i o : list Command) (rt : list Z)
| Mode (pim multitenant : bool).

(** Executing a history of events; the list collects the transactions returned.
    [fd] and [st] format the numbers and the lines of the statistics. *)
Definition step (fd : double → string) (st : string → string → string → string)
    (config : Config) (e : event) (x : Controller * list callback)
    : outcome (Controller * list callback) :=
  let '(c, done) := x in
  match e with
  | Tick => c ← ClockTick config (Timing_of config) c; Ok (c, done)
  | Add t => Ok ((AddTransaction t c).1, done)
  | Return clk =>
      let '((a, w), c) := ReturnDoneTrans clk c in
      Ok (c, if w =? -1 then done else callback_of a (w =? 1) :: done)
  | Epoch => '(c, _) ← PrintEpochStats fd st config c; Ok (c, done)
  | Accelerate w i o rt => Ok (accelerate w i o rt c, done)
  | Mode pim multitenant => Ok (set_in_pim pim (set_wr_multitenant multitenant c), done)
  end.

Definition event_ok (config : Config) (e : event) : Prop :=
  match e with
  | Add t => mappable config t
  | Accelerate w i o rt =>
      Forall (pim_cmd_ok config) w ∧ Forall (pim_cmd_ok config) i ∧ Forall (pim_cmd_ok config) o ∧
      length rt = length i
  | _ => True
  end.

(** An event that gives the controller no command of the accelerator. *)
Definition plain (e : event) : Prop := match e with Accelerate _ _ _ _ => False | _ => True end.

(** The transactions added by a history. *)
Definition added (evs : list event) : list callback :=
  omap (λ e, match e with Add t => Some (trans_callback t) | _ => None end) evs.

(** A controller with an accelerator command pending next to a ready read: the
    read has been scheduled and its row activated. *)
Definition with_pim (c : Controller) : Controller :=
  set_release_time [0]
    (set_rd_in_cmds_ [mkCommand LH_READ (mkAddress 0 0 3 3 7 0) 0] c).
Definition no_double (_ : double) : string := EmptyString.
Definition no_line (_ _ _ : string) : string := EmptyString.
Definition ready_read_history : list event :=
  Add (Transaction_rw 4096 false) :: repeat Tick 15.

(** What the power accounting leaves alone. *)
Definition quiet (c c' : Controller) : Prop :=
  outstanding c' = outstanding c ∧ ctl_clk_ c' = ctl_clk_ c ∧ pim_state c' = pim_state c.

(** What [AddTransaction] leaves alone in every branch. *)
Definition same_core (c c' : Controller) : Prop :=
  channel_state_ c' = channel_state_ c ∧ cmd_queue_ c' = cmd_queue_ c ∧
  refresh_ c' = refresh_ c ∧ ctl_clk_ c' = ctl_clk_ c ∧ pim_state c' = pim_state c ∧
  simple_stats_ c' = simple_stats_ c.

(** ** Refresh *)

Lemma IterateNext_wf (config : Config) rf :
  dims_ok config → refresh_wf config rf → is_staggered (refresh_policy_ rf) = true →
  ∃ rf', IterateNext config rf = Ok rf' ∧ refresh_wf config rf'.
Proof.
  intros [Hr Hg Hb _] [Hp Hi (H1 & H2 & H3)] Hs. unfold IterateNext.
  assert (Hrem : ∀ a m, 0 < m → 0 ≤ a → irem a m = Ok (a mod m) ∧ 0 ≤ a mod m < m).
  { intros a m Hm Ha. rewrite irem_pos by lia. split; [done|]. by apply Z.mod_pos_bound. }
  destruct (Hrem (next_rank_ rf + 1) (ranks config)) as [-> ?]; [lia..|].
  destruct (Hrem (next_bg_ rf + 1) (bankgroups config)) as [-> ?]; [lia..|].
  destruct (Hrem (next_bank_ rf + 1) (banks_per_group config)) as [-> ?]; [lia..|].
  destruct (refresh_policy_ rf) eqn:E; try discriminate Hs; cbn [mbind outcome_bind].
  - eexists. split; [reflexivity|]. split; simpl; congruence || done.
  - repeat case_match; (eexists; split; [reflexivity|]); split; simpl; congruence || done.
Qed.

Lemma Refresh_tick_wf (config : Config) rf cs :
  dims_ok config → refresh_wf config rf → awake config cs →
  Forall (ref_ok config) (refresh_q_ cs) →
  ∃ rf' q, Refresh.ClockTick config rf cs = Ok (rf', set_refresh_q q cs) ∧
    refresh_wf config rf' ∧ Forall (ref_ok config) q.
Proof.
  intros Hd Hrf Ha Hq. pose proof Hrf as [Hp Hi Hn]. unfold Refresh.ClockTick.
  rewrite (proj2 (Z.eqb_neq _ _) Hi).
  assert (Hins : ∃ rf' q, InsertRefresh config rf cs = Ok (rf', set_refresh_q q cs) ∧
    refresh_wf config rf' ∧ Forall (ref_ok config) q).
  { unfold InsertRefresh. destruct Hn as (Hr & Hg & Hb).
    destruct (refresh_policy_ rf) eqn:E; [| | |done].
    - pose proof (ranks_pos _ Hd). rewrite seqZ_cons by lia. cbn [simultaneous_scan].
      rewrite (awake_rank config) by (done || lia). cbn [mbind outcome_bind negb].
      eexists _, _. split; [reflexivity|]. split; [done|]. apply Forall_app; split; [done|].
      constructor; [|done]. left. split; [done|]. unfold Rank. simpl. lia.
    - rewrite (awake_rank config) by done. cbn [mbind outcome_bind negb].
      destruct (IterateNext_wf config rf Hd Hrf) as (rf' & -> & Hrf'); [by rewrite E|].
      eexists _, _. split; [reflexivity|]. split; [done|]. apply Forall_app; split; [done|].
      constructor; [|done]. by left.
    - rewrite (awake_rank config) by done. cbn [mbind outcome_bind negb].
      destruct (IterateNext_wf config rf Hd Hrf) as (rf' & -> & Hrf'); [by rewrite E|].
      eexists _, _. split; [reflexivity|]. split; [done|]. apply Forall_app; split; [done|].
      constructor; [|done]. by right. }
  destruct (_ && _).
  - destruct Hins as (rf' & q & -> & [? ? ?] & Hq'). cbn [mbind outcome_bind].
    eexists _, _. split; [reflexivity|]. by split.
  - cbn [mbind outcome_bind]. exists (set_ref_clk rf (u64 (ref_clk_ rf + 1))), (refresh_q_ cs).
    split; [by destruct cs|]. by split.
Qed.

(** ** Choosing a command *)

#[global] Instance read_hexes_proper : Proper ((≡ₚ) ==> (≡ₚ)) read_hexes.
Proof. intros l l' H. unfold read_hexes. by rewrite H. Qed.
#[global] Instance write_hexes_proper : Proper ((≡ₚ) ==> (≡ₚ)) write_hexes.
Proof. intros l l' H. unfold write_hexes. by rewrite H. Qed.
#[global] Instance reads_of_proper : Proper ((≡ₚ) ==> (≡ₚ)) reads_of.
Proof. intros l l' H. unfold reads_of. by rewrite H. Qed.
#[global] Instance writes_of_proper : Proper ((≡ₚ) ==> (≡ₚ)) writes_of.
Proof. intros l l' H. unfold writes_of. by rewrite H. Qed.

Lemma ctl_inv_queue (config : Config) hand hand' c q s :
  ctl_inv config hand c → cq_wf config q → cq_clk_ q = ctl_clk_ c → stats_ok config s →
  hand' ++ waiting q ≡ₚ hand ++ waiting (cmd_queue_ c) →
  ctl_inv config hand' (set_simple_stats_ s (set_cmd_queue_ q c)).
Proof.
  intros Hc Hq Hclk Hs Hp.
  assert (Hr : reads_in_flight hand' (set_simple_stats_ s (set_cmd_queue_ q c))
    ≡ₚ reads_in_flight hand c) by (unfold reads_in_flight; simpl; by rewrite Hp).
  assert (Hw : writes_in_flight hand' (set_simple_stats_ s (set_cmd_queue_ q c))
    ≡ₚ writes_in_flight hand c) by (unfold writes_in_flight; simpl; by rewrite Hp).
  destruct Hc. split; try done.
  - by rewrite Hr.
  - intros a. rewrite Hr. auto.
  - by rewrite Hw.
Qed.

Lemma ctl_inv_stats (config : Config) hand c s :
  ctl_inv config hand c → stats_ok config s → ctl_inv config hand (set_simple_stats_ s c).
Proof. intros [] Hs. by split. Qed.

(** The queues only touch plain counters of the statistics. *)
Lemma first_ready_stats (config : Config) cs clk before queue s cmd s' :
  first_ready config cs clk before queue s = Ok (cmd, s') → keeps_shape s s'.
Proof.
  revert before s. induction queue as [|it queue IH]; intros before s; cbn [first_ready].
  { by intros [= _ <-]. }
  intros (c & _ & H)%bind_Ok. destruct (negb (IsValid c)); [by eapply IH|].
  destruct (type_eqb (cmd_type c) PRECHARGE).
  - apply bind_Ok in H as ([ok s1] & Ha & H).
    assert (keeps_shape s s1) as E1.
    { unfold ArbitratePrecharge in Ha. destruct (existsb _ before); [by injection Ha as _ <-|].
      apply bind_Ok in Ha as (? & _ & Ha). apply bind_Ok in Ha as (? & _ & Ha).
      destruct (_ || _); injection Ha as _ <-; [apply keeps_Increment|done]. }
    destruct ok; cbn [negb] in H; [by injection H as _ <-|]. etrans; [exact E1|by eapply IH].
  - destruct (IsWrite c); [|by injection H as _ <-].
    destruct (HasRWDependency before it); [by eapply IH|by injection H as _ <-].
Qed.

Lemma issue_scan_stats (config : Config) cs n q s cmd q' s' :
  issue_scan config cs n q s = Ok (cmd, q', s') → keeps_shape s s'.
Proof.
  revert q s. induction n as [|n IH]; intros q s; cbn [issue_scan]; [by intros [= _ _ <-]|].
  intros (queue & _ & H)%bind_Ok. destruct (_ && _); [by eapply IH|].
  apply bind_Ok in H as ([c s1] & Hf & H). apply first_ready_stats in Hf.
  destruct (IsValid c); [by apply bind_Ok in H as (q1 & _ & [= _ _ <-])|].
  etrans; [exact Hf|by eapply IH].
Qed.

Lemma awake_not_sref (config : Config) cs c bs :
  chan_wf config cs → awake config cs → bank_states_ cs !! c = Some bs → state_ bs ≠ SREF.
Proof.
  intros Hw Ha Hb. destruct c as [[r g] b].
  assert (Hv : valid_coord config (r, g, b)) by (apply (wf_coords _ _ Hw); by eexists).
  rewrite (wf_sref_banks _ _ Hw _ _ _ _ false Hb); [done|].
  rewrite Ha. apply lookup_replicate. split; [done|]. destruct Hv as (? & _). lia.
Qed.

(** What an awake channel answers to bank requests. *)
Lemma awake_answer_type (config : Config) cs cmd clk ready :
  chan_wf config cs → awake config cs → IsRankCMD cmd = false →
  GetReadyCommand config cs cmd clk = Ok ready → IsValid ready = true →
  is_rank_cmd_type (cmd_type ready) = false ∧ (IsReadWrite cmd = false → IsReadWrite ready = false).
Proof.
  intros Hw Ha Hrk H Hv.
  destruct (bank_request_inv _ _ _ _ _ Hrk H Hv) as (bs & Hb & _ & Hq & _).
  pose proof (awake_not_sref _ _ _ _ Hw Ha Hb) as Hns. rewrite IsRankCMD_type in Hrk.
  unfold required_type in Hq. destruct ready as [t a h], cmd as [t' a' h'].
  unfold IsReadWrite, IsRead, IsWrite. simpl in *.
  destruct (state_ bs), t'; try discriminate Hrk; try done;
    try (destruct (_ =? _) in Hq); try discriminate Hq; injection Hq as <-; done.
Qed.

Lemma FinishRefresh_spec (config : Config) cs q :
  dims_ok config → chan_wf config cs → awake config cs → cq_wf config q →
  Forall (ref_ok config) (refresh_q_ cs) → IsRefreshWaiting cs = true →
  ∃ cmd q', FinishRefresh config cs q = Ok (cmd, q') ∧ cq_wf config q' ∧
    queues_ q' = queues_ q ∧ cq_clk_ q' = cq_clk_ q ∧ IsReadWrite cmd = false ∧
    (IsValid cmd = true → accepted config cs cmd ∧
       cmd_type cmd ≠ SREF_ENTER ∧ cmd_type cmd ≠ SREF_EXIT).
Proof.
  intros Hd Hcs Ha Hq Hrefs Hwait. unfold FinishRefresh, PendingRefCommand.
  unfold IsRefreshWaiting in Hwait. destruct (refresh_q_ cs) as [|ref l]; [by split_bool|].
  apply Forall_cons_1 in Hrefs as [Href _]. cbn [head from_option_or mbind outcome_bind].
  assert (∃ q1, (if negb (is_in_ref_ q) then
      q ← GetRefQIndices config q ref; Ok (set_ref (ref_q_indices_ q) true q) else Ok q) = Ok q1 ∧
    cq_wf config q1 ∧ queues_ q1 = queues_ q ∧ cq_clk_ q1 = cq_clk_ q) as (q1 & -> & Hq1 & Hqq & Hck).
  { destruct (is_in_ref_ q); cbn [negb]; [by exists q|].
    destruct (GetRefQIndices_spec config q ref Hd Hq) as (s & -> & _). cbn [mbind outcome_bind].
    eexists. split; [reflexivity|]. by destruct Hq; split; [split|]. }
  cbn [mbind outcome_bind].
  assert (Hr : 0 ≤ Rank ref < ranks config) by (destruct Href as [[_ ?]|[_ (? & _)]]; done).
  destruct (requests_total config cs ref (cq_clk_ q1)) as [cmd Hcmd]; try done.
  { destruct ref as [t a h]. destruct Href as [[Ht ?]|[Ht ?]]; simpl in Ht; subst t; by split. }
  { right. split; [by apply (awake_rank config)|]. destruct Href as [[-> _]|[-> _]]; set_solver. }
  rewrite Hcmd. cbn [mbind outcome_bind]. eexists _, _. split; [reflexivity|].
  split; [by destruct Hq1; destruct (IsRefresh cmd)|].
  split; [by destruct (IsRefresh cmd)|]. split; [by destruct (IsRefresh cmd)|].
  destruct (IsValid cmd) eqn:Hv; [|by destruct cmd as [[] a h]].
  pose proof (GetReadyCommand_accepted _ _ _ _ _ Hd Hcs Hcmd Hv) as Hacc.
  destruct Href as [[Ht _]|[Ht _]].
  - assert (Hrk : IsRankCMD ref = true) by (by rewrite IsRankCMD_type, Ht).
    destruct (rank_request_type _ _ _ _ _ Hd Hrk Hcmd Hv) as [E|[E _]];
      rewrite ?Ht in E; destruct cmd as [t a h]; simpl in E; subst t; done.
  - assert (Hrk : IsRankCMD ref = false) by (by rewrite IsRankCMD_type, Ht).
    destruct (awake_answer_type _ _ _ _ _ Hcs Ha Hrk Hcmd Hv) as [Hnr Hrw].
    split; [apply Hrw; by destruct ref as [[] ? ?]|]. intros _. split; [done|].
    by split; intros E; rewrite E in Hnr.
Qed.

(** A command from the queues: the request itself, or what prepares for it. *)
Lemma GetCommandToIssue_spec (config : Config) hand c :
  dims_ok config → ctl_inv config hand c →
  ∃ cmd q s, GetCommandToIssue config (channel_state_ c) (cmd_queue_ c) (simple_stats_ c)
      = Ok (cmd, q, s) ∧
    ctl_inv config (hand_of cmd ++ hand) (set_simple_stats_ s (set_cmd_queue_ q c)) ∧
    (IsValid cmd = true → accepted config (channel_state_ c) cmd ∧
       cmd_type cmd ≠ SREF_ENTER ∧ cmd_type cmd ≠ SREF_EXIT ∧
       (IsReadWrite cmd = true → GetReadyCommand config (channel_state_ c) cmd (ctl_clk_ c) = Ok cmd)).
Proof.
  intros Hd Hc. pose proof (ci_queue _ _ _ Hc) as Hq. pose proof (ci_chan _ _ _ Hc) as Hcs.
  unfold GetCommandToIssue.
  destruct (issue_scan_spec config (channel_state_ c) (Z.to_nat (num_queues_ (cmd_queue_ c)))
    (cmd_queue_ c) (simple_stats_ c) Hd Hcs Hq) as (cmd & q & s & H & Hq' & Hset & Hsv).
  exists cmd, q, s. split; [done|].
  assert (Hs : stats_ok config s).
  { by eapply issue_scan_stats; [|apply Hc]. }
  assert (Hclk : cq_clk_ q = ctl_clk_ c).
  { rewrite Hset. simpl. apply Hc. }
  destruct (IsValid cmd) eqn:Hv.
  - destruct Hsv as (k & _ & (_ & _ & queue & mid & it & after & Hlk & Hqueue & Hiss & Hqs) & _).
    assert (Hit : it ∈ queue) by (rewrite Hqueue; set_solver).
    destruct (cw_cmds _ _ Hq _ _ _ Hlk Hit) as [Hok _]. destruct Hiss as (Hrd & _).
    rewrite (ci_clk _ _ _ Hc) in Hrd. split.
    + apply (ctl_inv_queue config hand); try done. unfold hand_of.
      destruct (IsReadWrite cmd); [|by unfold waiting; rewrite Hqs].
      destruct Hqs as (queue' & Hp & Hqs). simpl.
      rewrite (waiting_erase _ _ _ _ _ Hlk Hp). unfold waiting. rewrite Hqs.
      by rewrite Permutation_middle.
    + intros _. pose proof (GetReadyCommand_accepted _ _ _ _ _ Hd Hcs Hrd Hv) as Hacc.
      pose proof (request_not_rank _ _ Hok) as Hrk.
      destruct (awake_answer_type _ _ _ _ _ Hcs (ci_awake _ _ _ Hc) Hrk Hrd Hv) as [Hnr _].
      split; [done|]. split; [intros E; by rewrite E in Hnr|].
      split; [intros E; by rewrite E in Hnr|]. intros Hrw.
      by rewrite (ready_rw_is_request _ _ _ _ _ Hok Hrd Hrw) in Hrd |- *.
  - destruct Hsv as [Hqs _]. split; [|done].
    apply (ctl_inv_queue config hand); try done. unfold hand_of.
    assert (IsReadWrite cmd = false) as -> by (by destruct cmd as [[] ? ?]).
    unfold waiting. by rewrite Hqs.
Qed.

Lemma choose_command_spec (config : Config) hand c :
  dims_ok config → ctl_inv config hand c →
  ∃ cmd c', choose_command config c = Ok (cmd, c') ∧ queue_stats_only c c' ∧
    ctl_inv config (hand_of cmd ++ hand) c' ∧
    (IsValid cmd = true → accepted config (channel_state_ c') cmd ∧
       cmd_type cmd ≠ SREF_ENTER ∧ cmd_type cmd ≠ SREF_EXIT).
Proof.
  intros Hd Hc. unfold choose_command.
  assert (∃ cmd0 c1, (if IsRefreshWaiting (channel_state_ c) then
       '(cmd, q) ← FinishRefresh config (channel_state_ c) (cmd_queue_ c);
       Ok (cmd, set_cmd_queue_ q c)
     else Ok (Command_default, c)) = Ok (cmd0, c1) ∧ queue_stats_only c c1 ∧
    ctl_inv config hand c1 ∧ hand_of cmd0 = [] ∧
    (IsValid cmd0 = true → accepted config (channel_state_ c1) cmd0 ∧
       cmd_type cmd0 ≠ SREF_ENTER ∧ cmd_type cmd0 ≠ SREF_EXIT))
    as (cmd0 & c1 & -> & Hqs & Hc1 & Hh & Hacc).
  { destruct (IsRefreshWaiting (channel_state_ c)) eqn:Hw.
    - destruct (FinishRefresh_spec config (channel_state_ c) (cmd_queue_ c))
        as (cmd & q & -> & Hq & Hqs & Hck & Hrw & Hacc); [by destruct Hc..|].
      eexists _, _. split; [reflexivity|]. split; [by destruct c|]. split.
      + apply (ctl_inv_queue config hand hand c q (simple_stats_ c)); try (by destruct Hc).
        * rewrite Hck. apply Hc.
        * unfold waiting. by rewrite Hqs.
      + split; [unfold hand_of; by rewrite Hrw|]. exact Hacc.
    - exists Command_default, c. split; [done|]. split; [by destruct c|]. done. }
  cbn [mbind outcome_bind]. destruct (IsValid cmd0) eqn:Hv; cbn [negb].
  - exists cmd0, c1. rewrite Hh, Hv. by split_and!; auto.
  - destruct (GetCommandToIssue_spec config hand c1 Hd Hc1) as (cmd & q & s & -> & Hc2 & Hac2).
    cbn [mbind outcome_bind]. eexists _, _. split; [reflexivity|].
    split; [unfold queue_stats_only in *; rewrite Hqs; done|]. split; [done|].
    intros Hv2. destruct (Hac2 Hv2) as (? & ? & ? & _). done.
Qed.

(** ** Multimaps *)

Lemma mm_count_cons a k t m :
  mm_count a ((k, t) :: m) = (if k =? a then 1 else 0) + mm_count a m.
Proof.
  unfold mm_count, vsize. rewrite filter_cons. simpl.
  destruct (Z.eqb_spec k a); case_decide; simpl; lia || done.
Qed.

Lemma mm_count_nonneg a m : 0 ≤ mm_count a m.
Proof. unfold mm_count, vsize. lia. Qed.

Lemma mm_count_zero a m : mm_count a m = 0 ↔ a ∉ m.*1.
Proof.
  induction m as [|[k t] m IH]; csimpl.
  { split; [intros _; apply not_elem_of_nil|done]. }
  rewrite mm_count_cons, not_elem_of_cons. pose proof (mm_count_nonneg a m).
  destruct (Z.eqb_spec k a); [split; [lia|naive_solver]|]. rewrite Z.add_0_l, IH. naive_solver.
Qed.

Lemma mm_take_spec a m :
  a ∈ m.*1 → ∃ t m', mm_take a m = Some (t, m') ∧ m ≡ₚ (a, t) :: m' ∧
    mm_count a m' = mm_count a m - 1.
Proof.
  induction m as [|[k t] m IH]; csimpl; [by intros ?%elem_of_nil|]. rewrite elem_of_cons.
  rewrite mm_count_cons. destruct (Z.eqb_spec k a) as [->|Hne].
  - intros _. exists t, m. split; [done|]. split; [done|lia].
  - intros [->|Hin]; [done|]. destruct (IH Hin) as (t' & m' & -> & Hp & Hc). simpl.
    exists t', ((k, t) :: m'). split; [done|]. split; [rewrite Hp; constructor|].
    rewrite mm_count_cons. destruct (Z.eqb_spec k a); [done|lia].
Qed.

Lemma complete_reads_spec (config : Config) n a c :
  Z.to_nat (mm_count a (pending_rd_q_ c)) = n →
  ∃ m ts, complete_reads config n a c
      = Ok (set_pending_rd_q_ m (set_return_queue_ (return_queue_ c ++ ts) c)) ∧
    (∀ b, b ∈ m.*1 ↔ b ∈ (pending_rd_q_ c).*1 ∧ b ≠ a) ∧
    trans_callback <$> (m.*2 ++ return_queue_ c ++ ts) ≡ₚ outstanding c.
Proof.
  revert c. induction n as [|n IH]; intros c Hn; cbn [complete_reads];
    pose proof (mm_count_nonneg a (pending_rd_q_ c)) as Hpos.
  - exists (pending_rd_q_ c), []. rewrite app_nil_r. split; [by destruct c|]. split; [|done].
    assert (Ha : a ∉ (pending_rd_q_ c).*1) by (apply mm_count_zero; lia).
    intros b. split; [|by intros [? _]]. intros Hb. split; [done|]. by intros ->.
  - destruct (mm_take_spec a (pending_rd_q_ c)) as (t & m1 & -> & Hp & Hc).
    { destruct (decide (a ∈ (pending_rd_q_ c).*1)) as [|Hni]; [done|].
      apply mm_count_zero in Hni. lia. }
    cbn [from_option_or mbind outcome_bind].
    set (t' := set_complete _ t). set (c1 := set_pending_rd_q_ m1 _).
    destruct (IH c1) as (m & ts & -> & Hm & Hout).
    { unfold c1. simpl. lia. }
    exists m, (t' :: ts). split; [f_equal; unfold c1; simpl; by rewrite <- (assoc (++))|]. split.
    + intros b. rewrite Hm. simpl. rewrite Hp. csimpl. rewrite elem_of_cons. naive_solver.
    + change (t' :: ts) with ([t'] ++ ts). rewrite (assoc (++) (return_queue_ c)).
      simpl in Hout. rewrite Hout. unfold outstanding, c1. simpl. rewrite Hp. csimpl.
      rewrite !fmap_app. csimpl. rewrite (assoc (++)), Permutation_app_comm. done.
Qed.

(** ** Issuing a command *)

Lemma UpdateCommandStats_spec (config : Config) cmd c :
  accepted config (channel_state_ c) cmd → cmd_type cmd ≠ SIZE →
  ∃ s, UpdateCommandStats cmd c = Ok (set_simple_stats_ s c) ∧
    keeps_shape (simple_stats_ c) s.
Proof.
  intros Hacc Hsz.
  assert (Hacs : ∀ n h, IsRankCMD cmd = false → ∃ s, count_access cmd n h c
    = Ok (set_simple_stats_ s c) ∧ keeps_shape (simple_stats_ c) s).
  { intros n h Hrk. destruct (Hacc (cmd_coord cmd)) as (bs & _ & Hb & _).
    { unfold target_cells. rewrite Hrk. set_solver. }
    unfold count_access. simpl. destruct (bank_lookup_total _ _ _ Hb) as [_ ->].
    cbn [mbind outcome_bind]. case_match; (eexists; split; [reflexivity|]); [|apply keeps_Increment].
    etrans; apply keeps_Increment. }
  rewrite IsRankCMD_type in Hacs. unfold UpdateCommandStats.
  destruct (cmd_type cmd); try done; try (by apply Hacs);
    (eexists; split; [reflexivity|apply keeps_Increment]).
Qed.

Lemma elem_of_erase_first {A} (p : A → bool) l x : x ∈ erase_first p l → x ∈ l.
Proof.
  induction l as [|y l IH]; simpl; [done|]. destruct (p y); [by right|].
  rewrite !elem_of_cons. naive_solver.
Qed.

(** The channel part of the invariant after a command. *)
Lemma channel_after_issue (config : Config) timing cs cmd clk :
  dims_ok config → chan_wf config cs → awake config cs →
  Forall (ref_ok config) (refresh_q_ cs) → accepted config cs cmd →
  cmd_type cmd ≠ SREF_ENTER → cmd_type cmd ≠ SREF_EXIT →
  ∃ cs', UpdateTimingAndStates config timing cs cmd clk = Ok cs' ∧ chan_wf config cs' ∧
    awake config cs' ∧ Forall (ref_ok config) (refresh_q_ cs').
Proof.
  intros Hd Hw Ha Hrefs Hacc H1 H2.
  destruct (UpdateTimingAndStates_total config timing cs cmd clk Hd Hw Hacc) as [cs' H].
  exists cs'. split; [done|]. split; [by eapply chan_wf_step|].
  destruct (UpdateTimingAndStates_spec _ _ _ _ _ _ Hd Hw H) as (_ & _ & _ & ->).
  unfold awake. simpl. split.
  - unfold flags_after. by destruct (cmd_type cmd).
  - unfold refresh_q_after. rewrite Forall_forall in Hrefs.
    destruct (cmd_type cmd); apply Forall_forall; intros x Hx; apply Hrefs;
      try done; by eapply elem_of_erase_first.
Qed.

Lemma hand_read cmd : IsRead cmd = true → hand_of cmd = [cmd] ∧ IsWrite cmd = false.
Proof. by destruct cmd as [[] a h]. Qed.
Lemma hand_write cmd : IsRead cmd = false → IsWrite cmd = true → hand_of cmd = [cmd].
Proof. by destruct cmd as [[] a h]. Qed.
Lemma hand_other cmd : IsRead cmd = false → IsWrite cmd = false → hand_of cmd = [].
Proof. by destruct cmd as [[] a h]. Qed.

Lemma in_flight_hand cmd hand c :
  (IsRead cmd = true → reads_in_flight (cmd :: hand) c
     ≡ₚ cmd_hex_addr cmd :: reads_in_flight hand c) ∧
  (IsRead cmd = false → reads_in_flight (cmd :: hand) c = reads_in_flight hand c) ∧
  (IsWrite cmd = true → writes_in_flight (cmd :: hand) c
     ≡ₚ cmd_hex_addr cmd :: writes_in_flight hand c) ∧
  (IsWrite cmd = false → writes_in_flight (cmd :: hand) c = writes_in_flight hand c).
Proof.
  unfold reads_in_flight, writes_in_flight, read_hexes, write_hexes. simpl.
  rewrite !filter_cons. split_and!; intros H; rewrite ?decide_True, ?decide_False by congruence;
    csimpl; try done; by rewrite Permutation_middle.
Qed.

(** The effect of the bookkeeping at the start of [IssueCommand]. *)
Lemma issue_pending (config : Config) hand cmd c :
  ctl_inv config (hand_of cmd ++ hand) c →
  ∃ c', complete_access config cmd c = Ok c' ∧
    ctl_inv config hand c' ∧ outstanding c' ≡ₚ outstanding c ∧
    channel_state_ c' = channel_state_ c ∧ cmd_queue_ c' = cmd_queue_ c ∧
    ctl_clk_ c' = ctl_clk_ c ∧ pim_state c' = pim_state c.
Proof.
  intros Hc. unfold complete_access. destruct (in_flight_hand cmd hand c) as (HR & HR' & HW & HW').
  destruct (IsRead cmd) eqn:Hrd.
  - destruct (hand_read _ Hrd) as [Hh Hnw]. rewrite Hh in Hc. simpl in Hc.
    specialize (HR eq_refl). specialize (HW' Hnw).
    assert (Hin : cmd_hex_addr cmd ∈ (pending_rd_q_ c).*1).
    { apply (ci_reads _ _ _ Hc). rewrite HR. by left. }
    assert (Hne : mm_count (cmd_hex_addr cmd) (pending_rd_q_ c) ≠ 0)
      by (rewrite mm_count_zero; auto).
    cbv zeta. rewrite (proj2 (Z.eqb_neq _ _) Hne), andb_false_r.
    destruct (complete_reads_spec config _ (cmd_hex_addr cmd) c eq_refl) as (m & ts & -> & Hm & Ho).
    eexists. split; [reflexivity|]. split; [|by split_and!].
    destruct Hc as [? ? ? ? ? ? ? ? Hrn Hreads Hwrites Hwn].
    rewrite HR in Hrn. apply NoDup_cons in Hrn as [Hni Hnd].
    split; try done.
    + intros a. simpl. rewrite Hm, <- Hreads, HR, elem_of_cons.
      change (reads_in_flight hand (set_pending_rd_q_ _ _)) with (reads_in_flight hand c).
      split; [|naive_solver]. intros Ha. split; [by right|]. by intros ->.
    + simpl. by rewrite <- Hwrites, HW'.
  - specialize (HR' eq_refl). destruct (IsWrite cmd) eqn:Hwr.
    + rewrite (hand_write _ Hrd Hwr) in Hc. simpl in Hc. specialize (HW eq_refl).
      destruct (mm_take_spec (cmd_hex_addr cmd) (pending_wr_q_ c)) as (t & m & -> & Hp & _).
      { rewrite <- (ci_writes _ _ _ Hc), HW. by left. }
      cbn [from_option_or mbind outcome_bind]. cbv zeta. eexists. split; [reflexivity|].
      split; [|by split_and!]. destruct Hc as [? ? ? ? ? ? ? ? Hrn Hreads Hwrites Hwn].
      split; try done.
      * by apply keeps_latencies.
      * by rewrite HR' in Hrn.
      * intros a. simpl. rewrite <- Hreads. by rewrite HR'.
      * simpl. change (writes_in_flight hand (set_pending_wr_q_ _ _)) with (writes_in_flight hand c).
        rewrite HW, Hp in Hwrites. csimpl in Hwrites. by apply Permutation_cons_inv in Hwrites.
      * simpl. rewrite Hp in Hwn. csimpl in Hwn.
        by apply NoDup_cons in Hwn as [_ ?].
    + rewrite (hand_other _ Hrd Hwr) in Hc. exists c. by split_and!.
Qed.

Lemma ctl_inv_trace (config : Config) hand cmd c :
  ctl_inv config hand c → ctl_inv config hand (trace_command cmd c).
Proof. intros []. by split. Qed.

Lemma IssueCommand_spec (config : Config) timing hand cmd c :
  dims_ok config → ctl_inv config (hand_of cmd ++ hand) c →
  accepted config (channel_state_ c) cmd →
  cmd_type cmd ≠ SREF_ENTER → cmd_type cmd ≠ SREF_EXIT →
  ∃ c', IssueCommand config timing cmd c = Ok c' ∧ ctl_inv config hand c' ∧
    outstanding c' ≡ₚ outstanding c ∧ ctl_clk_ c' = ctl_clk_ c ∧ pim_state c' = pim_state c ∧
    UpdateTimingAndStates config timing (channel_state_ c) cmd (ctl_clk_ c)
      = Ok (channel_state_ c').
Proof.
  intros Hd Hc Hacc H1 H2. unfold IssueCommand.
  apply (ctl_inv_trace _ _ cmd) in Hc. cbv zeta.
  destruct (issue_pending config hand cmd (trace_command cmd c) Hc) as (c1 & -> & Hc1 & Ho & Hcs & Hq & Hclk & Hpim).
  cbn [mbind outcome_bind]. change (channel_state_ (trace_command cmd c)) with (channel_state_ c) in *.
  change (ctl_clk_ (trace_command cmd c)) with (ctl_clk_ c) in *.
  assert (Hsz : cmd_type cmd ≠ SIZE).
  { apply (accepted_in_range config (channel_state_ c)); try done. apply Hc. }
  rewrite <- Hcs in Hacc.
  destruct (UpdateCommandStats_spec config cmd c1 Hacc Hsz) as (s & -> & Hs).
  cbn [mbind outcome_bind]. simpl.
  destruct (channel_after_issue config timing (channel_state_ c1) cmd (ctl_clk_ c1) Hd)
    as (cs' & Hu & Hw & Ha & Hr); [by destruct Hc1..|done|done|done|].
  rewrite Hu. cbn [mbind outcome_bind]. eexists. split; [reflexivity|].
  split; [|split; [done|split; [done|split; [done|by rewrite <- Hcs, <- Hclk]]]].
  assert (Hst : stats_ok config s) by (apply Hs, Hc1).
  destruct Hc1. by split.
Qed.

(** ** Two commands in one cycle *)

Lemma access_delay_exists (config : Config) cmd c2 c :
  access_delays_ok config → IsReadWrite cmd = true → IsReadWrite c2 = true →
  valid_coord config c → valid_coord config (cmd_coord cmd) →
  c ≠ cmd_coord cmd ∨ is_closing (cmd_type cmd) = false →
  ∃ d, (cmd_type c2, d) ∈ delays (Timing_of config) cmd c ∧ 0 < d < 2 ^ 32.
Proof.
  unfold access_delays_ok, delays, Timing_of, Timing_row.
  generalize (Delays_of config) as d. intros d [Hpos Ho] H1 H2 Hv Hv' Hc.
  repeat (apply Forall_cons in Hpos as [? Hpos]). clear Hpos.
  destruct c as [[r g] b], cmd as [t a h], c2 as [t2 a2 h2].
  unfold cmd_coord, Rank, Bankgroup, Bank in *. cbn [cmd_type cmd_addr] in *.
  destruct Hv as [Hr _], Hv' as [Hr' _].
  destruct (Z.eqb_spec r (rank a)) as [->|];
    [clear Ho|specialize (Ho ltac:(lia)); repeat (apply Forall_cons in Ho as [? Ho]);
              clear Ho; try clear Hc];
    (destruct (Z.eqb_spec g (bankgroup a)) as [->|]; [|try clear Hc]);
    (destruct (Z.eqb_spec b (bank a)) as [->|]; [|try clear Hc]);
    destruct t; try discriminate H1; destruct t2; try discriminate H2;
    cbn [negb rw_rows row_same_bank row_other_banks_same_bankgroup is_closing same_bank
      row_other_bankgroups_same_rank row_other_ranks other_banks_same_bankgroup
      other_bankgroups_same_rank other_ranks] in *.
  all: try (destruct Hc as [Hc|Hc]; [by destruct Hc|discriminate Hc]).
  all: eexists; (split; [rewrite !elem_of_cons; auto 10|done]).
Qed.

(** A ready access finds its row open. *)
Lemma ready_access_open bs cmd :
  IsReadWrite cmd = true → required_type bs cmd = Ok (cmd_type cmd) → state_ bs = OPEN.
Proof.
  intros Hrw. unfold required_type. destruct cmd as [t a h].
  destruct (state_ bs), t; try discriminate Hrw; simpl; try done; by intros [=].
Qed.

Lemma no_second_access (config : Config) cs cmd clk cs' c2 :
  dims_ok config → access_delays_ok config → chan_wf config cs →
  0 ≤ clk < 2 ^ 63 → IsReadWrite cmd = true →
  UpdateTimingAndStates config (Timing_of config) cs cmd clk = Ok cs' →
  IsReadWrite c2 = true → GetReadyCommand config cs' c2 clk = Ok c2 → False.
Proof.
  intros Hd Hpos Hw Hclk Hrw Hu Hrw2 Hrd.
  assert (Hrk : IsRankCMD c2 = false ∧ IsValid c2 = true) by (by destruct c2 as [[] ? ?]).
  destruct Hrk as [Hrk Hv].
  destruct (bank_request_inv _ _ _ _ _ Hrk Hrd Hv) as (bs' & Hb' & _ & Hq & Ht & _).
  apply ready_access_open in Hq; [|done].
  destruct (UpdateTimingAndStates_spec _ _ _ _ _ _ Hd Hw Hu) as (Hacc & _ & Hb & _).
  rewrite Hb in Hb'. apply fmap_Some in Hb' as (bs & Hbs & ->). unfold bank_after in *.
  rewrite update_timings_state in Hq. set (bs1 := if bool_decide _ then _ else _) in *.
  assert (Hcase : cmd_coord c2 ≠ cmd_coord cmd ∨ is_closing (cmd_type cmd) = false).
  { destruct (is_closing (cmd_type cmd)) eqn:Hcl; [left|by right]. intros E.
    assert (Hin : cmd_coord c2 ∈ target_cells config cmd).
    { unfold target_cells. assert (IsRankCMD cmd = false) as -> by (by destruct cmd as [[] ? ?]).
      rewrite E. set_solver. }
    unfold bs1 in Hq. rewrite bool_decide_eq_true_2 in Hq by done.
    pose proof (accepted_state_after _ _ _ _ _ Hacc Hin Hbs) as Hs.
    unfold BankState.UpdateState in Hs. destruct (state_ bs); try discriminate Hs;
      destruct (cmd_type cmd); try discriminate Hcl; try discriminate Hs;
      injection Hs as Hs; by rewrite <- Hs in Hq. }
  assert (Hv2 : valid_coord config (cmd_coord c2)) by (apply (wf_coords _ _ Hw); by eexists).
  assert (Hv1 : valid_coord config (cmd_coord cmd)).
  { destruct (accepted_in_range config cs cmd Hd (wf_coords _ _ Hw) Hacc) as [_ Hin].
    by destruct cmd as [[] ? ?]. }
  destruct (access_delay_exists config cmd c2 _ Hpos Hrw Hrw2 Hv2 Hv1 Hcase)
    as (d & Hdel & Hdpos).
  assert (Hlen : length (cmd_timing_ bs1) = 17%nat).
  { destruct (wf_banks _ _ Hw _ _ Hbs) as [_ Hlen]. unfold bs1. case_bool_decide as Hin; [|done].
    by rewrite (state_after_timing _ _ _ _ _ Hacc Hin Hbs). }
  rewrite cmd_timing_update_timings in Ht by (done || apply Timing_of_wf).
  pose proof (foldr_max_elem _ (cmd_timing bs1 (cmd_type c2)) _
    (elem_of_bounds_of _ clk _ _ Hdel)) as Hmax.
  rewrite u64_id in Hmax by lia. lia.
Qed.

Lemma issue_chosen_spec (config : Config) hand cmd c :
  supported config → ctl_inv config (hand_of cmd ++ hand) c → 0 ≤ ctl_clk_ c < 2 ^ 63 →
  (IsValid cmd = true → accepted config (channel_state_ c) cmd ∧
     cmd_type cmd ≠ SREF_ENTER ∧ cmd_type cmd ≠ SREF_EXIT) →
  ∃ c' b, issue_chosen config (Timing_of config) cmd c = Ok (c', b) ∧ ctl_inv config hand c' ∧
    outstanding c' ≡ₚ outstanding c ∧ ctl_clk_ c' = ctl_clk_ c ∧ pim_state c' = pim_state c.
Proof.
  intros [Hd _ _ _ Hdual] Hc Hclk Hv. unfold issue_chosen. destruct (IsValid cmd) eqn:Hval.
  2:{ exists c, false. split; [done|]. split; [|done].
      assert (hand_of cmd = []) as E by (by destruct cmd as [[] ? ?]). by rewrite E in Hc. }
  destruct (Hv eq_refl) as (Hacc & H1 & H2).
  destruct (IssueCommand_spec config (Timing_of config) hand cmd c Hd Hc Hacc H1 H2)
    as (c1 & -> & Hc1 & Ho & Hck & Hpim & Hu). cbn [mbind outcome_bind].
  destruct (enable_hbm_dual_cmd config); [|by exists c1, true].
  destruct (GetCommandToIssue_spec config hand c1 Hd Hc1) as (cmd2 & q & s & -> & Hc2 & Hv2).
  cbn [mbind outcome_bind]. set (c2 := set_simple_stats_ s (set_cmd_queue_ q c1)) in *.
  assert (Ho2 : outstanding c2 ≡ₚ outstanding c) by exact Ho.
  destruct (IsValid cmd2) eqn:Hval2; cbn [andb].
  2:{ exists c2, true. split; [done|]. split; [|done].
      assert (hand_of cmd2 = []) as E by (by destruct cmd2 as [[] ? ?]). by rewrite E in Hc2. }
  destruct (Hv2 eq_refl) as (Hacc2 & H3 & H4 & Hself).
  destruct (eqb (IsReadWrite cmd2) (IsReadWrite cmd)) eqn:Heq; cbn [negb].
  - apply eqb_prop in Heq. exists c2, true. split; [done|]. split; [|done].
    assert (hand_of cmd2 = []) as E; [|by rewrite E in Hc2].
    unfold hand_of. destruct (IsReadWrite cmd2) eqn:Hrw2; [|done]. exfalso.
    rewrite Hck in Hself.
    eapply (no_second_access config _ cmd _ _ cmd2 Hd (Hdual eq_refl)); [|exact Hclk|done|exact Hu|done|auto].
    apply Hc.
  - destruct (IssueCommand_spec config (Timing_of config) hand cmd2 c2 Hd Hc2 Hacc2 H3 H4)
      as (c3 & -> & Hc3 & Ho3 & Hck3 & Hpim3 & _). cbn [mbind outcome_bind].
    eexists _, true. split; [reflexivity|]. split; [|split; [|split]].
    + apply ctl_inv_stats; [done|]. apply keeps_Increment, Hc3.
    + change (outstanding (increment "hbm_dual_cmds" c3)) with (outstanding c3).
      by rewrite Ho3, Ho2.
    + simpl. by rewrite Hck3.
    + change (pim_state (increment "hbm_dual_cmds" c3)) with (pim_state c3). by rewrite Hpim3.
Qed.

(** ** Power accounting *)

Lemma increment_vec_spec (config : Config) hand c name i :
  ctl_inv config hand c → name ∈ vec_names → 0 ≤ i < ranks config →
  ∃ s, increment_vec name i c = Ok (set_simple_stats_ s c) ∧ stats_ok config s.
Proof.
  intros Hc Hn Hi. unfold increment_vec.
  destruct (stats_ok_IncrementVec config name i (simple_stats_ c) Hn Hi (ci_stats _ _ _ Hc))
    as (s & -> & Hs). by exists s.
Qed.

Lemma all_idle_scan_total (config : Config) cs r l :
  chan_wf config cs → 0 ≤ r < ranks config → (∀ jk, jk ∈ l → jk ∈ rank_coords config) →
  ∃ b, all_idle_scan cs r l = Ok b.
Proof.
  intros Hw Hr. induction l as [|[j k] l IH]; intros Hl; cbn [all_idle_scan]; [by eexists|].
  destruct (proj1 (elem_of_rank_coords config j k) (Hl _ (list_elem_of_here _ _))) as [Hj Hk].
  destruct (proj2 (wf_coords _ _ Hw (r, j, k))) as [bs Hb]; [done|].
  unfold IsRowOpen at 1, bank_at. rewrite Hb. cbn [from_option_or mbind outcome_bind].
  destruct (BankState.IsRowOpen bs); [by eexists|]. apply IH. intros; apply Hl. by right.
Qed.

Lemma ctl_inv_idle (config : Config) hand c v :
  ctl_inv config hand c → length v = length (rank_idle_cycles (channel_state_ c)) →
  ctl_inv config hand (set_channel_state_ (set_rank_idle_cycles v (channel_state_ c)) c).
Proof.
  intros Hc Hv. pose proof (chan_wf_idle _ _ _ (ci_chan _ _ _ Hc) Hv). destruct Hc. by split.
Qed.

Lemma rank_power_spec (config : Config) hand i c :
  ctl_inv config hand c → 0 ≤ i < ranks config →
  ∃ c', rank_power config i c = Ok c' ∧ ctl_inv config hand c' ∧ quiet c c'.
Proof.
  intros Hc Hi. unfold rank_power.
  rewrite (awake_rank config) by (done || apply Hc). cbn [mbind outcome_bind].
  destruct (all_idle_scan_total config (channel_state_ c) i (rank_coords config)) as [b Hb];
    [apply Hc|done|done|].
  unfold IsAllBankIdleInRank. rewrite Hb. cbn [mbind outcome_bind].
  assert (Hlen : ∀ c', channel_state_ c' = channel_state_ c →
    0 ≤ i < vsize (rank_idle_cycles (channel_state_ c'))).
  { intros c' ->. unfold vsize. rewrite (wf_idle _ _ (ci_chan _ _ _ Hc)). lia. }
  destruct b.
  - destruct (increment_vec_spec config hand c "all_bank_idle_cycles" i Hc) as (s & -> & Hs);
      [set_solver|done|]. cbn [mbind outcome_bind].
    destruct (vget_in_range _ _ (Hlen (set_simple_stats_ s c) eq_refl)) as [n ->].
    cbn [mbind outcome_bind]. rewrite (vset_in_range _ _ _ (Hlen (set_simple_stats_ s c) eq_refl)).
    cbn [mbind outcome_bind]. eexists. split; [reflexivity|]. split; [|done].
    apply ctl_inv_idle; [by apply ctl_inv_stats|]. by rewrite length_insert.
  - destruct (increment_vec_spec config hand c "rank_active_cycles" i Hc) as (s & -> & Hs);
      [set_solver|done|]. cbn [mbind outcome_bind].
    rewrite (vset_in_range _ _ _ (Hlen (set_simple_stats_ s c) eq_refl)).
    cbn [mbind outcome_bind]. eexists. split; [reflexivity|]. split; [|done].
    apply ctl_inv_idle; [by apply ctl_inv_stats|]. by rewrite length_insert.
Qed.

Lemma power_loop_spec (config : Config) hand c :
  ctl_inv config hand c →
  ∃ c', for_range (ranks config) (rank_power config) c = Ok c' ∧ ctl_inv config hand c' ∧ quiet c c'.
Proof.
  intros Hc. unfold for_range.
  destruct (for_each_total (λ c', ctl_inv config hand c' ∧ quiet c c') (rank_power config)
    (seqZ 0 (ranks config)) c) as (c' & H & Hc' & Hq); [|by split|by exists c'].
  intros i c1 Hi [H1 (Hq1 & Hq2 & Hq3)]. apply elem_of_range in Hi.
  destruct (rank_power_spec config hand i c1 H1 Hi) as (c2 & H2 & Hc2 & (Hq4 & Hq5 & Hq6)).
  exists c2. split; [done|]. split; [done|]. split_and!; congruence.
Qed.

(** ** Scheduling a transaction *)

Lemma perm_rotate {A} (x y z : list A) : x ++ y ++ z ≡ₚ z ++ x ++ y.
Proof. rewrite (assoc (++)). apply Permutation_app_comm. Qed.
Lemma perm_swap_middle {A} (x y z : list A) : x ++ y ++ z ≡ₚ y ++ x ++ z.
Proof. rewrite !(assoc (++)). by rewrite (Permutation_app_comm x y). Qed.

Lemma in_flight_split hand c :
  reads_in_flight hand c ≡ₚ read_hexes hand ++ reads_in_flight [] c ∧
  writes_in_flight hand c ≡ₚ write_hexes hand ++ writes_in_flight [] c.
Proof.
  unfold reads_in_flight, writes_in_flight, read_hexes, write_hexes. cbn [app].
  rewrite !filter_app, !fmap_app. split; apply perm_swap_middle.
Qed.

Lemma TransToCommand_ok (config : Config) c t :
  mappable config t →
  let cmd := TransToCommand config c t in
  request_ok config cmd ∧ cmd_hex_addr cmd = trans_addr t ∧
  IsWrite cmd = is_write t ∧ IsRead cmd = negb (is_write t).
Proof.
  intros Hm. unfold TransToCommand, request_ok.
  destruct (row_buf_policy_ c), (is_write t); cbv zeta;
    (split; [split; [reflexivity|split; [exact Hm|reflexivity]]|split_and!; reflexivity]).
Qed.

Lemma ctl_inv_drain (config : Config) hand c v :
  ctl_inv config hand c → ctl_inv config hand (set_write_draining_ v c).
Proof. intros []. by split. Qed.

(** Moving a transaction from a queue to the command queue. *)
Lemma in_flight_move config c t cmd q' rest whole :
  cmd = TransToCommand config c t → mappable config t →
  whole ≡ₚ t :: rest → waiting q' ≡ₚ cmd :: waiting (cmd_queue_ c) →
  reads_of rest ++ read_hexes (waiting q')
    ≡ₚ reads_of whole ++ read_hexes (waiting (cmd_queue_ c)) ∧
  writes_of rest ++ write_hexes (waiting q')
    ≡ₚ writes_of whole ++ write_hexes (waiting (cmd_queue_ c)).
Proof.
  intros -> Hm Hp Hq. destruct (TransToCommand_ok config c t Hm) as (_ & Hhex & Hw & Hr).
  rewrite Hp, Hq. unfold reads_of, writes_of, read_hexes, write_hexes.
  rewrite !filter_cons. rewrite Hw, Hr. destruct (is_write t); cbn [negb];
    rewrite ?decide_True, ?decide_False by done; csimpl; rewrite ?Hhex; split; try done;
    by rewrite Permutation_middle.
Qed.

(** The scan either leaves the transactions as they are or moves one of them
    to the command queue. *)
Lemma schedule_scan_spec (config : Config) kept todo c :
  dims_ok config → cq_wf config (cmd_queue_ c) → Forall (mappable config) todo →
  ∃ l q v, schedule_scan config kept todo c
      = Ok (l, set_cmd_queue_ q (set_write_draining_ v c)) ∧ cq_wf config q ∧
    cq_clk_ q = cq_clk_ (cmd_queue_ c) ∧
    ((l = kept ++ todo ∧ q = cmd_queue_ c) ∨
     ∃ t, t ∈ todo ∧ kept ++ todo ≡ₚ t :: l ∧
       waiting q ≡ₚ TransToCommand config c t :: waiting (cmd_queue_ c)).
Proof.
  intros Hd Hq Hm. revert kept. induction Hm as [|it todo Hit Hm IH]; intros kept;
    cbn [schedule_scan].
  { exists kept, (cmd_queue_ c), (write_draining_ c). rewrite app_nil_r.
    split; [by destruct c|]. split_and!; auto. }
  destruct (TransToCommand_ok config c it Hit) as (Hok & Hhex & Hw & Hr).
  set (cmd := TransToCommand config c it) in *.
  destruct (AddCommand_spec config (cmd_queue_ c) cmd Hd Hq Hok)
    as (q & b & Hadd & Hq' & Hwill & Hb).
  rewrite Hwill. cbn [mbind outcome_bind]. destruct b.
  - destruct (_ && _ && _).
    { eexists _, (cmd_queue_ c), 0. split; [by destruct c|]. split_and!; auto. }
    set (c1 := if _ && _ then _ else c).
    assert (Hc1 : ∃ v, c1 = set_write_draining_ v c)
      by (unfold c1; case_match; [by eexists|exists (write_draining_ c); by destruct c]).
    destruct Hc1 as [v Hc1]. rewrite Hc1. cbn [cmd_queue_ set_write_draining_].
    rewrite Hadd. cbn [mbind outcome_bind]. exists (kept ++ todo), q, v.
    split; [done|]. split; [done|]. split.
    + unfold AddCommand in Hadd. apply bind_Ok in Hadd as (l & _ & Hadd).
      destruct (_ <? _); [|discriminate Hadd]. by invert_ok.
    + right. exists it. split; [by left|]. split; [by rewrite Permutation_middle|]. apply Hb.
  - destruct (IH (kept ++ [it])) as (l & q1 & v & -> & Hq1 & Hck & Hcase).
    exists l, q1, v. split; [done|]. split; [done|]. split; [done|].
    destruct Hcase as [[-> ->]|(t & Ht & Hp & Hw')].
    + left. by rewrite <- (assoc (++)).
    + right. exists t. rewrite <- (assoc (++)) in Hp. split; [by right|]. by split.
Qed.

Lemma queued_perm (config : Config) hand c c' :
  ctl_inv config hand c → cq_wf config (cmd_queue_ c') → cq_clk_ (cmd_queue_ c') = ctl_clk_ c' →
  channel_state_ c' = channel_state_ c → refresh_ c' = refresh_ c →
  simple_stats_ c' = simple_stats_ c →
  pending_rd_q_ c' = pending_rd_q_ c → pending_wr_q_ c' = pending_wr_q_ c →
  Forall (mappable config) (queued c') →
  reads_in_flight hand c' ≡ₚ reads_in_flight hand c →
  writes_in_flight hand c' ≡ₚ writes_in_flight hand c → ctl_inv config hand c'.
Proof.
  intros [] Hq Hclk Hcs Hrf Hst Hrd Hwr Hm HR HW.
  split; rewrite ?Hcs, ?Hrf, ?Hst, ?Hrd, ?Hwr; try done.
  - by rewrite HR.
  - intros a. rewrite HR. auto.
  - by rewrite HW.
Qed.

(** Replacing one of the transaction queues by what the scan left of it. *)
Lemma schedule_done (config : Config) hand c c' l whole q v :
  ctl_inv config hand c → cq_wf config q → cq_clk_ q = cq_clk_ (cmd_queue_ c) →
  Forall (mappable config) whole →
  (∃ others, queued c ≡ₚ whole ++ others ∧ queued c' ≡ₚ l ++ others) →
  c' = set_unified_queue_ (unified_queue_ c') (set_read_queue_ (read_queue_ c')
         (set_write_buffer_ (write_buffer_ c') (set_cmd_queue_ q (set_write_draining_ v c)))) →
  ((l = whole ∧ q = cmd_queue_ c) ∨
   ∃ t, t ∈ whole ∧ whole ≡ₚ t :: l ∧
     waiting q ≡ₚ TransToCommand config c t :: waiting (cmd_queue_ c)) →
  ctl_inv config hand c' ∧ quiet c c'.
Proof.
  intros Hc Hq Hclk Hm (others & Hp & Hp') Hc' Hcase.
  split; [|rewrite Hc'; by split].
  apply (queued_perm config hand c); try done; try (by rewrite Hc').
  - rewrite Hc'. simpl. rewrite Hclk. apply Hc.
  - assert (Hall : Forall (mappable config) (whole ++ others)) by (rewrite <- Hp; apply Hc).
    rewrite Hp'. apply Forall_app in Hall as [H1 H2]. apply Forall_app. split; [|done].
    destruct Hcase as [[-> _]|(t & _ & Hw & _)]; [done|]. rewrite Hw in H1.
    by apply Forall_cons_1 in H1 as [_ ?].
  - rewrite (proj1 (in_flight_split hand c)), (proj1 (in_flight_split hand c')). apply Permutation_app; [done|].
    unfold reads_in_flight. rewrite Hp, Hp'. rewrite Hc'. simpl.
    unfold reads_of. rewrite !filter_app, !fmap_app. fold (reads_of whole). fold (reads_of l).
    destruct Hcase as [[-> ->]|(t & Ht & Hw & Hwq)]; [done|].
    assert (Hmt : mappable config t) by (rewrite Forall_forall in Hm; auto).
    destruct (in_flight_move config c t _ q l whole eq_refl Hmt Hw Hwq) as [HR _].
    rewrite <- !(assoc (++)), !(Permutation_app_comm (trans_addr <$> _)), !(assoc (++)).
    by rewrite HR.
  - rewrite (proj2 (in_flight_split hand c)), (proj2 (in_flight_split hand c')). apply Permutation_app; [done|].
    unfold writes_in_flight. rewrite Hp, Hp'. rewrite Hc'. simpl.
    unfold writes_of. rewrite !filter_app, !fmap_app. fold (writes_of whole). fold (writes_of l).
    destruct Hcase as [[-> ->]|(t & Ht & Hw & Hwq)]; [done|].
    assert (Hmt : mappable config t) by (rewrite Forall_forall in Hm; auto).
    destruct (in_flight_move config c t _ q l whole eq_refl Hmt Hw Hwq) as [_ HW].
    rewrite <- !(assoc (++)), !(Permutation_app_comm (trans_addr <$> _)), !(assoc (++)).
    by rewrite HW.
Qed.

Lemma ScheduleTransaction_spec (config : Config) hand c :
  dims_ok config → ctl_inv config hand c →
  ∃ c', ScheduleTransaction config c = Ok c' ∧ ctl_inv config hand c' ∧ quiet c c'.
Proof.
  intros Hd Hc. unfold ScheduleTransaction. set (c1 := if _ && _ then _ else c).
  assert (∃ v, c1 = set_write_draining_ v c) as [v Hv].
  { unfold c1. repeat case_match; [by eexists|exists (write_draining_ c); by destruct c..]. }
  assert (Hc1 : ctl_inv config hand c1) by (rewrite Hv; by apply ctl_inv_drain).
  assert (Hq1 : quiet c c1) by (by rewrite Hv). clearbody c1. clear Hv v.
  assert (Hm : Forall (mappable config) (unified_queue_ c1) ∧
    Forall (mappable config) (read_queue_ c1) ∧ Forall (mappable config) (write_buffer_ c1)).
  { pose proof (ci_trans _ _ _ Hc1) as Hm. unfold queued in Hm. by rewrite !Forall_app in Hm. }
  destruct Hm as (Hmu & Hmr & Hmw).
  assert (Hfin : ∀ c', ctl_inv config hand c' ∧ quiet c1 c' → ctl_inv config hand c' ∧ quiet c c').
  { intros c' [? (E1 & E2 & E3)]. destruct Hq1 as (E4 & E5 & E6). split; [done|]. split_and!; congruence. }
  destruct (is_unified_queue_ c1); [|destruct (0 <? write_draining_ c1)].
  - destruct (schedule_scan_spec config [] _ c1 Hd (ci_queue _ _ _ Hc1) Hmu)
      as (l & q & v & -> & Hq & Hck & Hcase). cbn [mbind outcome_bind].
    eexists. split; [reflexivity|]. apply Hfin.
    eapply (schedule_done config hand c1 _ l (unified_queue_ c1) q v); try done.
    exists (read_queue_ c1 ++ write_buffer_ c1). done.
  - destruct (schedule_scan_spec config [] _ c1 Hd (ci_queue _ _ _ Hc1) Hmw)
      as (l & q & v & -> & Hq & Hck & Hcase). cbn [mbind outcome_bind].
    eexists. split; [reflexivity|]. apply Hfin.
    eapply (schedule_done config hand c1 _ l (write_buffer_ c1) q v); try done.
    exists (unified_queue_ c1 ++ read_queue_ c1). unfold queued. simpl.
    split; apply perm_rotate.
  - destruct (schedule_scan_spec config [] _ c1 Hd (ci_queue _ _ _ Hc1) Hmr)
      as (l & q & v & -> & Hq & Hck & Hcase). cbn [mbind outcome_bind].
    eexists. split; [reflexivity|]. apply Hfin.
    eapply (schedule_done config hand c1 _ l (read_queue_ c1) q v); try done.
    exists (unified_queue_ c1 ++ write_buffer_ c1). unfold queued. simpl.
    split; apply perm_swap_middle.
Qed.

(** ** The accelerator's commands *)

(** A bank command that is its own answer, or the answer to a request for the
    same location. *)
Lemma answer_is_command (config : Config) cs t it clk ready :
  is_rank_cmd_type t = false →
  GetReadyCommand config cs (mkCommand t (cmd_addr it) (cmd_hex_addr it)) clk = Ok ready →
  IsValid ready = true → cmd_type ready = cmd_type it → ready = it.
Proof.
  intros Hrk H Hv Ht.
  assert (Hb : IsRankCMD (mkCommand t (cmd_addr it) (cmd_hex_addr it)) = false) by (by rewrite IsRankCMD_type).
  destruct (bank_request_inv _ _ _ _ _ Hb H Hv) as (_ & _ & Ha & _).
  pose proof (bank_request_hex _ _ _ _ _ Hb H Hv) as Hh. destruct ready, it. cbn in *. congruence.
Qed.

Lemma answer_of_command (config : Config) cs it clk ready :
  IsRankCMD it = false → GetReadyCommand config cs it clk = Ok ready →
  IsValid ready = true → cmd_type ready = cmd_type it → ready = it.
Proof.
  intros Hrk H Hv Ht. apply (answer_is_command config cs (cmd_type it) it clk); try done.
  - by rewrite <- IsRankCMD_type.
  - by destruct it.
Qed.

(** Such a command is not an access of the processor. *)
Lemma pim_cmd_type (config : Config) it : pim_cmd_ok config it →
  hand_of it = [] ∧ cmd_type it ≠ SREF_ENTER ∧ cmd_type it ≠ SREF_EXIT ∧
  type_eqb (cmd_type it) PRECHARGE = false ∧ (cmd_type it ≠ PIM_ACTIVATE → is_access (cmd_type it) = true).
Proof.
  intros [Ht _]. destruct it as [t a h]. cbn in Ht |- *.
  repeat (apply elem_of_cons in Ht as [->|Ht]; [by split_and!|]). by apply not_elem_of_nil in Ht.
Qed.

(** The channel answers when it is asked for an access instead of [it], and
    [it] can be executed if it is the answer. *)
Lemma pim_request_spec (config : Config) hand c t it :
  dims_ok config → ctl_inv config hand c → pim_cmd_ok config it → is_access t = true →
  ∃ ready, GetReadyCommand config (channel_state_ c) (mkCommand t (cmd_addr it) (cmd_hex_addr it)) (ctl_clk_ c)
      = Ok ready ∧
    (IsValid ready && type_eqb (cmd_type ready) (cmd_type it) = true → accepted config (channel_state_ c) it).
Proof.
  intros Hd Hc [_ Hv] Ht. assert (Hrk : is_rank_cmd_type t = false ∧ t ≠ SIZE) by (by destruct t).
  destruct Hrk as [Hrk Hsz]. pose proof (ci_chan _ _ _ Hc) as Hw.
  destruct (requests_total config (channel_state_ c) (mkCommand t (cmd_addr it) (cmd_hex_addr it)) (ctl_clk_ c))
    as [ready H]; [done|done| |by left|].
  { split; [done|]. cbn [cmd_type]. by rewrite Hrk. }
  exists ready. split; [done|]. intros [Hval Het%type_eqb_true]%andb_true_iff.
  rewrite <- (answer_is_command config _ t it _ ready Hrk H Hval Het).
  by eapply GetReadyCommand_accepted.
Qed.

Lemma pim_ready_spec (config : Config) hand c t it :
  dims_ok config → ctl_inv config hand c → pim_cmd_ok config it → is_access t = true →
  ∃ ready,
    (if type_eqb (cmd_type it) PIM_ACTIVATE
     then GetReadyCommand config (channel_state_ c) (mkCommand t (cmd_addr it) (cmd_hex_addr it)) (ctl_clk_ c)
     else GetReadyCommand config (channel_state_ c) it (ctl_clk_ c)) = Ok ready ∧
    (IsValid ready && type_eqb (cmd_type ready) (cmd_type it) = true → accepted config (channel_state_ c) it).
Proof.
  intros Hd Hc Hit Ht. destruct (type_eqb (cmd_type it) PIM_ACTIVATE) eqn:E; [by eapply pim_request_spec|].
  destruct (pim_cmd_type config it Hit) as (_ & _ & _ & _ & Hacc).
  destruct (pim_request_spec config hand c (cmd_type it) it Hd Hc Hit) as (ready & H & Ha).
  - apply Hacc. intros Eq. rewrite Eq in E. discriminate E.
  - exists ready. by destruct it.
Qed.

(** What the loops over the accelerator's commands do: they complete no
    transaction. *)
Definition issued (config : Config) (hand : list Command) (c c' : Controller) : Prop :=
  ctl_inv config hand c' ∧ outstanding c' ≡ₚ outstanding c ∧ ctl_clk_ c' = ctl_clk_ c.

Lemma issued_trans (config : Config) hand c c1 c' :
  issued config hand c c1 → issued config hand c1 c' → issued config hand c c'.
Proof. intros (_ & E1 & E2) (H & E3 & E4). split; [done|]. by rewrite E3, E1, E4, E2. Qed.

Lemma ctl_inv_lists (config : Config) hand c w i o rt :
  ctl_inv config hand c →
  ctl_inv config hand (set_rd_w_cmds_ w (set_rd_in_cmds_ i (set_wr_cmds_ o (set_release_time rt c)))).
Proof. intros []. by split. Qed.

Lemma pim_issue_spec (config : Config) timing hand it c :
  dims_ok config → ctl_inv config hand c → pim_cmd_ok config it → accepted config (channel_state_ c) it →
  ∃ c', IssueCommand config timing it c = Ok c' ∧ issued config hand c c' ∧ pim_state c' = pim_state c.
Proof.
  intros Hd Hc Hit Hacc. destruct (pim_cmd_type config it Hit) as (Hh & H1 & H2 & _).
  destruct (IssueCommand_spec config timing hand it c Hd) as (c' & H & Hc' & Ho & Hk & Hp & _); try done.
  - by rewrite Hh.
  - by exists c'.
Qed.

Lemma issue_pim_spec (config : Config) timing hand it c :
  dims_ok config → ctl_inv config hand c → pim_cmd_ok config it → accepted config (channel_state_ c) it →
  ∃ c', issue_pim config timing it c = Ok c' ∧ issued config hand c c' ∧ pim_state c' = pim_state c.
Proof.
  intros Hd Hc Hit Hacc. unfold issue_pim. destruct (_ && _); [by exists c|by apply pim_issue_spec].
Qed.

Section Loops.
Context (config : Config) (timing : Timing) (hand : list Command) (Hd : dims_ok config).

Lemma rd_w_loop_spec kept todo c :
  ctl_inv config hand c → Forall (pim_cmd_ok config) kept → Forall (pim_cmd_ok config) todo →
  ∃ c' w, rd_w_loop config timing kept todo c = Ok c' ∧ issued config hand c c' ∧
    Forall (pim_cmd_ok config) w ∧ pim_state c' = (w, rd_in_cmds_ c, wr_cmds_ c, release_time c).
Proof.
  intros Hc Hk Ht. revert kept c Hc Hk. induction Ht as [|it todo Hit Ht IH]; intros kept c Hc Hk; cbn [rd_w_loop].
  { exists (set_rd_w_cmds_ kept c), kept. split; [done|]. split; [|done]. destruct Hc. by split; [split|]. }
  destruct (pim_cmd_type config it Hit) as (_ & _ & _ & -> & _).
  destruct (pim_ready_spec config hand c GH_READ it Hd Hc Hit eq_refl) as (ready & -> & Hacc).
  cbn [mbind outcome_bind]. destruct (_ && _).
  - destruct (issue_pim_spec config timing hand it c Hd Hc Hit (Hacc eq_refl)) as (c1 & -> & H1 & Hp).
    cbn [mbind outcome_bind]. destruct (IH kept c1) as (c' & w & -> & H2 & Hw & Hp'); [apply H1|done|].
    exists c', w. split; [done|]. split; [by eapply issued_trans|]. split; [done|].
    rewrite Hp'. unfold pim_state in Hp. congruence.
  - apply IH; [done|]. by apply Forall_app; split; [|apply Forall_singleton].
Qed.

Lemma rd_in_loop_spec kept todo c :
  ctl_inv config hand c → Forall (pim_cmd_ok config) kept → Forall (pim_cmd_ok config) todo →
  length (release_time c) = (length kept + length todo)%nat →
  ∃ c' i rt, rd_in_loop config timing (length kept) kept todo c = Ok c' ∧ issued config hand c c' ∧
    Forall (pim_cmd_ok config) i ∧ length rt = length i ∧ pim_state c' = (rd_w_cmds_ c, i, wr_cmds_ c, rt).
Proof.
  intros Hc Hk Ht. revert kept c Hc Hk. induction Ht as [|it todo Hit Ht IH]; intros kept c Hc Hk Hl; cbn [rd_in_loop].
  { exists (set_rd_in_cmds_ kept c), kept, (release_time c). split; [done|]. cbn [length] in Hl.
    split; [destruct Hc; by split; [split|]|]. split_and!; [done|lia|done]. }
  cbv zeta. set (t := if _ || _ then LH_READ else GH_READ).
  destruct (pim_ready_spec config hand c t it Hd Hc Hit ltac:(unfold t; by destruct (_ || _))) as (ready & -> & Hacc).
  cbn [mbind outcome_bind length] in *.
  assert (Hkeep : ∃ c' i rt, rd_in_loop config timing (S (length kept)) (kept ++ [it]) todo c = Ok c' ∧
    issued config hand c c' ∧ Forall (pim_cmd_ok config) i ∧ length rt = length i ∧
    pim_state c' = (rd_w_cmds_ c, i, wr_cmds_ c, rt)).
  { replace (S (length kept)) with (length (kept ++ [it])) by (rewrite length_app; cbn; lia).
    apply IH; [done| |rewrite length_app; cbn; lia]. by apply Forall_app; split; [|apply Forall_singleton]. }
  destruct (_ && _); [|done].
  destruct (vget_in_range (release_time c) (Z.of_nat (length kept))) as [rt ->]; [unfold vsize; lia|].
  cbn [mbind outcome_bind]. destruct (_ <=? _); [|done].
  destruct (issue_pim_spec config timing hand it c Hd Hc Hit (Hacc eq_refl)) as (c1 & -> & H1 & Hp).
  cbn [mbind outcome_bind]. unfold pim_state in Hp. injection Hp as Hp1 Hp2 Hp3 Hp4.
  destruct (IH kept (set_release_time (erase_at (length kept) (release_time c1)) c1)) as (c' & i & rt' & -> & H2 & Hi & Hrt & Hp').
  - destruct H1 as [[] _]. by split.
  - done.
  - cbn [release_time set_release_time]. rewrite length_erase_at by (rewrite Hp4; lia). rewrite Hp4. lia.
  - exists c', i, rt'. split; [done|]. split; [|split; [done|split; [done|rewrite Hp'; cbn; congruence]]].
    eapply (issued_trans _ _ _ c1); [done|]. by destruct H2 as (? & ? & ?).
Qed.

Lemma wr_loop_spec kept todo c :
  ctl_inv config hand c → Forall (pim_cmd_ok config) kept → Forall (pim_cmd_ok config) todo →
  ∃ c' o, wr_loop config timing kept todo c = Ok c' ∧ issued config hand c c' ∧
    Forall (pim_cmd_ok config) o ∧ pim_state c' = (rd_w_cmds_ c, rd_in_cmds_ c, o, release_time c).
Proof.
  intros Hc Hk Ht. revert kept c Hc Hk. induction Ht as [|it todo Hit Ht IH]; intros kept c Hc Hk; cbn [wr_loop].
  { exists (set_wr_cmds_ kept c), kept. split; [done|]. split; [|done]. destruct Hc. by split; [split|]. }
  destruct (pim_ready_spec config hand c PIM_WRITE it Hd Hc Hit eq_refl) as (ready & -> & Hacc).
  cbn [mbind outcome_bind]. destruct (_ && _).
  2:{ apply IH; [done|]. by apply Forall_app; split; [|apply Forall_singleton]. }
  destruct (negb _); [|by apply IH].
  destruct (pim_issue_spec config timing hand it c Hd Hc Hit (Hacc eq_refl)) as (c1 & -> & H1 & Hp).
  cbn [mbind outcome_bind]. unfold pim_state in Hp. injection Hp as Hp1 Hp2 Hp3 Hp4. destruct (wr_multitenant c1).
  - exists (set_wr_cmds_ (kept ++ todo) c1), (kept ++ todo). split; [done|]. split.
    + eapply issued_trans; [done|]. destruct H1 as [[] _]. by split; [split|].
    + split; [by apply Forall_app|]. unfold pim_state. cbn. congruence.
  - destruct (IH kept c1) as (c' & o & -> & H2 & Hw & Hp'); [apply H1|done|].
    exists c', o. split; [done|]. split; [by eapply issued_trans|]. split; [done|]. rewrite Hp'. congruence.
Qed.
End Loops.

(** ** A clock cycle *)

Lemma no_pim_state c c' : pim_state c' = pim_state c → no_pim_cmds c' = no_pim_cmds c.
Proof. unfold pim_state, no_pim_cmds. intros [= -> -> -> _]. done. Qed.

Lemma pim_ok_state (config : Config) c c' : pim_state c' = pim_state c → pim_ok config c → pim_ok config c'.
Proof. unfold pim_state. intros [= E1 E2 E3 E4] []. split; congruence. Qed.

(** The chosen command is issued, or discarded while commands of the accelerator
    are pending; an access that is discarded stays in the hand. *)
Lemma issue_phase_spec (config : Config) hand cmd c :
  supported config → ctl_inv config (hand_of cmd ++ hand) c → pim_ok config c → 0 ≤ ctl_clk_ c < 2 ^ 63 →
  (IsValid cmd = true → accepted config (channel_state_ c) cmd ∧
     cmd_type cmd ≠ SREF_ENTER ∧ cmd_type cmd ≠ SREF_EXIT) →
  ∃ c' b lost, issue_phase config (Timing_of config) cmd c = Ok (c', b) ∧
    issued config (lost ++ hand) c c' ∧ pim_ok config c' ∧
    (no_pim_cmds c = true → lost = [] ∧ no_pim_cmds c' = true).
Proof.
  intros Hs Hc Hp Hclk Hv. pose proof (su_dims _ Hs) as Hd. unfold issue_phase.
  destruct (IsRefresh cmd || no_pim_cmds c) eqn:E.
  - destruct (issue_chosen_spec config hand cmd c Hs Hc Hclk Hv) as (c' & b & -> & Hc' & Ho & Hk & Hps).
    exists c', b, []. split; [done|]. split; [done|]. split; [by eapply pim_ok_state|].
    intros Hn. split; [done|]. by rewrite (no_pim_state c c').
  - apply orb_false_iff in E as [_ E]. destruct Hp as [Hw Hi Ho Hr].
    destruct (rd_w_loop_spec config (Timing_of config) (hand_of cmd ++ hand) Hd [] (rd_w_cmds_ c) c Hc)
      as (c1 & w & -> & H1 & Hw1 & Hp1); [done|done|].
    cbn [mbind outcome_bind]. unfold pim_state in Hp1. injection Hp1 as E1 E2 E3 E4.
    destruct (rd_in_loop_spec config (Timing_of config) (hand_of cmd ++ hand) Hd [] (rd_in_cmds_ c1) c1 (proj1 H1))
      as (c2 & i & rt & H2r & H2 & Hi2 & Hrt & Hp2); [done|by rewrite E2|cbn; congruence|].
    cbn [length] in H2r. rewrite H2r. cbn [mbind outcome_bind]. unfold pim_state in Hp2. injection Hp2 as F1 F2 F3 F4.
    destruct (wr_loop_spec config (Timing_of config) (hand_of cmd ++ hand) Hd [] (wr_cmds_ c2) c2 (proj1 H2))
      as (c3 & o & -> & H3 & Ho3 & Hp3); [done|rewrite F3; congruence|].
    cbn [mbind outcome_bind]. unfold pim_state in Hp3. injection Hp3 as G1 G2 G3 G4.
    exists c3, true, (hand_of cmd). split; [done|]. split; [by do 2 (eapply issued_trans; [done|])|].
    split; [split; congruence|]. congruence.
Qed.

Lemma ClockTick_spec (config : Config) hand c :
  supported config → ctl_inv config hand c → pim_ok config c → 0 ≤ ctl_clk_ c < 2 ^ 63 →
  ∃ c' lost, ClockTick config (Timing_of config) c = Ok c' ∧ ctl_inv config (lost ++ hand) c' ∧
    pim_ok config c' ∧ (no_pim_cmds c = true → lost = [] ∧ no_pim_cmds c' = true) ∧
    outstanding c' ≡ₚ outstanding c ∧ ctl_clk_ c' = ctl_clk_ c + 1.
Proof.
  intros Hs Hc Hp Hclk. pose proof (su_dims _ Hs) as Hd. unfold ClockTick.
  destruct (Refresh_tick_wf config (refresh_ c) (channel_state_ c) Hd)
    as (rf & q & -> & Hrf & Hq); [by destruct Hc..|]. cbn [mbind outcome_bind].
  set (c1 := set_channel_state_ _ _).
  assert (Hc1 : ctl_inv config hand c1).
  { pose proof (chan_wf_refresh_q _ _ q (ci_chan _ _ _ Hc)). destruct Hc. by split. }
  destruct (choose_command_spec config hand c1 Hd Hc1) as (cmd & c2 & -> & Hqs & Hc2 & Hacc).
  cbn [mbind outcome_bind].
  assert (Ho2 : outstanding c2 = outstanding c ∧ ctl_clk_ c2 = ctl_clk_ c ∧ pim_state c2 = pim_state c)
    by (rewrite Hqs; by split_and!). destruct Ho2 as (Ho2 & Hk2 & Hp2).
  destruct (issue_phase_spec config hand cmd c2 Hs Hc2) as (c3 & b & lost & -> & (Hc3 & Ho3 & Hk3) & Hp3 & Hn);
    [by eapply pim_ok_state|by rewrite Hk2|done|]. cbn [mbind outcome_bind].
  destruct (power_loop_spec config _ c3 Hc3) as (c4 & -> & Hc4 & (Ho4 & Hk4 & Hp4)).
  cbn [mbind outcome_bind]. rewrite (su_sref _ Hs). cbn [andb mbind outcome_bind].
  destruct (ScheduleTransaction_spec config _ c4 Hd Hc4) as (c5 & -> & Hc5 & (Ho5 & Hk5 & Hp5)).
  cbn [mbind outcome_bind]. eexists _, lost. split; [reflexivity|].
  assert (Hout : outstanding c5 ≡ₚ outstanding c) by (by rewrite Ho5, Ho4, Ho3, Ho2).
  assert (Hk : ctl_clk_ c5 = ctl_clk_ c) by congruence.
  assert (Hps : pim_state c5 = pim_state c3) by congruence.
  split; [|split; [|split; [|split; [exact Hout|simpl; rewrite Hk; apply u64_id; lia]]]].
  - apply ctl_inv_stats; [|apply keeps_Increment, Hc5].
    destruct Hc5 as [? ? Hwq ? ? ? Hck ? ? ? ? ?]. split; try done.
    + simpl. destruct Hwq. by split.
    + simpl. by rewrite Hck.
  - by apply (pim_ok_state config c3).
  - intros Hnc. rewrite (no_pim_state c c2 Hp2) in Hn. destruct (Hn Hnc) as [-> Hn3]. split; [done|].
    rewrite <- Hn3. by apply no_pim_state.
Qed.

(** ** Accepting a transaction *)

Lemma mm_count_snoc a b t m :
  mm_count a (m ++ [(b, t)]) = mm_count a m + (if b =? a then 1 else 0).
Proof.
  induction m as [|[k u] m IH]; simpl; [by rewrite mm_count_cons, Z.add_comm|].
  rewrite !mm_count_cons, IH. lia.
Qed.

(** Queueing a new transaction, which queue it is put into notwithstanding. *)
Lemma queued_push hand c c' t :
  cmd_queue_ c' = cmd_queue_ c → queued c' ≡ₚ t :: queued c →
  reads_in_flight hand c' ≡ₚ (if is_write t then [] else [trans_addr t]) ++ reads_in_flight hand c ∧
  writes_in_flight hand c' ≡ₚ (if is_write t then [trans_addr t] else []) ++ writes_in_flight hand c.
Proof.
  intros Hq Hp. unfold reads_in_flight, writes_in_flight. rewrite Hp, Hq.
  unfold reads_of, writes_of. rewrite !filter_cons.
  destruct (is_write t); rewrite ?decide_True, ?decide_False by done; csimpl; done.
Qed.

Lemma mappable_added (config : Config) t clk : mappable config t → mappable config (set_added clk t).
Proof. done. Qed.

Lemma ctl_inv_add (config : Config) hand c c' :
  ctl_inv config hand c → same_core c c' → Forall (mappable config) (queued c') →
  NoDup (reads_in_flight hand c') →
  (∀ a, a ∈ reads_in_flight hand c' ↔ a ∈ (pending_rd_q_ c').*1) →
  writes_in_flight hand c' ≡ₚ (pending_wr_q_ c').*1 →
  NoDup (pending_wr_q_ c').*1 → ctl_inv config hand c'.
Proof.
  intros [] (Hcs & Hq & Hrf & Hk & Hp & Hst) Hm Hn Hr Hw Hwn.
  by split; rewrite ?Hcs, ?Hq, ?Hrf, ?Hk, ?Hp, ?Hst.
Qed.

(** A write to an address without a pending write. *)
Lemma ctl_inv_new_write (config : Config) hand c c' t :
  ctl_inv config hand c → mappable config t → is_write t = true → same_core c c' →
  trans_addr t ∉ (pending_wr_q_ c).*1 → queued c' ≡ₚ t :: queued c →
  pending_wr_q_ c' = pending_wr_q_ c ++ [(trans_addr t, t)] →
  pending_rd_q_ c' = pending_rd_q_ c → ctl_inv config hand c'.
Proof.
  intros Hc Hm Hw Hsame Hni Hq Hpw Hpr. pose proof Hsame as (_ & Hcq & _).
  pose proof Hc as [_ _ _ _ _ _ _ Hall Hrn Hrd Hwr Hwn].
  destruct (queued_push hand c c' t Hcq Hq) as [HR HW]. rewrite Hw in HR, HW. simpl in HR, HW.
  apply (ctl_inv_add config hand c); try done.
  - rewrite Hq. by constructor.
  - by rewrite HR.
  - intros a. by rewrite HR, Hpr.
  - rewrite HW, Hpw, fmap_app, Hwr. csimpl. by rewrite Permutation_app_comm.
  - rewrite Hpw, fmap_app. csimpl. rewrite Permutation_app_comm. by constructor.
Qed.

(** A read of an address without a pending read. *)
Lemma ctl_inv_new_read (config : Config) hand c c' t :
  ctl_inv config hand c → mappable config t → is_write t = false → same_core c c' →
  trans_addr t ∉ (pending_rd_q_ c).*1 → queued c' ≡ₚ t :: queued c →
  pending_rd_q_ c' = pending_rd_q_ c ++ [(trans_addr t, t)] →
  pending_wr_q_ c' = pending_wr_q_ c → ctl_inv config hand c'.
Proof.
  intros Hc Hm Hw Hsame Hni Hq Hpr Hpw. pose proof Hsame as (_ & Hcq & _).
  pose proof Hc as [_ _ _ _ _ _ _ Hall Hrn Hrd Hwr Hwn].
  destruct (queued_push hand c c' t Hcq Hq) as [HR HW]. rewrite Hw in HR, HW. simpl in HR, HW.
  apply (ctl_inv_add config hand c); try done.
  - rewrite Hq. by constructor.
  - rewrite HR. constructor; [|done]. by rewrite Hrd.
  - intros a. rewrite HR, Hpr, fmap_app, elem_of_cons, elem_of_app, Hrd. csimpl.
    rewrite list_elem_of_singleton. tauto.
  - by rewrite HW, Hpw.
  - by rewrite Hpw.
Qed.

(** A further read of an address that is already being read. *)
Lemma ctl_inv_more_read (config : Config) hand c c' t :
  ctl_inv config hand c → same_core c c' → trans_addr t ∈ (pending_rd_q_ c).*1 →
  queued c' = queued c → pending_rd_q_ c' = pending_rd_q_ c ++ [(trans_addr t, t)] →
  pending_wr_q_ c' = pending_wr_q_ c → ctl_inv config hand c'.
Proof.
  intros Hc Hsame Hin Hq Hpr Hpw. pose proof Hsame as (_ & Hcq & _).
  pose proof Hc as [_ _ _ _ _ _ _ Hall Hrn Hrd Hwr Hwn].
  assert (HR : reads_in_flight hand c' = reads_in_flight hand c)
    by (unfold reads_in_flight; by rewrite Hq, Hcq).
  assert (HW : writes_in_flight hand c' = writes_in_flight hand c)
    by (unfold writes_in_flight; by rewrite Hq, Hcq).
  apply (ctl_inv_add config hand c); rewrite ?HR, ?HW, ?Hpw, ?Hq; try done.
  intros a. rewrite Hrd, Hpr, fmap_app, elem_of_app. csimpl.
  rewrite list_elem_of_singleton. naive_solver.
Qed.

Lemma ctl_inv_return (config : Config) hand c v :
  ctl_inv config hand c → ctl_inv config hand (set_return_queue_ v c).
Proof. intros []. by split. Qed.

Lemma outstanding_return c d :
  outstanding (set_return_queue_ (return_queue_ c ++ [d]) c) ≡ₚ trans_callback d :: outstanding c.
Proof.
  unfold outstanding. simpl. rewrite (assoc (++)), fmap_app. simpl.
  by rewrite Permutation_app_comm.
Qed.

Lemma outstanding_pending c c' t :
  pending_rd_q_ c' = pending_rd_q_ c ++ [(trans_addr t, t)] →
  return_queue_ c' = return_queue_ c → outstanding c' ≡ₚ trans_callback t :: outstanding c.
Proof.
  intros E1 E2. unfold outstanding. rewrite E1, E2, !fmap_app. csimpl.
  rewrite <- (assoc (++)). simpl. by rewrite <- Permutation_middle.
Qed.

(** The branch for writes. *)
Lemma add_write_spec (config : Config) hand t c0 c1 :
  ctl_inv config hand c0 → mappable config t → is_write t = true →
  c1 = (if mm_count (trans_addr t) (pending_wr_q_ c0) =? 0 then
          let c := set_pending_wr_q_ (pending_wr_q_ c0 ++ [(trans_addr t, t)]) c0 in
          if is_unified_queue_ c then set_unified_queue_ (unified_queue_ c ++ [t]) c
          else set_write_buffer_ (write_buffer_ c ++ [t]) c
        else c0) →
  ctl_inv config hand c1 ∧ outstanding c1 = outstanding c0 ∧ return_queue_ c1 = return_queue_ c0 ∧
  ctl_clk_ c1 = ctl_clk_ c0 ∧ pim_state c1 = pim_state c0.
Proof.
  intros Hc Hm Hw ->. destruct (_ =? 0) eqn:Hcnt; [|done].
  apply Z.eqb_eq, mm_count_zero in Hcnt. cbv zeta.
  split; [|by destruct (is_unified_queue_ _)].
  destruct (is_unified_queue_ _); (eapply (ctl_inv_new_write config hand c0 _ t); try done);
    unfold queued; simpl.
  - rewrite <- (assoc (++)). simpl. by rewrite <- Permutation_middle.
  - rewrite !(assoc (++)). by rewrite Permutation_app_comm.
Qed.

(** The branch for reads that are not served from the write buffer. *)
Lemma add_read_spec (config : Config) hand t c0 c1 :
  ctl_inv config hand c0 → mappable config t → is_write t = false →
  c1 = (let c := set_pending_rd_q_ (pending_rd_q_ c0 ++ [(trans_addr t, t)]) c0 in
        if mm_count (trans_addr t) (pending_rd_q_ c) =? 1 then
          if is_unified_queue_ c then set_unified_queue_ (unified_queue_ c ++ [t]) c
          else set_read_queue_ (read_queue_ c ++ [t]) c
        else c) →
  ctl_inv config hand c1 ∧ outstanding c1 ≡ₚ trans_callback t :: outstanding c0 ∧
  ctl_clk_ c1 = ctl_clk_ c0 ∧ pim_state c1 = pim_state c0.
Proof.
  intros Hc Hm Hw ->. cbv zeta. cbn [pending_rd_q_ set_pending_rd_q_].
  rewrite mm_count_snoc, Z.eqb_refl. destruct (_ =? 1) eqn:Hone; split_bool.
  - assert (Hni : trans_addr t ∉ (pending_rd_q_ c0).*1) by (apply mm_count_zero; lia).
    split; [|destruct (is_unified_queue_ _); (split; [by apply outstanding_pending|done])].
    destruct (is_unified_queue_ _); (eapply (ctl_inv_new_read config hand c0 _ t); try done);
      unfold queued; simpl; rewrite <- ?(assoc (++)); simpl; by rewrite <- !Permutation_middle.
  - split; [|split; [by apply outstanding_pending|done]].
    eapply (ctl_inv_more_read config hand c0 _ t); try done.
    destruct (decide (trans_addr t ∈ (pending_rd_q_ c0).*1)) as [|Hni]; [done|].
    apply mm_count_zero in Hni. lia.
Qed.

Lemma AddTransaction_spec (config : Config) hand t c :
  ctl_inv config hand c → mappable config t →
  ctl_inv config hand (AddTransaction t c).1 ∧ (AddTransaction t c).2 = true ∧
  outstanding (AddTransaction t c).1 ≡ₚ trans_callback t :: outstanding c ∧
  ctl_clk_ (AddTransaction t c).1 = ctl_clk_ c ∧ pim_state (AddTransaction t c).1 = pim_state c.
Proof.
  intros Hc Hm. unfold AddTransaction. set (t' := set_added (ctl_clk_ c) t).
  set (c0 := set_last_trans_clk_ _ (add_value _ _ c)). cbv zeta.
  assert (Hc0 : ctl_inv config hand c0).
  { assert (Hst : stats_ok config (simple_stats_ c0))
      by (apply keeps_latencies, Hc). destruct Hc. by split. }
  change (trans_callback t) with (trans_callback t'). change (outstanding c) with (outstanding c0).
  change (ctl_clk_ c) with (ctl_clk_ c0). change (pim_state c) with (pim_state c0). clearbody c0.
  destruct (is_write t') eqn:Hw; cbn [fst snd].
  - match goal with |- context [set_return_queue_ (return_queue_ ?x ++ _) ?x] => set (c1 := x) end.
    destruct (add_write_spec config hand t' c0 c1 Hc0 Hm Hw eq_refl) as (Hc1 & Ho & Hr & Hk & Hps).
    split; [by apply ctl_inv_return|]. split; [done|].
    rewrite outstanding_return, Ho. done.
  - destruct (0 <? _); cbn [fst snd].
    + split; [by apply ctl_inv_return|]. split; [done|]. by rewrite outstanding_return.
    + edestruct (add_read_spec config hand t' c0 _ Hc0 Hm Hw eq_refl) as (Hc1 & Ho & Hk & Hps). done.
Qed.

(** ** Returning a transaction *)

Lemma return_scan_spec clk kept todo c :
  let '((a, w), c') := return_scan clk kept todo c in
  (w = -1 ∧ c' = c ∧ Forall (λ t, clk < complete_cycle t) todo) ∨
  (∃ pre t post s, todo = pre ++ t :: post ∧ complete_cycle t ≤ clk ∧
     Forall (λ t, clk < complete_cycle t) pre ∧ a = trans_addr t ∧
     w = (if is_write t then 1 else 0) ∧
     c' = set_return_queue_ (kept ++ pre ++ post) (set_simple_stats_ s c) ∧
     keeps_shape (simple_stats_ c) s).
Proof.
  revert kept. induction todo as [|it todo IH]; intros kept; cbn [return_scan]; [by left|].
  destruct (complete_cycle it <=? clk) eqn:E; split_bool.
  - right. exists [], it, todo.
    destruct (is_write it); eexists; (split_and!; [done..|reflexivity|]).
    + apply keeps_Increment.
    + etrans; [apply keeps_Increment|apply keeps_latencies].
  - specialize (IH (kept ++ [it])).
    destruct (return_scan clk (kept ++ [it]) todo c) as [[a w] c'].
    destruct IH as [(-> & -> & Hall)|(pre & t & post & s & -> & Ht & Hpre & -> & -> & -> & Hs)].
    + left. split_and!; [done..|]. by constructor.
    + right. exists (it :: pre), t, post, s. rewrite <- (assoc (++)).
      split_and!; [done..|by constructor|done|done|done|done].
Qed.

Lemma ReturnDoneTrans_spec (config : Config) hand clk c :
  ctl_inv config hand c →
  let '((a, w), c') := ReturnDoneTrans clk c in
  ctl_inv config hand c' ∧ ctl_clk_ c' = ctl_clk_ c ∧ pim_state c' = pim_state c ∧
  outstanding c ≡ₚ (if w =? -1 then [] else [callback_of a (w =? 1)]) ++ outstanding c'.
Proof.
  intros Hc. unfold ReturnDoneTrans. pose proof (return_scan_spec clk [] (return_queue_ c) c) as H.
  destruct (return_scan clk [] (return_queue_ c) c) as [[a w] c'].
  destruct H as [(-> & -> & _)|(pre & t & post & s & Hq & _ & _ & -> & -> & -> & Hs)]; [done|].
  split; [apply ctl_inv_return, ctl_inv_stats; [done|]; apply Hs, Hc|].
  split; [done|]. split; [done|]. assert ((if is_write t then 1 else 0) =? -1 = false) as -> by (by destruct (is_write t)).
  assert (callback_of (trans_addr t) ((if is_write t then 1 else 0) =? 1) = trans_callback t) as ->
    by (unfold trans_callback; by destruct (is_write t)).
  unfold outstanding. simpl. rewrite Hq, !fmap_app. csimpl. rewrite !(assoc (++)).
  by rewrite <- Permutation_middle.
Qed.

(** ** The initial state *)

Lemma Controller_init_inv (config : Config) ch c :
  supported config → Controller_init config ch = Ok c →
  ctl_inv config [] c ∧ outstanding c = [] ∧ ctl_clk_ c = 0 ∧ pim_ok config c ∧ no_pim_cmds c = true.
Proof.
  intros Hs H. pose proof (su_dims _ Hs) as Hd. unfold Controller_init in H.
  apply bind_Ok in H as (q & Hq & H). apply bind_Ok in H as (rf & Hrf & [= <-]).
  pose proof (SimpleStats_init_ok config ch) as Hst. revert Hst.
  generalize (SimpleStats_init config ch) as stats0. intros stats0 Hst.
  split; [|by repeat split; try apply Forall_nil]. pose proof (CommandQueue_init_wf config q Hd Hq) as Hqw.
  assert (Hwait : waiting q = [] ∧ cq_clk_ q = 0).
  { unfold CommandQueue_init in Hq. apply bind_Ok in Hq as ([st n] & _ & [= <-]). split; [|done].
    unfold waiting. simpl. generalize (Z.to_nat n) as k. by induction k. }
  destruct Hwait as [Hwait Hclk].
  split; try done; unfold reads_in_flight, writes_in_flight, queued; simpl; rewrite ?Hwait;
    try done; try (by constructor).
  - apply chan_wf_init.
  - pose proof (su_interval _ Hs _ Hrf) as Hi. pose proof (su_policy _ Hs) as Hp.
    unfold Refresh_init in Hrf. apply bind_Ok in Hrf as (i & _ & [= <-]).
    split; simpl; [done|done|]. destruct Hd. unfold valid_coord. lia.
Qed.

(** ** The end of an epoch *)

Lemma PrintEpochStats_spec fd st (config : Config) hand c :
  ctl_inv config hand c →
  ∃ c' out, PrintEpochStats fd st config c = Ok (c', out) ∧ ctl_inv config hand c' ∧ quiet c c'.
Proof.
  intros Hc. unfold PrintEpochStats.
  destruct (PrintEpochStats_total config fd st (Increment "epoch_num" (simple_stats_ c)))
    as (s & out & H & Hs); [apply keeps_Increment, Hc|].
  simpl. rewrite H. cbn [mbind outcome_bind]. eexists _, out. split; [reflexivity|].
  split; [|by split_and!]. by apply ctl_inv_stats; [apply ctl_inv_stats; [|apply keeps_Increment, Hc]|].
Qed.

Lemma PrintFinalStats_spec fd st (config : Config) hand c :
  ctl_inv config hand c →
  ∃ c' out, PrintFinalStats fd st config c = Ok (c', out) ∧ ctl_inv config hand c' ∧ quiet c c'.
Proof.
  intros Hc. unfold PrintFinalStats.
  destruct (PrintFinalStats_total config fd st (simple_stats_ c)) as (s & out & H & Hs); [apply Hc|].
  rewrite H. cbn [mbind outcome_bind]. eexists _, out. split; [reflexivity|].
  split; [by apply ctl_inv_stats|done].
Qed.

(** ** Histories *)

Lemma step_spec fd st (config : Config) hand e c done :
  supported config → ctl_inv config hand c → pim_ok config c → event_ok config e → 0 ≤ ctl_clk_ c < 2 ^ 63 →
  ∃ c' done' lost, step fd st config e (c, done) = Ok (c', done') ∧ ctl_inv config (lost ++ hand) c' ∧
    pim_ok config c' ∧ (plain e → no_pim_cmds c = true → lost = [] ∧ no_pim_cmds c' = true) ∧
    ctl_clk_ c ≤ ctl_clk_ c' ≤ ctl_clk_ c + 1 ∧
    added [e] ++ done ++ outstanding c ≡ₚ done' ++ outstanding c'.
Proof.
  intros Hs Hc Hp He Hclk.
  assert (Hkeep : ∀ c', pim_state c' = pim_state c → pim_ok config c' ∧
    (plain e → no_pim_cmds c = true → ([] : list Command) = [] ∧ no_pim_cmds c' = true)).
  { intros c' E. split; [by eapply pim_ok_state|]. intros _. by rewrite (no_pim_state c c' E). }
  destruct e as [|t|clk| |w i o rt|pim multi]; cbn [step].
  - destruct (ClockTick_spec config hand c Hs Hc Hp Hclk) as (c' & lost & -> & Hc' & Hp' & Hn & Ho & Hk).
    cbn [mbind outcome_bind]. exists c', done, lost. rewrite Ho. split_and!; [done..|by intros _|lia|lia|done].
  - destruct (AddTransaction_spec config hand t c Hc He) as (Hc' & _ & Ho & Hk & Hps).
    eexists _, done, []. split; [reflexivity|]. split; [done|]. destruct (Hkeep _ Hps).
    rewrite Hk, Ho. split_and!; [done|done|lia|lia|]. simpl. by rewrite <- Permutation_middle.
  - pose proof (ReturnDoneTrans_spec config hand clk c Hc) as H.
    destruct (ReturnDoneTrans clk c) as [[a w] c']. destruct H as (Hc' & Hk & Hps & Ho).
    eexists _, _, []. split; [reflexivity|]. split; [done|]. destruct (Hkeep _ Hps).
    rewrite Hk, Ho. split_and!; [done|done|lia|lia|].
    simpl. destruct (w =? -1); [done|]. simpl. by rewrite <- Permutation_middle.
  - destruct (PrintEpochStats_spec fd st config hand c Hc) as (c' & out & -> & Hc' & (Ho & Hk & Hps)).
    cbn [mbind outcome_bind]. exists c', done, []. destruct (Hkeep _ Hps).
    rewrite Ho, Hk. split_and!; [done..|lia|lia|done].
  - destruct He as (Hw & Hi & Ho & Hl). eexists _, done, []. split; [reflexivity|].
    split; [by apply ctl_inv_lists|]. split; [|split; [done|by split; [cbn; lia|]]].
    destruct Hp. split; cbn; try by apply Forall_app. rewrite !length_app. lia.
  - eexists _, done, []. split; [reflexivity|]. split; [destruct Hc; by split|].
    destruct (Hkeep (set_in_pim pim (set_wr_multitenant multi c)) eq_refl). split_and!; [done|done|cbn; lia|cbn; lia|done].
Qed.

Lemma history_spec fd st (config : Config) hand evs c done :
  supported config → ctl_inv config hand c → pim_ok config c → Forall (event_ok config) evs →
  0 ≤ ctl_clk_ c → ctl_clk_ c + Z.of_nat (length evs) < 2 ^ 63 →
  ∃ c' done' lost, for_each (step fd st config) evs (c, done) = Ok (c', done') ∧
    ctl_inv config (lost ++ hand) c' ∧ pim_ok config c' ∧
    (Forall plain evs → no_pim_cmds c = true → lost = []) ∧
    added evs ++ done ++ outstanding c ≡ₚ done' ++ outstanding c'.
Proof.
  intros Hs Hc Hp Hevs. revert hand c done Hc Hp.
  induction Hevs as [|e evs He Hevs IH]; intros hand c done Hc Hp H0 Hlen; cbn [for_each].
  { by exists c, done, []. }
  cbn [length] in Hlen.
  destruct (step_spec fd st config hand e c done Hs Hc Hp He) as (c1 & d1 & l1 & -> & Hc1 & Hp1 & Hn1 & Hk & Hperm); [lia|].
  cbn [mbind outcome_bind]. destruct (IH _ c1 d1 Hc1 Hp1) as (c2 & d2 & l2 & H2 & Hc2 & Hp2 & Hn2 & Hperm2); [lia..|].
  exists c2, d2, (l2 ++ l1). split; [exact H2|]. split; [by rewrite <- (assoc (++))|]. split; [done|]. split.
  { intros [Hpl Hpls]%Forall_cons Hn. destruct (Hn1 Hpl Hn) as [-> Hn']. by rewrite (Hn2 Hpls Hn'). }
  rewrite <- Hperm2, <- Hperm.
  assert (added (e :: evs) = added [e] ++ added evs) as ->
    by (unfold added; csimpl; by destruct e).
  rewrite !(assoc (++)). by rewrite (Permutation_app_comm (added [e])).
Qed.

(** ** The interface to the memory systems *)

(** A controller that works, whatever it has lost to the accelerator. *)
Definition ctl_ok (config : Config) (c : Controller) : Prop :=
  (∃ lost, ctl_inv config lost c) ∧ pim_ok config c.

Lemma ClockTick_ok (config : Config) c :
  supported config → ctl_ok config c → 0 ≤ ctl_clk_ c < 2 ^ 63 →
  ∃ c', ClockTick config (Timing_of config) c = Ok c' ∧ ctl_ok config c' ∧
    outstanding c' ≡ₚ outstanding c ∧ ctl_clk_ c' = ctl_clk_ c + 1.
Proof.
  intros Hs [[hand Hc] Hp] Hk. destruct (ClockTick_spec config hand c Hs Hc Hp Hk) as (c' & lost & H & Hc' & Hp' & _ & Ho & Hk').
  exists c'. split; [done|]. split; [split; [by eexists|done]|done].
Qed.

Lemma AddTransaction_ok (config : Config) t c :
  ctl_ok config c → mappable config t →
  ctl_ok config (AddTransaction t c).1 ∧ (AddTransaction t c).2 = true ∧
  outstanding (AddTransaction t c).1 ≡ₚ trans_callback t :: outstanding c ∧
  ctl_clk_ (AddTransaction t c).1 = ctl_clk_ c.
Proof.
  intros [[hand Hc] Hp] Hm. destruct (AddTransaction_spec config hand t c Hc Hm) as (Hc' & Hb & Ho & Hk & Hps).
  split; [split; [by eexists|by eapply pim_ok_state]|done].
Qed.

Lemma ReturnDoneTrans_ok (config : Config) clk c :
  ctl_ok config c →
  let '((a, w), c') := ReturnDoneTrans clk c in
  ctl_ok config c' ∧ ctl_clk_ c' = ctl_clk_ c ∧
  outstanding c ≡ₚ (if w =? -1 then [] else [callback_of a (w =? 1)]) ++ outstanding c'.
Proof.
  intros [[hand Hc] Hp]. pose proof (ReturnDoneTrans_spec config hand clk c Hc) as H.
  destruct (ReturnDoneTrans clk c) as [[a w] c']. destruct H as (Hc' & Hk & Hps & Ho).
  split; [split; [by eexists|by eapply pim_ok_state]|done].
Qed.

Lemma PrintEpochStats_ok fd st (config : Config) c :
  ctl_ok config c → ∃ c' out, PrintEpochStats fd st config c = Ok (c', out) ∧ ctl_ok config c' ∧ quiet c c'.
Proof.
  intros [[hand Hc] Hp]. destruct (PrintEpochStats_spec fd st config hand c Hc) as (c' & out & H & Hc' & Hq).
  exists c', out. split; [done|]. split; [split; [by eexists|by eapply pim_ok_state; [apply Hq|]]|done].
Qed.

Lemma PrintFinalStats_ok fd st (config : Config) c :
  ctl_ok config c → ∃ c' out, PrintFinalStats fd st config c = Ok (c', out) ∧ ctl_ok config c' ∧ quiet c c'.
Proof.
  intros [[hand Hc] Hp]. destruct (PrintFinalStats_spec fd st config hand c Hc) as (c' & out & H & Hc' & Hq).
  exists c', out. split; [done|]. split; [split; [by eexists|by eapply pim_ok_state; [apply Hq|]]|done].
Qed.

(** ** Properties *)

(** [C1] A controller never fails and never loses track of a transaction.  The
    configuration is [supported]: positive dimensions, self refresh disabled, a
    refresh policy that exists with an interval that is not 0, and, if two
    commands may be issued in a cycle, positive delays between accesses.  From its
    constructor on, for every history of fewer than 2^63 clock cycles, accepted
    transactions to existing banks, returns, ends of epochs and commands of the
    accelerator that are accesses and activations of existing banks
    ([pim_cmd_ok]; the scheduler can also send a [PRECHARGE], on which the
    controller aborts, [input_precharge_aborts], or which, among the weights, it
    issues unchecked), every operation returns (no
    abort, no [not in read queue!], no index out of range), the invariant that
    ties the components together holds, and the transactions accepted are
    exactly those returned plus those outstanding.  Only accesses chosen while
    commands of the accelerator are pending can be [lost] among the
    outstanding ones: without the accelerator every outstanding access is still
    queued. *)
Theorem controller_never_fails fd st (config : Config) ch c0 evs :
  supported config → Controller_init config ch = Ok c0 →
  Forall (event_ok config) evs → Z.of_nat (length evs) < 2 ^ 63 →
  ∃ c done lost, for_each (step fd st config) evs (c0, []) = Ok (c, done) ∧ ctl_inv config lost c ∧
    (Forall plain evs → lost = []) ∧ added evs ≡ₚ done ++ outstanding c.
Proof.
  intros Hs Hinit Hevs Hlen.
  destruct (Controller_init_inv config ch c0 Hs Hinit) as (Hc & Ho & Hk & Hp & Hn).
  destruct (history_spec fd st config [] evs c0 [] Hs Hc Hp Hevs) as (c & done & lost & H & Hc' & _ & Hl & Hperm); [lia..|].
  rewrite app_nil_r in Hc'. exists c, done, lost. split; [done|]. split; [done|]. split; [by intros; apply Hl|].
  by rewrite Ho, !app_nil_r in Hperm.
Qed.

Lemma hbm2_supported : supported hbm2_config.
Proof.
  split.
  - apply hbm2_dims.
  - reflexivity.
  - discriminate.
  - intros rf H. vm_compute in H. injection H as <-. vm_compute. discriminate.
  - intros _. split; [solve_Forall (split; vm_compute; reflexivity)|].
    intros H. vm_compute in H. discriminate.
Qed.

(** A history in which the accelerator reads a bank while a read of the
    processor becomes ready. *)
Definition shared_history : list event :=
  [Add (Transaction_rw 4096 false); Add (Transaction_rw 65536 true); Tick; Mode true false;
   Accelerate [] [mkCommand PIM_ACTIVATE (mkAddress 0 0 3 3 7 0) 0; mkCommand LH_READ (mkAddress 0 0 3 3 7 0) 0]
     [] [0; 0]; Add (Transaction_rw 4096 false)] ++ repeat Tick 20 ++ [Epoch; Return 2].

Lemma shared_history_ok : Forall (event_ok hbm2_config) shared_history.
Proof.
  assert (Hcmd : ∀ t, t ∈ [LH_READ; PIM_ACTIVATE] → pim_cmd_ok hbm2_config (mkCommand t (mkAddress 0 0 3 3 7 0) 0)).
  { intros t Ht. split; [set_solver|]. by repeat split; vm_compute. }
  unfold shared_history. cbn [repeat app]. repeat constructor; try (vm_compute; congruence); apply Hcmd; set_solver.
Qed.

Lemma controller_never_fails_witness :
  ∃ c0 c done lost, Controller_init hbm2_config 0 = Ok c0 ∧
    for_each (step no_double no_line hbm2_config) shared_history (c0, []) = Ok (c, done) ∧
    ctl_inv hbm2_config lost c ∧
    [ReadCallback 4096; WriteCallback 65536; ReadCallback 4096] ≡ₚ done ++ outstanding c.
Proof.
  destruct (is_ok_exists (Controller_init hbm2_config 0)) as [c0 H0]; [vm_compute; reflexivity|].
  destruct (controller_never_fails no_double no_line hbm2_config 0 c0 shared_history) as (c & done & lost & H & Hc & _ & Hp).
  - apply hbm2_supported.
  - exact H0.
  - exact shared_history_ok.
  - reflexivity.
  - exists c0, c, done, lost. split; [exact H0|]. split; [exact H|]. split; [exact Hc|exact Hp].
Defined.

(** Accelerator commands make the controller lose accesses: while one is
    pending, a read or write chosen by the queues has already left them when
    the issue phase ignores it, so the access is neither waiting nor issued
    and its transaction never completes. *)
Theorem pim_discards_chosen_access (config : Config) timing c cmd c1 :
  dims_ok config → chan_wf config (channel_state_ c) → cq_wf config (cmd_queue_ c) →
  IsRefreshWaiting (channel_state_ c) = false → no_pim_cmds c = false →
  choose_command config c = Ok (cmd, c1) → IsReadWrite cmd = true →
  waiting (cmd_queue_ c) ≡ₚ cmd :: waiting (cmd_queue_ c1) ∧
  pending_rd_q_ c1 = pending_rd_q_ c ∧
  issue_phase config timing cmd c1 = issue_phase config timing Command_default c1.
Proof.
  intros Hd Hcs Hq Hw Hpim H Hrw. unfold choose_command in H. rewrite Hw in H.
  cbn [mbind outcome_bind] in H. change (negb (IsValid Command_default)) with true in H.
  apply bind_Ok in H as ([[cmd' q] s] & H & [= <- <-]).
  assert (Hv : IsValid cmd' = true ∧ IsRefresh cmd' = false) by (by destruct cmd' as [[] ? ?]).
  destruct Hv as [Hv Hnr]. unfold GetCommandToIssue in H.
  destruct (issue_scan_spec config (channel_state_ c) (Z.to_nat (num_queues_ (cmd_queue_ c)))
    (cmd_queue_ c) (simple_stats_ c) Hd Hcs Hq) as (cmd2 & q2 & s2 & H2 & _ & _ & Hsv).
  rewrite H in H2. injection H2 as <- <- <-. rewrite Hv in Hsv.
  destruct Hsv as (k & _ & (_ & _ & queue & mid & it & after & Hlk & _ & _ & Hqs) & _).
  rewrite Hrw in Hqs. destruct Hqs as (queue' & Hp & Hqs).
  split; [unfold waiting at 2; simpl; rewrite Hqs; by eapply waiting_erase|].
  split; [done|]. unfold issue_phase.
  change (no_pim_cmds (set_simple_stats_ s (set_cmd_queue_ q c))) with (no_pim_cmds c).
  by rewrite Hnr, Hpim.
Qed.

Lemma ready_read_reached :
  ∃ c0 c done, Controller_init hbm2_config 0 = Ok c0 ∧
    for_each (step no_double no_line hbm2_config) ready_read_history (c0, []) = Ok (c, done) ∧
    ctl_inv hbm2_config [] c.
Proof.
  destruct (is_ok_exists (Controller_init hbm2_config 0)) as [c0 H0]; [vm_compute; reflexivity|].
  destruct (Controller_init_inv _ _ _ hbm2_supported H0) as (Hc & _ & Hk & Hpim & Hn).
  destruct (history_spec no_double no_line hbm2_config [] ready_read_history c0 [] hbm2_supported Hc Hpim)
    as (c & done & lost & H & Hc' & _ & Hl & _).
  - solve_Forall first [exact I|repeat split; vm_compute; congruence].
  - by rewrite Hk.
  - by rewrite Hk.
  - rewrite Hl, app_nil_r in Hc' by (done || solve_Forall exact I). by exists c0, c, done.
Qed.

(** The read that the queues choose after that history. *)
Lemma ready_read_chosen c0 c done :
  Controller_init hbm2_config 0 = Ok c0 →
  for_each (step no_double no_line hbm2_config) ready_read_history (c0, []) = Ok (c, done) →
  IsRefreshWaiting (channel_state_ (with_pim c)) = false ∧
  ∃ c1, choose_command hbm2_config (with_pim c)
    = Ok (mkCommand READ (AddressMapping hbm2_config 4096) 4096, c1).
Proof.
  intros H0 H.
  assert (E : (c0 ← Controller_init hbm2_config 0;
     '(c, _) ← for_each (step no_double no_line hbm2_config) ready_read_history (c0, []);
     '(cmd, _) ← choose_command hbm2_config (with_pim c);
     Ok (IsRefreshWaiting (channel_state_ (with_pim c)), cmd))
     = Ok (false, mkCommand READ (AddressMapping hbm2_config 4096) 4096))
    by (vm_compute; reflexivity).
  rewrite H0 in E. cbn [mbind outcome_bind] in E. rewrite H in E. cbn [mbind outcome_bind] in E.
  apply bind_Ok in E as ([cmd c1] & Hcmd & [= Hw ->]). split; [exact Hw|]. by exists c1.
Qed.

Lemma with_pim_pending c : no_pim_cmds (with_pim c) = false.
Proof. unfold no_pim_cmds, with_pim. simpl. by rewrite andb_false_r. Qed.

Lemma pim_discards_chosen_access_witness :
  ∃ c cmd c1, choose_command hbm2_config c = Ok (cmd, c1) ∧
    cmd = mkCommand READ (AddressMapping hbm2_config 4096) 4096 ∧
    waiting (cmd_queue_ c) ≡ₚ cmd :: waiting (cmd_queue_ c1) ∧
    issue_phase hbm2_config (Timing_of hbm2_config) cmd c1
      = issue_phase hbm2_config (Timing_of hbm2_config) Command_default c1.
Proof.
  destruct ready_read_reached as (c0 & c & done & H0 & H & Hc).
  destruct (ready_read_chosen c0 c done H0 H) as (Hw & c1 & Hcmd).
  destruct (pim_discards_chosen_access hbm2_config (Timing_of hbm2_config) (with_pim c) _ c1
    hbm2_dims (ci_chan _ _ _ Hc) (ci_queue _ _ _ Hc) Hw (with_pim_pending c) Hcmd eq_refl) as (Hp & _ & Hi).
  eexists (with_pim c), _, c1. split; [exact Hcmd|]. split; [reflexivity|]. split; [exact Hp|exact Hi].
Defined.

(** A precharge among the input commands, which the scheduler collects for a
    bank that is open on another row, is asked for as it is, and the bank
    aborts. *)
Theorem input_precharge_aborts :
  (c ← Controller_init hbm2_config 0;
   ClockTick hbm2_config (Timing_of hbm2_config)
     (accelerate [] [mkCommand PRECHARGE (mkAddress 0 0 3 3 7 0) 0] [] [0] c))
  = Fail (AbruptExit "bankstate.cc" 55).
Proof. vm_compute. reflexivity. Qed.
