(* ===== verification/ControllerTiming.v ===== *)
(** * Timing safety of the memory controller

    Every command a controller issues is an answer of its channel for the
    current cycle, so that the command trace of a controller is a run of the
    channel ([ChannelTiming]).  This holds in every state a controller can
    reach, with refreshes, self refresh, dual commands and commands of the
    accelerator, and gives the timing constraints between the commands of a
    trace. *)
From stdpp Require Import base tactics numbers list list_numbers gmap strings sets.
From S2P Require Import Prelude Common Double Configuration Timing BankState ChannelState.
From S2P Require Import ChannelTiming Refresh SimpleStats CommandQueue Controller ControllerSafety.

Local Open Scope Z_scope.

(** ** Reachable controllers *)

(** The commands of banks; a precharge among the weight reads is issued
    without asking the channel. *)
Definition bank_commands : list Command → Prop := Forall (λ x, IsRankCMD x = false).
Definition weight_commands : list Command → Prop :=
  Forall (λ x, IsRankCMD x = false ∧ cmd_type x ≠ PRECHARGE).

(** The commands of the accelerator in an event. *)
Definition event_tame (e : event) : Prop :=
  match e with
  | Accelerate w i o _ => weight_commands w ∧ bank_commands i ∧ bank_commands o
  | _ => True
  end.

(** The states of a controller, for less than [2 ^ 63] cycles. *)
Inductive reachable (fd : double → string) (st : string → string → string → string)
    (config : Config) (ch : Z) : Controller → Prop :=
| reach_init c : Controller_init config ch = Ok c → reachable fd st config ch c
| reach_step c e done c' done' :
    reachable fd st config ch c → ctl_clk_ c < 2 ^ 63 → event_tame e →
    step fd st config e (c, done) = Ok (c', done') → reachable fd st config ch c'
| reach_reset c : reachable fd st config ch c → reachable fd st config ch (ResetStats c).

(** The trace is a run of the channel that has not passed the clock [k]. *)
Definition traced (config : Config) (c : Controller) : Prop :=
  ∃ now, run config (Timing_of config) (reverse (cmd_trace_ c)) now (channel_state_ c) ∧
    now ≤ ctl_clk_ c.

Record ctl_traced (config : Config) (k : Z) (c : Controller) : Prop := {
  ct_run : traced config c;
  ct_clk : cq_clk_ (cmd_queue_ c) = ctl_clk_ c;
  ct_now : ctl_clk_ c = k;
  ct_weights : weight_commands (rd_w_cmds_ c);
  ct_inputs : bank_commands (rd_in_cmds_ c);
  ct_outputs : bank_commands (wr_cmds_ c)
}.

(** A command that the channel answers now. *)
Definition answered (config : Config) (c : Controller) (cmd : Command) : Prop :=
  ∃ req, GetReadyCommand config (channel_state_ c) req (ctl_clk_ c) = Ok cmd.

(** What most of a cycle leaves alone. *)
Definition same_trace (c c' : Controller) : Prop :=
  cmd_trace_ c' = cmd_trace_ c ∧ channel_state_ c' = channel_state_ c ∧
  cq_clk_ (cmd_queue_ c') = cq_clk_ (cmd_queue_ c) ∧ ctl_clk_ c' = ctl_clk_ c ∧
  rd_w_cmds_ c' = rd_w_cmds_ c ∧ rd_in_cmds_ c' = rd_in_cmds_ c ∧ wr_cmds_ c' = wr_cmds_ c.

#[global] Instance same_trace_preorder : PreOrder same_trace.
Proof.
  split; [by intros c|]. intros c1 c2 c3 (? & ? & ? & ? & ? & ? & ?) (? & ? & ? & ? & ? & ? & ?).
  split_and!; congruence.
Qed.

Section Cycle.
Context (k : Z).

Lemma traced_same (config : Config) c c' : same_trace c c' → ctl_traced config k c → ctl_traced config k c'.
Proof.
  intros (E1 & E2 & E3 & E4 & E5 & E6 & E7) [(now & Hr & Hn) ? ? ? ? ?].
  split; try congruence. exists now. by rewrite E1, E2, E4.
Qed.

(** ** Commands come from the channel *)

Lemma first_ready_answer (config : Config) cs clk before queue s cmd s' :
  first_ready config cs clk before queue s = Ok (cmd, s') → IsValid cmd = true →
  ∃ req, GetReadyCommand config cs req clk = Ok cmd.
Proof.
  intros H Hv. revert before s H. induction queue as [|it queue IH]; intros before s; cbn [first_ready].
  { intros [= <- _]. discriminate Hv. }
  intros (c & Hc & H)%bind_Ok. destruct (negb (IsValid c)); [by eapply IH|].
  destruct (type_eqb (cmd_type c) PRECHARGE).
  - apply bind_Ok in H as ([ok s1] & _ & H). destruct ok; cbn [negb] in H; [|by eapply IH].
    injection H as <- _. by exists it.
  - destruct (IsWrite c); [|injection H as <- _; by exists it].
    destruct (HasRWDependency before it); [by eapply IH|injection H as <- _; by exists it].
Qed.

(** Inverting a sequence of operations that returned. *)
Ltac returned H :=
  repeat (let H' := fresh "H" in apply bind_Ok in H as (? & H' & H)).

Lemma EraseRWCommand_clk (config : Config) cmd q q' :
  EraseRWCommand config q cmd = Ok q' → cq_clk_ q' = cq_clk_ q.
Proof. unfold EraseRWCommand. intros H. returned H. by injection H as <-. Qed.

Lemma issue_scan_answer (config : Config) cs n q s cmd q' s' :
  issue_scan config cs n q s = Ok (cmd, q', s') →
  cq_clk_ q' = cq_clk_ q ∧
  (IsValid cmd = true → ∃ req, GetReadyCommand config cs req (cq_clk_ q) = Ok cmd).
Proof.
  revert q s. induction n as [|n IH]; intros q s; cbn [issue_scan]; [by intros [= <- <- _]|].
  intros (queue & _ & H)%bind_Ok. destruct (_ && _); [by apply IH in H|].
  apply bind_Ok in H as ([c s1] & Hf & H). destruct (IsValid c) eqn:Hv; [|by apply IH in H].
  apply bind_Ok in H as (q1 & Hq & [= <- <- _]). split.
  - destruct (IsReadWrite c); [by apply EraseRWCommand_clk in Hq|by injection Hq as <-].
  - intros _. by eapply first_ready_answer.
Qed.

Lemma FinishRefresh_answer (config : Config) cs q cmd q' :
  FinishRefresh config cs q = Ok (cmd, q') →
  cq_clk_ q' = cq_clk_ q ∧ ∃ req, GetReadyCommand config cs req (cq_clk_ q) = Ok cmd.
Proof.
  unfold FinishRefresh. intros (ref & _ & H)%bind_Ok. apply bind_Ok in H as (q1 & Hq & H).
  assert (Hclk : cq_clk_ q1 = cq_clk_ q).
  { destruct (is_in_ref_ q); cbn [negb] in Hq; [by injection Hq as <-|].
    apply bind_Ok in Hq as (q2 & Hq & [= <-]). unfold GetRefQIndices in Hq.
    destruct (type_eqb _ _); [destruct (queue_structure_ q)|]; returned Hq; by injection Hq as <-. }
  apply bind_Ok in H as (c & Hc & [= <- <-]). rewrite Hclk in Hc. split; [|by exists ref].
  by destruct (IsRefresh c).
Qed.

Lemma choose_command_answer (config : Config) c cmd c' :
  cq_clk_ (cmd_queue_ c) = ctl_clk_ c → choose_command config c = Ok (cmd, c') →
  same_trace c c' ∧ (IsValid cmd = true → answered config c' cmd).
Proof.
  intros Hclk H. unfold choose_command in H. apply bind_Ok in H as ([cmd0 c0] & H0 & H).
  assert (Hc0 : same_trace c c0 ∧ (IsValid cmd0 = true → answered config c0 cmd0)).
  { destruct (IsRefreshWaiting _); [|injection H0 as <- <-; by split].
    apply bind_Ok in H0 as ([cmd1 q] & Hf & [= <- <-]). apply FinishRefresh_answer in Hf as [Hq Ha].
    rewrite Hclk in Hq, Ha. split; [|by intros _]. by split_and!; cbn; rewrite ?Hclk. }
  destruct Hc0 as [Hs Ha]. destruct (IsValid cmd0) eqn:Hv; cbn [negb] in H.
  { injection H as <- <-. split; [done|]. by intros _; apply Ha. }
  apply bind_Ok in H as ([[cmd1 q] s] & Hg & [= <- <-]). apply issue_scan_answer in Hg as [Hq Hr].
  destruct Hs as (? & Ecs & Ecq & Eclk & ? & ? & ?). split.
  - split_and!; try done; cbn; congruence.
  - intros Hv1. destruct (Hr Hv1) as [req Hreq]. exists req. cbn. by rewrite Ecq, Hclk, <- Eclk in Hreq.
Qed.

(** ** Issuing a command *)

Lemma complete_reads_same (config : Config) n a c c' : complete_reads config n a c = Ok c' → same_trace c c'.
Proof.
  revert c. induction n as [|n IH]; intros c; cbn [complete_reads]; [by intros [= <-]|].
  intros ([t m] & _ & H)%bind_Ok. by apply IH in H.
Qed.

Lemma complete_access_same (config : Config) cmd c c' : complete_access config cmd c = Ok c' → same_trace c c'.
Proof.
  unfold complete_access. destruct (IsRead cmd).
  - cbv zeta. destruct (_ && _); [done|]. apply complete_reads_same.
  - destruct (IsWrite cmd); [|by intros [= <-]]. intros ([t m] & _ & [= <-])%bind_Ok. done.
Qed.

Lemma UpdateCommandStats_same cmd c c' : UpdateCommandStats cmd c = Ok c' → same_trace c c'.
Proof.
  assert (H : ∀ name hits, count_access cmd name hits c = Ok c' → same_trace c c').
  { intros name hits (n & _ & [= <-])%bind_Ok. by destruct (negb _). }
  unfold UpdateCommandStats. destruct (cmd_type cmd); try apply H; try (by intros [= <-]); done.
Qed.

(** The lists of the accelerator's commands. *)
Definition pim_lists (c : Controller) : list Command * list Command * list Command :=
  (rd_w_cmds_ c, rd_in_cmds_ c, wr_cmds_ c).

(** An answered command extends the run. *)
Lemma IssueCommand_traced (config : Config) cmd c c' :
  ctl_traced config k c → IsValid cmd = true → answered config c cmd →
  IssueCommand config (Timing_of config) cmd c = Ok c' →
  ctl_traced config k c' ∧ pim_lists c' = pim_lists c.
Proof.
  intros [(now & Hr & Hn) Hq Hk Hw Hi Ho] Hv [req Hreq] H. unfold IssueCommand in H.
  apply bind_Ok in H as (c1 & H1 & H). apply bind_Ok in H as (c2 & H2 & H). apply bind_Ok in H as (cs & Hu & [= <-]).
  assert (Hs : same_trace (trace_command cmd c) c2)
    by (etrans; [by eapply complete_access_same|by eapply UpdateCommandStats_same]).
  destruct Hs as (E1 & E2 & E3 & E4 & E5 & E6 & E7).
  cbn in E1, E2, E3, E4, E5, E6, E7. rewrite E2, E4 in Hu. split; [|unfold pim_lists; cbn; congruence].
  split; cbn; try congruence. exists (ctl_clk_ c).
  cbn [cmd_trace_ channel_state_ ctl_clk_ set_channel_state_]. rewrite E1, E4. split; [|done].
  rewrite reverse_app. cbn [app]. by eapply run_issue.
Qed.

Lemma issue_pim_traced (config : Config) it c c' :
  ctl_traced config k c → IsValid it = true → answered config c it →
  issue_pim config (Timing_of config) it c = Ok c' →
  ctl_traced config k c' ∧ pim_lists c' = pim_lists c.
Proof.
  intros Hc Hv Ha. unfold issue_pim. destruct (_ && _); [by intros [= <-]|]. by apply IssueCommand_traced.
Qed.

Lemma rd_w_loop_traced (config : Config) kept todo c c' :
  ctl_traced config k c → weight_commands kept → weight_commands todo →
  rd_w_loop config (Timing_of config) kept todo c = Ok c' → ctl_traced config k c'.
Proof.
  revert kept c. induction todo as [|it todo IH]; intros kept c Hc Hk Ht; cbn [rd_w_loop].
  { intros [= <-]. destruct Hc. by split. }
  apply Forall_cons in Ht as [[Hrk Hnp] Ht]. intros (ready & Hr & H)%bind_Ok.
  destruct (IsValid ready && type_eqb (cmd_type ready) (cmd_type it)) eqn:E.
  - apply andb_true_iff in E as [Hv Et%type_eqb_true]. apply bind_Ok in H as (c1 & H1 & H).
    assert (ready = it ∧ answered config c ready) as [-> Ha].
    { destruct (type_eqb (cmd_type it) PIM_ACTIVATE).
      - split; [by eapply (answer_is_command _ _ GH_READ)|by eexists].
      - destruct (type_eqb (cmd_type it) PRECHARGE) eqn:Ep; [by apply type_eqb_true in Ep|].
        split; [by eapply answer_of_command|by eexists]. }
    destruct (issue_pim_traced config it c c1 Hc Hv Ha H1) as [Hc1 _]. by apply (IH kept c1).
  - eapply IH; [done| |done|exact H]. by apply Forall_app; split; [|apply Forall_singleton].
Qed.

Lemma rd_in_loop_traced (config : Config) i kept todo c c' :
  ctl_traced config k c → bank_commands kept → bank_commands todo →
  rd_in_loop config (Timing_of config) i kept todo c = Ok c' → ctl_traced config k c'.
Proof.
  revert i kept c. induction todo as [|it todo IH]; intros i kept c Hc Hk Ht; cbn [rd_in_loop].
  { intros [= <-]. destruct Hc. by split. }
  apply Forall_cons in Ht as [Hrk Ht]. intros (ready & Hr & H)%bind_Ok.
  assert (Hk' : bank_commands (kept ++ [it])) by (by apply Forall_app; split; [|apply Forall_singleton]).
  destruct (IsValid ready && type_eqb (cmd_type ready) (cmd_type it)) eqn:E; [|by eapply IH; [..|exact H]].
  apply andb_true_iff in E as [Hv Et%type_eqb_true]. apply bind_Ok in H as (rt & _ & H).
  destruct (u64 rt <=? ctl_clk_ c); [|by eapply IH; [..|exact H]]. apply bind_Ok in H as (c1 & H1 & H).
  assert (ready = it ∧ answered config c ready) as [-> Ha].
  { destruct (type_eqb (cmd_type it) PIM_ACTIVATE).
    - split; [|by eexists]. eapply (answer_is_command _ _ (if type_eqb (cmd_type it) LH_READ_PRECHARGE
        || type_eqb (cmd_type it) LH_READ then LH_READ else GH_READ)); [by destruct (_ || _)|done..].
    - split; [by eapply answer_of_command|by eexists]. }
  destruct (issue_pim_traced config it c c1 Hc Hv Ha H1) as [Hc1 _].
  apply (IH i kept (set_release_time (erase_at i (release_time c1)) c1)); try done. destruct Hc1. by split.
Qed.

Lemma wr_loop_traced (config : Config) kept todo c c' :
  ctl_traced config k c → bank_commands kept → bank_commands todo →
  wr_loop config (Timing_of config) kept todo c = Ok c' → ctl_traced config k c'.
Proof.
  assert (Hset : ∀ c l, ctl_traced config k c → bank_commands l → ctl_traced config k (set_wr_cmds_ l c))
    by (intros ? ? [] ?; by split).
  revert kept c. induction todo as [|it todo IH]; intros kept c Hc Hk Ht; cbn [wr_loop].
  { intros [= <-]. by apply Hset. }
  apply Forall_cons in Ht as [Hrk Ht]. intros (ready & Hr & H)%bind_Ok.
  destruct (IsValid ready && type_eqb (cmd_type ready) (cmd_type it)) eqn:E.
  2:{ eapply IH; [done| |done|exact H]. by apply Forall_app; split; [|apply Forall_singleton]. }
  apply andb_true_iff in E as [Hv Et%type_eqb_true].
  destruct (negb _); [|by eapply IH; [..|exact H]]. apply bind_Ok in H as (c1 & H1 & H).
  assert (ready = it ∧ answered config c ready) as [-> Ha].
  { destruct (type_eqb (cmd_type it) PIM_ACTIVATE).
    - split; [by eapply (answer_is_command _ _ PIM_WRITE)|by eexists].
    - split; [by eapply answer_of_command|by eexists]. }
  destruct (IssueCommand_traced config it c c1 Hc Hv Ha H1) as [Hc1 _].
  destruct (wr_multitenant c1); [|by eapply IH; [..|exact H]].
  injection H as <-. apply Hset; [done|]. by apply Forall_app.
Qed.

(** ** A clock cycle *)

Lemma issue_chosen_traced (config : Config) cmd c c' b :
  ctl_traced config k c → (IsValid cmd = true → answered config c cmd) →
  issue_chosen config (Timing_of config) cmd c = Ok (c', b) → ctl_traced config k c'.
Proof.
  intros Hc Ha. unfold issue_chosen. destruct (IsValid cmd) eqn:Hv; [|by intros [= <- _]].
  intros (c1 & H1 & H)%bind_Ok. destruct (IssueCommand_traced config cmd c c1 Hc Hv (Ha eq_refl) H1) as [Hc1 _].
  destruct (enable_hbm_dual_cmd config); [|by injection H as <- _].
  apply bind_Ok in H as ([[cmd2 q] s] & Hg & H). apply issue_scan_answer in Hg as [Hq Hr].
  set (c2 := set_simple_stats_ s (set_cmd_queue_ q c1)) in *.
  assert (Hc2 : ctl_traced config k c2).
  { apply (traced_same config c1); [|done]. by split_and!. }
  destruct (IsValid cmd2 && _) eqn:E; [|by injection H as <- _].
  apply andb_true_iff in E as [Hv2 _]. apply bind_Ok in H as (c3 & H3 & [= <- _]).
  destruct (Hr Hv2) as [req Hreq]. rewrite (ct_clk _ _ _ Hc1) in Hreq.
  destruct (IssueCommand_traced config cmd2 c2 c3 Hc2 Hv2) as [[] _]; [by exists req|done|]. by split.
Qed.

Lemma issue_phase_traced (config : Config) cmd c c' b :
  ctl_traced config k c → (IsValid cmd = true → answered config c cmd) →
  issue_phase config (Timing_of config) cmd c = Ok (c', b) → ctl_traced config k c'.
Proof.
  intros Hc Ha. unfold issue_phase. destruct (_ || _); [by apply issue_chosen_traced|].
  intros (c1 & H1 & H)%bind_Ok. apply bind_Ok in H as (c2 & H2 & H). apply bind_Ok in H as (c3 & H3 & [= <- _]).
  apply rd_w_loop_traced in H1; [|done|by apply Forall_nil|apply Hc].
  apply rd_in_loop_traced in H2; [|done|by apply Forall_nil|apply H1].
  apply wr_loop_traced in H3; [done|done|by apply Forall_nil|apply H2].
Qed.

Lemma increment_vec_same name i c c' : increment_vec name i c = Ok c' → same_trace c c'.
Proof. intros (s & _ & [= <-])%bind_Ok. done. Qed.

Lemma traced_idle (config : Config) c v :
  ctl_traced config k c → length v = length (rank_idle_cycles (channel_state_ c)) →
  ctl_traced config k (set_channel_state_ (set_rank_idle_cycles v (channel_state_ c)) c).
Proof. intros [(now & Hr & Hn) ? ? ? ? ?] Hv. split; try done. exists now. split; [by apply run_idle|done]. Qed.

Lemma rank_power_traced (config : Config) i c c' :
  ctl_traced config k c → rank_power config i c = Ok c' → ctl_traced config k c'.
Proof.
  intros Hc. unfold rank_power. intros (sref & _ & H)%bind_Ok.
  assert (Hinc : ∀ name c1, increment_vec name i c = Ok c1 → ctl_traced config k c1)
    by (intros name c1 H1; by eapply traced_same; [by eapply increment_vec_same|]).
  destruct sref; [by eapply Hinc|]. apply bind_Ok in H as (idle & _ & H).
  destruct idle; apply bind_Ok in H as (c1 & H1 & H); apply Hinc in H1.
  - apply bind_Ok in H as (n & _ & H). apply bind_Ok in H as (v & Hv & [= <-]).
    apply traced_idle; [done|]. apply vset_size in Hv. unfold vsize in Hv. lia.
  - apply bind_Ok in H as (v & Hv & [= <-]). apply traced_idle; [done|]. apply vset_size in Hv.
    unfold vsize in Hv. lia.
Qed.

Lemma sref_scan_traced (config : Config) l c c' :
  ctl_traced config k c → sref_scan config (Timing_of config) l c = Ok c' → ctl_traced config k c'.
Proof.
  intros Hc. induction l as [|i l IH]; cbn [sref_scan]; [by intros [= <-]|].
  assert (Htry : ∀ t addr, (cmd ← GetReadyCommand config (channel_state_ c) (mkCommand t addr (u64 (-1))) (ctl_clk_ c);
      if IsValid cmd then IssueCommand config (Timing_of config) cmd c
      else sref_scan config (Timing_of config) l c) = Ok c' → ctl_traced config k c').
  { intros t addr (cmd & Hr & H)%bind_Ok. destruct (IsValid cmd) eqn:Hv; [|by apply IH].
    eapply (IssueCommand_traced config cmd c c'); [done|done|by eexists|done]. }
  intros (sref & _ & H)%bind_Ok. apply bind_Ok in H as (empty & _ & H). destruct sref.
  - destruct (negb empty); [by eapply Htry|by apply IH].
  - apply bind_Ok in H as (idle & _ & H). destruct (empty && _); [by eapply Htry|by apply IH].
Qed.

Lemma schedule_scan_same (config : Config) kept todo c l c' :
  schedule_scan config kept todo c = Ok (l, c') → same_trace c c'.
Proof.
  revert kept. induction todo as [|it todo IH]; intros kept; cbn [schedule_scan]; [by intros [= _ <-]|].
  cbv zeta. intros (accept & _ & H)%bind_Ok. destruct accept; [|by eapply IH].
  destruct (_ && _); [by injection H as _ <-|]. apply bind_Ok in H as ([q b] & Hq & [= _ <-]).
  assert (cq_clk_ q = cq_clk_ (cmd_queue_ c)) as E.
  { assert (E : ∀ c1, AddCommand config (cmd_queue_ c1) (TransToCommand config c it) = Ok (q, b) →
      cq_clk_ q = cq_clk_ (cmd_queue_ c1)).
    { unfold AddCommand. intros c1 (queue & _ & H)%bind_Ok. destruct (_ <? _); [|by injection H as <- _].
      returned H. by injection H as <- _. }
    apply E in Hq. by destruct (_ && _). }
  by destruct (_ && _).
Qed.

Lemma ScheduleTransaction_same (config : Config) c c' :
  ScheduleTransaction config c = Ok c' → same_trace c c'.
Proof.
  unfold ScheduleTransaction. match goal with |- (if _ ?x then _ else _) = _ → _ => set (c0 := x) end.
  assert (H0 : same_trace c c0) by (unfold c0; repeat case_match; done).
  destruct (is_unified_queue_ c0); [|destruct (0 <? _)]; intros ([l c1] & H & [= <-])%bind_Ok;
    apply schedule_scan_same in H; (etrans; [exact H0|]); by destruct H as (? & ? & ? & ? & ? & ? & ?).
Qed.

Lemma Refresh_tick_queue (config : Config) rf cs rf' cs' :
  Refresh.ClockTick config rf cs = Ok (rf', cs') → ∃ q, cs' = set_refresh_q q cs.
Proof.
  assert (Hid : ∃ q, cs = set_refresh_q q cs) by (exists (refresh_q_ cs); by destruct cs).
  unfold Refresh.ClockTick. destruct (_ =? 0); [done|]. intros ([rf1 cs1] & H & [= _ <-])%bind_Ok.
  destruct (_ && _); [|by injection H as _ <-]. unfold InsertRefresh in H.
  destruct (refresh_policy_ rf); [| | |done].
  - apply bind_Ok in H as (cs2 & H & [= _ <-]). revert H. generalize (seqZ 0 (ranks config)).
    intros l. induction l as [|i l IH]; cbn [simultaneous_scan]; [by intros [= <-]|].
    intros (sref & _ & H)%bind_Ok. destruct sref; cbn [negb] in H; [by apply IH|]. injection H as <-. by eexists.
  - apply bind_Ok in H as (sref & _ & H). apply bind_Ok in H as (rf2 & _ & [= _ <-]). destruct sref; [done|by eexists].
  - apply bind_Ok in H as (sref & _ & H). apply bind_Ok in H as (rf2 & _ & [= _ <-]). destruct sref; [done|by eexists].
Qed.


Lemma ClockTick_traced (config : Config) c c' :
  ctl_traced config k c → 0 ≤ k < 2 ^ 63 →
  ClockTick config (Timing_of config) c = Ok c' → ctl_traced config (k + 1) c'.
Proof.
  intros Hc Hk. unfold ClockTick. intros ([rf cs] & Hrf & H)%bind_Ok. apply Refresh_tick_queue in Hrf as [q ->].
  set (c0 := set_channel_state_ _ _) in H.
  assert (Hc0 : ctl_traced config k c0).
  { destruct Hc as [(now & Hr & Hn) ? ? ? ? ?]. split; try done. exists now. split; [by apply run_refresh_q|done]. }
  apply bind_Ok in H as ([cmd c1] & H1 & H). apply choose_command_answer in H1 as [Hs1 Ha]; [|apply Hc0].
  apply bind_Ok in H as ([c2 issued] & H2 & H). apply issue_phase_traced in H2; [|by eapply traced_same|done].
  apply bind_Ok in H as (c3 & H3 & H). apply (for_each_inv (ctl_traced config k)) in H3;
    [|intros i s s' _; apply rank_power_traced|done].
  apply bind_Ok in H as (c4 & H4 & H).
  assert (Hc4 : ctl_traced config k c4)
    by (revert H4; case_match; [by apply sref_scan_traced|by intros [= <-]]).
  apply bind_Ok in H as (c5 & H5 & [= <-]). apply ScheduleTransaction_same, (traced_same config) in H5; [|done].
  destruct H5 as [(now & Hr & Hn) Hq Hb ? ? ?]. assert (E : u64 (k + 1) = k + 1) by (apply u64_id; lia).
  rewrite <- E, <- Hb. split; try done.
  - exists now. split; [exact Hr|]. change (now ≤ u64 (ctl_clk_ c5 + 1)). rewrite Hb, E. lia.
  - cbn. by rewrite Hq.
Qed.
End Cycle.

(** ** Reachable states *)

Lemma AddTransaction_same t c : same_trace c (AddTransaction t c).1.
Proof. unfold AddTransaction. cbv zeta. repeat case_match; done. Qed.

Lemma ReturnDoneTrans_same clk c : same_trace c (ReturnDoneTrans clk c).2.
Proof.
  unfold ReturnDoneTrans. generalize ([] : list Transaction) as kept. generalize (return_queue_ c) as todo.
  intros todo. induction todo as [|it todo IH]; intros kept; cbn [return_scan]; [done|].
  destruct (_ <=? _); [by destruct (is_write it)|apply IH].
Qed.

Lemma step_traced fd st (config : Config) e k c done c' done' :
  ctl_traced config k c → 0 ≤ k < 2 ^ 63 → event_tame e → step fd st config e (c, done) = Ok (c', done') →
  ∃ k', ctl_traced config k' c' ∧ k ≤ k' ≤ k + 1.
Proof.
  intros Hc Hk He. destruct e as [|t|clk| |w i o rt|pim multi]; cbn [step].
  - intros (c1 & H & [= <- _])%bind_Ok. exists (k + 1). split; [by eapply ClockTick_traced|lia].
  - intros [= <- _]. exists k. split; [|lia]. by eapply traced_same; [apply AddTransaction_same|].
  - pose proof (ReturnDoneTrans_same clk c) as Hs. destruct (ReturnDoneTrans clk c) as [[a w] c1].
    intros [= <- _]. exists k. split; [by eapply traced_same|lia].
  - intros ([c1 out] & H & [= <- _])%bind_Ok. unfold PrintEpochStats in H.
    apply bind_Ok in H as ([s out'] & _ & [= <- _]). exists k. split; [|lia]. by eapply traced_same; [|exact Hc].
  - destruct He as (Hw & Hi & Ho). intros [= <- _]. exists k. split; [|lia]. destruct Hc. by split; try done; apply Forall_app.
  - intros [= <- _]. exists k. split; [|lia]. by eapply traced_same; [|exact Hc].
Qed.

Lemma reachable_traced fd st (config : Config) ch c :
  reachable fd st config ch c → ∃ k, ctl_traced config k c ∧ 0 ≤ k ≤ 2 ^ 63.
Proof.
  induction 1 as [c H|c e done c' done' _ (k & Hc & Hk) Hlt He H|c _ (k & Hc & Hk)].
  - exists 0. split; [|lia]. unfold Controller_init in H. apply bind_Ok in H as (q & Hq & H).
    apply bind_Ok in H as (rf & _ & [= <-]). unfold CommandQueue_init in Hq. apply bind_Ok in Hq as ([s n] & _ & [= <-]).
    split; try done; try by apply Forall_nil. exists 0. split; [apply run_init|done].
  - rewrite (ct_now _ _ _ Hc) in Hlt. destruct (step_traced fd st config e k c done c' done') as (k' & Hc' & ?); [done|lia|done|done|].
    exists k'. split; [done|lia].
  - exists k. split; [|done]. by eapply traced_same; [|exact Hc].
Qed.

Lemma history_reachable fd st (config : Config) ch evs c done c' done' :
  reachable fd st config ch c → ctl_clk_ c + Z.of_nat (length evs) ≤ 2 ^ 63 → Forall event_tame evs →
  for_each (step fd st config) evs (c, done) = Ok (c', done') → reachable fd st config ch c'.
Proof.
  revert c done. induction evs as [|e evs IH]; intros c done Hc Hlen Ht; cbn [for_each]; [by intros [= <- _]|].
  intros ([c1 done1] & H1 & H)%bind_Ok. cbn [length] in Hlen. apply Forall_cons in Ht as [He Ht].
  destruct (reachable_traced _ _ _ _ _ Hc) as (k & Hk & Hr).
  destruct (step_traced fd st config e k c done c1 done1 Hk) as (k1 & Hk1 & ?); [rewrite (ct_now _ _ _ Hk) in Hlen; lia|done|done|].
  apply (IH c1 done1); [|rewrite (ct_now _ _ _ Hk) in Hlen; rewrite (ct_now _ _ _ Hk1); lia|done|done].
  apply (reach_step _ _ _ _ c e done _ done1); [done|rewrite (ct_now _ _ _ Hk) in *; lia|done|done].
Qed.

Lemma two_entries {A} (l : list A) i j x y : (i < j)%nat → l !! i = Some x → l !! j = Some y →
  ∃ l1 l2 l3, l = l1 ++ x :: l2 ++ y :: l3.
Proof.
  intros Hij Hi Hj. exists (take i l). rewrite <- (take_drop_middle l i x Hi) in Hj at 1.
  rewrite lookup_app_r in Hj by (rewrite length_take; lia). rewrite length_take, Nat.min_l in Hj.
  2:{ apply lookup_lt_Some in Hi. lia. }
  destruct (j - i)%nat as [|n] eqn:E; [lia|]. cbn in Hj.
  exists (take n (drop (S i) l)), (drop (S n) (drop (S i) l)).
  by rewrite (take_drop_middle _ _ _ Hj), take_drop_middle.
Qed.

Lemma activations_reverse r h : activations r (reverse h) = reverse (activations r h).
Proof.
  unfold activations. induction h as [|[clk cmd] h IH]; [done|]. rewrite reverse_cons, omap_app, IH. csimpl.
  destruct (_ && _); [by rewrite reverse_cons|by rewrite app_nil_r].
Qed.

Lemma reverse_pair {A} (l : list A) i x y n :
  l !! i = Some x → l !! (i + n)%nat = Some y →
  ∃ m, reverse l !! m = Some y ∧ reverse l !! (m + n)%nat = Some x.
Proof.
  intros Hx Hy. pose proof (lookup_lt_Some _ _ _ Hy). exists (length l - S (i + n))%nat.
  rewrite !reverse_lookup by lia. split; [rewrite <- Hy|rewrite <- Hx]; f_equal; lia.
Qed.

(** ** Properties *)

(** [C3] Timing safety of the controller: whatever transactions arrive and
    whenever cycles, returns, epochs and commands of the accelerator to single
    banks happen, for fewer than 2^63 cycles, no command of the trace is issued
    before a delay has passed that an earlier command of the trace imposes on a
    bank it executes on, and no five activations of a rank are issued within
    [tFAW] cycles.  Histories with a [PRECHARGE] among the weight commands of
    the accelerator are excluded ([event_tame]): the controller issues it
    without asking the channel, so that it can come too early. *)
Theorem controller_respects_timing fd st (config : Config) ch c :
  dims_ok config → reachable fd st config ch c →
  (∀ i j clk1 c1 clk2 c2 x d, (i < j)%nat →
     cmd_trace_ c !! i = Some (clk1, c1) → cmd_trace_ c !! j = Some (clk2, c2) →
     x ∈ target_cells config c2 → (cmd_type c2, d) ∈ delays (Timing_of config) c1 x →
     0 ≤ clk1 + d < 2 ^ 64 → clk1 + d ≤ clk2) ∧
  (∀ r i a1 a5, 0 ≤ r < ranks config →
     activations r (cmd_trace_ c) !! i = Some a1 → activations r (cmd_trace_ c) !! (i + 4)%nat = Some a5 →
     0 ≤ a1 + tFAW config < 2 ^ 64 → a1 + tFAW config ≤ a5).
Proof.
  intros Hd Hc. destruct (reachable_traced _ _ _ _ _ Hc) as (k & [(now & Hr & _) _ _ _ _ _] & _). split.
  - intros i j clk1 c1 clk2 c2 x d Hij Hi Hj Hx Hdel Hb.
    destruct (two_entries _ _ _ _ _ Hij Hi Hj) as (l1 & l2 & l3 & E).
    refine (issued_commands_respect_timing config _ now _ (reverse l1) (reverse l2) (reverse l3)
      c1 c2 clk1 clk2 x d Hd Hr _ Hx Hdel Hb).
    rewrite E, reverse_app, reverse_cons, reverse_app, reverse_cons. by rewrite <- !(assoc (++)).
  - intros r i a1 a5 Hrk H1 H5 Hb. destruct (reverse_pair _ _ _ _ _ H1 H5) as (m & Hm & Hm4).
    rewrite <- activations_reverse in Hm, Hm4.
    by destruct (four_activation_window config _ _ _ _ r m a5 a1 Hd Hr Hrk Hm Hm4 Hb).
Qed.

(** A read of an idle bank: an activation and, [tRCDRD] later, the access. *)
Definition one_read : list event := Add (Transaction_rw 4096 false) :: repeat Tick 40.

Lemma one_read_trace : ∃ c a r, reachable no_double no_line hbm2_config 0 c ∧
  cmd_trace_ c = [(1, a); (15, r)] ∧ cmd_type a = ACTIVATE ∧ cmd_type r = READ ∧
  cmd_coord a = (0, 0, 0) ∧ cmd_coord r = (0, 0, 0).
Proof.
  assert (E : (c0 ← Controller_init hbm2_config 0;
     '(c, _) ← for_each (step no_double no_line hbm2_config) one_read (c0, []); Ok (cmd_trace_ c))
     = Ok [(1, mkCommand ACTIVATE (mkAddress 0 0 0 0 0 16) 4096);
           (15, mkCommand READ (mkAddress 0 0 0 0 0 16) 4096)]) by (vm_compute; reflexivity).
  apply bind_Ok in E as (c0 & H0 & E). apply bind_Ok in E as ([c done] & H & [= E]).
  exists c. do 2 eexists. split; [|split; [exact E|done]].
  eapply history_reachable; [by apply reach_init| | |exact H].
  - apply Controller_init_inv in H0 as (_ & _ & -> & _); [done|apply hbm2_supported].
  - unfold one_read. cbn [repeat]. by repeat constructor.
Qed.

Lemma controller_respects_timing_witness :
  ∃ c a r, reachable no_double no_line hbm2_config 0 c ∧ cmd_trace_ c = [(1, a); (15, r)] ∧
    1 + activate_to_read (Delays_of hbm2_config) ≤ 15.
Proof.
  destruct one_read_trace as (c & a & r & Hc & Ht & Ha & Hr & Ga & Gr). exists c, a, r.
  split; [exact Hc|]. split; [exact Ht|].
  destruct (controller_respects_timing no_double no_line hbm2_config 0 c hbm2_dims Hc) as [Hd _].
  apply (Hd 0%nat 1%nat 1 a 15 r (0, 0, 0) (activate_to_read (Delays_of hbm2_config))).
  - lia.
  - by rewrite Ht.
  - by rewrite Ht.
  - unfold target_cells. rewrite IsRankCMD_type, Hr, Gr. by left.
  - unfold delays. rewrite Ha, Hr. unfold cmd_coord in Ga. injection Ga as -> -> ->. vm_compute. do 2 right. left.
  - by vm_compute.
Defined.
