(* ===== verification/DramSystem.v ===== *)
(** * Memory systems: the abstract class of src/src/dram_system.h

    [BaseDRAMSystem] declares what every memory system offers to the
    processor.  Its pure virtual methods are the class [DRAMSystem]; the
    callbacks that a method invokes are returned as a list, in the order of
    the calls.  [DRAMSystemLaws] is the contract that the clients of a memory
    system (src/src/cpu.cc) rely on; the ideal memory of this file satisfies
    it, and so do the JEDEC memory systems of [JedecSystem]. *)
From stdpp Require Import base tactics numbers list list_numbers gmap strings sets.
From S2P Require Import Prelude Common Configuration.

Local Open Scope Z_scope.

(** ** The interface *)

Class DRAMSystem (S : Type) := {
  ds_will_accept_pim : S → bool;
  ds_add_pim : Z → S → outcome (S * bool);
  ds_will_accept : S → Z → bool → outcome bool;
  ds_add : Z → bool → S → outcome (S * bool);
  ds_tick : S → outcome (S * list callback);
  ds_turn_off : S → bool
}.

(** The contract.  [sys_ok] is the invariant of the implementation,
    [sys_addr] the addresses it can serve, [sys_pending] the callbacks it owes
    and [sys_left] the number of cycles for which the contract still lasts (the
    clocks of the program are 64-bit counters). *)
Class DRAMSystemLaws (S : Type) `{!DRAMSystem S} := {
  sys_ok : S → Prop;
  sys_addr : S → Z → Prop;
  sys_pending : S → list callback;
  sys_left : S → Z;
  sys_accept s a w : sys_ok s → sys_addr s a → ∃ b, ds_will_accept s a w = Ok b;
  sys_add s a w :
    sys_ok s → sys_addr s a → ds_will_accept s a w = Ok true →
    ∃ s', ds_add a w s = Ok (s', true) ∧ sys_ok s' ∧ sys_left s' = sys_left s ∧
      (∀ a', sys_addr s a' → sys_addr s' a') ∧
      sys_pending s' ≡ₚ callback_of a w :: sys_pending s;
  sys_tick s :
    sys_ok s → 0 < sys_left s →
    ∃ s' cbs, ds_tick s = Ok (s', cbs) ∧ sys_ok s' ∧ sys_left s' = sys_left s - 1 ∧
      (∀ a', sys_addr s a' → sys_addr s' a') ∧
      sys_pending s ≡ₚ cbs ++ sys_pending s'
}.

(** *** A client's session

    What a processor does to a memory system: it lets a cycle pass, or submits
    a transaction after having asked whether it will be accepted.  The two
    lists collect the transactions accepted and the callbacks received. *)
Inductive request := Clock | Submit (a : Z) (w : bool).

Definition serve {S} `{!DRAMSystem S} (r : request) (x : S * list callback * list callback)
    : outcome (S * list callback * list callback) :=
  let '(s, accepted, received) := x in
  match r with
  | Clock => '(s, cbs) ← ds_tick s; Ok (s, accepted, received ++ cbs)
  | Submit a w =>
      b ← ds_will_accept s a w;
      if (b : bool) then
        '(s, _) ← ds_add a w s; Ok (s, accepted ++ [callback_of a w], received)
      else Ok (s, accepted, received)
  end.

Definition request_ok {S} `{DRAMSystemLaws S} (s : S) (r : request) : Prop :=
  match r with Clock => True | Submit a _ => sys_addr s a end.

(** ** The ideal memory *)

Record IdealDRAMSystem := mkIdeal {
  ideal_clk_ : Z;
  latency_ : Z;
  infinite_buffer_q_ : list Transaction;
  ideal_turn_off : bool
}.

Definition Ideal_init (config : Config) : IdealDRAMSystem :=
  mkIdeal 0 (ideal_memory_latency config) [] false.

Definition Ideal_AddTransaction (hex_addr : Z) (is_write : bool) (s : IdealDRAMSystem)
    : IdealDRAMSystem * bool :=
  let trans := mkTransaction hex_addr (ideal_clk_ s) 0 is_write false false in
  (mkIdeal (ideal_clk_ s) (latency_ s) (infinite_buffer_q_ s ++ [trans]) (ideal_turn_off s), true).

(** [clk_ - added_cycle >= static_cast<uint64_t>(latency_)]. *)
Definition is_due (clk latency : Z) (t : Transaction) : bool :=
  u64 latency <=? u64 (clk - added_cycle t).

(** The loop over the buffer: the callbacks and what remains.  [erase] returns
    an iterator to the next element, which the loop then steps over. *)
Fixpoint ideal_scan (clk latency : Z) (q : list Transaction)
    : list callback * list Transaction :=
  match q with
  | [] => ([], [])
  | t :: q =>
      if is_due clk latency t then
        match q with
        | [] => ([trans_callback t], [])
        | next :: q =>
            let '(cbs, kept) := ideal_scan clk latency q in
            (trans_callback t :: cbs, next :: kept)
        end
      else
        let '(cbs, kept) := ideal_scan clk latency q in (cbs, t :: kept)
  end.

Definition Ideal_ClockTick (s : IdealDRAMSystem) : IdealDRAMSystem * list callback :=
  let '(cbs, q) := ideal_scan (ideal_clk_ s) (latency_ s) (infinite_buffer_q_ s) in
  (mkIdeal (u64 (ideal_clk_ s + 1)) (latency_ s) q (ideal_turn_off s), cbs).

#[global] Instance ideal_system : DRAMSystem IdealDRAMSystem := {
  ds_will_accept_pim _ := true;
  ds_add_pim _ s := Ok (s, true);
  ds_will_accept _ _ _ := Ok true;
  ds_add a w s := Ok (Ideal_AddTransaction a w s);
  ds_tick s := Ok (Ideal_ClockTick s);
  ds_turn_off := ideal_turn_off
}.

(** ** Specification *)

(** The elements at even and at odd positions. *)
Fixpoint evens {A} (l : list A) : list A :=
  match l with
  | [] => []
  | x :: l => x :: match l with [] => [] | _ :: l => evens l end
  end.
Definition odds {A} (l : list A) : list A := evens (tail l).

(** Transactions enter the buffer in the order of the clock. *)
Record ideal_ok (s : IdealDRAMSystem) : Prop := {
  io_latency : 0 ≤ latency_ s < 2 ^ 31;
  io_clk : 0 ≤ ideal_clk_ s < 2 ^ 64;
  io_times : Forall (λ t, 0 ≤ added_cycle t ≤ ideal_clk_ s) (infinite_buffer_q_ s)
}.

Definition arrived (s : IdealDRAMSystem) (t : Transaction) : Prop :=
  latency_ s ≤ ideal_clk_ s - added_cycle t.

Fixpoint ideal_ticks (n : nat) (s : IdealDRAMSystem) : IdealDRAMSystem * list callback :=
  match n with
  | O => (s, [])
  | S n =>
      let '(s, cbs) := Ideal_ClockTick s in
      let '(s, cbs') := ideal_ticks n s in (s, cbs ++ cbs')
  end.

(** Two requests accepted in the same cycle, with a latency of ten. *)
Definition ideal_pair : IdealDRAMSystem :=
  mkIdeal 10 10 [Transaction_rw 64 false; Transaction_rw 128 true] false.

(** ** Sessions under the contract *)

Section Contract.
Context {S : Type} `{DRAMSystemLaws S}.

Lemma session_spec (s : S) rs acc rec :
  sys_ok s → Forall (request_ok s) rs → Z.of_nat (length rs) ≤ sys_left s →
  ∃ s' acc' rec', for_each serve rs (s, acc, rec) = Ok (s', acc', rec') ∧ sys_ok s' ∧
    acc' ++ rec ++ sys_pending s ≡ₚ acc ++ rec' ++ sys_pending s'.
Proof.
  revert s acc rec. induction rs as [|r rs IH]; intros s acc rec Hs Hr Ht; cbn [for_each].
  { by exists s, acc, rec. }
  apply Forall_cons in Hr as [Hr Hrs]. cbn [length] in Ht.
  assert (Hmono : ∀ s' : S, (∀ a, sys_addr s a → sys_addr s' a) → Forall (request_ok s') rs).
  { intros s' Ha. eapply Forall_impl; [exact Hrs|]. intros []; simpl; auto. }
  destruct r as [|a w]; cbn [serve].
  - destruct (sys_tick s Hs) as (s1 & cbs & -> & Hs1 & Ht1 & Ha & Hp); [lia|].
    cbn [mbind outcome_bind].
    destruct (IH s1 acc (rec ++ cbs) Hs1 (Hmono _ Ha)) as (s2 & acc2 & rec2 & -> & Hs2 & Hp2); [lia|].
    exists s2, acc2, rec2. split; [done|]. split; [done|]. by rewrite <- Hp2, Hp, !(assoc (++)).
  - destruct (sys_accept s a w Hs Hr) as [[] Hacc]; rewrite Hacc; cbn [mbind outcome_bind].
    + destruct (sys_add s a w Hs Hr Hacc) as (s1 & -> & Hs1 & Ht1 & Ha & Hp).
      cbn [mbind outcome_bind].
      destruct (IH s1 (acc ++ [callback_of a w]) rec Hs1 (Hmono _ Ha))
        as (s2 & acc2 & rec2 & -> & Hs2 & Hp2); [lia|].
      exists s2, acc2, rec2. split; [done|]. split; [done|].
      rewrite Hp in Hp2. apply (Permutation_cons_inv (a := callback_of a w)).
      rewrite !(Permutation_middle acc2), !(Permutation_middle rec), Hp2.
      rewrite <- (assoc (++)). by rewrite Permutation_middle.
    + destruct (IH s acc rec Hs Hrs) as (s2 & acc2 & rec2 & -> & Hs2 & Hp2); [lia|].
      by exists s2, acc2, rec2.
Qed.
End Contract.

(** ** The scan *)

(** Induction two elements at a time, as the loop proceeds. *)
Lemma list_ind2 {A} (P : list A → Prop) :
  P [] → (∀ x, P [x]) → (∀ x y l, P l → P (y :: l) → P (x :: y :: l)) → ∀ l, P l.
Proof.
  intros H0 H1 H2 l. enough (P l ∧ ∀ x, P (x :: l)) by tauto.
  induction l as [|y l [IH1 IH2]]; [by split|]. split; [apply IH2|]. intros x. apply H2; [exact IH1|apply IH2].
Qed.

Lemma ideal_scan_perm clk lat q :
  let '(cbs, kept) := ideal_scan clk lat q in
  trans_callback <$> q ≡ₚ cbs ++ (trans_callback <$> kept).
Proof.
  induction q as [|t|t next q IH1 IH2] using list_ind2; [constructor|..].
  - simpl. by destruct (is_due clk lat t).
  - cbn [ideal_scan] in *. destruct (is_due clk lat t).
    + destruct (ideal_scan clk lat q) as [cbs kept]. csimpl. by rewrite IH1, Permutation_middle.
    + destruct (if is_due clk lat next then _ else _) as [cbs kept]. csimpl in *.
      by rewrite IH2, Permutation_middle.
Qed.

Lemma ideal_scan_kept clk lat q P :
  Forall P q → Forall P (ideal_scan clk lat q).2.
Proof.
  induction q as [|t|t next q IH1 IH2] using list_ind2; [done|..]; intros H.
  - simpl. by destruct (is_due clk lat t).
  - apply Forall_cons in H as [Ht H]. cbn [ideal_scan] in *. destruct (is_due clk lat t).
    + apply Forall_cons in H as [Hn H]. specialize (IH1 H).
      destruct (ideal_scan clk lat q) as [cbs kept]. by constructor.
    + specialize (IH2 H). destruct (if is_due clk lat next then _ else _) as [cbs kept].
      by constructor.
Qed.

Lemma ideal_scan_fresh clk lat q :
  Forall (λ t, is_due clk lat t = false) q → ideal_scan clk lat q = ([], q).
Proof. induction 1 as [|t q Ht _ IH]; [done|]. cbn [ideal_scan]. by rewrite Ht, IH. Qed.

Lemma ideal_scan_due clk lat ds rest :
  Forall (λ t, is_due clk lat t = true) ds → Forall (λ t, is_due clk lat t = false) rest →
  ideal_scan clk lat (ds ++ rest) = (trans_callback <$> evens ds, odds ds ++ rest).
Proof.
  intros Hds Hr. revert Hds.
  induction ds as [|t|t next ds IH _] using list_ind2; intros Hds.
  - by apply ideal_scan_fresh.
  - apply Forall_cons in Hds as [Ht _]. cbn. rewrite Ht. destruct rest as [|r rest]; [done|].
    apply Forall_cons in Hr as [_ Hr]. by rewrite (ideal_scan_fresh _ _ rest Hr).
  - apply Forall_cons in Hds as [Ht Hds]. apply Forall_cons in Hds as [_ Hds].
    cbn. rewrite Ht, (IH Hds). unfold odds. cbn. f_equal. f_equal. by destruct ds.
Qed.

Lemma is_due_arrived s t :
  ideal_ok s → t ∈ infinite_buffer_q_ s →
  is_due (ideal_clk_ s) (latency_ s) t = true ↔ arrived s t.
Proof.
  intros [Hl Hc Ht] Hin. pose proof (proj1 (Forall_forall _ _) Ht _ Hin) as H. simpl in H.
  unfold is_due, arrived. rewrite !u64_id by lia. apply Z.leb_le.
Qed.

(** ** The ideal memory keeps the contract *)

Lemma Ideal_add_ok a w s : ideal_ok s → ideal_ok (Ideal_AddTransaction a w s).1.
Proof.
  intros [Hl Hc Ht]. split; simpl; [done|done|]. apply Forall_app. split; [done|].
  constructor; [simpl; lia|done].
Qed.

Lemma Ideal_tick_spec s s' cbs :
  ideal_ok s → ideal_clk_ s < 2 ^ 63 → Ideal_ClockTick s = (s', cbs) →
  ideal_ok s' ∧ ideal_clk_ s' = ideal_clk_ s + 1 ∧ latency_ s' = latency_ s ∧
  trans_callback <$> infinite_buffer_q_ s ≡ₚ cbs ++ (trans_callback <$> infinite_buffer_q_ s').
Proof.
  intros [Hl Hc Ht] Hb H. unfold Ideal_ClockTick in H.
  pose proof (ideal_scan_perm (ideal_clk_ s) (latency_ s) (infinite_buffer_q_ s)) as Hp.
  pose proof (ideal_scan_kept (ideal_clk_ s) (latency_ s) _ _ Ht) as Hk.
  destruct (ideal_scan _ _ _) as [c q]. injection H as <- <-. simpl in *.
  rewrite u64_id by lia. split_and!; [|done..]. split; simpl; [done|lia|].
  eapply Forall_impl; [exact Hk|]. simpl. lia.
Qed.

#[global] Program Instance ideal_laws : DRAMSystemLaws IdealDRAMSystem := {
  sys_ok := ideal_ok;
  sys_addr _ _ := True;
  sys_pending s := trans_callback <$> infinite_buffer_q_ s;
  sys_left s := 2 ^ 63 - ideal_clk_ s
}.
Next Obligation. intros s a w _ _. by exists true. Qed.
Next Obligation.
  intros s a w Hs _ _. eexists. split; [reflexivity|]. split; [by apply (Ideal_add_ok a w)|].
  split_and!; [done..|]. simpl. rewrite fmap_app. simpl. by rewrite Permutation_app_comm.
Qed.
Next Obligation.
  intros s Hs Hb. destruct (Ideal_ClockTick s) as [s' cbs] eqn:E. exists s', cbs. simpl in Hb.
  destruct (Ideal_tick_spec s s' cbs Hs ltac:(lia) E) as (? & ? & _ & ?).
  split_and!; [simpl; by rewrite E|done|lia|done|done].
Qed.

(** ** How long a request waits *)

Lemma evens_lookup {A} (l : list A) p : evens l !! p = l !! (2 * p)%nat.
Proof.
  revert p. induction l as [|x|x y l IH _] using list_ind2; intros p; [done|..].
  - destruct p as [|p]; [done|]. cbn. symmetry. apply lookup_ge_None. simpl. lia.
  - destruct p as [|p]; [done|].
    replace (2 * S p)%nat with (S (S (2 * p))) by lia. cbn [evens lookup list_lookup].
    apply IH.
Qed.

Lemma odds_lookup {A} (l : list A) p : odds l !! p = l !! S (2 * p).
Proof. unfold odds. rewrite evens_lookup. by destruct l. Qed.

Lemma evens_elem {A} (l : list A) p x : l !! (2 * p)%nat = Some x → x ∈ evens l.
Proof. rewrite <- evens_lookup. apply list_elem_of_lookup_2. Qed.

(** One tick on a buffer whose first transactions are due. *)
Lemma ideal_tick_due s ds rest :
  ideal_ok s → infinite_buffer_q_ s = ds ++ rest →
  Forall (arrived s) ds → Forall (λ t, ¬ arrived s t) rest →
  Ideal_ClockTick s =
    (mkIdeal (u64 (ideal_clk_ s + 1)) (latency_ s) (odds ds ++ rest) (ideal_turn_off s),
     trans_callback <$> evens ds).
Proof.
  intros Hs Hq Hds Hr. unfold Ideal_ClockTick. rewrite Hq, ideal_scan_due; [done|..].
  - apply Forall_forall. intros t Ht. apply (is_due_arrived s t Hs).
    + rewrite Hq. set_solver.
    + by apply (proj1 (Forall_forall _ _) Hds).
  - apply Forall_forall. intros t Ht. apply not_true_iff_false.
    rewrite (is_due_arrived s t Hs) by (rewrite Hq; set_solver).
    by apply (proj1 (Forall_forall _ _) Hr).
Qed.

(** A request at position [p] of the due ones waits for as many ticks as it
    takes to halve [p] down to an even number. *)
Lemma ideal_wait n : ∀ s ds p t,
  ideal_ok s → ideal_clk_ s + Z.of_nat n < 2 ^ 63 → infinite_buffer_q_ s = ds →
  Forall (arrived s) ds → ds !! p = Some t → (p < 2 ^ n)%nat →
  trans_callback t ∈ (ideal_ticks (S n) s).2.
Proof.
  induction n as [|n IH]; intros s ds p t Hs Hb Hq Hds Hp Hn.
  - cbn [ideal_ticks]. rewrite (ideal_tick_due s ds []) by (by rewrite ?app_nil_r).
    simpl. rewrite app_nil_r. assert (p = 0)%nat as -> by (simpl in Hn; lia).
    apply list_elem_of_fmap_2, (evens_elem _ 0). done.
  - cbn [ideal_ticks]. destruct (Ideal_ClockTick s) as [s' cbs] eqn:E.
    destruct (Ideal_tick_spec s s' cbs Hs) as (Hs' & Hk & Hl & _); [lia|done|].
    rewrite (ideal_tick_due s ds []) in E by (by rewrite ?app_nil_r).
    injection E as Es <-. rewrite app_nil_r in Es.
    assert (Hrec : ∀ k, odds ds !! k = Some t → (k < 2 ^ n)%nat →
      trans_callback t ∈ (ideal_ticks (S n) s').2).
    { intros k Hk' Hlt. apply (IH s' (odds ds) k); [done|lia|by rewrite <- Es| |done|done].
      apply Forall_forall. intros x Hx. apply list_elem_of_lookup in Hx as [j Hj].
      rewrite odds_lookup in Hj. apply list_elem_of_lookup_2 in Hj.
      pose proof (proj1 (Forall_forall _ _) Hds _ Hj) as Ha.
      unfold arrived in *. rewrite Hk, Hl. lia. }
    clear IH. cbn [ideal_ticks] in Hrec. destruct (Ideal_ClockTick s') as [s2 c2].
    destruct (ideal_ticks n s2) as [s3 c3]. simpl in *.
    rewrite elem_of_app. destruct (Nat.Even_or_Odd p) as [[k ->]|[k ->]].
    + left. apply list_elem_of_fmap_2. by eapply evens_elem.
    + right. apply (Hrec k); [|simpl in Hn; lia]. rewrite odds_lookup.
      by replace (S (2 * k)) with (2 * k + 1)%nat by lia.
Qed.

(** ** Properties *)

(** What a cycle of the ideal memory does: of the requests whose latency
    has passed, which are the first of its buffer, it completes every other
    one, the first included, in order, and keeps the rest. *)
Theorem ideal_completes_every_other s ds rest :
  ideal_ok s → infinite_buffer_q_ s = ds ++ rest →
  Forall (arrived s) ds → Forall (λ t, ¬ arrived s t) rest →
  ∃ s', ds_tick s = Ok (s', trans_callback <$> evens ds) ∧
    infinite_buffer_q_ s' = odds ds ++ rest.
Proof.
  intros Hs Hq Hds Hr. eexists.
  split; [simpl; by rewrite (ideal_tick_due s ds rest Hs Hq Hds Hr)|done].
Qed.

Lemma ideal_pair_ok : ideal_ok ideal_pair ∧ Forall (arrived ideal_pair) (infinite_buffer_q_ ideal_pair).
Proof. split; [split; simpl; [lia|lia|]|]; repeat constructor; vm_compute; congruence. Qed.

Lemma ideal_completes_every_other_witness :
  ∃ s', ds_tick ideal_pair = Ok (s', [ReadCallback 64]) ∧
    infinite_buffer_q_ s' = [Transaction_rw 128 true].
Proof.
  exact (ideal_completes_every_other ideal_pair _ [] (proj1 ideal_pair_ok)
    (eq_sym (app_nil_r _)) (proj2 ideal_pair_ok) (Forall_nil_2 _)).
Defined.

(** The wait of a request is bounded: once the latency has passed for
    the whole buffer, the request at position [p < 2^n] is completed within
    [n + 1] cycles. *)
Theorem ideal_wait_bounded s p t n :
  ideal_ok s → ideal_clk_ s + Z.of_nat n < 2 ^ 63 →
  Forall (arrived s) (infinite_buffer_q_ s) → infinite_buffer_q_ s !! p = Some t →
  (p < 2 ^ n)%nat → trans_callback t ∈ (ideal_ticks (S n) s).2.
Proof. intros Hs Hb Ha Hp Hn. by apply (ideal_wait n s _ p t Hs Hb eq_refl). Qed.

Lemma ideal_wait_bounded_witness :
  WriteCallback 128 ∈ (ideal_ticks 2 ideal_pair).2.
Proof.
  apply (ideal_wait_bounded ideal_pair 1 (Transaction_rw 128 true) 1
    (proj1 ideal_pair_ok) ltac:(reflexivity) (proj2 ideal_pair_ok) eq_refl). simpl. lia.
Defined.
