(* ===== verification/PimScheduler.v ===== *)
(** * The accelerator's scheduler: the processing-in-memory part of
    JedecDRAMSystem::ClockTick in src/src/dram_system.cc

    A matrix multiplication is described by packets, which are the addresses
    of PIM transactions: one packet sets the dataflow of the processing array
    (how it is cut, the tile sizes), others set the dimensions and base rows of
    the operands of a cut, and one launches the computation.  In every cycle
    the scheduler then generates the commands that load weights, stream inputs
    and write outputs.

    The twenty vectors of the class that are indexed by the number of a cut are
    cleared and assigned together, with one length; the model holds them as one
    vector of records ([Cut]).  Arithmetic on [int] is exact: its overflow is
    undefined in the source language.  The conversions between [uint64_t] and
    [int] are written out. *)
From stdpp Require Import base tactics numbers list list_numbers gmap strings sets.
From coqutil Require Import Datatypes.RecordSetters.
From S2P Require Import Prelude Common Configuration ChannelState Refresh.

Import TriangleBracketNotations.
Local Open Scope Z_scope.

(** ** Data *)

(** The configuration of the dataflow; -1 until a packet sets it. *)
Record Dataflow := mkDataflow {
  vcuts : Z;
  hcuts : Z;
  mcf : Z;
  ucf : Z;
  mc : Z;
  df : Z;
  vcuts_next : Z;
  hcuts_next : Z;
  M_tile_size : Z;
  stride : Z;
  kernel_size : Z
}.

Definition Dataflow_init : Dataflow := mkDataflow (-1) (-1) 1 1 1 (-1) (-1) (-1) 0 0 0.

(** The workload and the progress of one cut of the array. *)
Record Cut := mkCut {
  base_rows_in : Z;
  base_rows_w : Z;
  base_rows_out : Z;
  M : Z;
  N : Z;
  K : Z;
  M_it : Z;
  N_it : Z;
  K_tile_it : Z;
  M_out_it : Z;
  N_out_tile_it : Z;
  in_pim : bool;
  iw_status : Z;
  in_act_placed : bool;
  w_act_placed : bool;
  out_act_placed : bool;
  output_valid : Z;
  in_cnt : Z;
  out_cnt : Z;
  vpu_cnt : Z
}.

(** What [assign(cuts, ...)] puts into every vector. *)
Definition Cut_init : Cut :=
  mkCut 0 0 0 0 0 0 0 0 0 0 0 false 0 false false false 0 0 (-1) 0.

Definition total_cuts (f : Dataflow) : Z := vcuts f * hcuts f.

(** ** Packets *)

(** The low [w] bits of a packet. *)
Definition low_bits (w address : Z) : Z := Z.land address (Z.shiftl 1 w - 1).

Definition is_launch (address : Z) : bool := negb (Z.land address 1 =? 0).
Definition is_dataflow (address : Z) : bool :=
  negb (Z.land address (Z.shiftl 1 6) =? 0) && negb (Z.land address (Z.shiftl 1 5) =? 0).

(** [address & (1 << i)], the shift being on [int]: it is undefined for [i] of
    32 and more, which exist if a dataflow packet asks for more than 32 cuts;
    here such a cut is not selected.  The theorems about launched arrays
    assume the packet that the code accepts and do not depend on it. *)
Definition selects (address i : Z) : bool :=
  negb (Z.land address (u64 (s32 (Z.shiftl 1 i))) =? 0).

(** The loop over all cuts of a launch packet; a cut is read only if the
    packet selects it. *)
Definition configured (f : Dataflow) (cs : list Cut) (address : Z) : outcome bool :=
  for_range (total_cuts f)
    (λ i b,
       if selects address i then
         c ← vget cs i;
         Ok (b && negb (M c =? 0) && negb (N c =? 0) && negb (K c =? 0))
       else Ok false)
    true.

(** [in_pim[i] = true] for the selected cuts. *)
Definition launch (f : Dataflow) (cs : list Cut) (address : Z) : outcome (list Cut) :=
  for_range (total_cuts f)
    (λ i cs,
       if selects address i then
         c ← vget cs i; vset cs i (c <| in_pim := true |>)
       else Ok cs)
    cs.

(** Loading the dataflow configuration. *)
Definition load_dataflow (address : Z) : Dataflow :=
  let address := Z.shiftr (Z.shiftr (Z.shiftr address 1) 4) 2 in
  let vcuts := Z.shiftl 1 (low_bits 3 address) in
  let address := Z.shiftr address 3 in
  let hcuts := Z.shiftl 1 (low_bits 1 address) in
  let address := Z.shiftr address 1 in
  let mcf := Z.shiftl 1 (low_bits 3 address) in
  let address := Z.shiftr address 3 in
  let ucf := Z.shiftl 1 (low_bits 3 address) in
  let address := Z.shiftr address 3 in
  let df := low_bits 1 address in
  let address := Z.shiftr address 1 in
  let mc := mcf * ucf in
  let M_tile_size := Z.shiftl 1 (low_bits 4 address) in
  let address := Z.shiftr address 4 in
  let vcuts_next := Z.shiftl 1 (low_bits 3 address) in
  let address := Z.shiftr address 3 in
  let hcuts_next := Z.shiftl 1 (low_bits 1 address) in
  let address := Z.shiftr address 1 in
  let kernel_size := low_bits 5 address in
  let address := Z.shiftr address 5 in
  let stride := low_bits 5 address in
  mkDataflow vcuts hcuts mcf ucf mc df vcuts_next hcuts_next M_tile_size stride kernel_size.

(** The fields of a workload packet: cut, kind of load, dimension, base row. *)
Definition workload_fields (address : Z) : Z * Z * Z * Z :=
  let address := Z.shiftr address 1 in
  let cut_no := low_bits 4 address in
  let address := Z.shiftr address 4 in
  let loadType := low_bits 2 address in
  let address := Z.shiftr address 2 in
  let dim_value := s32 (low_bits 32 address) in
  let address := Z.shiftr address 32 in
  let base_row := low_bits 22 address in
  (cut_no, loadType, dim_value, base_row).

(** Loading the workload configuration. *)
Definition load_workload (address : Z) (cs : list Cut) : outcome (list Cut) :=
  let '(cut_no, loadType, dim_value, base_row) := workload_fields address in
  if loadType =? 0 then
    c ← vget cs cut_no; vset cs cut_no (c <| base_rows_w := base_row |> <| M := dim_value |>)
  else if loadType =? 1 then
    c ← vget cs cut_no; vset cs cut_no (c <| base_rows_out := base_row |> <| K := dim_value |>)
  else if loadType =? 2 then
    c ← vget cs cut_no; vset cs cut_no (c <| base_rows_in := base_row |> <| N := dim_value |>)
  else Fail (AbruptExit "dram_system.cc" 360).

(** ** Collecting the commands of one data vector *)

Section Collect.
Context (ready : Command → outcome Command).

(** The banks of one channel.  A command that is not ready, or that differs
    in type from the first one, empties the collection. *)
Fixpoint collect_banks (mk : Z → outcome Command) (ks : list Z) (cmds : list Command)
    : outcome (list Command) :=
  match ks with
  | [] => Ok cmds
  | k :: ks =>
      cmd ← mk k;
      ready_cmd ← ready cmd;
      if negb (IsValid ready_cmd) then Ok []
      else
        let cmds := cmds ++ [ready_cmd] in
        if type_eqb (cmd_type (hd ready_cmd cmds)) (cmd_type ready_cmd)
        then collect_banks mk ks cmds
        else Ok []
  end.

(** The channels of a cut, stopping at the first empty collection. *)
Fixpoint collect_channels (mk : Z → Z → outcome Command) (js ks : list Z)
    (cmds : list Command) : outcome (list Command) :=
  match js with
  | [] => Ok cmds
  | j :: js =>
      cmds ← collect_banks (mk j) ks cmds;
      match cmds with [] => Ok [] | _ => collect_channels mk js ks cmds end
  end.

(** The same for inputs: a command that is not ready drops what was collected
    so far and the rest of its channel; the flag records a mix of types. *)
Fixpoint collect_in_banks (mk : Z → outcome Command) (ks : list Z)
    (x : list Command * bool) : outcome (list Command * bool) :=
  match ks with
  | [] => Ok x
  | k :: ks =>
      cmd ← mk k;
      ready_cmd ← ready cmd;
      if negb (IsValid ready_cmd) then Ok ([], x.2)
      else
        let cmds := x.1 ++ [ready_cmd] in
        let mixed := x.2 || negb (type_eqb (cmd_type (hd ready_cmd cmds)) (cmd_type ready_cmd)) in
        collect_in_banks mk ks (cmds, mixed)
  end.

Definition collect_in (mk : Z → Z → outcome Command) (js ks : list Z)
    : outcome (list Command * bool) :=
  for_each (λ j, collect_in_banks (mk j) ks) js ([], false).
End Collect.

(** ** One cut in one cycle *)

(** [a || b] and [a && b] where evaluating [b] may fail. *)
Definition or_else (a : bool) (b : outcome bool) : outcome bool := if a then Ok true else b.
Definition and_then (a : bool) (b : outcome bool) : outcome bool := if a then b else Ok false.

(** The variables that the loop body computes first. *)
Record Geometry := mkGeometry {
  vcut_no : Z;
  cut_height : Z;
  hcut_no : Z;
  cut_width : Z;
  N_tile_size : Z;
  N_tile_it : Z;
  M_tile_it : Z;
  M_current_tile_size : Z;
  K_tile_size : Z;
  weight_banks_reduce : Z
}.

Definition geometry (config : Config) (f : Dataflow) (i : Z) (c : Cut) : outcome Geometry :=
  vcut_no ← irem i (vcuts f);
  cut_height ← idiv (channels config) (hcuts f);
  hcut_no ← idiv i (vcuts f);
  cut_width ← idiv (banks config) (vcuts f);
  N_tile_size ← idiv 128 (vcuts f);
  N_tile_it ← idiv (N_it c) N_tile_size;
  M_tile_it ← idiv (M_it c) (M_tile_size f);
  M_current_tile_size ←
    (if M c <? M_tile_size f * (M_tile_it + 1) then irem (M c) (M_tile_size f)
     else Ok (M_tile_size f));
  Ok (mkGeometry vcut_no cut_height hcut_no cut_width N_tile_size N_tile_it M_tile_it
        M_current_tile_size (Z.min (cut_height * 16) (K c)) (if df f =? 0 then 8 else 16)).

(** [Address(ch, 0, bg, bk, base + col_offset / cols, col_offset % cols)] and
    the number of columns [cols] of a row, in bursts. *)
Definition burst_columns (config : Config) : outcome Z := idiv (columns config) (BL config).
Definition pim_address (config : Config) (ch bg bk base col_offset : Z) : outcome Address :=
  cols ← burst_columns config;
  row_offset ← idiv col_offset cols;
  col ← irem col_offset cols;
  Ok (mkAddress ch 0 bg bk (s32 (base + row_offset)) col).

Section Cut.
Context (config : Config) (f : Dataflow) (ready : Command → outcome Command).
Context (wait_refresh : bool).

(** *** Loading weights into the registers of the array (status 0) *)

Definition N_tile_size_per_bank (g : Geometry) (c : Cut) : outcome Z :=
  q ← idiv (cut_width g) (weight_banks_reduce g);
  d ← idiv (N_tile_size g - 1) q;
  Ok (Z.min (N c) (d + 1)).

(** The end of a tile in a bank, for an iterator of value [n]. *)
Definition tile_end (g : Geometry) (per_bank n : Z) : outcome bool :=
  r ← irem n per_bank;
  and_then (r =? 0)
    (or_else (N_tile_size g =? per_bank) (r ← irem n (N_tile_size g); Ok (negb (r =? 0)))).

Definition weight_cmd (g : Geometry) (c : Cut) (per_bank col_offset j k : Z)
    : outcome Command :=
  let ch := hcut_no g * cut_height g + j in
  let bk := vcut_no g * cut_width g + k * weight_banks_reduce g in
  bg ← idiv bk (banks_per_group config);
  bk ← irem bk (banks_per_group config);
  addr ← pim_address config ch bg bk (base_rows_w c) col_offset;
  let hex_addr := AddressUnmapping config addr in
  exit ← tile_end g per_bank (N_it c + 1);
  q ← idiv 128 (banks config);
  r ← irem (column addr + 1) (Z.min (N c) (q * weight_banks_reduce g));
  cols ← burst_columns config;
  closing ← or_else (r =? 0) (r ← irem (column addr + 1) cols; Ok ((r =? 0) || exit));
  Ok (mkCommand (if (closing : bool) then GH_READ_PRECHARGE else GH_READ) addr hex_addr).

Definition step_weights (g : Geometry) (c : Cut) : outcome (Cut * list Command) :=
  per_bank ← N_tile_size_per_bank g c;
  k_tiles ← idiv (K c - 1) (K_tile_size g);
  n ← irem (N_it c) (N_tile_size g);
  let col_offset := N_tile_it g * (per_bank * (k_tiles + 1)) + K_tile_it c * per_bank + n in
  q ← idiv (cut_width g) (weight_banks_reduce g);
  w_cmds ← collect_channels ready (weight_cmd g c per_bank col_offset)
             (seqZ 0 (cut_height g)) (seqZ 0 q) [];
  match w_cmds with
  | [] => Ok (c, [])
  | first :: _ =>
      if type_eqb (cmd_type first) PIM_ACTIVATE then
        if w_act_placed c || wait_refresh then Ok (c, [])
        else Ok (c <| w_act_placed := true |>, w_cmds)
      else
        let c := if type_eqb (cmd_type first) GH_READ_PRECHARGE
                 then c <| w_act_placed := false |> else c in
        if (df f =? 1) && type_eqb (cmd_type first) PRECHARGE then Ok (c, w_cmds)
        else
          let c := c <| N_it := N_it c + 1 |> in
          finished ← tile_end g per_bank (N_it c);
          if (finished : bool) then
            Ok (c <| N_it := N_tile_size g * N_tile_it g |>
                  <| iw_status := iw_status c + 1 |>, w_cmds)
          else Ok (c, w_cmds)
  end.

(** *** The registers are loaded (status 1) *)

Definition step_loaded (i : Z) (cs : list Cut) : outcome (list Cut) :=
  c ← vget cs i;
  let c := c <| iw_status := iw_status c + 1 |> <| vpu_cnt := 1 |> in
  cs ← vset cs i c;
  if (total_cuts f =? 1)
     && existsb (λ c, (iw_status c =? 0) || (iw_status c =? 3)) cs
  then vset cs i (c <| iw_status := iw_status c - 1 |>)
  else Ok cs.

(** *** Streaming inputs into the array (status 2) *)

Definition read_type : CommandType := if df f =? 0 then GH_READ else LH_READ.
Definition readp_type : CommandType := if df f =? 0 then GH_READ_PRECHARGE else LH_READ_PRECHARGE.

Definition input_cmd (g : Geometry) (c : Cut) (col_offset j k : Z) : outcome Command :=
  let ch := hcut_no g * cut_height g + j in
  q ← idiv (cut_width g) (mc f);
  let bk := vcut_no g * cut_width g + k * q in
  let bk := if df f =? 0 then bk + 1 else bk in
  bg ← idiv bk (banks_per_group config);
  bk ← irem bk (banks_per_group config);
  addr ← pim_address config ch bg bk (base_rows_in c) col_offset;
  let hex_addr := AddressUnmapping config addr in
  let close := M_it c + 1 =? M c in
  let close2 := K c <=? (K_tile_it c + 1) * K_tile_size g in
  let close3 := if df f =? 0 then close2 && close else close in
  cols ← burst_columns config;
  Ok (mkCommand (if close3 || (column addr =? cols - 1) then readp_type else read_type)
        addr hex_addr).

(** Advancing the iterators after an input vector has been sent. *)
Definition advance_inputs (g : Geometry) (c : Cut) : outcome Cut :=
  q ← idiv 128 (vcuts f);
  _ ← ensure (q <? M_tile_size f) AssertFailed;
  first ← (if K c <=? (K_tile_it c + 1) * K_tile_size g
           then r ← irem (M_it c) (M_tile_size f); Ok (r =? 0) else Ok false);
  let c := if (first : bool)
           then c <| out_cnt := Z.max 1 (tCCD_L config * (3 + 16) - tRCDWR config) |> else c in
  let c := c <| M_it := M_it c + 1 |> in
  r ← irem (M_it c) (M_tile_size f);
  if (r =? 0) || (M_it c =? M c) then
    p ← idiv 128 (vcuts f * mc f);
    let c := c <| in_cnt := Z.max 1 (tCCD_L config * Z.max p 16 - tRCDRD config) |>
               <| iw_status := iw_status c + 1 |>
               <| M_it := M_tile_size f * M_tile_it g |>
               <| K_tile_it := K_tile_it c + 1 |> in
    if K c <=? K_tile_it c * K_tile_size g then
      let c := c <| K_tile_it := 0 |> <| N_it := N_tile_size g * (N_tile_it g + 1) |> in
      if N c <=? N_it c then
        let c := c <| N_it := 0 |> <| M_it := M_tile_size f * (M_tile_it g + 1) |> in
        if M c <=? M_it c then Ok (c <| in_cnt := -1 |>) else Ok c
      else Ok c
    else Ok c
  else Ok c.

Definition step_inputs (g : Geometry) (c : Cut) : outcome (Cut * list Command) :=
  let c := c <| vpu_cnt := Z.max 0 (vpu_cnt c - 1) |> in
  k_tiles ← idiv (K c - 1) (K_tile_size g);
  m ← irem (M_it c) (M_tile_size f);
  let col_offset := M_tile_it g * (M_tile_size f * (k_tiles + 1))
                    + K_tile_it c * M_current_tile_size g + m in
  '(in_cmds, mixed) ← collect_in ready (input_cmd g c col_offset)
                        (seqZ 0 (cut_height g)) (seqZ 0 (mc f));
  if (1 <? total_cuts f) && negb (vsize in_cmds =? u64 (cut_height g)) then Ok (c, [])
  else
    let in_cmds :=
      if (mixed : bool) then
        filter (λ cmd, cmd_type cmd ≠ read_type ∧ cmd_type cmd ≠ readp_type) in_cmds
      else in_cmds in
    match in_cmds with
    | [] => Ok (c, [])
    | first :: _ =>
        if type_eqb (cmd_type first) PIM_ACTIVATE then
          if in_act_placed c || wait_refresh then Ok (c, [])
          else Ok (c <| in_act_placed := true |>, in_cmds)
        else
          let c := if type_eqb (cmd_type first) readp_type
                   then c <| in_act_placed := false |> else c in
          if negb (vpu_cnt c =? 0) then Ok (c, [])
          else c ← advance_inputs g c; Ok (c, in_cmds)
    end.

(** *** Waiting for the array (status 3) *)

Definition step_wait (c : Cut) : Cut :=
  if in_cnt c =? -1 then c
  else
    let c := c <| in_cnt := Z.max 0 (in_cnt c - 1) |> in
    if (in_cnt c =? 0) && (output_valid c =? 0) then c <| iw_status := 0 |> else c.

(** The [switch] on the status; the results are the cuts, the commands that
    load weights and those that stream inputs. *)
Definition step_status (g : Geometry) (i : Z) (cs : list Cut)
    : outcome (list Cut * list Command * list Command) :=
  c ← vget cs i;
  if iw_status c =? 0 then
    '(c, w_cmds) ← step_weights g c; cs ← vset cs i c; Ok (cs, w_cmds, [])
  else if iw_status c =? 1 then cs ← step_loaded i cs; Ok (cs, [], [])
  else if iw_status c =? 2 then
    '(c, in_cmds) ← step_inputs g c; cs ← vset cs i c; Ok (cs, [], in_cmds)
  else if iw_status c =? 3 then cs ← vset cs i (step_wait c); Ok (cs, [], [])
  else Ok (cs, [], []).

(** [if (out_cnt == 0) output_valid++; if (out_cnt != -1) out_cnt--;] *)
Definition count_outputs (c : Cut) : Cut :=
  let c := if out_cnt c =? 0 then c <| output_valid := output_valid c + 1 |> else c in
  if negb (out_cnt c =? -1) then c <| out_cnt := out_cnt c - 1 |> else c.

(** *** Writing outputs *)

(** The variables that the output section computes first. *)
Record OutGeometry := mkOutGeometry {
  vcut_out_no : Z;
  M_tile_size_out : Z;
  M_out_tile_it : Z;
  M_out : Z;
  N_out : Z;
  N_tile_size_out : Z;
  out_col_offset : Z;
  cut_height_out : Z
}.

Definition out_geometry (g : Geometry) (c : Cut) : outcome OutGeometry :=
  vcut_out_no ←
    (if M c =? 1 then Ok (vcut_no g)
     else if vcuts f =? 16 then idiv (vcut_no g) 2
     else irem (vcut_no g + N_out_tile_it c) (vcuts f));
  M_tile_size_out ←
    (if df f =? 1 then q ← idiv (M_tile_size f) 128; Ok (q * mcf f) else Ok (M_tile_size f));
  M_out_tile_it ← idiv (M_out_it c) M_tile_size_out;
  M_out ← (if df f =? 1 then q ← idiv (M c * mcf f) 128; Ok (Z.max 1 q) else Ok (M c));
  M_out_current_tile_size ←
    (if M_out <? M_tile_size_out * (M_out_tile_it + 1) then irem M_out M_tile_size_out
     else Ok M_tile_size_out);
  let N_out := if df f =? 1 then 128 else N c in
  let N_tile_size_out := if df f =? 1 then 128 else N_tile_size g in
  q ← idiv (N c - 1) N_tile_size_out;
  let N_tile_num := q + 1 in
  N_tile_num_ch ← idiv N_tile_num (vcuts f);
  r1 ← irem N_tile_num (vcuts f);
  r2 ← irem (N_out_tile_it c) (vcuts f);
  let N_tile_num_ch := N_tile_num_ch + (if r2 <? r1 then 1 else 0) in
  N_tile_it_ch ← idiv (N_out_tile_it c) (vcuts f);
  m ← irem (M_out_it c) M_tile_size_out;
  let col_offset := M_out_tile_it * (M_tile_size_out * N_tile_num_ch)
                    + N_tile_it_ch * M_out_current_tile_size + m in
  cut_height_out ←
    (if cut_height g <? vcuts f then Ok 1 else idiv (cut_height g) (vcuts f));
  Ok (mkOutGeometry vcut_out_no M_tile_size_out M_out_tile_it M_out N_out N_tile_size_out
        col_offset cut_height_out).

Definition output_cmd (g : Geometry) (o : OutGeometry) (c : Cut) (j k : Z) : outcome Command :=
  let ch := hcut_no g * cut_height g + vcut_out_no o * cut_height_out o + j in
  q ← idiv (cut_width g) (mc f);
  let bk := vcut_no g * cut_width g + k * q in
  let bk := if df f =? 1 then bk else bk + 1 in
  bg ← idiv bk (banks_per_group config);
  bk ← irem bk (banks_per_group config);
  let bk := if df f =? 0 then bk + 2 else bk in
  addr ← pim_address config ch bg bk (base_rows_out c) (out_col_offset o);
  let hex_addr := AddressUnmapping config addr in
  let close := M_out_it c + 1 =? M_out o in
  cols ← burst_columns config;
  Ok (mkCommand (if close || (column addr =? cols - 1) then PIM_WRITE_PRECHARGE else PIM_WRITE)
        addr hex_addr).

(** [v[i] op= ...] on the next cut, which shares the channels of this one when
    there are more vertical cuts than channels in a cut. *)
Definition also_next (g : Geometry) (upd : Cut → Cut) (i : Z) (cs : list Cut)
    : outcome (list Cut) :=
  if cut_height g <? vcuts f then c ← vget cs (i + 1); vset cs (i + 1) (upd c) else Ok cs.

(** The last output has been written: leave the accelerator mode. *)
Definition finish_outputs (g : Geometry) (i : Z) (cs : list Cut)
    : outcome (list Cut * bool) :=
  c ← vget cs i;
  _ ← ensure (in_cnt c =? -1) AssertFailed;
  cs ← vset cs i (c <| in_pim := false |>);
  cs ← also_next g (λ c, c <| in_pim := false |>) i cs;
  Ok (cs, negb (existsb in_pim cs)).

(** Advancing the iterators after an output vector has been sent. *)
Definition advance_outputs (g : Geometry) (o : OutGeometry) (i : Z) (cs : list Cut)
    (turn_off : bool) : outcome (list Cut * bool) :=
  c ← vget cs i;
  let c := c <| M_out_it := M_out_it c + 1 |> in
  r ← irem (M_out_it c) (M_tile_size_out o);
  if (r =? 0) || (M_out_it c =? M_out o) then
    let c := c <| M_out_it := M_tile_size_out o * M_out_tile_it o |>
               <| N_out_tile_it := N_out_tile_it c + 1 |> in
    '(cs, turn_off) ←
      (if N_out o <=? N_out_tile_it c * N_tile_size_out o then
         let c := c <| N_out_tile_it := 0 |>
                    <| M_out_it := M_tile_size_out o * (M_out_tile_it o + 1) |> in
         cs ← vset cs i c;
         if M_out o <=? M_out_it c then finish_outputs g i cs else Ok (cs, turn_off)
       else cs ← vset cs i c; Ok (cs, turn_off));
    c ← vget cs i;
    cs ← vset cs i (c <| output_valid := output_valid c - 1 |>);
    cs ← also_next g (λ c, c <| output_valid := output_valid c - 1 |>) i cs;
    Ok (cs, turn_off)
  else cs ← vset cs i c; Ok (cs, turn_off).

Definition step_outputs (g : Geometry) (output_ready : bool) (i : Z) (cs : list Cut)
    (turn_off : bool) : outcome (list Cut * bool * list Command) :=
  c ← vget cs i;
  h ← idiv (cut_height g) (vcuts f);
  r ← irem (vcut_no g) 2;
  let out_enable := (0 <? h) || (r =? 0) in
  if (0 <? output_valid c) && output_ready && out_enable then
    o ← out_geometry g c;
    out_cmds ← collect_channels ready (output_cmd g o c) (seqZ 0 (cut_height_out o))
                 (seqZ 0 (if df f =? 1 then 1 else mc f)) [];
    match out_cmds with
    | [] => Ok (cs, turn_off, [])
    | first :: _ =>
        if type_eqb (cmd_type first) PIM_ACTIVATE then
          if out_act_placed c || wait_refresh then Ok (cs, turn_off, [])
          else cs ← vset cs i (c <| out_act_placed := true |>); Ok (cs, turn_off, out_cmds)
        else
          cs ← (if type_eqb (cmd_type first) PIM_WRITE_PRECHARGE
                then vset cs i (c <| out_act_placed := false |>) else Ok cs);
          '(cs, turn_off) ← advance_outputs g o i cs turn_off;
          Ok (cs, turn_off, out_cmds)
    end
  else Ok (cs, turn_off, []).

(** *** The body of the loop over cuts *)

(** The commands for the three lists of a controller. *)
Record Batch := mkBatch {
  w_cmds : list Command;
  in_cmds : list Command;
  out_cmds : list Command
}.

Definition schedule_cut (i : Z) (cs : list Cut) (turn_off : bool)
    : outcome (list Cut * bool * Batch) :=
  c ← vget cs i;
  g ← geometry config f i c;
  let output_ready := iw_status c =? 3 in
  '(cs, w_cmds, in_cmds) ← step_status g i cs;
  c ← vget cs i;
  cs ← vset cs i (count_outputs c);
  '(cs, turn_off, out_cmds) ← step_outputs g output_ready i cs turn_off;
  Ok (cs, turn_off, mkBatch w_cmds in_cmds out_cmds).
End Cut.
