(* ===== verification/JedecSystem.v ===== *)
(** * JEDEC memory systems: JedecDRAMSystem of src/src/dram_system.cc

    One controller per channel, the dispatch of transactions to them, the
    return of completed transactions through the callbacks, the queue of
    accelerator packets and the clock, which runs the accelerator's scheduler
    ([PimScheduler]) before the controllers.  Assertions are checked, as in
    the build of the Makefile.  Writing a file is recorded, not performed. *)
From stdpp Require Import base tactics numbers list list_numbers gmap strings sets.
From coqutil Require Import Datatypes.RecordSetters.
From S2P Require Import Prelude Common Double Configuration Timing ChannelState Refresh.
From S2P Require Import SimpleStats CommandQueue Controller DramSystem PimScheduler.

Import TriangleBracketNotations.
Local Open Scope Z_scope.

(** ** State *)

Record JedecDRAMSystem := mkJedec {
  js_config : Config;
  js_timing : Timing;
  js_clk_ : Z;
  last_req_clk_ : Z;
  ctrls_ : list Controller;
  js_turn_off : bool;
  flow : Dataflow;
  cuts_ : list Cut;
  bank_occupancy_ : list (list bool);
  pim_trans_queue_ : list Transaction
}.

Definition pim_trans_queue_depth_ : Z := 32.

(** [reserve] and the constructor of a vector throw an exception when the
    negative [int] they are given becomes a huge [size_t]. *)
Definition reserve (n : Z) : outcome unit := ensure (0 <=? n) UncaughtException.

Definition Jedec_init (config : Config) : outcome JedecDRAMSystem :=
  if IsHMC config then Fail (AbruptExit "dram_system.cc" 103)
  else
    _ ← reserve (channels config);
    ctrls ← for_range (channels config)
              (λ i cs, c ← Controller_init config i; Ok (cs ++ [c])) [];
    let banks := ranks config * bankgroups config * banks_per_group config in
    _ ← (if channels config =? 0 then Ok tt else reserve banks);
    Ok (mkJedec config (Timing_of config) 0 0 ctrls false Dataflow_init []
          (replicate (Z.to_nat (channels config)) (replicate (Z.to_nat banks) false)) []).

(** ** Transactions *)

Definition Jedec_WillAcceptPim (s : JedecDRAMSystem) : bool :=
  vsize (pim_trans_queue_ s) <? pim_trans_queue_depth_.

(** [Transaction(uint64_t addr)]: [is_write] is indeterminate; nothing reads
    it on this path. *)
Definition Jedec_AddPim (hex_addr : Z) (s : JedecDRAMSystem) : outcome (JedecDRAMSystem * bool) :=
  let ok := Jedec_WillAcceptPim s in
  _ ← ensure ok AssertFailed;
  Ok (s <| pim_trans_queue_ := pim_trans_queue_ s ++ [Transaction_rw hex_addr false] |>
        <| last_req_clk_ := js_clk_ s |>, ok).

Definition Jedec_WillAcceptTransaction (s : JedecDRAMSystem) (hex_addr : Z) (is_write : bool)
    : outcome bool :=
  c ← vget (ctrls_ s) (GetChannel (js_config s) hex_addr);
  Ok (WillAcceptTransaction (js_config s) c hex_addr is_write).

Definition Jedec_AddTransaction (hex_addr : Z) (is_write : bool) (s : JedecDRAMSystem)
    : outcome (JedecDRAMSystem * bool) :=
  let channel := GetChannel (js_config s) hex_addr in
  c ← vget (ctrls_ s) channel;
  let ok := WillAcceptTransaction (js_config s) c hex_addr is_write in
  _ ← ensure ok AssertFailed;
  let '(c, _) := AddTransaction (Transaction_rw hex_addr is_write) c in
  cs ← vset (ctrls_ s) channel c;
  Ok (s <| ctrls_ := cs |> <| last_req_clk_ := js_clk_ s |>, ok).

(** ** Output files *)

Inductive FileOp :=
| Truncate (file text : string)
| Append (file text : string)
| Overwrite (file : string) (from_end : Z) (text : string)
| Stats (out : Output).

Section Jedec.
Context (fmt_double : double → string) (stat_text : string → string → string → string).

(** One controller after the other, collecting what they print. *)
Definition print_controllers (print : Controller → outcome (Controller * list Output))
    (after : nat → list FileOp) (cs : list Controller)
    : outcome (list Controller * list FileOp) :=
  for_each (λ '(i, c) '(done, ops),
      '(c, out) ← print c;
      Ok (done ++ [c], ops ++ (Stats <$> out) ++ after i))
    (imap pair cs) ([], []).

(** [BaseDRAMSystem::PrintEpochStats] on the members it uses. *)
Definition Base_PrintEpochStats (config : Config) (clk : Z) (cs : list Controller)
    : outcome (list Controller * list FileOp) :=
  let file := json_epoch_name config in
  let first := if u64 (clk - epoch_period config) =? 0 then [Truncate file "["] else [] in
  '(cs, ops) ← print_controllers (Controller.PrintEpochStats fmt_double stat_text config)
                 (λ _, [Append file ("," +:+ newline)]) cs;
  Ok (cs, first ++ ops).

Definition PrintEpochStats (s : JedecDRAMSystem) : outcome (JedecDRAMSystem * list FileOp) :=
  '(cs, ops) ← Base_PrintEpochStats (js_config s) (js_clk_ s) (ctrls_ s);
  Ok (s <| ctrls_ := cs |>, ops).

(** [BaseDRAMSystem::PrintStats]. *)
Definition Base_PrintStats (config : Config) (cs : list Controller)
    : outcome (list Controller * list FileOp) :=
  let file := json_stats_name config in
  '(cs, ops) ← print_controllers (Controller.PrintFinalStats fmt_double stat_text config)
                 (λ i, if bool_decide (S i = length cs) then []
                       else [Append file ("," +:+ newline)]) cs;
  Ok (cs, [Overwrite (json_epoch_name config) 2 "]"; Truncate file "{"]
          ++ ops ++ [Append file "}"]).

Definition PrintStats (s : JedecDRAMSystem) : outcome (JedecDRAMSystem * list FileOp) :=
  '(cs, ops) ← Base_PrintStats (js_config s) (ctrls_ s);
  Ok (s <| ctrls_ := cs |>, ops).

Definition ResetStats (s : JedecDRAMSystem) : JedecDRAMSystem :=
  s <| ctrls_ := Controller.ResetStats <$> ctrls_ s |>.

(** ** Returning completed transactions *)

(** [while (true)] over [ReturnDoneTrans] of one controller.  Every round but
    the last removes a transaction from the return queue, so that its length
    plus one rounds are enough ([return_loop_done]). *)
Fixpoint return_loop (fuel : nat) (clk : Z) (c : Controller) (cbs : list callback)
    : Controller * list callback :=
  match fuel with
  | O => (c, cbs)
  | S fuel =>
      let '((addr, second), c) := ReturnDoneTrans clk c in
      if second =? 1 then return_loop fuel clk c (cbs ++ [WriteCallback addr])
      else if second =? 0 then return_loop fuel clk c (cbs ++ [ReadCallback addr])
      else (c, cbs)
  end.

Definition return_controller (clk : Z) (c : Controller) : Controller * list callback :=
  return_loop (S (length (return_queue_ c))) clk c [].

Definition return_all (clk : Z) (cs : list Controller) : list Controller * list callback :=
  foldl (λ '(done, cbs) c,
      let '(c, cb) := return_controller clk c in (done ++ [c], cbs ++ cb)) ([], []) cs.

(** ** The accelerator *)

(** The look-ahead for refreshes; activations have to be placed again. *)
Definition clear_placed (c : Cut) : Cut :=
  c <| in_act_placed := false |> <| w_act_placed := false |> <| out_act_placed := false |>.

Definition look_ahead (s : JedecDRAMSystem) : outcome (bool * list Cut) :=
  for_each (λ c '(wait_refresh, cs),
      coming ← pim_refresh_coming (js_config s) c;
      if (coming : bool) && negb (vcuts (flow s) =? -1) && negb (hcuts (flow s) =? -1) then
        cs ← for_range (total_cuts (flow s))
               (λ j cs, c ← vget cs j; vset cs j (clear_placed c)) cs;
        Ok (true, cs)
      else Ok (wait_refresh, cs))
    (ctrls_ s) (false, cuts_ s).

(** The packet at the head of the queue. *)
Definition take_packet (s : JedecDRAMSystem) : outcome JedecDRAMSystem :=
  match pim_trans_queue_ s with
  | [] => Ok s
  | it :: queue =>
      let address := trans_addr it in
      if is_launch address then
        ok ← configured (flow s) (cuts_ s) (Z.shiftr address 1);
        s ← (if (ok : bool) then
               cs ← launch (flow s) (cuts_ s) (Z.shiftr address 1);
               Ok (s <| cuts_ := cs |> <| pim_trans_queue_ := queue |>)
             else Ok s);
        Ok (s <| ctrls_ := set_in_pim true <$> ctrls_ s |>)
      else if is_dataflow address then
        let f := load_dataflow address in
        let ctrls := if 1 <? total_cuts f then set_wr_multitenant true <$> ctrls_ s
                     else ctrls_ s in
        Ok (s <| flow := f |> <| ctrls_ := ctrls |>
              <| cuts_ := replicate (Z.to_nat (total_cuts f)) Cut_init |>
              <| pim_trans_queue_ := queue |>)
      else
        cs ← load_workload address (cuts_ s);
        Ok (s <| cuts_ := cs |> <| pim_trans_queue_ := queue |>)
  end.

(** A refresh in progress, or about to start, holds the scheduler. *)
Definition in_refresh (s : JedecDRAMSystem) : outcome bool :=
  for_each (λ c b,
      if IsInRef c then Ok true
      else coming ← pim_refresh_coming2 (js_config s) c; Ok (b || coming))
    (ctrls_ s) false.

(** [ctrls_[ch]->GetReadyCommand(cmd, clk_)]. *)
Definition ready_command (s : JedecDRAMSystem) (cmd : Command) : outcome Command :=
  c ← vget (ctrls_ s) (Channel cmd);
  Controller_GetReadyCommand (js_config s) c cmd (js_clk_ s).

(** Appending a command to one of the lists of its controller. *)
Definition push_command (add : Command → Controller → Controller) (cmd : Command)
    (cs : list Controller) : outcome (list Controller) :=
  c ← vget cs (Channel cmd); vset cs (Channel cmd) (add cmd c).

Definition push_batch (clk : Z) (b : Batch) (cs : list Controller) : outcome (list Controller) :=
  cs ← for_each (push_command (λ cmd c, set_rd_w_cmds_ (rd_w_cmds_ c ++ [cmd]) c)) (w_cmds b) cs;
  cs ← for_each (push_command (λ cmd c,
         set_release_time (release_time c ++ [s32 clk])
           (set_rd_in_cmds_ (rd_in_cmds_ c ++ [cmd]) c))) (in_cmds b) cs;
  for_each (push_command (λ cmd c, set_wr_cmds_ (wr_cmds_ c ++ [cmd]) c)) (out_cmds b) cs.

(** One round of the loop over cuts. *)
Definition schedule_round (wait_refresh is_in_ref : bool) (i : Z) (s : JedecDRAMSystem)
    : outcome JedecDRAMSystem :=
  c ← vget (cuts_ s) i;
  if negb (in_pim c) || is_in_ref then Ok s
  else
    '(cs, turn_off, b) ← schedule_cut (js_config s) (flow s) (ready_command s) wait_refresh i
                           (cuts_ s) (js_turn_off s);
    ctrls ← push_batch (js_clk_ s) b (ctrls_ s);
    Ok (s <| cuts_ := cs |> <| js_turn_off := turn_off |> <| ctrls_ := ctrls |>).

Definition schedule (wait_refresh : bool) (s : JedecDRAMSystem) : outcome JedecDRAMSystem :=
  is_in_ref ← in_refresh s;
  let cuts := if negb (vcuts (flow s) =? -1) && negb (hcuts (flow s) =? -1)
              then total_cuts (flow s) else 0 in
  for_range cuts (schedule_round wait_refresh is_in_ref) s.

(** ** The clock *)

Definition tick_controllers (config : Config) (timing : Timing) (cs : list Controller)
    : outcome (list Controller) :=
  for_each (λ c done, c ← Controller.ClockTick config timing c; Ok (done ++ [c])) cs [].

Definition Jedec_ClockTick (s : JedecDRAMSystem)
    : outcome (JedecDRAMSystem * list callback * list FileOp) :=
  let '(cs, cbs) := return_all (js_clk_ s) (ctrls_ s) in
  let s := s <| ctrls_ := cs |> in
  '(wait_refresh, cuts) ← look_ahead s;
  let s := s <| cuts_ := cuts |> in
  s ← take_packet s;
  s ← schedule wait_refresh s;
  cs ← tick_controllers (js_config s) (js_timing s) (ctrls_ s);
  let s := s <| ctrls_ := cs |> <| js_clk_ := u64 (js_clk_ s + 1) |> in
  if u64 (epoch_period (js_config s)) =? 0 then Fail DivisionByZero
  else if js_clk_ s mod u64 (epoch_period (js_config s)) =? 0 then
    '(s, ops) ← PrintEpochStats s; Ok (s, cbs, ops)
  else Ok (s, cbs, []).

#[global] Instance jedec_system : DRAMSystem JedecDRAMSystem := {
  ds_will_accept_pim := Jedec_WillAcceptPim;
  ds_add_pim := Jedec_AddPim;
  ds_will_accept := Jedec_WillAcceptTransaction;
  ds_add := Jedec_AddTransaction;
  ds_tick s := '(s, cbs, _) ← Jedec_ClockTick s; Ok (s, cbs);
  ds_turn_off := js_turn_off
}.
End Jedec.
