(* ===== verification/JedecSafety.v ===== *)
(** * A JEDEC memory system keeps the contract of a memory system

    While the accelerator computes nothing, that is until it is launched, a
    JEDEC memory system of any number of channels accepts, completes and
    reports transactions without ever failing and without losing or inventing
    one, and it takes the packets that configure the accelerator: it
    implements [DRAMSystemLaws]. *)
From stdpp Require Import base tactics numbers list list_numbers gmap strings sets.
From coqutil Require Import Datatypes.RecordSetters.
From S2P Require Import Prelude Common Double Configuration Timing BankState ChannelState.
From S2P Require Import Refresh SimpleStats StatsSafety CommandQueue Controller ControllerSafety.
From S2P Require Import DramSystem PimScheduler JedecSystem.

Import TriangleBracketNotations.
Local Open Scope Z_scope.

(** ** The invariant *)

Definition ctrl_ok (config : Config) (clk : Z) (c : Controller) : Prop :=
  ctl_ok config c ∧ ctl_clk_ c = clk.

(** The packets that configure an accelerator of [cuts] cuts: no launch, and
    every workload for a cut that exists. *)
Fixpoint packets_ok (cuts : Z) (queue : list Transaction) : Prop :=
  match queue with
  | [] => True
  | it :: queue =>
      let a := trans_addr it in
      is_launch a = false ∧
      if is_dataflow a then packets_ok (total_cuts (load_dataflow a)) queue
      else (0 ≤ (workload_fields a).1.1.1 < cuts ∧ 0 ≤ (workload_fields a).1.1.2 < 3) ∧
           packets_ok cuts queue
  end.

(** The accelerator is configured, if at all, for the cuts there are, and none
    of them runs. *)
Record idle (s : JedecDRAMSystem) : Prop := {
  jo_config : supported (js_config s);
  jo_epoch : u64 (epoch_period (js_config s)) ≠ 0;
  jo_timing : js_timing s = Timing_of (js_config s);
  jo_clk : 0 ≤ js_clk_ s < 2 ^ 64;
  jo_ctrls : Forall (ctrl_ok (js_config s) (js_clk_ s)) (ctrls_ s);
  jo_flow : flow s = Dataflow_init ∨ total_cuts (flow s) ≤ vsize (cuts_ s);
  jo_cuts : Forall (λ c, in_pim c = false) (cuts_ s)
}.

Definition jedec_ok (s : JedecDRAMSystem) : Prop :=
  idle s ∧ packets_ok (vsize (cuts_ s)) (pim_trans_queue_ s).

(** The callbacks that the controllers owe. *)
Definition owed (cs : list Controller) : list callback := concat (outstanding <$> cs).

(** An address of an existing channel, whose bank exists. *)
Definition jedec_addr (s : JedecDRAMSystem) (a : Z) : Prop :=
  0 ≤ GetChannel (js_config s) a < vsize (ctrls_ s) ∧
  mappable (js_config s) (Transaction_rw a false).

(** One controller before and after an operation that reports [cbs]. *)
Definition reports (config : Config) (clk clk' : Z) (cbs : list callback)
    (c c' : Controller) : Prop :=
  ctrl_ok config clk' c' ∧ outstanding c ≡ₚ cbs ++ outstanding c'.

(** ** Loops over the controllers *)

Lemma map_total {A} (f : A → outcome A) (R : A → A → Prop) cs done :
  (∀ c, c ∈ cs → ∃ c', f c = Ok c' ∧ R c c') →
  ∃ cs', for_each (λ c done, c ← f c; Ok (done ++ [c])) cs done = Ok (done ++ cs') ∧
    Forall2 R cs cs'.
Proof.
  revert done. induction cs as [|c cs IH]; intros done H; cbn [for_each].
  { exists []. rewrite app_nil_r. by split. }
  destruct (H c) as (c' & -> & Hc); [left|]. cbn [mbind outcome_bind].
  destruct (IH (done ++ [c'])) as (cs' & -> & Hcs); [intros; apply H; by right|].
  exists (c' :: cs'). rewrite <- (assoc (++)). by split; [|constructor].
Qed.

Lemma map_quiet_total (config : Config) clk clk' (f : Controller → outcome Controller) cs :
  (∀ c, ctrl_ok config clk c →
     ∃ c', f c = Ok c' ∧ ctrl_ok config clk' c' ∧ outstanding c' ≡ₚ outstanding c) →
  Forall (ctrl_ok config clk) cs →
  ∃ cs', for_each (λ c done, c ← f c; Ok (done ++ [c])) cs [] = Ok cs' ∧
    Forall (ctrl_ok config clk') cs' ∧ length cs' = length cs ∧ owed cs' ≡ₚ owed cs.
Proof.
  intros Hf Hcs.
  destruct (map_total f (reports config clk clk' []) cs []) as (cs' & H & HR).
  { intros c Hc. destruct (Hf c) as (c' & ? & ? & ?);
      [by apply (proj1 (Forall_forall _ _) Hcs)|]. exists c'. by split_and!. }
  exists cs'. split; [done|]. clear H Hcs Hf. induction HR as [|c c' cs cs' [Hc Ho] _ IH].
  { by split_and!. }
  destruct IH as (? & ? & IH). split_and!; [by constructor|simpl; congruence|].
  unfold owed in *. csimpl. by rewrite IH, Ho.
Qed.

(** ** Returning *)

Lemma ReturnDoneTrans_cases clk c :
  let '((a, w), c') := ReturnDoneTrans clk c in
  (w = -1 ∧ c' = c) ∨
  (w = 0 ∨ w = 1) ∧ length (return_queue_ c) = S (length (return_queue_ c')).
Proof.
  unfold ReturnDoneTrans. pose proof (return_scan_spec clk [] (return_queue_ c) c) as H.
  destruct (return_scan clk [] (return_queue_ c) c) as [[a w] c'].
  destruct H as [(-> & -> & _)|(pre & t & post & s & Hq & _ & _ & _ & -> & -> & _)];
    [by left|right].
  split; [by destruct (is_write t); auto|]. rewrite Hq. simpl. rewrite !length_app. simpl. lia.
Qed.

(** With enough fuel the loop ends because nothing more is due, and it reports
    exactly what left the controller. *)
Lemma return_loop_spec (config : Config) fuel clk c cbs :
  ctl_ok config c → (length (return_queue_ c) < fuel)%nat →
  let '(c', cbs') := return_loop fuel clk c cbs in
  ∃ new, cbs' = cbs ++ new ∧ ctl_ok config c' ∧ ctl_clk_ c' = ctl_clk_ c ∧
    outstanding c ≡ₚ new ++ outstanding c' ∧ (ReturnDoneTrans clk c').1.2 = -1.
Proof.
  revert c cbs. induction fuel as [|fuel IH]; intros c cbs Hc Hlen; [lia|].
  cbn [return_loop]. pose proof (ReturnDoneTrans_cases clk c) as Hcase.
  pose proof (ReturnDoneTrans_ok config clk c Hc) as Hspec.
  destruct (ReturnDoneTrans clk c) as [[a w] c'] eqn:E. destruct Hspec as (Hc' & Hk & Ho).
  destruct Hcase as [[-> ->]|[Hw Hl]].
  - simpl. exists []. rewrite app_nil_r, E. by split_and!.
  - assert (Hrec : ∀ cb, outstanding c ≡ₚ cb :: outstanding c' →
      let '(c', cbs') := return_loop fuel clk c' (cbs ++ [cb]) in
      ∃ new, cbs' = cbs ++ new ∧ ctl_ok config c' ∧ ctl_clk_ c' = ctl_clk_ c ∧
        outstanding c ≡ₚ new ++ outstanding c' ∧ (ReturnDoneTrans clk c').1.2 = -1).
    { intros cb Hcb. pose proof (IH c' (cbs ++ [cb]) Hc' ltac:(lia)) as IH'.
      destruct (return_loop fuel clk c' (cbs ++ [cb])) as [c2 cbs2].
      destruct IH' as (new & -> & ? & ? & Hn & ?). exists (cb :: new).
      rewrite <- (assoc (++)). split_and!; [done|done|congruence| |done].
      by rewrite Hcb, Hn. }
    destruct Hw as [-> | ->]; simpl in *; by apply Hrec.
Qed.

Lemma return_controller_spec (config : Config) clk clk' c :
  ctrl_ok config clk' c →
  let '(c', cbs) := return_controller clk c in reports config clk' clk' cbs c c'.
Proof.
  intros [Hc Hk]. unfold return_controller.
  pose proof (return_loop_spec config (S (length (return_queue_ c))) clk c [] Hc ltac:(lia)) as H.
  destruct (return_loop _ clk c []) as [c' cbs]. destruct H as (new & -> & ? & ? & ? & _).
  by split; [split; [|congruence]|].
Qed.

Lemma return_all_spec (config : Config) clk clk' cs :
  Forall (ctrl_ok config clk') cs →
  let '(cs', cbs) := return_all clk cs in
  Forall (ctrl_ok config clk') cs' ∧ length cs' = length cs ∧ owed cs ≡ₚ cbs ++ owed cs'.
Proof.
  intros Hcs. unfold return_all.
  enough (Hgen : ∀ done cbs,
    let '(cs', cbs') := foldl (λ '(done, cbs) c,
      let '(c, cb) := return_controller clk c in (done ++ [c], cbs ++ cb)) (done, cbs) cs in
    ∃ new ncbs, cs' = done ++ new ∧ cbs' = cbs ++ ncbs ∧ Forall (ctrl_ok config clk') new ∧
      length new = length cs ∧ owed cs ≡ₚ ncbs ++ owed new).
  { specialize (Hgen [] []). destruct (foldl _ _ cs) as [cs' cbs'].
    by destruct Hgen as (new & ncbs & -> & -> & ? & ? & ?). }
  induction Hcs as [|c cs Hc _ IH]; intros done cbs; cbn [foldl].
  { exists [], []. rewrite !app_nil_r. by split_and!. }
  pose proof (return_controller_spec config clk clk' c Hc) as Hr.
  destruct (return_controller clk c) as [c' cb]. destruct Hr as [Hc' Ho].
  specialize (IH (done ++ [c']) (cbs ++ cb)). destruct (foldl _ _ cs) as [cs' cbs'].
  destruct IH as (new & ncbs & -> & -> & Hn & Hl & Hp). exists (c' :: new), (cb ++ ncbs).
  rewrite <- !(assoc (++)). split_and!; [done|done|by constructor|simpl; congruence|].
  unfold owed in *. csimpl. rewrite Ho, Hp. rewrite <- !(assoc (++)). f_equiv.
  rewrite !(assoc (++)). by rewrite (Permutation_app_comm (outstanding c')).
Qed.

(** ** The idle accelerator *)

Lemma refresh_coming_total (config : Config) clk c bound :
  ctrl_ok config clk c → ∃ b, refresh_within config (refresh_ c) bound = Ok b.
Proof.
  intros [[[lost Hc] _] _]. pose proof (rw_interval _ _ (ci_refresh _ _ _ Hc)) as Hi.
  unfold refresh_within, irem. rewrite (proj2 (Z.eqb_neq _ _)) by (intros E; by rewrite E in Hi).
  cbn [mbind outcome_bind]. by eexists.
Qed.

Lemma look_ahead_idle s :
  idle s → ∃ w cuts, look_ahead s = Ok (w, cuts) ∧ Forall (λ c, in_pim c = false) cuts ∧
    vsize cuts = vsize (cuts_ s).
Proof.
  intros Hs. unfold look_ahead.
  destruct (for_each_total (λ x : bool * list Cut,
      Forall (λ c, in_pim c = false) x.2 ∧ vsize x.2 = vsize (cuts_ s))
    (λ c '(wait_refresh, cs),
      coming ← pim_refresh_coming (js_config s) c;
      if (coming : bool) && negb (vcuts (flow s) =? -1) && negb (hcuts (flow s) =? -1) then
        cs ← for_range (total_cuts (flow s))
               (λ j cs, c ← vget cs j; vset cs j (clear_placed c)) cs;
        Ok (true, cs)
      else Ok (wait_refresh, cs)) (ctrls_ s) (false, cuts_ s)) as ([w cuts] & H & Hc & Hl).
  2:{ split; [apply Hs|done]. }
  - intros c [w cs] Hin [Hcs Hsz]. simpl in Hcs, Hsz.
    unfold pim_refresh_coming, Refresh.pim_refresh_coming.
    destruct (refresh_coming_total _ _ _ (tRAS (js_config s) + 3)
      (proj1 (Forall_forall _ _) (jo_ctrls _ Hs) c Hin)) as [b ->]. cbn [mbind outcome_bind].
    destruct (b && _ && _) eqn:E; [|by eexists].
    destruct (jo_flow _ Hs) as [Hf|Hf]; [by rewrite Hf, andb_false_r in E|].
    unfold for_range. destruct (for_each_total (λ cs : list Cut,
        Forall (λ c, in_pim c = false) cs ∧ vsize cs = vsize (cuts_ s))
      (λ j cs, c ← vget cs j; vset cs j (clear_placed c)) (seqZ 0 (total_cuts (flow s))) cs)
      as (cs' & -> & ?); [|done|by eexists].
    intros j cs1 Hj%elem_of_seqZ [Hcs1 Hsz1].
    destruct (vget_in_range cs1 j) as [d Hd]; [lia|]. rewrite Hd. cbn [mbind outcome_bind].
    rewrite vset_in_range by lia. eexists. split; [done|]. unfold vsize in *. rewrite length_insert.
    split; [|done]. apply Forall_insert; [done|]. apply vget_Ok in Hd as [_ Hd].
    exact (Forall_lookup_1 _ _ _ _ Hcs1 Hd).
  - by exists w, cuts.
Qed.

Lemma in_refresh_total s clk :
  Forall (ctrl_ok (js_config s) clk) (ctrls_ s) → ∃ b, in_refresh s = Ok b.
Proof.
  intros Hs. unfold in_refresh. generalize false as b.
  induction Hs as [|c cs Hc _ IH]; intros b; cbn [for_each]; [by eexists|].
  destruct (IsInRef c); [apply IH|]. unfold pim_refresh_coming2, Refresh.pim_refresh_coming2.
  destruct (refresh_coming_total _ _ _ 3 Hc) as [b' ->]. cbn [mbind outcome_bind]. apply IH.
Qed.

Lemma schedule_idle s w : idle s → schedule w s = Ok s.
Proof.
  intros Hs. unfold schedule.
  destruct (in_refresh_total s _ (jo_ctrls _ Hs)) as [b' ->]. cbn [mbind outcome_bind].
  destruct (jo_flow _ Hs) as [Hf|Hf]; [by rewrite Hf|]. unfold for_range.
  destruct (for_each_total (λ s', s' = s) (schedule_round w b')
    (seqZ 0 (if negb (vcuts (flow s) =? -1) && negb (hcuts (flow s) =? -1)
             then total_cuts (flow s) else 0)) s) as (s' & -> & ->); [|done|done].
  intros i s1 Hi%elem_of_seqZ ->. exists s. split; [|done]. unfold schedule_round.
  destruct (vget_in_range (cuts_ s) i) as [c Hc]; [destruct (negb _ && _); lia|].
  rewrite Hc. cbn [mbind outcome_bind]. apply vget_Ok in Hc as [_ Hc].
  pose proof (Forall_lookup_1 _ _ _ _ (jo_cuts _ Hs) Hc) as Hp. simpl in Hp. by rewrite Hp.
Qed.

(** *** Packets *)

Lemma owed_fmap (f : Controller → Controller) cs :
  (∀ c, outstanding (f c) = outstanding c) → owed (f <$> cs) = owed cs.
Proof. intros Hf. unfold owed. induction cs as [|c cs IH]; csimpl; [done|]. by rewrite Hf, IH. Qed.

Lemma ctrl_ok_pim_flags (config : Config) clk c a b :
  ctrl_ok config clk c → ctrl_ok config clk (set_in_pim a c) ∧ ctrl_ok config clk (set_wr_multitenant b c).
Proof.
  intros [[[lost Hc] Hp] Hk]. split; (split; [split; [exists lost; by destruct Hc; split|by destruct Hp; split]|done]).
Qed.

Lemma total_cuts_load a : 0 ≤ total_cuts (load_dataflow a).
Proof. unfold total_cuts, load_dataflow. simpl. apply Z.mul_nonneg_nonneg; by apply Z.shiftl_nonneg. Qed.

(** What a packet does to an idle system. *)
Definition same_memory (s s' : JedecDRAMSystem) : Prop :=
  js_clk_ s' = js_clk_ s ∧ js_config s' = js_config s ∧ length (ctrls_ s') = length (ctrls_ s) ∧
  owed (ctrls_ s') = owed (ctrls_ s).

Lemma load_workload_total a cs :
  0 ≤ (workload_fields a).1.1.1 < vsize cs → 0 ≤ (workload_fields a).1.1.2 < 3 →
  Forall (λ c, in_pim c = false) cs →
  ∃ cs', load_workload a cs = Ok cs' ∧ vsize cs' = vsize cs ∧ Forall (λ c, in_pim c = false) cs'.
Proof.
  unfold load_workload. destruct (workload_fields a) as [[[cut ty] dim] base]. simpl.
  intros Hcut Hty Hcs. destruct (vget_in_range cs cut Hcut) as [c Hc]. rewrite !Hc.
  pose proof Hc as [_ Hlk]%vget_Ok. pose proof (Forall_lookup_1 _ _ _ _ Hcs Hlk) as Hp.
  assert (Hset : ∀ c', in_pim c' = in_pim c → ∃ cs', vset cs cut c' = Ok cs' ∧ vsize cs' = vsize cs ∧
    Forall (λ c, in_pim c = false) cs').
  { intros c' Hc'. rewrite vset_in_range by done. eexists. split; [done|].
    split; [unfold vsize; by rewrite length_insert|]. apply Forall_insert; [done|]. by rewrite Hc'. }
  assert (ty = 0 ∨ ty = 1 ∨ ty = 2) as [->|[->| ->]] by lia; cbn [Z.eqb mbind outcome_bind];
    by apply Hset.
Qed.

Lemma take_packet_spec s :
  jedec_ok s → ∃ s', take_packet s = Ok s' ∧ jedec_ok s' ∧ same_memory s s'.
Proof.
  intros [Hs Hq]. unfold take_packet. destruct (pim_trans_queue_ s) as [|it queue] eqn:Eq.
  { exists s. split; [done|]. split; [split; [done|by rewrite Eq]|done]. }
  cbn [packets_ok] in Hq. destruct Hq as [Hl Hq]. rewrite Hl. destruct (is_dataflow _).
  - eexists. split; [reflexivity|]. pose proof (total_cuts_load (trans_addr it)) as Ht.
    assert (Hv : vsize (replicate (Z.to_nat (total_cuts (load_dataflow (trans_addr it)))) Cut_init)
      = total_cuts (load_dataflow (trans_addr it))) by (unfold vsize; rewrite length_replicate; lia).
    split; [split; [|simpl; unfold constant; by rewrite Hv]|].
    + destruct Hs. split; simpl; unfold constant; try done.
      * destruct (1 <? _); [|done]. apply Forall_fmap. eapply Forall_impl; [done|].
        intros c Hc. by apply (ctrl_ok_pim_flags _ _ _ true true).
      * right. by rewrite Hv.
      * by apply Forall_replicate.
    + split_and!; [done|done|simpl; unfold constant; destruct (1 <? _); by rewrite ?length_fmap|].
      simpl. unfold constant. destruct (1 <? _); [|done]. by apply owed_fmap.
  - destruct Hq as [[Hcut Hty] Hq].
    destruct (load_workload_total _ _ Hcut Hty (jo_cuts _ Hs)) as (cs & -> & Hv & Hcs).
    cbn [mbind outcome_bind]. eexists. split; [reflexivity|].
    split; [split; [|simpl; unfold constant; by rewrite Hv]|done].
    destruct Hs. split; simpl; unfold constant; try done. by rewrite Hv.
Qed.

(** ** The clock *)

Lemma tick_controllers_spec (config : Config) clk cs :
  supported config → 0 ≤ clk < 2 ^ 63 → Forall (ctrl_ok config clk) cs →
  ∃ cs', tick_controllers config (Timing_of config) cs = Ok cs' ∧
    Forall (ctrl_ok config (clk + 1)) cs' ∧ length cs' = length cs ∧ owed cs' ≡ₚ owed cs.
Proof.
  intros Hs Hclk Hcs. apply (map_quiet_total config clk); [|done].
  intros c [Hc Hk]. destruct (ClockTick_ok config c Hs Hc) as (c' & H & ? & ? & ?); [lia|].
  exists c'. split; [exact H|]. split; [|done]. by split; [|lia].
Qed.

Lemma print_controllers_spec (config : Config) clk print after cs :
  (∀ c, ctl_ok config c → ∃ c' out, print c = Ok (c', out) ∧ ctl_ok config c' ∧ quiet c c') →
  Forall (ctrl_ok config clk) cs →
  ∃ cs' ops, print_controllers print after cs = Ok (cs', ops) ∧
    Forall (ctrl_ok config clk) cs' ∧ length cs' = length cs ∧ owed cs' = owed cs.
Proof.
  intros Hp Hcs. unfold print_controllers.
  enough (Hgen : ∀ (l : list (nat * Controller)) done ops, Forall (ctrl_ok config clk) l.*2 →
    ∃ cs' ops', for_each (λ '(i, c) '(done, ops),
        '(c, out) ← print c; Ok (done ++ [c], ops ++ (Stats <$> out) ++ after i)) l (done, ops)
      = Ok (done ++ cs', ops') ∧ Forall (ctrl_ok config clk) cs' ∧
      length cs' = length l ∧ owed cs' = owed l.*2).
  { assert (E : (imap pair cs).*2 = cs).
    { rewrite fmap_imap. simpl. clear. induction cs as [|c cs IH]; [done|].
      simpl. f_equal. done. }
    destruct (Hgen (imap pair cs) [] []) as (cs' & ops & ? & ? & Hl & Ho); [by rewrite E|].
    exists cs', ops. rewrite length_imap in Hl. rewrite E in Ho. done. }
  clear Hcs cs. induction l as [|[i c] l IH]; intros done ops Hl; cbn [for_each].
  { exists [], ops. rewrite app_nil_r. by split_and!. }
  csimpl in Hl. apply Forall_cons in Hl as [[Hc Hk] Hl].
  destruct (Hp c Hc) as (c' & out & -> & Hc' & Ho & Hk' & _). cbn [mbind outcome_bind].
  edestruct (IH (done ++ [c'])) as (cs' & ops' & -> & ? & ? & Hw); [done|].
  exists (c' :: cs'), ops'. rewrite <- (assoc (++)).
  split_and!; [done|constructor; [by split; [|congruence]|done]|simpl; congruence|].
  unfold owed in *. csimpl. by rewrite Ho, Hw.
Qed.

Section Laws.
Context (fd : double → string) (st : string → string → string → string).

Lemma base_epoch_spec (config : Config) clk clk' cs :
  Forall (ctrl_ok config clk') cs →
  ∃ cs' ops, Base_PrintEpochStats fd st config clk cs = Ok (cs', ops) ∧
    Forall (ctrl_ok config clk') cs' ∧ length cs' = length cs ∧ owed cs' = owed cs.
Proof.
  intros Hcs. unfold Base_PrintEpochStats.
  destruct (print_controllers_spec config clk' (Controller.PrintEpochStats fd st config)
    (λ _, [Append (json_epoch_name config) ("," +:+ newline)]) cs)
    as (cs' & ops & -> & ? & ? & ?); [intros c Hc; by apply PrintEpochStats_ok|done|].
  cbn [mbind outcome_bind]. by eexists _, _.
Qed.

Lemma base_stats_spec (config : Config) clk cs :
  Forall (ctrl_ok config clk) cs →
  ∃ cs' ops, Base_PrintStats fd st config cs = Ok (cs', ops) ∧
    Forall (ctrl_ok config clk) cs' ∧ length cs' = length cs ∧ owed cs' = owed cs.
Proof.
  intros Hcs. unfold Base_PrintStats.
  edestruct (print_controllers_spec config clk (Controller.PrintFinalStats fd st config))
    as (cs' & ops & -> & ? & ? & ?); [intros c Hc; by apply PrintFinalStats_ok|done|].
  cbn [mbind outcome_bind]. by eexists _, _.
Qed.

(** The end of a cycle: the controllers tick, and an epoch may end. *)
Lemma cycle_end_spec s (cbs : list callback) :
  supported (js_config s) → u64 (epoch_period (js_config s)) ≠ 0 → js_timing s = Timing_of (js_config s) →
  0 ≤ js_clk_ s < 2 ^ 63 → Forall (ctrl_ok (js_config s) (js_clk_ s)) (ctrls_ s) →
  ∃ cs ops,
    (cs ← tick_controllers (js_config s) (js_timing s) (ctrls_ s);
     let s := s <| ctrls_ := cs |> <| js_clk_ := u64 (js_clk_ s + 1) |> in
     if u64 (epoch_period (js_config s)) =? 0 then Fail DivisionByZero
     else if js_clk_ s mod u64 (epoch_period (js_config s)) =? 0 then
       '(s, ops) ← PrintEpochStats fd st s; Ok (s, cbs, ops)
     else Ok (s, cbs, [])) = Ok (s <| ctrls_ := cs |> <| js_clk_ := js_clk_ s + 1 |>, cbs, ops) ∧
    Forall (ctrl_ok (js_config s) (js_clk_ s + 1)) cs ∧ length cs = length (ctrls_ s) ∧
    owed cs ≡ₚ owed (ctrls_ s).
Proof.
  intros Hs He Ht Hk Hcs. rewrite Ht.
  destruct (tick_controllers_spec (js_config s) (js_clk_ s) (ctrls_ s) Hs Hk Hcs) as (cs & -> & Hcs' & Hl & Ho).
  cbn [mbind outcome_bind].
  assert (u64 (js_clk_ s + 1) = js_clk_ s + 1) as -> by (apply u64_id; lia). cbv zeta.
  change (js_config (s <| ctrls_ := cs |> <| js_clk_ := js_clk_ s + 1 |>)) with (js_config s).
  rewrite (proj2 (Z.eqb_neq _ _)) by exact He. destruct (_ mod _ =? 0); [|by exists cs, []].
  unfold PrintEpochStats.
  destruct (base_epoch_spec (js_config s) (js_clk_ s + 1) (js_clk_ s + 1) cs Hcs') as (cs2 & ops & H & Hcs2 & Hl2 & Ho2).
  exists cs2, ops. split; [|split; [done|split; [congruence|by rewrite Ho2]]].
  set (s3 := s <| ctrls_ := cs |> <| js_clk_ := js_clk_ s + 1 |>).
  change (Base_PrintEpochStats fd st (js_config s3) (js_clk_ s3) (ctrls_ s3))
    with (Base_PrintEpochStats fd st (js_config s) (js_clk_ s + 1) cs).
  rewrite H. cbn [mbind outcome_bind]. unfold s3. by destruct s.
Qed.

(** A cycle of an idle system.  [Q] is what holds of the accelerator's members
    after the packet at the head of the queue has been taken. *)
Lemma tick_idle (Q : JedecDRAMSystem → Prop) s :
  idle s → js_clk_ s < 2 ^ 63 →
  (∀ cs w cuts, let s1 := s <| ctrls_ := cs |> in
     look_ahead s1 = Ok (w, cuts) → idle (s1 <| cuts_ := cuts |>) → vsize cuts = vsize (cuts_ s) →
     ∃ s2, take_packet (s1 <| cuts_ := cuts |>) = Ok s2 ∧ idle s2 ∧
       same_memory (s1 <| cuts_ := cuts |>) s2 ∧ Q s2) →
  (∀ s2 s3, flow s3 = flow s2 → cuts_ s3 = cuts_ s2 →
     pim_trans_queue_ s3 = pim_trans_queue_ s2 → Q s2 → Q s3) →
  ∃ s' cbs ops, Jedec_ClockTick fd st s = Ok (s', cbs, ops) ∧ idle s' ∧ Q s' ∧
    js_clk_ s' = js_clk_ s + 1 ∧ js_config s' = js_config s ∧
    length (ctrls_ s') = length (ctrls_ s) ∧ owed (ctrls_ s) ≡ₚ cbs ++ owed (ctrls_ s').
Proof.
  intros Hs Hb Htake HQ. unfold Jedec_ClockTick.
  pose proof (return_all_spec _ (js_clk_ s) _ _ (jo_ctrls _ Hs)) as Hr.
  destruct (return_all (js_clk_ s) (ctrls_ s)) as [cs cbs]. destruct Hr as (Hcs & Hl & Hp).
  set (s1 := s <| ctrls_ := cs |>).
  assert (Hs1 : idle s1) by (destruct Hs; by split).
  destruct (look_ahead_idle s1 Hs1) as (w & cuts & Hla & Hcuts & Hsz). rewrite Hla.
  cbn [mbind outcome_bind].
  assert (Hs1' : idle (s1 <| cuts_ := cuts |>)).
  { destruct Hs1 as [? ? ? ? ? Hf ?]. split; try done. simpl in *. unfold constant. by rewrite Hsz. }
  destruct (Htake cs w cuts Hla Hs1' Hsz) as (s2 & Ht2 & Hs2 & (Hk2 & Hc2 & Hl2 & Ho2) & HQ2).
  fold s1 in Ht2. rewrite Ht2.
  cbn [mbind outcome_bind]. rewrite (schedule_idle _ w Hs2). cbn [mbind outcome_bind].
  change (js_clk_ s2 = js_clk_ s) in Hk2. change (js_config s2 = js_config s) in Hc2.
  change (length (ctrls_ s2) = length cs) in Hl2. change (owed (ctrls_ s2) = owed cs) in Ho2.
  pose proof (jo_clk _ Hs) as Hclk.
  destruct (cycle_end_spec s2 cbs (jo_config _ Hs2) (jo_epoch _ Hs2) (jo_timing _ Hs2))
    as (cs' & ops & H & Hcs' & Hl' & Ho'); [lia|apply Hs2|].
  eexists _, cbs, ops. split; [exact H|].
  split; [destruct Hs2; split; try done; simpl; unfold constant; lia|].
  split; [by apply (HQ s2)|]. split; [simpl; unfold constant; lia|]. split; [done|]. split; simpl; unfold constant.
  - congruence.
  - by rewrite Hp, Ho', Ho2.
Qed.

Lemma jedec_tick_spec s :
  jedec_ok s → js_clk_ s < 2 ^ 63 →
  ∃ s' cbs ops, Jedec_ClockTick fd st s = Ok (s', cbs, ops) ∧ jedec_ok s' ∧
    js_clk_ s' = js_clk_ s + 1 ∧ js_config s' = js_config s ∧
    length (ctrls_ s') = length (ctrls_ s) ∧ owed (ctrls_ s) ≡ₚ cbs ++ owed (ctrls_ s').
Proof.
  intros [Hs Hq] Hb.
  destruct (tick_idle (λ s, packets_ok (vsize (cuts_ s)) (pim_trans_queue_ s)) s Hs Hb)
    as (s' & cbs & ops & H & Hs' & HQ & Hrest).
  - intros cs w cuts s1 _ Hs1 Hsz. destruct (take_packet_spec (s1 <| cuts_ := cuts |>)) as (s2 & ? & [? ?] & ?).
    { split; [done|]. simpl. unfold constant. by rewrite Hsz. }
    by exists s2.
  - by intros s2 s3 _ -> ->.
  - exists s', cbs, ops. by split.
Qed.

(** ** Accepting *)

Lemma owed_update cs i c c' cb :
  cs !! i = Some c → outstanding c' ≡ₚ cb :: outstanding c →
  owed (<[i := c']> cs) ≡ₚ cb :: owed cs.
Proof.
  intros Hi Ho. unfold owed. revert i Hi. induction cs as [|x cs IH]; intros [|i] Hi; try done.
  - injection Hi as ->. csimpl. by rewrite Ho.
  - csimpl. rewrite (IH i Hi). by rewrite Permutation_middle.
Qed.

Lemma add_ctrls_spec s a w :
  Forall (ctrl_ok (js_config s) (js_clk_ s)) (ctrls_ s) → jedec_addr s a →
  Jedec_WillAcceptTransaction s a w = Ok true →
  ∃ cs, Jedec_AddTransaction a w s = Ok (s <| ctrls_ := cs |> <| last_req_clk_ := js_clk_ s |>, true) ∧
    Forall (ctrl_ok (js_config s) (js_clk_ s)) cs ∧ length cs = length (ctrls_ s) ∧
    owed cs ≡ₚ callback_of a w :: owed (ctrls_ s).
Proof.
  intros Hs [Hch Hm] Hacc. unfold Jedec_WillAcceptTransaction in Hacc. unfold Jedec_AddTransaction.
  apply bind_Ok in Hacc as (c & Hc & [= Hok]). rewrite Hc. cbn [mbind outcome_bind].
  rewrite Hok. cbn [ensure mbind outcome_bind].
  pose proof Hc as [_ Hlk]%vget_Ok.
  assert (Hco : ctrl_ok (js_config s) (js_clk_ s) c).
  { apply (proj1 (Forall_forall _ _) Hs). by eapply list_elem_of_lookup_2. }
  destruct Hco as [Hinv Hk].
  destruct (AddTransaction_ok (js_config s) (Transaction_rw a w) c Hinv Hm)
    as (Hinv' & _ & Ho & Hk').
  destruct (AddTransaction (Transaction_rw a w) c) as [c' b]. simpl in *.
  rewrite vset_in_range by exact Hch. cbn [mbind outcome_bind].
  eexists. split; [reflexivity|]. split; [|split; [apply length_insert|by eapply owed_update]].
  apply Forall_insert; [done|]. split; [done|]. by rewrite Hk'.
Qed.

Lemma jedec_add_spec s a w :
  jedec_ok s → jedec_addr s a → Jedec_WillAcceptTransaction s a w = Ok true →
  ∃ s', Jedec_AddTransaction a w s = Ok (s', true) ∧ jedec_ok s' ∧
    js_clk_ s' = js_clk_ s ∧ js_config s' = js_config s ∧
    length (ctrls_ s') = length (ctrls_ s) ∧
    owed (ctrls_ s') ≡ₚ callback_of a w :: owed (ctrls_ s).
Proof.
  intros Hs Ha Hacc. destruct (add_ctrls_spec s a w (jo_ctrls _ (proj1 Hs)) Ha Hacc) as (cs & -> & Hcs & Hl & Ho).
  eexists. split; [reflexivity|]. split; [|done].
  destruct Hs as [Hs Hq]. split; [|done]. destruct Hs. by split.
Qed.

#[global] Program Instance jedec_laws : @DRAMSystemLaws JedecDRAMSystem (jedec_system fd st) := {
  sys_ok := jedec_ok;
  sys_addr := jedec_addr;
  sys_pending s := owed (ctrls_ s);
  sys_left s := 2 ^ 63 - js_clk_ s
}.
Next Obligation.
  intros s a w Hs [Hch _]. simpl. unfold Jedec_WillAcceptTransaction.
  destruct (vget_in_range _ _ Hch) as [c ->]. cbn [mbind outcome_bind]. by eexists.
Qed.
Next Obligation.
  intros s a w Hs Ha Hacc. destruct (jedec_add_spec s a w Hs Ha Hacc)
    as (s' & ? & ? & ? & Hcfg & Hl & ?).
  exists s'. split_and!; try done; [lia|]. unfold jedec_addr, vsize. by rewrite Hcfg, Hl.
Qed.
Next Obligation.
  intros s Hs Hb. destruct (jedec_tick_spec s Hs ltac:(lia)) as (s' & cbs & ops & H & ? & ? & Hcfg & Hl & ?).
  exists s', cbs. split_and!; try done; [simpl; by rewrite H|lia|].
  unfold jedec_addr, vsize. by rewrite Hcfg, Hl.
Qed.
End Laws.

(** ** The constructor *)

Lemma build_controllers (config : Config) l done cs :
  supported config →
  for_each (λ i cs, c ← Controller_init config i; Ok (cs ++ [c])) l done = Ok cs →
  ∃ new, cs = done ++ new ∧ length new = length l ∧ Forall (ctrl_ok config 0) new ∧ owed new = [].
Proof.
  intros Hs. revert done. induction l as [|i l IH]; intros done; cbn [for_each].
  { intros [= <-]. exists []. rewrite app_nil_r. by split_and!. }
  intros H. apply bind_Ok in H as (cs1 & H1 & H). apply bind_Ok in H1 as (c & Hc & [= <-]).
  destruct (Controller_init_inv config i c Hs Hc) as (Hinv & Ho & Hk & Hp & _).
  destruct (IH _ H) as (new & -> & Hl & Hn & Hw). exists (c :: new).
  rewrite <- (assoc (++)). split_and!; [done|simpl; congruence|constructor; [by split; [split; [exists []|]|]|done]|].
  unfold owed in *. csimpl. by rewrite Ho, Hw.
Qed.

Lemma Jedec_init_ok (config : Config) s :
  supported config → u64 (epoch_period config) ≠ 0 → Jedec_init config = Ok s →
  jedec_ok s ∧ js_config s = config ∧ js_clk_ s = 0 ∧
  vsize (ctrls_ s) = Z.max 0 (channels config) ∧ owed (ctrls_ s) = [] ∧
  cuts_ s = [] ∧ pim_trans_queue_ s = [].
Proof.
  intros Hs He H. unfold Jedec_init in H. destruct (IsHMC config); [discriminate H|].
  apply bind_Ok in H as (_ & _ & H). apply bind_Ok in H as (cs & Hcs & H).
  apply bind_Ok in H as (_ & _ & [= <-]).
  destruct (build_controllers config _ _ _ Hs Hcs) as (new & -> & Hl & Hn & Hw). simpl.
  split_and!; [split; [by split; auto|done]|done|done| |done..]. unfold vsize. rewrite Hl, length_seqZ. lia.
Qed.

(** ** Submitting packets *)

Definition add_packets (packets : list Z) (s : JedecDRAMSystem) : outcome JedecDRAMSystem :=
  for_each (λ a s, '(s, _) ← Jedec_AddPim a s; Ok s) packets s.

Lemma add_packets_spec packets : ∀ s,
  idle s → vsize (pim_trans_queue_ s) + vsize packets ≤ pim_trans_queue_depth_ →
  ∃ s', add_packets packets s = Ok s' ∧ idle s' ∧ same_memory s s' ∧ cuts_ s' = cuts_ s ∧
    pim_trans_queue_ s' = pim_trans_queue_ s ++ ((λ a, Transaction_rw a false) <$> packets).
Proof.
  induction packets as [|a packets IH]; intros s Hs Hb; unfold add_packets; cbn [for_each].
  { exists s. rewrite app_nil_r. by split_and!. }
  unfold Jedec_AddPim, Jedec_WillAcceptPim. unfold vsize in Hb. simpl in Hb.
  rewrite (proj2 (Z.ltb_lt _ _)) by (unfold vsize; lia). cbn [ensure mbind outcome_bind].
  edestruct (IH (s <| pim_trans_queue_ := pim_trans_queue_ s ++ [Transaction_rw a false] |>
    <| last_req_clk_ := js_clk_ s |>)) as (s' & H & Hs' & Hm & Hc & Hq).
  - destruct Hs. by split.
  - unfold vsize. simpl. unfold constant. rewrite length_app. simpl. lia.
  - exists s'. split; [exact H|]. split; [done|]. split; [exact Hm|]. split; [exact Hc|].
    rewrite Hq. simpl. unfold constant. by rewrite <- (assoc (++)).
Qed.

(** Packets for two cuts and the three dimensions of the first. *)
Definition sample_packets : list Z := [0x60 + 0x80; 0x0; 0x20; 0x40].

(** ** Properties *)

(** [C9] A JEDEC memory system keeps its contract.  The configuration is
    [supported] (self refresh disabled, with which the controllers can abort; a
    refresh policy and interval that exist; delays for dual commands) and its
    epoch is not empty.  From a constructor that returned, with packets in the
    queue of the accelerator that configure it and do not launch it
    ([packets_ok]: dataflow packets, and workload packets for cuts of the
    dataflow in force; at most as many as the queue holds), every session of
    fewer than 2^63 clock cycles and transactions (to addresses of existing
    channels and banks) runs without failing, and the transactions accepted are
    exactly those reported through the callbacks, with their kind, plus those
    the controllers still owe. *)
Theorem jedec_session_conserves fd st (config : Config) s0 packets rs :
  supported config → u64 (epoch_period config) ≠ 0 → Jedec_init config = Ok s0 →
  packets_ok 0 ((λ a, Transaction_rw a false) <$> packets) → vsize packets ≤ pim_trans_queue_depth_ →
  Forall (λ r, match r with Clock => True | Submit a _ => jedec_addr s0 a end) rs →
  Z.of_nat (length rs) < 2 ^ 63 →
  ∃ s1 s accepted received,
    add_packets packets s0 = Ok s1 ∧
    for_each (@serve _ (jedec_system fd st)) rs (s1, [], []) = Ok (s, accepted, received) ∧
    jedec_ok s ∧ accepted ≡ₚ received ++ owed (ctrls_ s).
Proof.
  intros Hs He Hi Hpk Hpn Hr Hl.
  destruct (Jedec_init_ok config s0 Hs He Hi) as (Hok & _ & Hk & _ & Ho & Hcuts & Hqueue).
  destruct (add_packets_spec packets s0 (proj1 Hok)) as (s1 & H1 & Hs1 & (Hk1 & Hc1 & Hl1 & Ho1) & Hcu1 & Hq1);
    [by rewrite Hqueue|].
  assert (Hok1 : jedec_ok s1) by (split; [done|]; by rewrite Hcu1, Hcuts, Hq1, Hqueue).
  destruct (session_spec (H := jedec_laws fd st) s1 rs [] [] Hok1) as (s & acc & rec & H & Hs' & Hp).
  - eapply Forall_impl; [exact Hr|]. intros [|a w]; [done|]. simpl. unfold jedec_addr, vsize.
    by rewrite Hc1, Hl1.
  - change (Z.of_nat (length rs) ≤ 2 ^ 63 - js_clk_ s1). lia.
  - exists s1, s, acc, rec. split; [exact H1|]. split; [exact H|]. split; [exact Hs'|].
    change (acc ++ owed (ctrls_ s1) ≡ₚ rec ++ owed (ctrls_ s)) in Hp.
    by rewrite Ho1, Ho, app_nil_r in Hp.
Qed.

Lemma jedec_session_conserves_witness :
  let rs := [Submit 4096 false; Submit 65536 true; Clock; Clock; Submit 4096 true; Clock; Clock; Clock] in
  ∃ s0 s1 s accepted received, Jedec_init hbm2_config = Ok s0 ∧ add_packets sample_packets s0 = Ok s1 ∧
    for_each (@serve _ (jedec_system no_double no_line)) rs (s1, [], []) = Ok (s, accepted, received) ∧
    accepted ≡ₚ received ++ owed (ctrls_ s).
Proof.
  intros rs. destruct (is_ok_exists (Jedec_init hbm2_config)) as [s0 H0]; [vm_compute; reflexivity|].
  destruct (Jedec_init_ok hbm2_config s0 hbm2_supported ltac:(vm_compute; congruence) H0)
    as (_ & Hcfg & _ & Hn & _).
  destruct (jedec_session_conserves no_double no_line hbm2_config s0 sample_packets rs)
    as (s1 & s & acc & rec & H1 & H & _ & Hp).
  - apply hbm2_supported.
  - vm_compute. congruence.
  - exact H0.
  - vm_compute. repeat split; congruence.
  - vm_compute. congruence.
  - unfold jedec_addr. rewrite Hcfg, Hn.
    solve_Forall first [exact I|repeat split; vm_compute; congruence].
  - reflexivity.
  - exists s0, s1, s, acc, rec. split; [exact H0|]. split; [exact H1|]. split; [exact H|exact Hp].
Defined.
