(* ===== verification/PimSafety.v ===== *)
(** * Properties of the accelerator's scheduler

    Packets decode to what they encode, a cut goes through its phases in
    order, the commands of a data vector are sent all together or not at all
    (weights and outputs; for inputs they are not), and a launch packet that
    does not match the configuration blocks the queue for ever. *)
From stdpp Require Import base tactics numbers list list_numbers gmap strings sets.
From coqutil Require Import Datatypes.RecordSetters.
From S2P Require Import Prelude Common Double Configuration ChannelState Refresh SimpleStats.
From S2P Require Import CommandQueue Controller ControllerSafety DramSystem PimScheduler JedecSystem.
From S2P Require Import JedecSafety.

Import TriangleBracketNotations.
Local Open Scope Z_scope.

(** ** Specification *)

(** A field of [w] bits below the rest of a packet. *)
Definition field (w v rest : Z) : Z := v + 2 ^ w * rest.

(** The packet that configures the dataflow: exponents of the cuts, factors
    and tile size, and the fields stored as they are. *)
Definition dataflow_packet (cut v h m u d t vn hn k st : Z) : Z :=
  field 1 0 (field 4 cut (field 2 3 (field 3 v (field 1 h (field 3 m (field 3 u (field 1 d
    (field 4 t (field 3 vn (field 1 hn (field 5 k (field 5 st 0)))))))))))).

(** The packet that sets one dimension and one base row of a cut. *)
Definition workload_packet (cut ty dim row : Z) : Z :=
  field 1 0 (field 4 cut (field 2 ty (field 32 dim (field 22 row 0)))).

(** The phases of a cut: load weights, wait one cycle, stream inputs, wait for
    the array. *)
Inductive phase_step : Z → Z → Prop :=
| stay p : 0 ≤ p ≤ 3 → phase_step p p
| weights_loaded : phase_step 0 1
| array_ready : phase_step 1 2
| inputs_sent : phase_step 2 3
| array_free : phase_step 3 0.

(** What a cut computes, which scheduling must not change. *)
Definition workload (c : Cut) : Z * Z * Z * (Z * Z * Z) :=
  (M c, N c, K c, (base_rows_in c, base_rows_w c, base_rows_out c)).

(** What the bookkeeping around the phases leaves alone. *)
Definition same_job (c c' : Cut) : Prop :=
  workload c' = workload c ∧ iw_status c' = iw_status c.

(** One cycle of a cut. *)
Definition job_step (c c' : Cut) : Prop :=
  workload c' = workload c ∧ phase_step (iw_status c) (iw_status c').

(** The requests of a data vector, in the order of the loops. *)
Definition requests (mk : Z → Z → outcome Command) (js ks : list Z) : list (outcome Command) :=
  j ← js; k ← ks; [mk j k].

(** [cmd] answers the request [r]. *)
Definition answers (ready : Command → outcome Command) (r : outcome Command) (cmd : Command)
    : Prop :=
  ∃ req, r = Ok req ∧ ready req = Ok cmd ∧ IsValid cmd = true.

Definition uniform (cmds : list Command) : Prop :=
  ∀ a b, a ∈ cmds → b ∈ cmds → cmd_type a = cmd_type b.

(** A data vector is sent whole, as commands of one type, or not at all; no
    activation is sent while a refresh is expected ([wr]). *)
Definition complete (ready : Command → outcome Command) (wr : bool)
    (reqs : list (outcome Command)) (cmds : list Command) : Prop :=
  (cmds = [] ∨ Forall2 (answers ready) reqs cmds) ∧ uniform cmds ∧
  (wr = true → ∀ cmd, cmd ∈ cmds → cmd_type cmd ≠ PIM_ACTIVATE).

(** The accelerator's configuration, queue and workloads are what they were. *)
Record stuck_at (flow0 : Dataflow) (queue0 : list Transaction)
    (jobs0 : list (Z * Z * Z * (Z * Z * Z))) (s : JedecDRAMSystem) : Prop := {
  sk_flow : flow s = flow0;
  sk_queue : pim_trans_queue_ s = queue0;
  sk_jobs : workload <$> cuts_ s = jobs0;
  sk_status : Forall (λ c, 0 ≤ iw_status c ≤ 3) (cuts_ s)
}.

(** Concrete states: one cut over the channels and banks of the HBM2
    configuration, with a workload of the given dimensions. *)
Definition one_cut : Dataflow := mkDataflow 1 1 1 1 1 0 1 1 256 0 0.
Definition cut_of (m n k : Z) : Cut := Cut_init <| M := m |> <| N := n |> <| K := k |>.

(** A launch for the only cut, before its dimensions are set. *)
Definition early_launch (s : JedecDRAMSystem) : JedecDRAMSystem :=
  s <| flow := one_cut |> <| cuts_ := [Cut_init] |>
    <| pim_trans_queue_ := [Transaction_rw 3 false; Transaction_rw (workload_packet 0 0 512 7) false] |>.

(** A channel that is not ready. *)
Definition hold (ch : Z) (cmd : Command) : outcome Command :=
  Ok (if Channel cmd =? ch then Command_default else cmd).

(** Cycles of a memory system, dropping what they report. *)
Fixpoint jedec_ticks (fd : double → string) (st : string → string → string → string) (n : nat)
    (s : JedecDRAMSystem) : outcome JedecDRAMSystem :=
  match n with
  | O => Ok s
  | S n => '(s, _, _) ← Jedec_ClockTick fd st s; jedec_ticks fd st n s
  end.

(** ** Fields *)

Lemma low_bits_mod w a : 0 ≤ w → low_bits w a = a mod 2 ^ w.
Proof.
  intros Hw. unfold low_bits. by rewrite <- Z.land_ones by lia.
Qed.

Lemma low_field w v r : 0 ≤ w → 0 ≤ v < 2 ^ w → low_bits w (field w v r) = v.
Proof.
  intros Hw Hv. rewrite low_bits_mod by done. unfold field.
  rewrite Z.mul_comm, Z.mod_add by lia. by apply Z.mod_small.
Qed.

Lemma rest_field w v r : 0 ≤ w → 0 ≤ v < 2 ^ w → Z.shiftr (field w v r) w = r.
Proof.
  intros Hw Hv. rewrite Z.shiftr_div_pow2 by done. unfold field.
  rewrite Z.mul_comm, Z.div_add by lia. by rewrite Z.div_small.
Qed.

(** The tests on single bits, on the fields. *)
Lemma bit_test p i : 0 ≤ i → (Z.land p (Z.shiftl 1 i) =? 0) = negb (Z.testbit p i).
Proof.
  intros Hi. rewrite Z.shiftl_1_l.
  assert (Z.land p (2 ^ i) = if Z.testbit p i then 2 ^ i else 0) as ->.
  { apply Z.bits_inj'. intros n Hn. rewrite Z.land_spec.
    destruct (Z.testbit p i) eqn:E.
    - destruct (decide (n = i)) as [->|]; [by rewrite E|].
      rewrite Z.pow2_bits_false by done. by rewrite andb_false_r.
    - rewrite Z.bits_0. destruct (decide (n = i)) as [->|]; [by rewrite E|].
      rewrite Z.pow2_bits_false by done. by rewrite andb_false_r. }
  destruct (Z.testbit p i); [|done]. simpl. apply Z.eqb_neq. lia.
Qed.

Lemma field_bit w v r i :
  0 ≤ i → 0 ≤ w → 0 ≤ v < 2 ^ w →
  Z.testbit (field w v r) i = if i <? w then Z.testbit v i else Z.testbit r (i - w).
Proof.
  intros Hi Hw Hv. destruct (i <? w) eqn:E; split_bool.
  - rewrite <- (low_field w v r) at 2 by done. rewrite low_bits_mod by done.
    by rewrite Z.mod_pow2_bits_low by lia.
  - rewrite <- (rest_field w v r) at 2 by done. rewrite Z.shiftr_spec by lia. f_equal. lia.
Qed.

Lemma launch_field r : is_launch (field 1 0 r) = false.
Proof.
  unfold is_launch. change 1 with (Z.shiftl 1 0) at 2. rewrite bit_test by lia.
  by rewrite field_bit by lia.
Qed.

(** The kind of load is in the two bits that tell a dataflow packet. *)
Lemma dataflow_field cut ty r :
  0 ≤ cut < 16 → 0 ≤ ty < 4 → is_dataflow (field 1 0 (field 4 cut (field 2 ty r))) = (ty =? 3).
Proof.
  intros Hc Ht. unfold is_dataflow. rewrite !bit_test by lia.
  repeat (rewrite field_bit by lia; cbn [Z.ltb Z.compare Z.sub Z.add Z.opp Z.pos_sub Pos.compare Pos.compare_cont Z.succ_double Z.double Z.pred_double Pos.pred_double]).
  assert (ty = 0 ∨ ty = 1 ∨ ty = 2 ∨ ty = 3) as [->|[->|[->| ->]]] by lia; done.
Qed.

Ltac unpack := repeat first [rewrite rest_field by lia|rewrite low_field by lia].

Lemma dataflow_decodes cut v h m u d t vn hn k st :
  0 ≤ cut < 16 → Forall (λ x, 0 ≤ x < 8) [v; m; u; vn] → Forall (λ x, 0 ≤ x < 2) [h; d; hn] →
  0 ≤ t < 16 → Forall (λ x, 0 ≤ x < 32) [k; st] →
  load_dataflow (dataflow_packet cut v h m u d t vn hn k st)
  = mkDataflow (2 ^ v) (2 ^ h) (2 ^ m) (2 ^ u) (2 ^ m * 2 ^ u) d (2 ^ vn) (2 ^ hn) (2 ^ t) st k.
Proof.
  rewrite !Forall_cons. intros Hc (Hv & Hm & Hu & Hvn & _) (Hh & Hd & Hhn & _) Ht (Hk & Hst & _).
  unfold load_dataflow, dataflow_packet. cbv zeta. unpack. by rewrite !Z.shiftl_1_l.
Qed.

Lemma workload_decodes cut ty dim row :
  0 ≤ cut < 16 → 0 ≤ ty < 4 → 0 ≤ dim < 2 ^ 32 → 0 ≤ row < 2 ^ 22 →
  workload_fields (workload_packet cut ty dim row) = (cut, ty, s32 dim, row).
Proof.
  intros Hc Ht Hd Hr. unfold workload_fields, workload_packet. cbv zeta. by unpack.
Qed.

(** Every packet is of this form, so that the invalid kind of load, which
    would abort, is never decoded: it is a dataflow packet. *)
Lemma load_type_valid a :
  0 ≤ a → is_launch a = false → is_dataflow a = false → 0 ≤ (workload_fields a).1.1.2 < 3.
Proof.
  intros Ha _ Hd. unfold workload_fields. cbn [fst snd].
  set (r := Z.shiftr (Z.shiftr a 1) 4). pose proof (low_bits_mod 2 r ltac:(lia)) as E.
  pose proof (Z.mod_pos_bound r (2 ^ 2) ltac:(lia)). rewrite E.
  enough (r mod 2 ^ 2 ≠ 3) by lia. intros E3. unfold is_dataflow in Hd. rewrite !bit_test in Hd by lia.
  assert (Hb : ∀ i, 0 ≤ i < 2 → Z.testbit a (5 + i) = true).
  { intros i Hi. transitivity (Z.testbit (r mod 2 ^ 2) i).
    - rewrite Z.mod_pow2_bits_low by lia. unfold r. rewrite !Z.shiftr_spec by lia. f_equal. lia.
    - rewrite E3. assert (i = 0 ∨ i = 1) as [->| ->] by lia; done. }
  change 5 with (5 + 0) in Hd. change 6 with (5 + 1) in Hd. by rewrite !Hb in Hd by lia.
Qed.

(** ** Collecting commands *)

Section Collect.
Context (ready : Command → outcome Command).

Lemma answers_uniform_snoc cmds cmd :
  uniform cmds → type_eqb (cmd_type (hd cmd (cmds ++ [cmd]))) (cmd_type cmd) = true →
  uniform (cmds ++ [cmd]).
Proof.
  intros Hu H. apply type_eqb_true in H.
  assert (Hall : ∀ a, a ∈ cmds ++ [cmd] → cmd_type a = cmd_type cmd).
  { intros a. rewrite elem_of_app, list_elem_of_singleton. intros [Ha| ->]; [|done].
    destruct cmds as [|c cmds]; [by apply elem_of_nil in Ha|]. simpl in H. rewrite <- H.
    apply Hu; [done|left]. }
  intros a b Ha Hb. by rewrite (Hall a Ha), (Hall b Hb).
Qed.

(** The banks of a channel: everything is collected, or nothing is. *)
Lemma collect_banks_spec mk ks cmds cmds' :
  uniform cmds → collect_banks ready mk ks cmds = Ok cmds' →
  cmds' = [] ∨ ∃ new, cmds' = cmds ++ new ∧ Forall2 (answers ready) (mk <$> ks) new ∧ uniform cmds'.
Proof.
  revert cmds. induction ks as [|k ks IH]; intros cmds Hu; cbn [collect_banks].
  { intros [= <-]. right. exists []. rewrite app_nil_r. by split_and!. }
  intros H. apply bind_Ok in H as (req & Hreq & H). apply bind_Ok in H as (cmd & Hcmd & H).
  destruct (IsValid cmd) eqn:Hv; [|left; by injection H]. cbn [negb] in H.
  destruct (type_eqb _ _) eqn:Ht; [|left; by injection H].
  destruct (IH _ (answers_uniform_snoc _ _ Hu Ht) H) as [->|(new & -> & Hn & Hu')]; [by left|].
  right. exists (cmd :: new). rewrite <- (assoc (++)) in *. split_and!; [done| |done].
  csimpl. constructor; [by exists req|done].
Qed.

Lemma collect_channels_spec mk js ks cmds cmds' :
  uniform cmds → collect_channels ready mk js ks cmds = Ok cmds' →
  cmds' = [] ∨ ∃ new, cmds' = cmds ++ new ∧
    Forall2 (answers ready) (requests mk js ks) new ∧ uniform cmds'.
Proof.
  revert cmds. induction js as [|j js IH]; intros cmds Hu; cbn [collect_channels].
  { intros [= <-]. right. exists []. rewrite app_nil_r. by split_and!. }
  intros (cmds1 & H1 & H)%bind_Ok.
  destruct (collect_banks_spec _ _ _ _ Hu H1) as [->|(new & -> & Hn & Hu1)];
    [left; by injection H|].
  assert (H2 : cmds ++ new = [] ∧ cmds' = [] ∨ collect_channels ready mk js ks (cmds ++ new) = Ok cmds').
  { destruct (cmds ++ new); [left; by injection H as <-|by right]. }
  destruct H2 as [[_ ->]|H2]; [by left|].
  destruct (IH _ Hu1 H2) as [->|(new' & -> & Hn' & Hu')]; [by left|].
  right. exists (new ++ new'). rewrite (assoc (++)). split_and!; [done| |done].
  unfold requests in *. csimpl. apply Forall2_app; [|exact Hn'].
  clear -Hn. revert new Hn. induction ks as [|k ks IH]; intros new Hn; csimpl in *; [done|].
  inversion Hn; subst. constructor; auto.
Qed.
End Collect.

(** ** Phases *)

Lemma vset_Forall2 {A} (R : A → A → Prop) l l' i x y :
  (∀ z, z ∈ l → R z z) → vget l i = Ok x → R x y → vset l i y = Ok l' → Forall2 R l l'.
Proof.
  intros Hrefl [Hi Hx]%vget_Ok Hxy [_ ->]%vset_Ok.
  apply Forall2_same_length_lookup_2; [by rewrite length_insert|].
  intros n a b Ha Hb. destruct (decide (n = Z.to_nat i)) as [->|Hn].
  - rewrite list_lookup_insert_eq in Hb by (by eapply lookup_lt_Some). congruence.
  - rewrite list_lookup_insert_ne in Hb by done. assert (a = b) as <- by congruence.
    apply Hrefl. by eapply list_elem_of_lookup_2.
Qed.

#[global] Instance same_job_preorder : PreOrder same_job.
Proof. split; [by split|]. intros a b c [] []. split; congruence. Qed.

Lemma same_jobs_set cs cs' i c c' :
  vget cs i = Ok c → same_job c c' → vset cs i c' = Ok cs' → Forall2 same_job cs cs'.
Proof. intros Hc Hj Hs. eapply vset_Forall2; [|exact Hc|exact Hj|exact Hs]. done. Qed.

Lemma phase_stay p q : q = p → 0 ≤ p ≤ 3 → phase_step p q.
Proof. intros -> H. by apply stay. Qed.

Lemma phase_next p q : q = p + 1 → 0 ≤ p < 3 → phase_step p q.
Proof.
  intros -> H. assert (p = 0 ∨ p = 1 ∨ p = 2) as [->|[->| ->]] by lia; constructor.
Qed.

Ltac job_set := eapply same_jobs_set; [eassumption| |eassumption]; done.

Section Phases.
Context (config : Config) (f : Dataflow) (ready : Command → outcome Command) (wr : bool).

Lemma step_weights_job g c c' cmds :
  iw_status c = 0 → step_weights config f ready wr g c = Ok (c', cmds) → job_step c c'.
Proof.
  intros H0 H. unfold step_weights in H. do 4 (apply bind_Ok in H as (? & _ & H)).
  apply bind_Ok in H as (l & _ & H). destruct l as [|first rest].
  { injection H as <- <-. split; [done|]. by apply phase_stay; [|lia]. }
  destruct (type_eqb (cmd_type first) PIM_ACTIVATE).
  { destruct (_ || _); injection H as <- <-; (split; [done|]; by apply phase_stay; [|lia]). }
  set (c1 := if type_eqb _ GH_READ_PRECHARGE then _ else c) in H.
  assert (Hj : same_job c c1) by (unfold c1; by destruct (type_eqb _ _)).
  clearbody c1. destruct Hj as [Hw Hs].
  destruct (_ && _); [injection H as <- <-; split; [done|]; apply phase_stay; [done|lia]|].
  apply bind_Ok in H as (fin & _ & H).
  destruct fin; injection H as <- <-; (split; [exact Hw|]); [apply phase_next|apply phase_stay]; (done || lia || (rewrite <- Hs; done)).
Qed.

Lemma advance_inputs_job g c c' :
  iw_status c = 2 → advance_inputs config f g c = Ok c' → job_step c c'.
Proof.
  intros H2 H. unfold advance_inputs in H. do 2 (apply bind_Ok in H as (? & _ & H)).
  apply bind_Ok in H as (first & _ & H). set (c1 := if first then _ else c) in H.
  assert (Hj : same_job c c1) by (unfold c1; by destruct first). clearbody c1. destruct Hj as [Hw Hs].
  apply bind_Ok in H as (r & _ & H). destruct (_ || _) in H.
  - apply bind_Ok in H as (p & _ & H).
    assert (Hfin : workload c' = workload c1 ∧ iw_status c' = iw_status c1 + 1)
      by (repeat case_match; by injection H as <-).
    destruct Hfin as [Hw' Hs']. split; [congruence|]. rewrite Hs', Hs, H2. apply inputs_sent.
  - injection H as <-. split; [exact Hw|]. apply phase_stay; [done|lia].
Qed.

Lemma job_step_after c c1 c' : same_job c c1 → job_step c1 c' → job_step c c'.
Proof. intros [Hw Hs] [Hw' Hp]. split; [congruence|]. by rewrite <- Hs. Qed.

Lemma step_inputs_job g c c' cmds :
  iw_status c = 2 → step_inputs config f ready wr g c = Ok (c', cmds) → job_step c c'.
Proof.
  intros H2 H. unfold step_inputs in H. set (c0 := c <| vpu_cnt := _ |>) in H.
  assert (Hj : same_job c c0) by done. clearbody c0. apply (job_step_after _ c0 _ Hj).
  assert (H0 : iw_status c0 = 2) by (destruct Hj; congruence). clear Hj H2.
  assert (Hstay : ∀ c1, same_job c0 c1 → job_step c0 c1).
  { intros c1 [Hw Hs]. split; [done|]. apply phase_stay; [done|lia]. }
  do 2 (apply bind_Ok in H as (? & _ & H)). apply bind_Ok in H as ([l mixed] & _ & H).
  destruct (_ && _); [injection H as <- <-; by apply Hstay|].
  destruct (if mixed then _ else l) as [|first rest]; [injection H as <- <-; by apply Hstay|].
  destruct (type_eqb (cmd_type first) PIM_ACTIVATE).
  { destruct (_ || _); injection H as <- <-; by apply Hstay. }
  set (c1 := if type_eqb _ (readp_type f) then _ else c0) in H.
  assert (Hj : same_job c0 c1) by (unfold c1; by destruct (type_eqb _ _)). clearbody c1.
  destruct (negb _); [injection H as <- <-; by apply Hstay|].
  apply bind_Ok in H as (c2 & Ha & [= <- <-]). apply (job_step_after _ c1 _ Hj).
  eapply advance_inputs_job; [|exact Ha]. destruct Hj. congruence.
Qed.

Lemma step_wait_job c : iw_status c = 3 → job_step c (step_wait c).
Proof.
  intros H3. unfold step_wait. destruct (in_cnt c =? -1); [split; [done|]; apply phase_stay; [done|lia]|].
  cbv zeta. destruct (_ && _).
  - split; [done|]. rewrite H3. apply array_free.
  - split; [done|]. apply phase_stay; [done|lia].
Qed.

Lemma step_loaded_jobs i cs cs' c :
  Forall (λ c, 0 ≤ iw_status c ≤ 3) cs → vget cs i = Ok c → iw_status c = 1 →
  step_loaded f i cs = Ok cs' → Forall2 job_step cs cs'.
Proof.
  intros Hok Hc H1 H. unfold step_loaded in H. rewrite Hc in H. cbn [mbind outcome_bind] in H.
  apply bind_Ok in H as (cs1 & Hs & H).
  assert (Hrefl : ∀ z, z ∈ cs → job_step z z).
  { intros z Hz. split; [done|]. apply stay. by apply (proj1 (Forall_forall _ _) Hok). }
  destruct (_ && _).
  - assert (Hs' : vset cs i (c <| iw_status := iw_status c + 1 |> <| vpu_cnt := 1 |>
      <| iw_status := iw_status c + 1 - 1 |>) = Ok cs').
    { apply vset_Ok in Hs as [Hi ->]. apply vset_Ok in H as [_ ->]. apply vset_Ok.
      split; [done|]. by rewrite list_insert_insert_eq. }
    eapply vset_Forall2; [exact Hrefl|exact Hc| |exact Hs'].
    split; [done|]. apply phase_stay; [simpl|lia]. change (iw_status c + 1 - 1 = iw_status c). lia.
  - injection H as <-. eapply vset_Forall2; [exact Hrefl|exact Hc| |exact Hs].
    split; [done|]. apply phase_next; [done|lia].
Qed.

Lemma step_status_jobs g i cs cs' w l :
  Forall (λ c, 0 ≤ iw_status c ≤ 3) cs →
  step_status config f ready wr g i cs = Ok (cs', w, l) → Forall2 job_step cs cs'.
Proof.
  intros Hok H. unfold step_status in H. apply bind_Ok in H as (c & Hc & H).
  assert (Hrefl : ∀ z, z ∈ cs → job_step z z).
  { intros z Hz. split; [done|]. apply stay. by apply (proj1 (Forall_forall _ _) Hok). }
  assert (Hset : ∀ c' cs', job_step c c' → vset cs i c' = Ok cs' → Forall2 job_step cs cs').
  { intros c' cs1 Hj. by eapply vset_Forall2. }
  destruct (iw_status c =? 0) eqn:E0; split_bool.
  { apply bind_Ok in H as ([c1 l1] & H1 & H). apply bind_Ok in H as (cs1 & Hs & [= <- _ _]).
    eapply Hset; [|exact Hs]. by eapply step_weights_job. }
  destruct (iw_status c =? 1) eqn:E1; split_bool.
  { apply bind_Ok in H as (cs1 & Hs & [= <- _ _]). by eapply step_loaded_jobs. }
  destruct (iw_status c =? 2) eqn:E2; split_bool.
  { apply bind_Ok in H as ([c1 l1] & H1 & H). apply bind_Ok in H as (cs1 & Hs & [= <- _ _]).
    eapply Hset; [|exact Hs]. by eapply step_inputs_job. }
  destruct (iw_status c =? 3) eqn:E3; split_bool.
  { apply bind_Ok in H as (cs1 & Hs & [= <- _ _]). eapply Hset; [|exact Hs]. by apply step_wait_job. }
  injection H as <- _ _. apply Forall_Forall2_diag, Forall_forall. exact Hrefl.
Qed.

(** *** Outputs *)

Lemma also_next_jobs g upd i cs cs' :
  (∀ c, same_job c (upd c)) → also_next f g upd i cs = Ok cs' → Forall2 same_job cs cs'.
Proof.
  intros Hu H. unfold also_next in H. destruct (_ <? _); [|injection H as <-; done].
  apply bind_Ok in H as (c & Hc & H). eapply same_jobs_set; [exact Hc|apply Hu|exact H].
Qed.

Lemma finish_outputs_jobs g i cs cs' b :
  finish_outputs f g i cs = Ok (cs', b) → Forall2 same_job cs cs'.
Proof.
  intros H. unfold finish_outputs in H. apply bind_Ok in H as (c & Hc & H).
  apply bind_Ok in H as (? & _ & H). apply bind_Ok in H as (cs1 & H1 & H).
  apply bind_Ok in H as (cs2 & H2 & [= <- _]).
  transitivity cs1; [job_set|by eapply also_next_jobs; [|exact H2]].
Qed.

Lemma advance_outputs_jobs g o i cs b cs' b' :
  advance_outputs f g o i cs b = Ok (cs', b') → Forall2 same_job cs cs'.
Proof.
  intros H. unfold advance_outputs in H. apply bind_Ok in H as (c & Hc & H).
  set (c1 := c <| M_out_it := _ |>) in H. apply bind_Ok in H as (r & _ & H).
  destruct (_ || _).
  2:{ apply bind_Ok in H as (cs1 & Hs & [= <- _]). job_set. }
  set (c2 := _ <| N_out_tile_it := _ |>) in H.
  apply bind_Ok in H as ([cs2 b2] & H2 & H).
  assert (Hj : Forall2 same_job cs cs2).
  { destruct (_ <=? _).
    - set (c3 := _ <| M_out_it := _ |>) in H2. apply bind_Ok in H2 as (cs3 & Hs & H2).
      transitivity cs3; [job_set|].
      destruct (_ <=? _); [by eapply finish_outputs_jobs|injection H2 as <- _; reflexivity].
    - apply bind_Ok in H2 as (cs3 & Hs & [= <- _]). job_set. }
  apply bind_Ok in H as (c4 & Hc4 & H). apply bind_Ok in H as (cs4 & H4 & H).
  apply bind_Ok in H as (cs5 & H5 & [= <- _]).
  transitivity cs2; [done|]. transitivity cs4; [job_set|].
  by eapply also_next_jobs; [|exact H5].
Qed.

Lemma step_outputs_jobs g rdy i cs b cs' b' l :
  step_outputs config f ready wr g rdy i cs b = Ok (cs', b', l) → Forall2 same_job cs cs'.
Proof.
  intros H. unfold step_outputs in H. apply bind_Ok in H as (c & Hc & H).
  do 2 (apply bind_Ok in H as (? & _ & H)).
  destruct (_ && _ && _); [|injection H as <- _ _; reflexivity].
  apply bind_Ok in H as (o & _ & H). apply bind_Ok in H as (cmds & _ & H).
  destruct cmds as [|first rest]; [injection H as <- _ _; reflexivity|].
  destruct (type_eqb (cmd_type first) PIM_ACTIVATE).
  { destruct (_ || _); [injection H as <- _ _; reflexivity|].
    apply bind_Ok in H as (cs1 & Hs & [= <- _ _]). job_set. }
  apply bind_Ok in H as (cs1 & Hs & H). apply bind_Ok in H as ([cs2 b2] & H2 & [= <- _ _]).
  transitivity cs1; [|by eapply advance_outputs_jobs].
  destruct (type_eqb _ _); [job_set|injection Hs as <-; reflexivity].
Qed.

Lemma schedule_cut_jobs i cs b cs' b' batch :
  Forall (λ c, 0 ≤ iw_status c ≤ 3) cs →
  schedule_cut config f ready wr i cs b = Ok (cs', b', batch) → Forall2 job_step cs cs'.
Proof.
  intros Hok H. unfold schedule_cut in H. apply bind_Ok in H as (c & _ & H).
  apply bind_Ok in H as (g & _ & H). apply bind_Ok in H as ([[cs1 w] l] & H1 & H).
  apply bind_Ok in H as (c1 & Hc1 & H). apply bind_Ok in H as (cs2 & H2 & H).
  apply bind_Ok in H as ([[cs3 b3] o] & H3 & [= <- _ _]).
  assert (Hj : Forall2 same_job cs1 cs3).
  { transitivity cs2; [|by eapply step_outputs_jobs]. eapply same_jobs_set; [exact Hc1| |exact H2].
    unfold count_outputs. by destruct (out_cnt c1 =? 0); cbv zeta; destruct (negb _). }
  apply step_status_jobs in H1; [|done]. clear -H1 Hj.
  revert cs3 Hj. induction H1 as [|a a1 l l1 [Hw Hp] _ IH]; intros cs3 Hj; inversion Hj as [|? a3 ? l3 [Hw3 Hs3]]; subst; constructor; [|by apply IH].
  split; [congruence|]. by rewrite Hs3.
Qed.
End Phases.

(** ** Data vectors *)

Section Vectors.
Context (config : Config) (f : Dataflow) (ready : Command → outcome Command) (wr : bool).

Lemma uniform_nil : uniform [].
Proof. intros a b Ha. by apply elem_of_nil in Ha. Qed.

Lemma uniform_no_activation first rest :
  uniform (first :: rest) → type_eqb (cmd_type first) PIM_ACTIVATE = false →
  ∀ cmd, cmd ∈ first :: rest → cmd_type cmd ≠ PIM_ACTIVATE.
Proof.
  intros Hu H cmd Hc E. apply type_eqb_false in H. apply H. rewrite <- E. apply Hu; [left|done].
Qed.

Lemma complete_nil reqs : complete ready wr reqs [].
Proof.
  split; [by left|]. split; [apply uniform_nil|]. intros _ cmd H. by apply elem_of_nil in H.
Qed.

(** The batch of weights. *)
Lemma step_weights_complete g c c' cmds :
  step_weights config f ready wr g c = Ok (c', cmds) →
  ∃ per_bank k_tiles n q,
    N_tile_size_per_bank g c = Ok per_bank ∧ idiv (K c - 1) (K_tile_size g) = Ok k_tiles ∧
    irem (N_it c) (N_tile_size g) = Ok n ∧ idiv (cut_width g) (weight_banks_reduce g) = Ok q ∧
    complete ready wr
      (requests (weight_cmd config g c per_bank
         (N_tile_it g * (per_bank * (k_tiles + 1)) + K_tile_it c * per_bank + n))
         (seqZ 0 (cut_height g)) (seqZ 0 q)) cmds.
Proof.
  intros H. unfold step_weights in H. apply bind_Ok in H as (per & Hper & H).
  apply bind_Ok in H as (kt & Hkt & H). apply bind_Ok in H as (n & Hn & H).
  apply bind_Ok in H as (q & Hq & H). apply bind_Ok in H as (l & Hl & H).
  exists per, kt, n, q. split_and!; [done..|].
  destruct (collect_channels_spec ready _ _ _ _ _ uniform_nil Hl) as [->|(new & -> & Hnew & Hu)].
  { injection H as _ <-. apply complete_nil. }
  simpl in Hu, H. destruct new as [|first rest]; [injection H as _ <-; apply complete_nil|].
  destruct (type_eqb (cmd_type first) PIM_ACTIVATE) eqn:Ha.
  { destruct (w_act_placed c || wr) eqn:Hp; injection H as _ <-; [apply complete_nil|].
    split; [by right|]. split; [done|]. intros Hw. by rewrite Hw, orb_true_r in Hp. }
  assert (cmds = first :: rest) as ->.
  { destruct (_ && _); [by injection H as _ <-|]. apply bind_Ok in H as (fin & _ & H).
    by destruct fin; injection H as _ <-. }
  split; [by right|]. split; [done|]. intros _. by apply uniform_no_activation.
Qed.

(** The batch of outputs. *)
Lemma step_outputs_complete g rdy i c cs b cs' b' cmds :
  vget cs i = Ok c →
  step_outputs config f ready wr g rdy i cs b = Ok (cs', b', cmds) →
  cmds = [] ∨ rdy = true ∧ 0 < output_valid c ∧ ∃ o, out_geometry f g c = Ok o ∧
    complete ready wr (requests (output_cmd config f g o c) (seqZ 0 (cut_height_out o))
      (seqZ 0 (if df f =? 1 then 1 else mc f))) cmds.
Proof.
  intros Hc H. unfold step_outputs in H. rewrite Hc in H. cbn [mbind outcome_bind] in H.
  do 2 (apply bind_Ok in H as (? & _ & H)).
  destruct (_ && _ && _) eqn:Hen; [|left; by injection H as _ _ <-].
  apply andb_true_iff in Hen as [[Hv Hr]%andb_true_iff _].
  apply bind_Ok in H as (o & Ho & H). apply bind_Ok in H as (l & Hl & H). right.
  split; [done|]. split; [lia|]. exists o. split; [done|].
  destruct (collect_channels_spec ready _ _ _ _ _ uniform_nil Hl) as [->|(new & -> & Hn & Hu)].
  { injection H as _ _ <-. apply complete_nil. }
  simpl in Hu, H. destruct new as [|first rest]; [injection H as _ _ <-; apply complete_nil|].
  destruct (type_eqb (cmd_type first) PIM_ACTIVATE) eqn:Ha.
  { destruct (out_act_placed c || wr) eqn:Hp; [injection H as _ _ <-; apply complete_nil|].
    apply bind_Ok in H as (? & _ & [= _ _ <-]).
    split; [by right|]. split; [done|]. intros Hw. by rewrite Hw, orb_true_r in Hp. }
  apply bind_Ok in H as (? & _ & H). apply bind_Ok in H as ([? ?] & _ & [= _ _ <-]).
  split; [by right|]. split; [done|]. intros _. by apply uniform_no_activation.
Qed.

(** The fields of a cut that its outputs depend on. *)
Definition out_view (c : Cut) : Z * Z * Z * Z * Z * Z :=
  (base_rows_out c, M c, N c, K c, M_out_it c, N_out_tile_it c).

Lemma out_geometry_view g c c' : out_view c = out_view c' → out_geometry f g c = out_geometry f g c'.
Proof. intros [= _ HM HN _ HMo HNo]. unfold out_geometry. by rewrite HM, HN, HMo, HNo. Qed.

Lemma output_cmd_view g o c c' j k :
  out_view c = out_view c' → output_cmd config f g o c j k = output_cmd config f g o c' j k.
Proof. intros [= Hb _ _ _ HMo _]. unfold output_cmd. by rewrite Hb, HMo. Qed.

(** Waiting for the array and counting outputs do not touch them. *)
Lemma waiting_view c : out_view (count_outputs (step_wait c)) = out_view c.
Proof.
  unfold count_outputs, step_wait. destruct (in_cnt c =? -1); cbv zeta; [|destruct (_ && _)];
    (destruct (_ =? 0); destruct (negb _); reflexivity).
Qed.

(** The channels that receive an output vector. *)
Lemma out_geometry_height g c o :
  out_geometry f g c = Ok o →
  cut_height_out o = if cut_height g <? vcuts f then 1 else Z.quot (cut_height g) (vcuts f).
Proof.
  intros H. unfold out_geometry in H. repeat (apply bind_Ok in H as (? & ? & H)).
  injection H as <-. cbn [cut_height_out].
  match goal with E : (if _ <? _ then Ok 1 else _) = Ok ?h |- _ => destruct (cut_height g <? vcuts f);
    [by injection E|apply idiv_Ok in E] end. naive_solver.
Qed.

Lemma irem_Ok a b r : irem a b = Ok r ↔ b ≠ 0 ∧ r = Z.rem a b.
Proof. unfold irem. destruct (Z.eqb_spec b 0); naive_solver. Qed.

(** The part of the array that a cut occupies. *)
Lemma geometry_part i c g :
  geometry config f i c = Ok g →
  hcut_no g = Z.quot i (vcuts f) ∧ vcut_no g = Z.rem i (vcuts f) ∧
  cut_height g = Z.quot (channels config) (hcuts f) ∧
  cut_width g = Z.quot (banks config) (vcuts f) ∧
  weight_banks_reduce g = if df f =? 0 then 8 else 16.
Proof.
  intros H. unfold geometry in H. repeat (apply bind_Ok in H as (? & ? & H)).
  injection H as <-. cbn [hcut_no vcut_no cut_height cut_width weight_banks_reduce].
  repeat match goal with E : idiv _ _ = Ok _ |- _ => apply idiv_Ok in E end.
  match goal with E : irem i _ = Ok _ |- _ => apply irem_Ok in E end. naive_solver.
Qed.
(** The weights of a cycle are those of the phase that loads them. *)
Lemma step_status_weights_complete g i cs c cs' w l :
  vget cs i = Ok c → step_status config f ready wr g i cs = Ok (cs', w, l) →
  w = [] ∨ iw_status c = 0 ∧ ∃ per_bank k_tiles n q,
    N_tile_size_per_bank g c = Ok per_bank ∧ idiv (K c - 1) (K_tile_size g) = Ok k_tiles ∧
    irem (N_it c) (N_tile_size g) = Ok n ∧ idiv (cut_width g) (weight_banks_reduce g) = Ok q ∧
    complete ready wr
      (requests (weight_cmd config g c per_bank
         (N_tile_it g * (per_bank * (k_tiles + 1)) + K_tile_it c * per_bank + n))
         (seqZ 0 (cut_height g)) (seqZ 0 q)) w.
Proof.
  intros Hc H1. unfold step_status in H1. rewrite Hc in H1. cbn [mbind outcome_bind] in H1.
  destruct (Z.eqb_spec (iw_status c) 0).
  - apply bind_Ok in H1 as ([c2 w2] & Hw & H1). apply bind_Ok in H1 as (? & _ & [= _ <- _]).
    right. split; [done|]. by eapply step_weights_complete.
  - left. destruct (iw_status c =? 1); [by apply bind_Ok in H1 as (? & _ & [= _ <- _])|].
    destruct (iw_status c =? 2).
    { apply bind_Ok in H1 as ([? ?] & _ & H1). by apply bind_Ok in H1 as (? & _ & [= _ <- _]). }
    destruct (iw_status c =? 3); [by apply bind_Ok in H1 as (? & _ & [= _ <- _])|].
    by injection H1 as _ <- _.
Qed.

Lemma vset_same {A} (l l' : list A) j x : vset l j x = Ok l' → vget l' j = Ok x.
Proof.
  intros H. rewrite (vset_vget l l' j j x H). by rewrite bool_decide_eq_true_2.
Qed.

(** What the switch does with a cut that waits for the array. *)
Lemma step_status_wait g i cs c cs' w l :
  vget cs i = Ok c → iw_status c = 3 → step_status config f ready wr g i cs = Ok (cs', w, l) →
  vget cs' i = Ok (step_wait c).
Proof.
  intros Hc Hs H. unfold step_status in H. rewrite Hc in H. cbn [mbind outcome_bind] in H.
  rewrite Hs in H. cbn in H. apply bind_Ok in H as (cs1 & H1 & [= <- _ _]). by eapply vset_same.
Qed.

Lemma complete_ext mk mk' js ks cmds :
  (∀ j k, mk j k = mk' j k) →
  complete ready wr (requests mk js ks) cmds → complete ready wr (requests mk' js ks) cmds.
Proof.
  intros E. enough (requests mk js ks = requests mk' js ks) as -> by done.
  unfold requests. apply list_bind_ext; [|done]. intros j. apply list_bind_ext; [|done].
  intros k. by rewrite E.
Qed.
End Vectors.

(** ** A blocked queue *)

Lemma job_step_workload cs cs' : Forall2 job_step cs cs' → workload <$> cs' = workload <$> cs.
Proof. induction 1 as [|c c' cs cs' [Hw _] _ IH]; csimpl; [done|]. by rewrite Hw, IH. Qed.

Lemma job_step_ok cs cs' :
  Forall2 job_step cs cs' → Forall (λ c, 0 ≤ iw_status c ≤ 3) cs'.
Proof.
  induction 1 as [|c c' cs cs' [_ Hp] _ IH]; constructor; [|done]. inversion Hp; lia.
Qed.

(** Whether a launch packet matches depends on the workloads only. *)
Lemma configured_workload f cs cs' a :
  workload <$> cs' = workload <$> cs → configured f cs' a = configured f cs a.
Proof.
  intros E. unfold configured, for_range. generalize true as b.
  induction (seqZ 0 (total_cuts f)) as [|i l IH]; intros b; [done|]. cbn [for_each].
  destruct (selects a i); cbn [mbind outcome_bind]; [|apply IH].
  assert (Hv : (c ← vget cs' i; Ok (workload c)) = (c ← vget cs i; Ok (workload c))).
  { unfold vget. destruct (bool_decide _); [|done].
    assert (H : (workload <$> cs') !! Z.to_nat i = (workload <$> cs) !! Z.to_nat i) by (by rewrite E).
    rewrite !list_lookup_fmap in H.
    destruct (cs' !! Z.to_nat i), (cs !! Z.to_nat i); simpl in *; congruence. }
  destruct (vget cs' i) as [c'|e'], (vget cs i) as [c|e]; try discriminate Hv;
    cbn [mbind outcome_bind] in *; [|by injection Hv as ->].
  injection Hv as HM HN HK _ _ _. rewrite HM, HN, HK. apply IH.
Qed.

Lemma same_job_lists cs cs' :
  Forall2 same_job cs cs' → Forall (λ c, 0 ≤ iw_status c ≤ 3) cs →
  workload <$> cs' = workload <$> cs ∧ Forall (λ c, 0 ≤ iw_status c ≤ 3) cs'.
Proof.
  induction 1 as [|c c' cs cs' [Hw Hs] _ IH]; intros Hok; [done|].
  apply Forall_cons in Hok as [Hc Hok]. destruct (IH Hok) as [E Hok']. csimpl.
  rewrite Hw, E. split; [done|]. constructor; [by rewrite Hs|done].
Qed.

Section Stuck.
Context (flow0 : Dataflow) (queue0 : list Transaction) (jobs0 : list (Z * Z * Z * (Z * Z * Z))).
Notation stuck := (stuck_at flow0 queue0 jobs0).

Lemma stuck_cuts s cs :
  stuck s → Forall2 same_job (cuts_ s) cs → stuck (s <| cuts_ := cs |>).
Proof.
  intros [Hf Hq Hj Hok] H. destruct (same_job_lists _ _ H Hok) as [E Hok'].
  split; simpl; try done. by rewrite <- Hj.
Qed.

Lemma look_ahead_stuck s b cs : stuck s → look_ahead s = Ok (b, cs) → stuck (s <| cuts_ := cs |>).
Proof.
  intros Hs H. apply stuck_cuts; [done|]. change (Forall2 same_job (cuts_ s) (b, cs).2).
  revert H. unfold look_ahead.
  apply (for_each_inv (λ x : bool * list Cut, Forall2 same_job (cuts_ s) x.2)); [|reflexivity].
  intros c [w1 cs1] [w2 cs2] _ Hx H. simpl in *. apply bind_Ok in H as (coming & _ & H).
  destruct (_ && _ && _); [|by injection H as _ <-].
  apply bind_Ok in H as (cs3 & H3 & [= _ <-]). revert H3. unfold for_range.
  apply (for_each_inv (Forall2 same_job (cuts_ s))); [|done].
  intros j x y _ Hx' H. apply bind_Ok in H as (d & Hd & H). transitivity x; [done|]. job_set.
Qed.

Lemma schedule_stuck w s s' : stuck s → schedule w s = Ok s' → stuck s'.
Proof.
  intros Hs H. unfold schedule in H. apply bind_Ok in H as (r & _ & H). revert H. unfold for_range.
  apply (for_each_inv stuck); [|done]. intros i s1 s2 _ Hs1 H.
  unfold schedule_round in H. apply bind_Ok in H as (c & _ & H).
  destruct (_ || _); [by injection H as <-|].
  apply bind_Ok in H as ([[cs b] batch] & Hc & H). apply bind_Ok in H as (ctrls & _ & [= <-]).
  destruct Hs1 as [Hf Hq Hj Hok]. apply schedule_cut_jobs in Hc; [|done].
  split; simpl; [done|done| |by eapply job_step_ok].
  etrans; [exact (job_step_workload _ _ Hc)|exact Hj].
Qed.

Lemma blocked_packet s s' it queue :
  stuck s → queue0 = it :: queue → is_launch (trans_addr it) = true →
  configured (flow s) (cuts_ s) (Z.shiftr (trans_addr it) 1) = Ok false →
  take_packet s = Ok s' → stuck s' ∧ cuts_ s' = cuts_ s.
Proof.
  intros [Hf Hq Hj Hok] Hq0 Hl Hc H. unfold take_packet in H. rewrite Hq, Hq0, Hl, Hc in H.
  injection H as <-. by split; [split|].
Qed.

Lemma blocked_tick fd st s s' cbs ops it queue :
  stuck s → queue0 = it :: queue → is_launch (trans_addr it) = true →
  configured (flow s) (cuts_ s) (Z.shiftr (trans_addr it) 1) = Ok false →
  Jedec_ClockTick fd st s = Ok (s', cbs, ops) →
  stuck s' ∧ configured (flow s') (cuts_ s') (Z.shiftr (trans_addr it) 1) = Ok false.
Proof.
  intros Hs Hq Hl Hc H.
  enough (Hst : stuck s').
  { split; [done|]. rewrite <- Hc. destruct Hst as [-> _ Hj _], Hs as [-> _ Hj0 _].
    apply configured_workload. congruence. }
  unfold Jedec_ClockTick in H. destruct (return_all (js_clk_ s) (ctrls_ s)) as [cs cb].
  apply bind_Ok in H as ([w cuts] & H1 & H). apply bind_Ok in H as (s2 & H2 & H).
  apply bind_Ok in H as (s3 & H3 & H). apply bind_Ok in H as (cs4 & _ & H).
  assert (Hs1 : stuck (s <| ctrls_ := cs |>)) by (by destruct Hs; split).
  pose proof (look_ahead_stuck _ _ _ Hs1 H1) as Hs1'.
  apply (blocked_packet _ _ it queue Hs1' Hq Hl) in H2 as [Hs2 _].
  2:{ rewrite <- Hc. destruct Hs1' as [-> _ Hj _], Hs as [-> _ Hj0 _].
      apply configured_workload. congruence. }
  apply (schedule_stuck _ _ _ Hs2) in H3.
  destruct (_ =? 0) in H; [discriminate H|]. destruct (_ =? 0) in H.
  - apply bind_Ok in H as ([s5 ops5] & H5 & [= <- _ _]). unfold PrintEpochStats in H5.
    apply bind_Ok in H5 as ([cs6 ops6] & _ & [= <- _]). destruct H3. by split.
  - injection H as <- _ _. destruct H3. by split.
Qed.

(** A blocked system that computes nothing keeps returning from its cycles. *)
Lemma blocked_idle fd st it queue :
  queue0 = it :: queue → is_launch (trans_addr it) = true → ∀ n s,
  stuck s → configured (flow s) (cuts_ s) (Z.shiftr (trans_addr it) 1) = Ok false →
  idle s → js_clk_ s + Z.of_nat n ≤ 2 ^ 63 → is_ok (jedec_ticks fd st n s) = true.
Proof.
  intros Hq Hl. induction n as [|n IH]; intros s Hs Hc Hi Hb; cbn [jedec_ticks]; [done|].
  destruct (tick_idle fd st (λ _, True) s Hi ltac:(lia)) as (s' & cbs & ops & H & Hi' & _ & Hk & _).
  - intros cs w cuts s1 Hla Hs1 _.
    assert (Hst : stuck s1) by (destruct Hs; by split).
    pose proof (look_ahead_stuck _ _ _ Hst Hla) as [Hf Hq1 Hj _].
    unfold take_packet. rewrite Hq1, Hq, Hl.
    rewrite (configured_workload _ (cuts_ s)) by (destruct Hs; congruence).
    replace (flow _) with (flow s) by (by destruct Hs). rewrite Hc. cbn [mbind outcome_bind].
    eexists. split; [reflexivity|]. split; [|split; [|done]].
    + destruct Hs1. split; try done. simpl. unfold constant. apply Forall_fmap.
      eapply Forall_impl; [eassumption|]. intros c Hc'. by apply (ctrl_ok_pim_flags _ _ _ true true).
    + split_and!; [done|done|simpl; unfold constant; by rewrite length_fmap|].
      simpl. unfold constant. by apply owed_fmap.
  - done.
  - rewrite H. cbn [mbind outcome_bind].
    destruct (blocked_tick fd st s s' cbs ops it queue Hs Hq Hl Hc H) as [Hs' Hc'].
    apply IH; [done|done|done|lia].
Qed.
End Stuck.

(** ** Properties *)

(** [C19] Packets decode to what they encode: a dataflow packet sets the
    configuration it describes (cuts, factors and tile size as powers of two),
    a workload packet yields its cut, kind, dimension and base row, neither is
    mistaken for the other or for a launch, and no packet reaches the branch
    for an invalid kind of load.  All fields may take every value of their
    width but the dimension, which has 32 bits and has to be below 2^31: it is
    read into an [int], where larger values become negative. *)
Theorem packets_roundtrip cut v h m u d t vn hn k st ty dim row :
  0 ≤ cut < 16 → Forall (λ x, 0 ≤ x < 8) [v; m; u; vn] → Forall (λ x, 0 ≤ x < 2) [h; d; hn] →
  0 ≤ t < 16 → Forall (λ x, 0 ≤ x < 32) [k; st] →
  0 ≤ ty < 3 → 0 ≤ dim < 2 ^ 31 → 0 ≤ row < 2 ^ 22 →
  (let p := dataflow_packet cut v h m u d t vn hn k st in
   is_launch p = false ∧ is_dataflow p = true ∧
   load_dataflow p = mkDataflow (2 ^ v) (2 ^ h) (2 ^ m) (2 ^ u) (2 ^ m * 2 ^ u) d (2 ^ vn) (2 ^ hn)
                       (2 ^ t) st k) ∧
  (let p := workload_packet cut ty dim row in
   is_launch p = false ∧ is_dataflow p = false ∧ workload_fields p = (cut, ty, dim, row)) ∧
  (∀ p, 0 ≤ p → is_launch p = false → is_dataflow p = false → 0 ≤ (workload_fields p).1.1.2 < 3).
Proof.
  intros Hc H8 H2 Ht H32 Hty Hd Hr. cbv zeta. split_and!; [..|exact load_type_valid].
  - apply launch_field.
  - unfold dataflow_packet. by rewrite dataflow_field by lia.
  - by apply dataflow_decodes.
  - apply launch_field.
  - unfold workload_packet. rewrite dataflow_field by lia. apply Z.eqb_neq. lia.
  - rewrite workload_decodes by lia. by rewrite s32_id by lia.
Qed.

Lemma packets_roundtrip_witness :
  load_dataflow (dataflow_packet 0 1 0 2 0 1 8 0 0 3 1)
    = mkDataflow 2 1 4 1 4 1 1 1 256 1 3 ∧
  workload_fields (workload_packet 1 2 4096 77) = (1, 2, 4096, 77).
Proof.
  destruct (packets_roundtrip 1 1 0 2 0 1 8 0 0 3 1 2 4096 77) as (_ & (_ & _ & E) & _);
    try lia; try (solve_Forall lia).
  split; [|exact E].
  destruct (packets_roundtrip 0 1 0 2 0 1 8 0 0 3 1 2 4096 77) as ((_ & _ & E') & _);
    try lia; try (solve_Forall lia). exact E'.
Defined.

(** [C20] The phases of a cut: in every cycle the scheduler moves a cut along
    its cycle of phases by at most one step (load weights, wait, stream
    inputs, wait for the array, load again), and it never changes the
    dimensions or the base rows of any cut. *)
Theorem cut_phases config f ready wr i cs turn_off cs' turn_off' batch :
  Forall (λ c, 0 ≤ iw_status c ≤ 3) cs →
  schedule_cut config f ready wr i cs turn_off = Ok (cs', turn_off', batch) →
  Forall2 job_step cs cs' ∧ Forall (λ c, 0 ≤ iw_status c ≤ 3) cs'.
Proof.
  intros Hok H. pose proof (schedule_cut_jobs config f ready wr i cs turn_off cs' turn_off' batch Hok H) as Hj.
  split; [done|]. clear -Hj. induction Hj as [|c c' cs cs' [_ Hp] _ IH]; constructor; [|done].
  inversion Hp; lia.
Qed.

Lemma cut_phases_witness :
  ∃ cs' b batch, schedule_cut hbm2_config one_cut (λ cmd, Ok cmd) false 0 [cut_of 512 128 256] false
      = Ok (cs', b, batch) ∧ Forall2 job_step [cut_of 512 128 256] cs'.
Proof.
  destruct (is_ok_exists (schedule_cut hbm2_config one_cut (λ cmd, Ok cmd) false 0
    [cut_of 512 128 256] false)) as [[[cs' b] batch] H]; [vm_compute; reflexivity|].
  exists cs', b, batch. split; [exact H|].
  refine (proj1 (cut_phases hbm2_config one_cut (λ cmd, Ok cmd) false 0 _ false cs' b batch _ H)).
  solve_Forall (split; vm_compute; congruence).
Defined.


(** A cut that waits for the array with one output announced. *)
Definition waiting_cut : Cut :=
  (cut_of 512 128 256) <| iw_status := 3 |> <| in_cnt := -1 |> <| output_valid := 1 |>.


(** Input vectors are not sent whole: a channel that is not ready drops
    the commands collected for the channels before it, but the channels after
    it are collected all the same, and with a single cut nothing holds them
    back: the vector counts as sent although some channels never saw it. *)
Theorem inputs_drop_earlier_channels ready mk js1 j js2 k ks cmds mixed req bad :
  collect_in ready mk js1 (k :: ks) = Ok (cmds, mixed) →
  mk j k = Ok req → ready req = Ok bad → IsValid bad = false →
  collect_in ready mk (js1 ++ j :: js2) (k :: ks)
  = for_each (λ j, collect_in_banks ready (mk j) (k :: ks)) js2 ([], mixed).
Proof.
  intros H1 Hreq Hbad Hv. unfold collect_in in *. rewrite for_each_app, H1.
  cbn [mbind outcome_bind for_each collect_in_banks]. rewrite Hreq. cbn [mbind outcome_bind].
  rewrite Hbad. cbn [mbind outcome_bind]. by rewrite Hv.
Qed.

(** A cut in the input phase over the eight channels of HBM2, channel 5 not
    ready: channels 6 and 7 receive their commands and the iterator moves on. *)
Lemma inputs_drop_earlier_channels_witness :
  (∃ req, collect_in (hold 5) (λ j _, Ok (mkCommand GH_READ (mkAddress j 0 0 0 7 0) 0))
      ([0; 1; 2; 3; 4] ++ 5 :: [6; 7]) [0] = Ok (req, false) ∧ (Channel <$> req) = [6; 7]) ∧
  (∃ c' cmds, step_inputs hbm2_config one_cut (hold 5) false
      (mkGeometry 0 8 0 16 128 0 0 256 128 8) ((cut_of 512 128 256) <| iw_status := 2 |>)
      = Ok (c', cmds) ∧ (Channel <$> cmds) = [6; 7] ∧ M_it c' = 1).
Proof.
  split.
  - eexists. rewrite (inputs_drop_earlier_channels (hold 5) _ [0; 1; 2; 3; 4] 5 [6; 7] 0 []
      ((λ j, mkCommand GH_READ (mkAddress j 0 0 0 7 0) 0) <$> [0; 1; 2; 3; 4]) false
      (mkCommand GH_READ (mkAddress 5 0 0 0 7 0) 0) Command_default); try reflexivity.
    split; [reflexivity|reflexivity].
  - eexists _, _. split; [vm_compute; reflexivity|]. split; reflexivity.
Defined.

(** A precharge counts as a weight vector: when the rows of the weight
    banks have to be closed first, then unless [df] is 1 the scheduler sends the precharges and advances its
    iterator as if the vector had been read. *)
Theorem weights_precharge_advances config f ready wr g c c' first rest :
  df f ≠ 1 → step_weights config f ready wr g c = Ok (c', first :: rest) →
  cmd_type first = PRECHARGE →
  (N_it c' = N_it c + 1 ∧ iw_status c' = iw_status c) ∨
  (N_it c' = N_tile_size g * N_tile_it g ∧ iw_status c' = iw_status c + 1).
Proof.
  intros Hdf H Hp. unfold step_weights in H. do 4 (apply bind_Ok in H as (? & _ & H)).
  apply bind_Ok in H as (l & _ & H). destruct l as [|first' rest']; [done|].
  assert (first' = first) as ->.
  { destruct (type_eqb (cmd_type first') PIM_ACTIVATE).
    - destruct (_ || _); [done|]. by injection H.
    - destruct (_ && _); [by injection H|]. apply bind_Ok in H as (fin & _ & H).
      by destruct fin; injection H. }
  rewrite Hp in H. change (type_eqb PRECHARGE PIM_ACTIVATE) with false in H.
  change (type_eqb PRECHARGE GH_READ_PRECHARGE) with false in H.
  rewrite (proj2 (Z.eqb_neq _ _) Hdf) in H. cbn [andb] in H.
  apply bind_Ok in H as (fin & _ & H). destruct fin; injection H as <- _; [by right|by left].
Qed.

Lemma weights_precharge_advances_witness :
  ∃ c' first rest, step_weights hbm2_config one_cut
      (λ cmd, Ok (mkCommand PRECHARGE (cmd_addr cmd) 0)) false
      (mkGeometry 0 8 0 16 128 0 0 256 128 8) (cut_of 512 128 256) = Ok (c', first :: rest) ∧
    ((N_it c' = 0 + 1 ∧ iw_status c' = 0) ∨ (N_it c' = 128 * 0 ∧ iw_status c' = 0 + 1)).
Proof.
  eexists _, _, _. split; [vm_compute; reflexivity|].
  eapply (weights_precharge_advances hbm2_config one_cut
    (λ cmd, Ok (mkCommand PRECHARGE (cmd_addr cmd) 0)) false
    (mkGeometry 0 8 0 16 128 0 0 256 128 8) (cut_of 512 128 256));
    [vm_compute; congruence|vm_compute; reflexivity|reflexivity].
Defined.

(** [C40] A launch that does not match blocks the accelerator for ever: if the
    packet at the head of the queue is a launch that does not select every
    cut, or selects one without dimensions, then after any number of cycles it
    is still there, and the packets behind it, which could complete the
    configuration, have not been read; if no cut is running, the cycles
    return. *)
Theorem unmatched_launch_blocks fd st n s s' it queue :
  pim_trans_queue_ s = it :: queue → is_launch (trans_addr it) = true →
  configured (flow s) (cuts_ s) (Z.shiftr (trans_addr it) 1) = Ok false →
  Forall (λ c, 0 ≤ iw_status c ≤ 3) (cuts_ s) →
  (jedec_ticks fd st n s = Ok s' →
   pim_trans_queue_ s' = it :: queue ∧ flow s' = flow s ∧
   workload <$> cuts_ s' = workload <$> cuts_ s) ∧
  (idle s → js_clk_ s + Z.of_nat n ≤ 2 ^ 63 → is_ok (jedec_ticks fd st n s) = true).
Proof.
  intros Hq Hl Hc Hok.
  split; [|intros Hi Hb; by apply (blocked_idle (flow s) (it :: queue) (workload <$> cuts_ s) fd st it queue)].
  intros H. enough (Hgen : ∀ n s1, stuck_at (flow s) (it :: queue) (workload <$> cuts_ s) s1 →
    configured (flow s1) (cuts_ s1) (Z.shiftr (trans_addr it) 1) = Ok false →
    jedec_ticks fd st n s1 = Ok s' → stuck_at (flow s) (it :: queue) (workload <$> cuts_ s) s').
  { destruct (Hgen n s) as [Hf' Hq' Hj' _]; [by split|done|done|done]. }
  clear n H. induction n as [|n IH]; intros s1 Hs1 Hc1 H; cbn [jedec_ticks] in H.
  { by injection H as <-. }
  apply bind_Ok in H as ([[s2 cbs] ops] & H2 & H).
  destruct (blocked_tick _ _ _ fd st s1 s2 cbs ops it queue Hs1 eq_refl Hl Hc1 H2) as [Hs2 Hc2].
  by eapply IH.
Qed.

Lemma unmatched_launch_blocks_witness :
  ∃ s0 s', Jedec_init hbm2_config = Ok s0 ∧
    jedec_ticks no_double no_line 3 (early_launch s0) = Ok s' ∧
    pim_trans_queue_ s' = [Transaction_rw 3 false; Transaction_rw (workload_packet 0 0 512 7) false].
Proof.
  destruct (is_ok_exists (s0 ← Jedec_init hbm2_config;
    s' ← jedec_ticks no_double no_line 3 (early_launch s0); Ok (s0, s'))) as [[s0 s'] H];
    [vm_compute; reflexivity|].
  apply bind_Ok in H as (s0' & H0 & H). apply bind_Ok in H as (s1 & H1 & [= <- <-]).
  exists s0', s1. split; [exact H0|]. split; [exact H1|].
  refine (proj1 (proj1 (unmatched_launch_blocks no_double no_line 3 (early_launch s0') s1 _ _ eq_refl
    eq_refl eq_refl _) H1)).
  solve_Forall (split; vm_compute; congruence).
Defined.
