(* ===== verification/PimNest.v ===== *)
(** * The loop nest of a matrix multiplication

    The reference that the accelerator's scheduler ([PimScheduler]) is measured
    against.  A cut multiplies a matrix by tiles: for every tile of rows of the
    input, for every tile of columns of the weights and for every slice of the
    inner dimension it loads the weights of the slice into the registers of
    the array and then streams the input rows through it; the outputs of a tile
    are written when its last slice has been streamed.  This file defines that
    nest as lists of data vectors, the commands each vector stands for, the
    machine whose states are positions in the nest, and the geometries and
    workloads for which the array works; [PimRefinement] relates the scheduler
    to it. *)
From stdpp Require Import base tactics numbers list list_numbers gmap strings sets.
From coqutil Require Import Datatypes.RecordSetters.
From S2P Require Import Prelude Common Configuration ChannelState Refresh PimScheduler.

Import TriangleBracketNotations.
Local Open Scope Z_scope.

(** The number of pieces of size [b] that cover [a]. *)
Definition pieces (a b : Z) : Z := (a - 1) / b + 1.

Section Nest.
Context (config : Config) (f : Dataflow) (i : Z) (job : Cut).

(** ** The array *)

(** Channels and banks of a cut, and where cut [i] lies in the array. *)
Definition rows_of_cut : Z := channels config / hcuts f.
Definition banks_of_cut : Z := banks config / vcuts f.
Definition first_channel : Z := i / vcuts f * rows_of_cut.
Definition first_bank : Z := i mod vcuts f * banks_of_cut.

(** Weights are read from every eighth or sixteenth bank of a channel. *)
Definition weight_stride : Z := if df f =? 0 then 8 else 16.
Definition weight_banks : Z := banks_of_cut / weight_stride.

(** Inputs are read from [mc f] banks of a channel. *)
Definition input_stride : Z := banks_of_cut / mc f.

Definition cols : Z := columns config / BL config.

(** ** Tiles *)

Definition n_tile : Z := 128 / vcuts f.
Definition k_tile : Z := Z.min (rows_of_cut * 16) (K job).
Definition tiles_m : Z := pieces (M job) (M_tile_size f).
Definition tiles_n : Z := pieces (N job) n_tile.
Definition tiles_k : Z := pieces (K job) k_tile.

(** Weight vectors of a slice, and input vectors of the [m]-th tile of rows. *)
Definition bank_tile : Z := (n_tile - 1) / weight_banks + 1.
Definition per_bank : Z := Z.min (N job) bank_tile.
Definition stream (m : Z) : Z := Z.min (M_tile_size f) (M job - M_tile_size f * m).

(** A data vector that is loaded: the indices of its tile and slice and its
    place there. *)
Inductive Vector :=
| Weights (m n k x : Z)
| Inputs (m n k y : Z).

Definition slice (m n k : Z) : list Vector :=
  (Weights m n k <$> seqZ 0 per_bank) ++ (Inputs m n k <$> seqZ 0 (stream m)).

(** The nest, from its start and from a given tile or slice on. *)
Definition from_k (m n k : Z) : list Vector := k ← seqZ k (tiles_k - k); slice m n k.
Definition from_n (m n : Z) : list Vector := n ← seqZ n (tiles_n - n); from_k m n 0.
Definition from_m (m : Z) : list Vector := m ← seqZ m (tiles_m - m); from_n m 0.
Definition nest : list Vector := from_m 0.

(** ** Outputs *)

(** Rows of the output, in all and in a tile: with dataflow 1 the array holds
    [128 / mcf] rows in one vector. *)
Definition out_rows : Z := if df f =? 1 then Z.max 1 (M job * mcf f / 128) else M job.
Definition out_tile : Z := if df f =? 1 then M_tile_size f / 128 * mcf f else M_tile_size f.
Definition tiles_out : Z := pieces out_rows out_tile.
Definition out_stream (m : Z) : Z := Z.min out_tile (out_rows - out_tile * m).

(** A data vector that is written. *)
Record OutVector := mkOut { o_m : Z; o_n : Z; o_y : Z }.

Definition out_from_n (m n : Z) : list OutVector :=
  n ← seqZ n (tiles_n - n); mkOut m n <$> seqZ 0 (out_stream m).
Definition out_from_m (m : Z) : list OutVector :=
  m ← seqZ m (tiles_out - m); out_from_n m 0.
Definition out_nest : list OutVector := out_from_m 0.

(** ** The commands of a vector *)

(** The access of a bank to the [off]-th burst after row [base]. *)
Definition burst (t : CommandType) (ch bg bk base off : Z) : Command :=
  let a := mkAddress ch 0 bg bk (s32 (base + off / cols)) (off mod cols) in
  mkCommand t a (AddressUnmapping config a).

(** The place of a vector in its operand, in bursts of a bank. *)
Definition weight_offset (n k x : Z) : Z := (n * tiles_k + k) * per_bank + x.
Definition input_offset (m k y : Z) : Z := m * (M_tile_size f * tiles_k) + k * stream m + y.

(** The last access to a row closes it. *)
Definition weight_type (n k x : Z) : CommandType :=
  let col := weight_offset n k x mod cols in
  if ((col + 1) mod Z.min (N job) (128 / banks config * weight_stride) =? 0)
     || (col =? cols - 1) || (x + 1 =? per_bank)
  then GH_READ_PRECHARGE else GH_READ.

Definition input_type (m k y : Z) : CommandType :=
  let last_row := M_tile_size f * m + y + 1 =? M job in
  let last_slice := k + 1 =? tiles_k in
  if (if df f =? 0 then last_slice && last_row else last_row)
     || (input_offset m k y mod cols =? cols - 1)
  then readp_type f else read_type f.

Definition weight_access (n k x j b : Z) : Command :=
  let bk := first_bank + b * weight_stride in
  burst (weight_type n k x) (first_channel + j) (bk / banks_per_group config)
    (bk mod banks_per_group config) (base_rows_w job) (weight_offset n k x).

Definition input_access (m k y j b : Z) : Command :=
  let bk := first_bank + b * input_stride + (if df f =? 0 then 1 else 0) in
  burst (input_type m k y) (first_channel + j) (bk / banks_per_group config)
    (bk mod banks_per_group config) (base_rows_in job) (input_offset m k y).

(** Over the channels of the cut and the banks of every channel. *)
Definition grid (h w : Z) (g : Z → Z → Command) : list Command :=
  j ← seqZ 0 h; b ← seqZ 0 w; [g j b].

Definition accesses (v : Vector) : list Command :=
  match v with
  | Weights m n k x => grid rows_of_cut weight_banks (weight_access n k x)
  | Inputs m n k y => grid rows_of_cut (mc f) (input_access m k y)
  end.

(** Outputs rotate over the channels of the cut. *)
Definition out_channel (n : Z) : Z :=
  if M job =? 1 then i mod vcuts f
  else if vcuts f =? 16 then i mod vcuts f / 2
  else (i mod vcuts f + n) mod vcuts f.
Definition out_height : Z := rows_of_cut / vcuts f.

(** Tiles of one channel: every [vcuts]-th of them. *)
Definition channel_tiles (n : Z) : Z :=
  tiles_n / vcuts f + (if n mod vcuts f <? tiles_n mod vcuts f then 1 else 0).
Definition output_offset (m n y : Z) : Z :=
  m * (out_tile * channel_tiles n) + n / vcuts f * out_stream m + y.

Definition output_type (m n y : Z) : CommandType :=
  if (out_tile * m + y + 1 =? out_rows)
     || (output_offset m n y mod cols =? cols - 1)
  then PIM_WRITE_PRECHARGE else PIM_WRITE.

Definition output_access (m n y j b : Z) : Command :=
  let bk := first_bank + b * input_stride + (if df f =? 1 then 0 else 1) in
  burst (output_type m n y) (first_channel + out_channel n * out_height + j)
    (bk / banks_per_group config)
    (bk mod banks_per_group config + (if df f =? 0 then 2 else 0))
    (base_rows_out job) (output_offset m n y).

Definition out_accesses (v : OutVector) : list Command :=
  grid out_height (if df f =? 1 then 1 else mc f) (output_access (o_m v) (o_n v) (o_y v)).

(** ** Delays of the array *)

Definition out_delay : Z := Z.max 1 (tCCD_L config * (3 + 16) - tRCDWR config).
Definition in_delay : Z :=
  Z.max 1 (tCCD_L config * Z.max (128 / (vcuts f * mc f)) 16 - tRCDRD config).

(** The shortest stream after which another tile follows. *)
Definition shortest : Z := if tiles_n =? 1 then M_tile_size f else stream (tiles_m - 1).

(** ** The geometries and workloads for which the array works *)

(** The dataflow fits the memory: every cut has banks to read weights from,
    the registers are filled evenly, and every bank that inputs and outputs
    use exists. *)
Record flow_ok : Prop := {
  fo_df : df f = 0 ∨ df f = 1;
  fo_int : channels config < 2 ^ 31;
  fo_vcuts : 0 < vcuts f ≤ 128;
  fo_hcuts : 0 < hcuts f;
  fo_mcf : 0 < mcf f;
  fo_mc : 0 < mc f;
  fo_alone : 1 < total_cuts f → mc f = 1;
  fo_burst : 0 < BL config;
  fo_cols : 0 < cols;
  fo_group : 0 < banks_per_group config;
  fo_banks : 0 < banks config ≤ 128;
  fo_weights : 0 < weight_banks;
  fo_even : n_tile mod bank_tile = 0;
  fo_tile : n_tile < M_tile_size f;
  fo_tile_out : df f = 1 → 128 ≤ M_tile_size f;
  fo_rows : vcuts f ≤ rows_of_cut;
  fo_inputs v b : df f = 0 → 0 ≤ v < vcuts f → 0 ≤ b < mc f →
    v * banks_of_cut + b * input_stride + 1 < banks config ∧
    (v * banks_of_cut + b * input_stride + 1) mod banks_per_group config + 2
      < banks_per_group config
}.

(** A workload the array can finish: with dataflow 1 one tile of columns and
    as many tiles of outputs as of inputs, and an output is announced before
    the next tile is streamed. *)
Record job_ok : Prop := {
  jb_cut : 0 ≤ i < total_cuts f;
  jb_M : 0 < M job;
  jb_N : 0 < N job;
  jb_K : 0 < K job;
  jb_single : df f = 1 → tiles_n = 1;
  jb_outputs : tiles_out = tiles_m;
  jb_in_time : out_delay < in_delay + shortest + per_bank
}.
End Nest.

(** ** Positions *)

(** A position in the nest: phase, tile, slice, vector; and in the outputs. *)
Record Pos := mkPos {
  p_phase : Z;
  p_m : Z; p_n : Z; p_k : Z; p_x : Z; p_y : Z;
  p_mo : Z; p_no : Z; p_yo : Z
}.

Section Positions.
Context (config : Config) (f : Dataflow) (job : Cut).

(** What is left of the nest after the slice [(m, n, k)]. *)
Definition after (m n k : Z) : list Vector :=
  from_k config f job m n (k + 1) ++ from_n config f job m (n + 1)
    ++ from_m config f job (m + 1).

(** What a cut at position [p] has still to load. *)
Definition to_load (p : Pos) : list Vector :=
  let m := p_m p in let n := p_n p in let k := p_k p in
  let s := stream f job m in
  if tiles_m f job <=? m then []
  else if p_phase p =? 1 then (Inputs m n k <$> seqZ 0 s) ++ after m n k
  else if p_phase p =? 2 then (Inputs m n k <$> seqZ (p_y p) (s - p_y p)) ++ after m n k
  else (Weights m n k <$> seqZ (p_x p) (per_bank config f job - p_x p))
       ++ (Inputs m n k <$> seqZ 0 s) ++ after m n k.

(** What it has still to write. *)
Definition to_write (p : Pos) : list OutVector :=
  if tiles_out f job <=? p_mo p then []
  else (mkOut (p_mo p) (p_no p) <$> seqZ (p_yo p) (out_stream f job (p_mo p) - p_yo p))
       ++ out_from_n f job (p_mo p) (p_no p + 1) ++ out_from_m f job (p_mo p + 1).
End Positions.

(** ** Arithmetic of tiles *)

Lemma pieces_spec a b t : 0 < a → 0 < b → t < pieces a b ↔ b * t < a.
Proof.
  intros Ha Hb. unfold pieces. pose proof (Z.div_mod (a - 1) b). pose proof (Z.mod_pos_bound (a - 1) b Hb).
  split; nia.
Qed.

Lemma pieces_pos a b : 0 < a → 0 < b → 0 < pieces a b.
Proof. intros Ha Hb. apply pieces_spec; [done..|]. lia. Qed.

Lemma pieces_le a b t : 0 < a → 0 < b → pieces a b ≤ t ↔ a ≤ b * t.
Proof. intros Ha Hb. pose proof (pieces_spec a b t Ha Hb). lia. Qed.

(** The last piece. *)
Lemma pieces_last a b t : 0 < a → 0 < b → t + 1 = pieces a b ↔ b * t < a ≤ b * (t + 1).
Proof.
  intros Ha Hb. pose proof (pieces_spec a b t Ha Hb). pose proof (pieces_spec a b (t + 1) Ha Hb). lia.
Qed.

Lemma div_at t a y : 0 ≤ y < t → (t * a + y) / t = a.
Proof. intros H. rewrite Z.mul_comm, Z.div_add_l, Z.div_small by lia. lia. Qed.

Lemma mod_at t a y : 0 ≤ y < t → (t * a + y) mod t = y.
Proof. intros H. rewrite Z.add_comm, Z.mul_comm, Z.mod_add, Z.mod_small by lia. done. Qed.

(** The tests by which the code recognises the last element of a piece. *)
Lemma piece_end t a m y :
  0 < t → 0 ≤ y < Z.min t (a - t * m) →
  ((t * m + y + 1) mod t =? 0) || (t * m + y + 1 =? a) = (y + 1 =? Z.min t (a - t * m)).
Proof.
  intros Ht Hy. rewrite <- Z.add_assoc. destruct (Z.eqb_spec (y + 1) t) as [E|E].
  - rewrite E, Z.add_comm, Z.mul_comm, Z_mod_plus_full, Z_mod_same_full. cbn. symmetry. apply Z.eqb_eq. lia.
  - rewrite mod_at by lia. rewrite (proj2 (Z.eqb_neq (y + 1) 0)) by lia. cbn [orb].
    destruct (Z.eqb_spec (t * m + (y + 1)) a), (Z.eqb_spec (y + 1) (Z.min t (a - t * m))); lia.
Qed.

(** The test by which it recognises the last piece. *)
Lemma pieces_end a t m : 0 < a → 0 < t → (a <=? t * (m + 1)) = negb (m + 1 <? pieces a t).
Proof.
  intros Ha Ht. pose proof (pieces_spec a t (m + 1) Ha Ht).
  destruct (Z.leb_spec a (t * (m + 1))), (Z.ltb_spec (m + 1) (pieces a t)); cbn; lia.
Qed.

Lemma idiv_div a b : 0 ≤ a → 0 < b → idiv a b = Ok (a / b).
Proof.
  intros Ha Hb. unfold idiv. rewrite (proj2 (Z.eqb_neq b 0)) by lia. by rewrite Z.quot_div_nonneg.
Qed.

Lemma irem_mod a b : 0 ≤ a → 0 < b → irem a b = Ok (a mod b).
Proof.
  intros Ha Hb. unfold irem. rewrite (proj2 (Z.eqb_neq b 0)) by lia. by rewrite Z.rem_mod_nonneg.
Qed.

(** ** The nest, one slice and one vector at a time *)

Lemma seqZ_head {B} (g : Z → list B) a t :
  a < t → (a' ← seqZ a (t - a); g a') = g a ++ (a' ← seqZ (a + 1) (t - (a + 1)); g a').
Proof.
  intros H. rewrite seqZ_cons by lia. csimpl. by replace (Z.pred (t - a)) with (t - (a + 1)) by lia.
Qed.

Lemma seqZ_done {B} (g : Z → list B) a t : t ≤ a → (a' ← seqZ a (t - a); g a') = [].
Proof. intros H. by rewrite seqZ_nil by lia. Qed.

Lemma seqZ_fmap_head {B} (g : Z → B) a n :
  0 < n → g <$> seqZ a n = g a :: (g <$> seqZ (a + 1) (n - 1)).
Proof. intros H. rewrite seqZ_cons by lia. csimpl. by replace (Z.pred n) with (n - 1) by lia. Qed.

Section Facts.
Context (config : Config) (f : Dataflow) (i : Z) (job : Cut).
Context (Hflow : flow_ok config f) (Hjob : job_ok config f i job).

Local Notation tm := (tiles_m f job).
Local Notation tn := (tiles_n f job).
Local Notation tk := (tiles_k config f job).

Lemma n_tile_pos : 0 < n_tile f.
Proof. destruct Hflow. unfold n_tile. apply Z.div_str_pos. lia. Qed.

Lemma m_tile_pos : 0 < M_tile_size f.
Proof. pose proof n_tile_pos. destruct Hflow. lia. Qed.

Lemma rows_pos : 0 < rows_of_cut config f.
Proof. destruct Hflow. lia. Qed.

(** The rows of the array fit the channels, its columns the banks. *)
Lemma rows_fit r : r < hcuts f → (r + 1) * rows_of_cut config f ≤ channels config.
Proof.
  intros Hr. pose proof rows_pos. destruct Hflow.
  pose proof (Z.mul_div_le (channels config) (hcuts f)). unfold rows_of_cut in *. nia.
Qed.

Lemma k_tile_pos : 0 < k_tile config f job.
Proof. pose proof rows_pos. destruct Hjob. unfold k_tile. lia. Qed.

Lemma cut_banks_pos : 0 < banks_of_cut config f.
Proof.
  pose proof (fo_weights _ _ Hflow) as Hw.
  destruct (Z.lt_ge_cases 0 (banks_of_cut config f)) as [H|H]; [done|]. unfold weight_banks in Hw.
  assert (0 < weight_stride f) by (unfold weight_stride; by destruct (df f =? 0)).
  pose proof (Z.div_le_upper_bound (banks_of_cut config f) (weight_stride f) 0). lia.
Qed.

Lemma banks_fit v : v < vcuts f → (v + 1) * banks_of_cut config f ≤ banks config.
Proof.
  intros Hv. pose proof cut_banks_pos. destruct Hflow.
  pose proof (Z.mul_div_le (banks config) (vcuts f)). unfold banks_of_cut in *. nia.
Qed.

Lemma tiles_m_pos : 0 < tm.
Proof. destruct Hjob. apply pieces_pos; [done|apply m_tile_pos]. Qed.
Lemma tiles_n_pos : 0 < tn.
Proof. destruct Hjob. apply pieces_pos; [done|apply n_tile_pos]. Qed.
Lemma tiles_k_pos : 0 < tk.
Proof. destruct Hjob. apply pieces_pos; [done|apply k_tile_pos]. Qed.

Lemma bank_tile_bounds : 0 < bank_tile config f ≤ n_tile f.
Proof.
  pose proof n_tile_pos. destruct Hflow. unfold bank_tile.
  pose proof (Z.div_pos (n_tile f - 1) (weight_banks config f)).
  pose proof (Z.div_le_upper_bound (n_tile f - 1) (weight_banks config f) (n_tile f - 1)). nia.
Qed.

Lemma per_bank_bounds : 0 < per_bank config f job ≤ n_tile f.
Proof. pose proof bank_tile_bounds. destruct Hjob. unfold per_bank. lia. Qed.

Lemma stream_pos m : m < tm → 0 < stream f job m ≤ M_tile_size f.
Proof.
  intros Hm. pose proof m_tile_pos. destruct Hjob.
  assert (M_tile_size f * m < M job) by (apply pieces_spec; [done..|exact Hm]). unfold stream. lia.
Qed.

(** All tiles but the last are full. *)
Lemma stream_full m : m + 1 < tm → stream f job m = M_tile_size f.
Proof.
  intros Hm. pose proof m_tile_pos. destruct Hjob.
  assert (M_tile_size f * (m + 1) < M job) by (apply pieces_spec; [done..|exact Hm]).
  unfold stream. lia.
Qed.

Lemma shortest_le m n : 0 ≤ m < tm → (0 ≤ n ∧ n + 1 < tn) ∨ m + 1 < tm → shortest f job ≤ stream f job m.
Proof.
  intros Hm Hc. pose proof (stream_pos m (proj2 Hm)). unfold shortest.
  destruct (Z.eqb_spec tn 1).
  - rewrite stream_full by lia. lia.
  - destruct (decide (m + 1 < tm)).
    + rewrite (stream_full m) by done. pose proof (stream_pos (tm - 1)). lia.
    + replace (tm - 1) with m by lia. lia.
Qed.

(** *** The slice after a slice *)

Definition next_slice (m n k : Z) : Z * Z * Z :=
  if k + 1 <? tk then (m, n, k + 1) else if n + 1 <? tn then (m, n + 1, 0) else (m + 1, 0, 0).

Lemma from_k_head m n k :
  k < tk → from_k config f job m n k = slice config f job m n k ++ from_k config f job m n (k + 1).
Proof. apply (seqZ_head (slice config f job m n)). Qed.

Lemma from_n_head m n :
  n < tn → from_n config f job m n = from_k config f job m n 0 ++ from_n config f job m (n + 1).
Proof. apply (seqZ_head (λ n, from_k config f job m n 0)). Qed.

Lemma from_m_head m :
  m < tm → from_m config f job m = from_n config f job m 0 ++ from_m config f job (m + 1).
Proof. apply (seqZ_head (λ m, from_n config f job m 0)). Qed.

Lemma from_k_done m n k : tk ≤ k → from_k config f job m n k = [].
Proof. apply seqZ_done. Qed.
Lemma from_n_done m n : tn ≤ n → from_n config f job m n = [].
Proof. apply (seqZ_done (λ n, from_k config f job m n 0)). Qed.
Lemma from_m_done m : tm ≤ m → from_m config f job m = [].
Proof. apply (seqZ_done (λ m, from_n config f job m 0)). Qed.

Lemma from_m_slice m :
  m < tm → from_m config f job m = slice config f job m 0 0 ++ after config f job m 0 0.
Proof.
  intros Hm. rewrite from_m_head, from_n_head, from_k_head by (apply tiles_n_pos || apply tiles_k_pos || done).
  unfold after. by rewrite <- !(assoc (++)).
Qed.

Lemma after_next m n k m' n' k' :
  m < tm → n < tn → k < tk → next_slice m n k = (m', n', k') →
  after config f job m n k =
  if tm <=? m' then [] else slice config f job m' n' k' ++ after config f job m' n' k'.
Proof.
  intros Hm Hn Hk. unfold next_slice.
  destruct (Z.ltb_spec (k + 1) tk); [|destruct (Z.ltb_spec (n + 1) tn)]; intros [= <- <- <-].
  - rewrite (proj2 (Z.leb_gt _ _)) by done. unfold after. rewrite (from_k_head m n (k + 1)) by done.
    by rewrite <- !(assoc (++)).
  - rewrite (proj2 (Z.leb_gt _ _)) by done. unfold after.
    rewrite (from_k_done m n (k + 1)) by done.
    rewrite (from_n_head m (n + 1)), from_k_head by (done || apply tiles_k_pos).
    by rewrite <- !(assoc (++)).
  - unfold after at 1. rewrite from_k_done, from_n_done by done. cbn [app].
    destruct (Z.leb_spec tm (m + 1)); [by apply from_m_done|]. by apply from_m_slice.
Qed.

(** *** Outputs *)

Local Notation to := (tiles_out f job).

Lemma out_tile_pos : 0 < out_tile f.
Proof.
  pose proof m_tile_pos. destruct Hflow. unfold out_tile. destruct (Z.eqb_spec (df f) 1); [|done].
  pose proof (Z.div_le_lower_bound (M_tile_size f) 128 1). nia.
Qed.

Lemma out_rows_pos : 0 < out_rows f job.
Proof. destruct Hjob. unfold out_rows. destruct (df f =? 1); lia. Qed.

Lemma out_stream_pos m : m < to → 0 < out_stream f job m ≤ out_tile f.
Proof.
  intros Hm. pose proof out_tile_pos. pose proof out_rows_pos.
  assert (out_tile f * m < out_rows f job) by (apply pieces_spec; [done..|exact Hm]).
  unfold out_stream. lia.
Qed.

Definition out_after (m n : Z) : list OutVector :=
  out_from_n f job m (n + 1) ++ out_from_m f job (m + 1).

Lemma out_from_n_head m n :
  n < tn → out_from_n f job m n = (mkOut m n <$> seqZ 0 (out_stream f job m)) ++ out_from_n f job m (n + 1).
Proof. apply (seqZ_head (λ n, mkOut m n <$> seqZ 0 (out_stream f job m))). Qed.
Lemma out_from_n_done m n : tn ≤ n → out_from_n f job m n = [].
Proof. apply (seqZ_done (λ n, mkOut m n <$> seqZ 0 (out_stream f job m))). Qed.
Lemma out_from_m_head m :
  m < to → out_from_m f job m = out_from_n f job m 0 ++ out_from_m f job (m + 1).
Proof. apply (seqZ_head (λ m, out_from_n f job m 0)). Qed.
Lemma out_from_m_done m : to ≤ m → out_from_m f job m = [].
Proof. apply (seqZ_done (λ m, out_from_n f job m 0)). Qed.

Lemma out_after_same m n :
  n + 1 < tn →
  out_after m n = (mkOut m (n + 1) <$> seqZ 0 (out_stream f job m)) ++ out_after m (n + 1).
Proof. intros H. unfold out_after. rewrite (out_from_n_head m (n + 1)) by done. by rewrite <- (assoc (++)). Qed.

Lemma out_after_next m n :
  tn ≤ n + 1 → m + 1 < to →
  out_after m n = (mkOut (m + 1) 0 <$> seqZ 0 (out_stream f job (m + 1))) ++ out_after (m + 1) 0.
Proof.
  intros Hn Hm. unfold out_after. rewrite (out_from_n_done m (n + 1)) by done.
  rewrite (out_from_m_head (m + 1)), out_from_n_head by (done || apply tiles_n_pos).
  by rewrite <- (assoc (++)).
Qed.

Lemma out_after_last m n : tn ≤ n + 1 → to ≤ m + 1 → out_after m n = [].
Proof. intros Hn Hm. unfold out_after. by rewrite out_from_n_done, out_from_m_done by done. Qed.
End Facts.
