(* ===== verification/PimRefinement.v ===== *)
(** * The accelerator's scheduler refines the loop nest

    For every dataflow and workload that fit the array ([flow_ok], [job_ok] of
    [PimNest]) and for every memory that answers an access with the access,
    with an activation or not at all, the scheduler of a cut never fails,
    loads and writes the data vectors of the nest in its order, and finishes
    once the memory has been ready often enough. *)
From stdpp Require Import base tactics numbers list list_numbers gmap strings sets.
From coqutil Require Import Datatypes.RecordSetters.
From S2P Require Import Prelude Common Configuration ChannelState Refresh PimScheduler.
From S2P Require Import PimNest PimSafety.

Import TriangleBracketNotations.
Local Open Scope Z_scope.

(** ** The memory as the scheduler sees it *)

Definition activation (cmd : Command) : Command :=
  mkCommand PIM_ACTIVATE (cmd_addr cmd) (cmd_hex_addr cmd).

Definition pim_access (t : CommandType) : bool :=
  match t with
  | GH_READ | GH_READ_PRECHARGE | LH_READ | LH_READ_PRECHARGE
  | PIM_WRITE | PIM_WRITE_PRECHARGE => true
  | _ => false
  end.

(** An access to an existing channel and bank. *)
Record request_ok (config : Config) (cmd : Command) : Prop := {
  rq_type : pim_access (cmd_type cmd) = true;
  rq_channel : 0 ≤ Channel cmd < channels config;
  rq_coord : valid_coord config (cmd_coord cmd)
}.

(** [c] answers the access [r]: the access itself or the activation of its row. *)
Definition answer_of (r c : Command) : Prop := c = r ∨ c = activation r.

(** The memory answers the access with itself, with the activation of its row
    or not at all: the bank is not open on another row. *)
Definition answered (ready : Command → outcome Command) (cmd : Command) : Prop :=
  ∃ r, ready cmd = Ok r ∧ (IsValid r = false ∨ answer_of cmd r).
Definition lawful (ready : Command → outcome Command) (cmds : list Command) : Prop :=
  Forall (answered ready) cmds.

(** Every one of the accesses can be executed now. *)
Definition welcoming (ready : Command → outcome Command) (cmds : list Command) : Prop :=
  Forall (λ cmd, ready cmd = Ok cmd) cmds.

#[global] Instance answered_dec ready cmd : Decision (answered ready cmd).
Proof.
  refine (match ready cmd as o return ready cmd = o → _ with
          | Ok r => λ E, if decide (IsValid r = false ∨ r = cmd ∨ r = activation cmd) then left _ else right _
          | Fail _ => λ E, right _
          end eq_refl); unfold answered, answer_of; [by exists r| |]; intros (r' & Hr & H); congruence.
Defined.

Lemma welcoming_lawful ready cmds : welcoming ready cmds → lawful ready cmds.
Proof. intros H. eapply Forall_impl; [exact H|]. intros cmd Hc. exists cmd. split; [done|]. right. by left. Qed.

(** The accesses among the commands of a batch. *)
Definition is_access (cmd : Command) : Prop := cmd_type cmd ≠ PIM_ACTIVATE.
#[global] Instance is_access_dec cmd : Decision (is_access cmd).
Proof. unfold is_access. apply _. Defined.

Section Collecting.
Context (config : Config) (ready : Command → outcome Command).

Lemma access_valid cmd : pim_access (cmd_type cmd) = true → IsValid cmd = true ∧ cmd_type cmd ≠ PIM_ACTIVATE.
Proof. unfold IsValid. destruct cmd as [[]]; done. Qed.

Lemma request_answer cmd r :
  request_ok config cmd → answer_of cmd r →
  IsValid r = true ∧ (cmd_type r = PIM_ACTIVATE ↔ r = activation cmd).
Proof.
  intros [Ht _ _] Hr. destruct (access_valid _ Ht) as [Hv Hn].
  destruct Hr as [->| ->]; (split; [done|]); split; [done| |done|done].
  intros E. by rewrite E in Hn.
Qed.

(** Activations of rows that the accelerator accesses. *)
Definition is_activation (x : Command) : Prop := ∃ r, request_ok config r ∧ x = activation r.
Definition activations (cmds : list Command) : Prop := Forall is_activation cmds.

Lemma activations_nil : activations [].
Proof. apply Forall_nil_2. Qed.

Lemma activations_type cmds : activations cmds → Forall (λ x, cmd_type x = PIM_ACTIVATE) cmds.
Proof. intros H. eapply Forall_impl; [exact H|]. by intros x (r & _ & ->). Qed.

Lemma activations_of l : Forall (request_ok config) l → activations (activation <$> l).
Proof. intros H. apply Forall_fmap. eapply Forall_impl; [exact H|]. intros r Hr. by exists r. Qed.

(** Answers of one type are all activations or all accesses. *)
Lemma uniform_answers l cmds :
  Forall (request_ok config) l → Forall2 answer_of l cmds → uniform cmds →
  cmds = activation <$> l ∨ cmds = l.
Proof.
  intros Hl H Hu. destruct H as [|r c l cmds Hc H]; [by left|].
  inversion Hl as [|? ? Hr Hl']; subst. destruct (decide (cmd_type c = PIM_ACTIVATE)) as [E|E].
  - left. csimpl. f_equal; [by apply (request_answer _ _ Hr Hc)|].
    assert (Hall : Forall (λ x, cmd_type x = PIM_ACTIVATE) cmds).
    { apply Forall_forall. intros x Hx. rewrite <- E. apply Hu; [by right|by left]. }
    clear -H Hl' Hall. induction H as [|r c l cmds Hc H IH]; [done|].
    inversion Hl'; subst. inversion Hall; subst. csimpl. f_equal; [|by apply IH].
    by apply (request_answer r c).
  - right. assert (Hall : Forall (λ x, cmd_type x ≠ PIM_ACTIVATE) (c :: cmds)).
    { apply Forall_forall. intros x Hx. rewrite (Hu x c Hx); [done|by left]. }
    assert (H' : Forall2 answer_of (r :: l) (c :: cmds)) by by constructor.
    clear -H' Hall. revert Hall. generalize (r :: l), (c :: cmds), H'. clear. intros l cmds H' Hall.
    induction H' as [|r x l cmds Hx H' IH]; [done|]. inversion Hall; subst.
    destruct Hx as [->| ->]; [|done]. f_equal. by apply IH.
Qed.

Lemma collect_banks_total mk ks : ∀ cmds,
  (∀ k, k ∈ ks → ∃ cmd r, mk k = Ok cmd ∧ ready cmd = Ok r) →
  ∃ cmds', collect_banks ready mk ks cmds = Ok cmds'.
Proof.
  induction ks as [|k ks IH]; intros cmds H; cbn [collect_banks]; [by eauto|].
  destruct (H k) as (cmd & r & -> & Hr); [left|]. cbn [mbind outcome_bind]. rewrite Hr.
  cbn [mbind outcome_bind]. destruct (negb _); [by eauto|].
  destruct (type_eqb _ _); [|by eauto]. apply IH. intros k' Hk. apply H. by right.
Qed.

Lemma collect_channels_total mk js ks : ∀ cmds,
  (∀ j k, j ∈ js → k ∈ ks → ∃ cmd r, mk j k = Ok cmd ∧ ready cmd = Ok r) →
  ∃ cmds', collect_channels ready mk js ks cmds = Ok cmds'.
Proof.
  induction js as [|j js IH]; intros cmds H; cbn [collect_channels]; [by eauto|].
  destruct (collect_banks_total (mk j) ks cmds) as [cmds' ->].
  { intros k Hk. apply H; [left|done]. }
  cbn [mbind outcome_bind]. destruct cmds'; [by eauto|]. apply IH. intros j' k Hj. apply H. by right.
Qed.

(** The requests of a grid are its commands. *)
Lemma requests_grid mk g js ks :
  (∀ j k, j ∈ js → k ∈ ks → mk j k = Ok (g j k)) →
  requests mk js ks = Ok <$> (j ← js; k ← ks; [g j k]).
Proof.
  intros H. unfold requests. induction js as [|j js IH]; [done|]. csimpl. rewrite fmap_app. f_equal.
  - assert (Hj : ∀ k, k ∈ ks → mk j k = Ok (g j k)) by (intros; apply H; [left|done]). clear -Hj.
    induction ks as [|k ks IH]; [done|]. csimpl. rewrite (Hj k) by left. f_equal. apply IH.
    intros k' Hk. apply Hj. by right.
  - apply IH. intros j' k Hj. apply H. by right.
Qed.

Lemma grid_Forall (P : Command → Prop) h w g :
  (∀ j b, 0 ≤ j < h → 0 ≤ b < w → P (g j b)) → Forall P (grid h w g).
Proof.
  intros H. apply Forall_forall. intros x. unfold grid. rewrite list_elem_of_bind.
  intros (j & Hx & Hj). apply list_elem_of_bind in Hx as (b & Hx & Hb).
  apply list_elem_of_singleton in Hx as ->. apply elem_of_seqZ in Hj, Hb. apply H; lia.
Qed.

Lemma grid_elem h w g (j b : Z) : 0 ≤ j < h → 0 ≤ b < w → g j b ∈ grid h w g.
Proof.
  intros Hj Hb. unfold grid. apply list_elem_of_bind. exists j. split; [|apply elem_of_seqZ; lia].
  apply list_elem_of_bind. exists b. split; [by apply list_elem_of_singleton|apply elem_of_seqZ; lia].
Qed.

Lemma grid_lookup (P : Command → Prop) h w g j b :
  Forall P (grid h w g) → 0 ≤ j < h → 0 ≤ b < w → P (g j b).
Proof. intros H Hj Hb. apply (proj1 (Forall_forall _ _) H). by apply grid_elem. Qed.

(** The answer to a weight or output vector. *)
Lemma vector_answer h w mk g :
  lawful ready (grid h w g) →
  (∀ j b, 0 ≤ j < h → 0 ≤ b < w → mk j b = Ok (g j b) ∧ request_ok config (g j b)) →
  ∃ cmds, collect_channels ready mk (seqZ 0 h) (seqZ 0 w) [] = Ok cmds ∧
    (cmds = [] ∨ cmds = activation <$> grid h w g ∨ cmds = grid h w g).
Proof.
  intros Hl Hmk.
  assert (Hmk' : ∀ j b, j ∈ seqZ 0 h → b ∈ seqZ 0 w → mk j b = Ok (g j b) ∧ answered ready (g j b)).
  { intros j b Hj Hb. apply elem_of_seqZ in Hj, Hb. split; [apply Hmk; lia|]. apply (grid_lookup _ _ _ _ j b Hl); lia. }
  destruct (collect_channels_total mk (seqZ 0 h) (seqZ 0 w) []) as [cmds Hc].
  { intros j b Hj Hb. destruct (Hmk' j b Hj Hb) as [E (r & Hrd & _)]. eauto. }
  exists cmds. split; [done|]. apply collect_channels_spec in Hc; [|apply uniform_nil].
  destruct Hc as [->|(new & -> & Hn & Hu)]; [by left|]. right. cbn [app] in *.
  rewrite (requests_grid mk g) in Hn by (intros; by apply Hmk').
  assert (Hg : Forall (request_ok config) (grid h w g)) by (apply grid_Forall; intros; by apply Hmk).
  apply uniform_answers; [done| |done]. change (j ← _; _) with (grid h w g) in Hn.
  rewrite Forall2_fmap_l in Hn. revert Hl Hg Hn. generalize (grid h w g) as l. intros l Hl Hg Hn. clear -Hn Hg Hl.
  induction Hn as [|r c l cmds (req & E & Hrd & Hv) Hn IH]; [done|]. injection E as <-.
  inversion Hg as [|? ? Hr Hg']; subst. inversion Hl as [|? ? (r' & Hrd' & Hr') Hl']; subst.
  constructor; [|by apply IH]. rewrite Hrd in Hrd'. injection Hrd' as <-.
  destruct Hr' as [Hi|Ha]; [congruence|done].
Qed.

(** A memory that executes every access at once answers with the vector. *)
Lemma echo_banks mk g t ks : ∀ cmds,
  (∀ k, k ∈ ks → mk k = Ok (g k) ∧ ready (g k) = Ok (g k) ∧ cmd_type (g k) = t) →
  t ≠ SIZE → Forall (λ c, cmd_type c = t) cmds →
  collect_banks ready mk ks cmds = Ok (cmds ++ (g <$> ks)).
Proof.
  induction ks as [|k ks IH]; intros cmds H Ht Hc; cbn [collect_banks]; [by rewrite app_nil_r|].
  destruct (H k) as (-> & Hr & Hg); [left|]. cbn [mbind outcome_bind]. rewrite Hr.
  cbn [mbind outcome_bind]. unfold IsValid, type_eqb. rewrite Hg, bool_decide_eq_false_2 by done.
  cbn [negb]. rewrite bool_decide_eq_true_2.
  2:{ destruct cmds; [done|]. by inversion Hc. }
  rewrite IH; [csimpl; by rewrite <- (assoc (++))| |done|].
  - intros k' Hk. apply H. by right.
  - apply Forall_app. split; [done|]. by repeat constructor.
Qed.

Lemma grid_cons (g : Z → Z → Command) j js ks :
  (j ← j :: js; k ← ks; [g j k]) = (g j <$> ks) ++ (j ← js; k ← ks; [g j k]).
Proof. csimpl. f_equal. Qed.

Lemma echo_channels mk g t js ks : ∀ cmds,
  (∀ j k, j ∈ js → k ∈ ks → mk j k = Ok (g j k) ∧ ready (g j k) = Ok (g j k) ∧ cmd_type (g j k) = t) →
  t ≠ SIZE → ks ≠ [] → Forall (λ c, cmd_type c = t) cmds →
  collect_channels ready mk js ks cmds = Ok (cmds ++ (j ← js; k ← ks; [g j k])).
Proof.
  induction js as [|j js IH]; intros cmds H Ht Hk Hc; cbn [collect_channels].
  { by rewrite app_nil_r. }
  rewrite (echo_banks (mk j) (g j) t); [|intros; apply H; [left|done]|done|done].
  cbn [mbind outcome_bind]. rewrite grid_cons, (assoc (++)).
  destruct (cmds ++ (g j <$> ks)) eqn:E.
  { apply app_nil in E as [_ E]. by apply fmap_nil_inv in E. }
  rewrite <- E. apply IH; [|done|done|].
  - intros j' k Hj. apply H. by right.
  - apply Forall_app. split; [done|]. apply Forall_fmap, Forall_forall. intros k Hin. simpl.
    apply H; [left|done].
Qed.

Lemma vector_echo h w mk g t :
  welcoming ready (grid h w g) → 0 < w → pim_access t = true →
  (∀ j b, 0 ≤ j < h → 0 ≤ b < w → mk j b = Ok (g j b) ∧ cmd_type (g j b) = t) →
  collect_channels ready mk (seqZ 0 h) (seqZ 0 w) [] = Ok (grid h w g).
Proof.
  intros Hw Hpos Ht Hmk. rewrite (echo_channels mk g t); [done| |by intros ->| |done].
  - intros j b Hj Hb. apply elem_of_seqZ in Hj, Hb. destruct (Hmk j b) as (E & Hty); [lia..|].
    split; [done|]. split; [|done]. apply (grid_lookup _ _ _ _ j b Hw); lia.
  - rewrite seqZ_cons by done. done.
Qed.

Lemma grid_head h w g : 0 < h → 0 < w → ∃ rest, grid h w g = g 0 0 :: rest.
Proof. intros Hh Hw. unfold grid. rewrite (seqZ_cons 0 h), (seqZ_cons 0 w) by lia. csimpl. by eexists. Qed.

(** The answer to a vector of accesses of type [t]: activations or nothing, if
    the memory does not execute every access at once, or the vector. *)
Lemma vector_cases h w mk g t :
  lawful ready (grid h w g) → 0 < h → 0 < w → pim_access t = true →
  (∀ j b, 0 ≤ j < h → 0 ≤ b < w →
     mk j b = Ok (g j b) ∧ request_ok config (g j b) ∧ cmd_type (g j b) = t) →
  ∃ cmds, collect_channels ready mk (seqZ 0 h) (seqZ 0 w) [] = Ok cmds ∧
    ((activations cmds ∧ ¬ welcoming ready (grid h w g)) ∨
     (cmds = grid h w g ∧ ∃ first rest, cmds = first :: rest ∧ cmd_type first = t)).
Proof.
  intros Hl Hh Hw Ht Hmk. destruct (grid_head h w g Hh Hw) as [rest Hg].
  assert (Ht0 : cmd_type (g 0 0) = t) by (apply Hmk; lia).
  destruct (vector_answer h w mk g Hl) as (cmds & Hc & Hcases).
  { intros j b Hj Hb. destruct (Hmk j b Hj Hb) as (? & ? & _). done. }
  exists cmds. split; [done|].
  assert (Hecho : welcoming ready (grid h w g) → cmds = grid h w g).
  { intros Hwel. rewrite (vector_echo h w mk g t) in Hc; [congruence|done..|]. intros j b Hj Hb. split; by apply Hmk. }
  assert (Hno : activations cmds → ¬ welcoming ready (grid h w g)).
  { intros Hall%activations_type Hwel. rewrite (Hecho Hwel), Hg in Hall. inversion Hall as [|? ? E _]; subst.
    by rewrite E in Ht. }
  destruct Hcases as [->|[->| ->]].
  - left. assert (Ha : activations []) by apply Forall_nil_2. split; [done|]. by apply Hno.
  - left. assert (Ha : activations (activation <$> grid h w g)); [|split; [done|by apply Hno]].
    apply activations_of, grid_Forall. intros j b Hj Hb. by apply Hmk.
  - right. split; [done|]. exists (g 0 0), rest. done.
Qed.

(** *** Inputs *)

(** The memory cannot do anything for the access now. *)
Definition unready (cmd : Command) : Prop := ∃ r, ready cmd = Ok r ∧ IsValid r = false.

(** What has been collected of the channels [js]: the answers of those that
    follow the last channel with an access that was not ready. *)
Record gathered (g : Z → Z → Command) (js ks : list Z) (x : list Command * bool) (js1 js2 : list Z) : Prop := {
  ga_split : js = js1 ++ js2;
  ga_answers : Forall2 answer_of (j ← js2; b ← ks; [g j b]) x.1;
  ga_uniform : x.2 = false → uniform x.1;
  ga_dropped : js1 = [] ∨ ∃ js0 j b, js1 = js0 ++ [j] ∧ b ∈ ks ∧ unready (g j b)
}.

(** One channel: all of its answers, or the collection is emptied. *)
Lemma collect_in_banks_spec mk g ks : ∀ l x,
  (∀ k, k ∈ ks → mk k = Ok (g k) ∧ answered ready (g k)) →
  Forall2 answer_of l x.1 → (x.2 = false → uniform x.1) →
  ∃ x', collect_in_banks ready mk ks x = Ok x' ∧ (x'.2 = false → uniform x'.1) ∧
    (Forall2 answer_of (l ++ (g <$> ks)) x'.1 ∨ x'.1 = [] ∧ ∃ k, k ∈ ks ∧ unready (g k)).
Proof.
  induction ks as [|k ks IH]; intros l x H Hx Hu; cbn [collect_in_banks].
  { exists x. rewrite app_nil_r. auto. }
  destruct (H k) as [-> (r & Hq & Hr)]; [left|]. cbn [mbind outcome_bind]. rewrite Hq. cbn [mbind outcome_bind].
  destruct (IsValid r) eqn:Hv; cbn [negb].
  - destruct Hr as [Hr|Hr]; [congruence|]. destruct x as [cmds mixed]. cbn [fst snd] in *.
    destruct (IH (l ++ [g k]) (cmds ++ [r],
        mixed || negb (type_eqb (cmd_type (hd r (cmds ++ [r]))) (cmd_type r)))
      (λ k' Hk, H k' (list_elem_of_further _ _ _ Hk))) as (x' & Hx' & Hu' & Hg).
    + apply Forall2_app; [done|]. by constructor.
    + cbn [fst snd]. intros [-> Hn]%orb_false_iff. apply answers_uniform_snoc; [by apply Hu|].
      by apply negb_false_iff in Hn.
    + exists x'. split; [done|]. split; [done|]. csimpl. rewrite <- (assoc (++)) in Hg.
      destruct Hg as [Hg|(Hg & k' & Hk' & Hb)]; [by left|right]. split; [done|]. exists k'. split; [by right|done].
  - eexists. split; [done|]. split; [intros _; apply uniform_nil|]. right. split; [done|]. exists k. split; [left|]. by exists r.
Qed.

Lemma collect_in_loop mk (g : Z → Z → Command) js ks : ∀ js0 js1 js2 x,
  (∀ j b, j ∈ js → b ∈ ks → mk j b = Ok (g j b) ∧ answered ready (g j b)) →
  gathered g js0 ks x js1 js2 → ∃ x' js1' js2', for_each (λ j, collect_in_banks ready (mk j) ks) js x = Ok x' ∧
    gathered g (js0 ++ js) ks x' js1' js2'.
Proof.
  induction js as [|j js IH]; intros js0 js1 js2 x H Hx; cbn [for_each].
  { exists x, js1, js2. by rewrite app_nil_r. }
  destruct Hx as [-> Hf Hu Hd].
  destruct (collect_in_banks_spec (mk j) (g j) ks _ x (λ b Hb, H j b (list_elem_of_here _ _) Hb) Hf Hu)
    as (x1 & -> & Hu1 & Hx1). cbn [mbind outcome_bind].
  assert (Hg : ∃ js1' js2', gathered g ((js1 ++ js2) ++ [j]) ks x1 js1' js2').
  { destruct Hx1 as [Hx1|(E & b & Hb & Hbad)].
    - exists js1, (js2 ++ [j]). split; [by rewrite (assoc (++))| |done|done].
      rewrite bind_app. csimpl. by rewrite app_nil_r.
    - exists ((js1 ++ js2) ++ [j]), []. split; [by rewrite app_nil_r|by rewrite E; constructor|done|].
      right. by exists (js1 ++ js2), j, b. }
  destruct Hg as (js1' & js2' & Hg).
  destruct (IH _ _ _ x1 (λ j' b Hj, H j' b (list_elem_of_further _ _ _ Hj)) Hg) as (x' & a1 & a2 & Hx' & Hg').
  exists x', a1, a2. split; [done|]. by rewrite <- (assoc (++)) in Hg'.
Qed.

(** The channels of a vector from number [j0] on. *)
Definition part (h w : Z) (g : Z → Z → Command) (j0 : Z) : list Command :=
  j ← seqZ j0 (h - j0); b ← seqZ 0 w; [g j b].

(** The channels before [j0] were dropped because of the last of them. *)
Definition dropped (w : Z) (g : Z → Z → Command) (j0 : Z) : Prop :=
  0 < j0 → ∃ b, 0 ≤ b < w ∧ unready (g (j0 - 1) b).

Lemma part_all h w g : part h w g 0 = grid h w g.
Proof. unfold part. by rewrite Z.sub_0_r. Qed.

Lemma part_Forall (P : Command → Prop) h w g j0 : 0 ≤ j0 → Forall P (grid h w g) → Forall P (part h w g j0).
Proof.
  intros Hj H. apply Forall_forall. intros x. unfold part. rewrite list_elem_of_bind.
  intros (j & Hx & Hj'). apply list_elem_of_bind in Hx as (b & Hx & Hb).
  apply list_elem_of_singleton in Hx as ->. apply elem_of_seqZ in Hj', Hb. apply (grid_lookup _ _ _ _ j b H); lia.
Qed.

(** A part is an end of the vector. *)
Lemma part_suffix h w g j0 : 0 ≤ j0 ≤ h → part h w g j0 `suffix_of` grid h w g.
Proof.
  intros Hj. exists (j ← seqZ 0 j0; b ← seqZ 0 w; [g j b]). unfold part, grid.
  rewrite <- bind_app. replace h with (j0 + (h - j0)) at 1 by lia. by rewrite seqZ_app by lia.
Qed.

Lemma collect_in_spec mk g h w :
  lawful ready (grid h w g) → 0 ≤ h → (∀ j b, 0 ≤ j < h → 0 ≤ b < w → mk j b = Ok (g j b)) →
  ∃ x j0, collect_in ready mk (seqZ 0 h) (seqZ 0 w) = Ok x ∧ 0 ≤ j0 ≤ h ∧
    Forall2 answer_of (part h w g j0) x.1 ∧ (x.2 = false → uniform x.1) ∧ dropped w g j0.
Proof.
  intros Hl Hh H.
  destruct (collect_in_loop mk g (seqZ 0 h) (seqZ 0 w) [] [] [] ([], false)) as (x & js1 & js2 & Hx & [Es Hf Hu Hd]).
  - intros j b Hj Hb. apply elem_of_seqZ in Hj, Hb. split; [apply H; lia|]. apply (grid_lookup _ _ _ _ j b Hl); lia.
  - split; [done|constructor|intros _; apply uniform_nil|by left].
  - cbn [app] in Es. set (j0 := Z.of_nat (length js1)).
    assert (Hlen : length (seqZ 0 h) = (length js1 + length js2)%nat) by (by rewrite Es, length_app).
    rewrite length_seqZ in Hlen.
    assert (Ej : js1 = seqZ 0 j0 ∧ js2 = seqZ j0 (h - j0)).
    { replace h with (j0 + (h - j0)) in Es at 1 by lia. rewrite seqZ_app, Z.add_0_l in Es by lia.
      symmetry in Es. apply app_inj_1 in Es; [done|]. rewrite length_seqZ. lia. }
    destruct Ej as [E1 ->]. exists x, j0. split; [done|]. split; [lia|]. split; [done|]. split; [done|].
    intros Hj. destruct Hd as [->|(js0 & j & b & E & Hb & Hbad)]; [cbn in j0; lia|].
    exists b. apply elem_of_seqZ in Hb. split; [lia|]. enough (j = j0 - 1) as <- by done.
    assert (Hlast : last (seqZ 0 j0) = Some j) by (rewrite <- E1, E; apply last_snoc).
    replace j0 with ((j0 - 1) + 1) in Hlast by lia. rewrite seqZ_app, last_app in Hlast by lia. by injection Hlast.
Qed.

(** After the filtering of mixed vectors: nothing, activations, or the accesses
    that were collected. *)
Definition kept_inputs (f : Dataflow) (x : list Command * bool) : list Command :=
  if x.2 then filter (λ cmd, cmd_type cmd ≠ read_type f ∧ cmd_type cmd ≠ readp_type f) x.1
  else x.1.

Lemma kept_inputs_spec f l x :
  Forall (request_ok config) l → Forall (λ c, cmd_type c = read_type f ∨ cmd_type c = readp_type f) l →
  Forall2 answer_of l x.1 → (x.2 = false → uniform x.1) →
  activations (kept_inputs f x) ∨ kept_inputs f x = l ∧ x.1 = l.
Proof.
  intros Hl Ht Hf Hu. unfold kept_inputs. destruct x as [cmds mixed]. cbn [fst snd] in *. destruct mixed.
  - left. apply Forall_forall. intros c [[H1 H2] Hc]%list_elem_of_filter.
    apply list_elem_of_lookup in Hc as [n Hn].
    destruct (Forall2_lookup_r _ _ _ _ _ Hf Hn) as (r & Hr & [->| ->]).
    + by destruct (Forall_lookup_1 _ _ _ _ Ht Hr).
    + exists r. split; [by apply (Forall_lookup_1 _ _ _ _ Hl Hr)|done].
  - destruct (uniform_answers _ _ Hl Hf (Hu eq_refl)) as [->| ->]; [left|by right].
    by apply activations_of.
Qed.

(** A memory that executes every access at once answers with all of it. *)
Lemma collect_in_echo mk g h w t :
  welcoming ready (grid h w g) → pim_access t = true →
  (∀ j b, 0 ≤ j < h → 0 ≤ b < w → mk j b = Ok (g j b) ∧ cmd_type (g j b) = t) →
  collect_in ready mk (seqZ 0 h) (seqZ 0 w) = Ok (grid h w g, false).
Proof.
  intros Hw Ht H. unfold collect_in, grid.
  assert (Hb : ∀ j ks cmds, 0 ≤ j < h → (∀ b, b ∈ ks → 0 ≤ b < w) → Forall (λ c, cmd_type c = t) cmds →
    collect_in_banks ready (mk j) ks (cmds, false) = Ok (cmds ++ (g j <$> ks), false)).
  { intros j ks. induction ks as [|k ks IH]; intros cmds Hj Hk Hc; cbn [collect_in_banks].
    { by rewrite app_nil_r. }
    destruct (H j k Hj (Hk k (list_elem_of_here _ _))) as (-> & Hty). cbn [mbind outcome_bind].
    rewrite (grid_lookup _ _ _ _ j k Hw Hj (Hk k (list_elem_of_here _ _))). cbn [mbind outcome_bind]. unfold IsValid, type_eqb. rewrite Hty.
    rewrite bool_decide_eq_false_2 by (by intros ->). cbn [negb fst snd orb].
    rewrite bool_decide_eq_true_2 by (destruct cmds; [done|by inversion Hc]). cbn [negb].
    rewrite IH; [csimpl; by rewrite <- (assoc (++))|done|intros b ?; apply Hk; by right|].
    apply Forall_app. split; [done|]. by repeat constructor. }
  assert (Hall : ∀ js cmds, (∀ j, j ∈ js → 0 ≤ j < h) → Forall (λ c, cmd_type c = t) cmds →
    for_each (λ j, collect_in_banks ready (mk j) (seqZ 0 w)) js (cmds, false)
    = Ok (cmds ++ (j ← js; b ← seqZ 0 w; [g j b]), false)).
  { induction js as [|j js IH]; intros cmds Hj Hc; cbn [for_each]; [by rewrite app_nil_r|].
    assert (Hw' : ∀ b, b ∈ seqZ 0 w → 0 ≤ b < w) by (intros b ?%elem_of_seqZ; lia).
    rewrite (Hb j _ _ (Hj j (list_elem_of_here _ _)) Hw' Hc). cbn [mbind outcome_bind].
    rewrite IH; [by rewrite grid_cons, (assoc (++))|intros; apply Hj; by right|].
    apply Forall_app. split; [done|]. apply Forall_fmap, Forall_forall. intros b Hin. simpl.
    apply H; [apply Hj; left|by apply Hw']. }
  rewrite Hall; [done|intros j ?%elem_of_seqZ; lia|done].
Qed.
End Collecting.

#[global] Hint Resolve activations_nil : core.

(** Commands that can be given to a controller. *)
Definition placeable (config : Config) (x : Command) : Prop := request_ok config x ∨ is_activation config x.
Definition batch_cmds (b : Batch) : list Command := w_cmds b ++ in_cmds b ++ out_cmds b.

Lemma activations_placeable config cmds : activations config cmds → Forall (placeable config) cmds.
Proof. intros H. eapply Forall_impl; [exact H|]. by right. Qed.
Lemma accesses_placeable config cmds : Forall (request_ok config) cmds → Forall (placeable config) cmds.
Proof. intros H. eapply Forall_impl; [exact H|]. by left. Qed.

(** ** Positions of a cut *)

Section Cut.
Context (config : Config) (f : Dataflow) (i : Z) (job : Cut).
Context (Hdims : dims_ok config) (Hflow : flow_ok config f) (Hjob : job_ok config f i job).

Local Notation tm := (tiles_m f job).
Local Notation tn := (tiles_n f job).
Local Notation tk := (tiles_k config f job).
Local Notation to := (tiles_out f job).
Local Notation pb := (per_bank config f job).

(** The members of a cut that hold a position. *)
Record at_pos (c : Cut) (p : Pos) : Prop := {
  ap_job : workload c = workload job;
  ap_phase : iw_status c = p_phase p;
  ap_M : M_it c = M_tile_size f * p_m p + p_y p;
  ap_N : N_it c = n_tile f * p_n p + p_x p;
  ap_K : K_tile_it c = p_k p;
  ap_M_out : M_out_it c = out_tile f * p_mo p + p_yo p;
  ap_N_out : N_out_tile_it c = p_no p
}.

(** The positions of the nest. *)
Record pos_ok (p : Pos) : Prop := {
  po_phase : 0 ≤ p_phase p ≤ 3;
  po_m : 0 ≤ p_m p ≤ tm ∧ (p_phase p ≠ 3 → p_m p < tm);
  po_n : 0 ≤ p_n p < tn;
  po_k : 0 ≤ p_k p < tk;
  po_x : if decide (p_phase p = 0) then 0 ≤ p_x p < pb else p_x p = 0;
  po_y : if decide (p_phase p = 2) then 0 ≤ p_y p < stream f job (p_m p) else p_y p = 0;
  po_end : p_m p = tm → p_n p = 0 ∧ p_k p = 0;
  po_mo : 0 ≤ p_mo p < to;
  po_no : 0 ≤ p_no p < tn;
  po_yo : 0 ≤ p_yo p < out_stream f job (p_mo p)
}.

(** *** Geometry *)

(** The variables of the loop body at a position; [s] is the length of the
    stream, which the code computes wrongly after the last tile. *)
Definition geo (p : Pos) (s : Z) : Geometry :=
  mkGeometry (i mod vcuts f) (rows_of_cut config f) (i / vcuts f) (banks_of_cut config f)
    (n_tile f) (p_n p) (p_m p) s (k_tile config f job) (weight_stride f).

Lemma geometry_at c p :
  at_pos c p → pos_ok p →
  ∃ s, geometry config f i c = Ok (geo p s) ∧ (p_m p < tm → s = stream f job (p_m p)).
Proof.
  intros Hc Hp. pose proof (n_tile_pos _ _ Hflow). pose proof (m_tile_pos _ _ Hflow).
  pose proof (rows_pos _ _ Hflow). pose proof (rows_fit _ _ Hflow 0). pose proof (per_bank_bounds _ _ _ _ Hflow Hjob).
  destruct Hflow, Hjob, Hc as [Hj _ HM HN _ _ _]. injection Hj as EM EN EK _ _ _.
  destruct Hp as [_ [Hm _] Hn _ Hx Hy _ _ _ _].
  assert (Hxr : 0 ≤ p_x p < n_tile f) by (repeat case_decide; lia).
  assert (Hyr : 0 ≤ p_y p < M_tile_size f) by (unfold stream in Hy; repeat case_decide; lia).
  unfold geometry. rewrite (irem_mod i), (idiv_div (channels config)), (idiv_div i), (idiv_div (banks config)),
    (idiv_div 128) by lia. cbn [mbind outcome_bind]. change (128 / vcuts f) with (n_tile f).
  assert (0 ≤ M_tile_size f * p_m p) by nia. assert (0 ≤ n_tile f * p_n p) by nia.
  rewrite HM, HN, !idiv_div by lia. cbn [mbind outcome_bind]. rewrite !div_at by lia.
  rewrite EM, EK.
  assert (E : ∃ s, (if M job <? M_tile_size f * (p_m p + 1) then irem (M job) (M_tile_size f)
    else Ok (M_tile_size f)) = Ok s ∧ (p_m p < tm → s = stream f job (p_m p))).
  { destruct (Z.ltb_spec (M job) (M_tile_size f * (p_m p + 1))).
    - rewrite irem_mod by lia. eexists. split; [done|]. intros Ht.
      assert (M_tile_size f * p_m p < M job) by (by apply pieces_spec).
      unfold stream. rewrite (Z.min_r (M_tile_size f)) by lia.
      replace (M job) with (M_tile_size f * p_m p + (M job - M_tile_size f * p_m p)) at 1 by lia.
      apply mod_at. lia.
    - eexists. split; [done|]. intros _. unfold stream. lia. }
  destruct E as (s & -> & Hs). exists s. split; [|done]. done.
Qed.

Ltac geo_simpl :=
  cbn [geo vcut_no cut_height hcut_no cut_width N_tile_size N_tile_it M_tile_it
       M_current_tile_size K_tile_size weight_banks_reduce].

(** Performs the division at the head of the goal. *)
Ltac head_div :=
  lazymatch goal with
  | |- context [mbind _ ?o] =>
      lazymatch o with
      | idiv ?a ?b => rewrite (idiv_div a b)
      | irem ?a ?b => rewrite (irem_mod a b)
      end
  end; [cbn [mbind outcome_bind]|first [assumption|lia|nia]..].

(** Splits on the comparisons of the goal and the hypotheses. *)
Ltac zcases :=
  cbn in *; try lia;
  match goal with
  | |- context [?a =? ?b] => destruct (Z.eqb_spec a b); zcases
  | |- context [?a <? ?b] => destruct (Z.ltb_spec a b); zcases
  | |- context [?a <=? ?b] => destruct (Z.leb_spec a b); zcases
  | H : context [?a =? ?b] |- _ => destruct (Z.eqb_spec a b); zcases
  | H : context [?a <? ?b] |- _ => destruct (Z.ltb_spec a b); zcases
  | _ => idtac
  end.

(** Proves an equation between updates of a cut. *)
Ltac cut_eq := cbn in *; unfold constant in *; subst; f_equal; lia.

(** *** The requests of a vector *)

Lemma bank_exists bk :
  0 ≤ bk < banks config → valid_coord config (0, bk / banks_per_group config, bk mod banks_per_group config).
Proof.
  intros Hb. destruct Hdims as [? ? Hg E]. unfold valid_coord. rewrite E in Hb.
  pose proof (Z.mod_pos_bound bk (banks_per_group config) Hg).
  pose proof (Z.div_pos bk (banks_per_group config)).
  pose proof (Z.div_lt_upper_bound bk (banks_per_group config) (bankgroups config)). lia.
Qed.

Lemma cut_column : 0 ≤ i mod vcuts f < vcuts f.
Proof. destruct Hflow. apply Z.mod_pos_bound. lia. Qed.

Lemma cut_row : 0 ≤ i / vcuts f < hcuts f.
Proof.
  destruct Hflow, Hjob as [[? Hi] _ _ _ _ _ _]. unfold total_cuts in Hi. split; [apply Z.div_pos; lia|].
  apply Z.div_lt_upper_bound; lia.
Qed.

Lemma channel_exists j :
  0 ≤ j < rows_of_cut config f → 0 ≤ first_channel config f i + j < channels config.
Proof.
  intros Hj. pose proof cut_row. pose proof (rows_fit _ _ Hflow (i / vcuts f)). unfold first_channel. nia.
Qed.

Lemma cut_bank_exists b :
  0 ≤ b < banks_of_cut config f → 0 ≤ first_bank config f i + b < banks config.
Proof.
  intros Hb. pose proof cut_column. pose proof (banks_fit _ _ Hflow (i mod vcuts f)). unfold first_bank. nia.
Qed.

Lemma burst_columns_cols : burst_columns config = Ok (cols config).
Proof.
  destruct Hflow. apply idiv_div; [|done]. unfold cols in *.
  pose proof (Z.mul_div_le (columns config) (BL config)). nia.
Qed.

(** [pim_address] computes the address of a burst. *)
Lemma pim_address_burst t ch bg bk base off :
  0 ≤ off → pim_address config ch bg bk base off = Ok (cmd_addr (burst config t ch bg bk base off)).
Proof.
  intros Ho. destruct Hflow. unfold pim_address. rewrite burst_columns_cols. cbn [mbind outcome_bind].
  by rewrite idiv_div, irem_mod by lia.
Qed.

(** *** Weights *)

Lemma weight_offset_nonneg n k x : 0 ≤ n → 0 ≤ k → 0 ≤ x → 0 ≤ weight_offset config f job n k x.
Proof.
  intros. pose proof (per_bank_bounds _ _ _ _ Hflow Hjob). pose proof (tiles_k_pos _ _ _ _ Hflow Hjob).
  unfold weight_offset. assert (0 ≤ n * tk) by nia. nia.
Qed.

Lemma per_bank_at c p s :
  at_pos c p → N_tile_size_per_bank (geo p s) c = Ok pb.
Proof.
  intros [Hj _ _ _ _ _ _]. injection Hj as _ EN _ _ _ _. pose proof (n_tile_pos _ _ Hflow).
  pose proof (cut_banks_pos _ _ Hflow). destruct Hflow. unfold N_tile_size_per_bank. geo_simpl.
  assert (0 < weight_stride f) by (unfold weight_stride; by destruct (df f =? 0)).
  rewrite idiv_div by lia. cbn [mbind outcome_bind]. change (_ / weight_stride f) with (weight_banks config f).
  rewrite idiv_div by lia. cbn [mbind outcome_bind]. by rewrite EN.
Qed.

(** A tile starts at a multiple of the vectors of a slice. *)
Lemma tile_aligned n : 0 ≤ n < tn → (n_tile f * n) mod pb = 0.
Proof.
  intros Hn. pose proof (per_bank_bounds _ _ _ _ Hflow Hjob). pose proof (bank_tile_bounds _ _ Hflow).
  destruct (Z.le_gt_cases (bank_tile config f) (N job)) as [HN|HN].
  - unfold per_bank. rewrite Z.min_r by lia. destruct Hflow.
    rewrite <- Z.mul_mod_idemp_l, fo_even by lia. by rewrite Zmod_0_l.
  - assert (n = 0) as ->; [|by rewrite Z.mul_0_r, Zmod_0_l].
    destruct Hjob. assert (~ 1 < tn); [|lia]. unfold tiles_n. rewrite pieces_spec by lia. lia.
Qed.

(** The end of a slice is where [tile_end] sees it. *)
Lemma tile_end_at p s n x :
  0 ≤ n < tn → 0 ≤ x < pb →
  tile_end (geo p s) pb (n_tile f * n + x + 1) = Ok (x + 1 =? pb).
Proof.
  intros Hn Hx. pose proof (per_bank_bounds _ _ _ _ Hflow Hjob). pose proof (n_tile_pos _ _ Hflow).
  assert (0 ≤ n_tile f * n) by nia. unfold tile_end. geo_simpl. rewrite !irem_mod by lia. cbn [mbind outcome_bind].
  rewrite <- Z.add_assoc. rewrite (Zplus_mod (n_tile f * n)), tile_aligned, Z.add_0_l, Zmod_mod by lia.
  destruct (Z.eqb_spec (x + 1) pb) as [E|E].
  - rewrite E, Z_mod_same_full. unfold and_then, or_else. cbn [Z.eqb].
    destruct (Z.eqb_spec (n_tile f) pb); [done|].
    rewrite mod_at by lia. by rewrite (proj2 (Z.eqb_neq _ _)) by lia.
  - rewrite Z.mod_small by lia. by rewrite (proj2 (Z.eqb_neq _ _)) by lia.
Qed.

Lemma last_column col : 0 ≤ col < cols config → ((col + 1) mod cols config =? 0) = (col =? cols config - 1).
Proof.
  intros Hc. destruct (Z.eqb_spec col (cols config - 1)) as [E|E].
  - replace (col + 1) with (cols config) by lia. by rewrite Z_mod_same_full.
  - rewrite Z.mod_small by lia. apply Z.eqb_neq. lia.
Qed.

Lemma weight_cmd_at c p s j b :
  at_pos c p → pos_ok p → p_phase p = 0 → 0 ≤ j < rows_of_cut config f → 0 ≤ b < weight_banks config f →
  weight_cmd config (geo p s) c pb (weight_offset config f job (p_n p) (p_k p) (p_x p)) j b
  = Ok (weight_access config f i job (p_n p) (p_k p) (p_x p) j b).
Proof.
  intros Hc Hp Hph Hj Hb. destruct Hp as [_ _ Hn Hk Hx _ _ _ _ _]. rewrite decide_True in Hx by done.
  destruct Hc as [Hjb _ _ HN _ _ _]. injection Hjb as _ EN _ _ EW _.
  pose proof (weight_offset_nonneg (p_n p) (p_k p) (p_x p) ltac:(lia) ltac:(lia) ltac:(lia)) as Ho.
  set (off := weight_offset config f job (p_n p) (p_k p) (p_x p)) in *.
  assert (0 < weight_stride f) by (unfold weight_stride; by destruct (df f =? 0)).
  pose proof cut_column. pose proof (cut_banks_pos _ _ Hflow).
  assert (0 ≤ first_bank config f i + b * weight_stride f) by (unfold first_bank; nia).
  destruct Hflow, Hjob. unfold weight_cmd. geo_simpl. fold (first_channel config f i) (first_bank config f i).
  do 2 head_div.
  rewrite (pim_address_burst (weight_type config f job (p_n p) (p_k p) (p_x p))) by done.
  cbn [mbind outcome_bind]. rewrite HN, tile_end_at by lia. cbn [mbind outcome_bind].
  head_div.
  assert (1 ≤ 128 / banks config) by (apply Z.div_le_lower_bound; lia).
  assert (0 < 128 / banks config * weight_stride f) by nia.
  pose proof (Z.mod_pos_bound off (cols config) ltac:(done)) as Hcol. unfold burst. cbn [cmd_addr column].
  rewrite EN. head_div. rewrite burst_columns_cols. cbn [mbind outcome_bind].
  rewrite EW. unfold weight_access, burst, weight_type. fold off. unfold or_else. rewrite <- last_column by done.
  rewrite (irem_mod _ (cols config)) by lia. cbn [mbind outcome_bind]. by destruct (_ =? 0).
Qed.

Lemma weight_stride_pos : 0 < weight_stride f.
Proof. unfold weight_stride. by destruct (df f =? 0). Qed.

Lemma weight_access_ok n k x j b :
  0 ≤ j < rows_of_cut config f → 0 ≤ b < weight_banks config f →
  request_ok config (weight_access config f i job n k x j b).
Proof.
  intros Hj Hb. split.
  - cbn. unfold weight_type. by destruct (_ || _).
  - by apply channel_exists.
  - apply bank_exists, cut_bank_exists. pose proof weight_stride_pos.
    pose proof (Z.mul_div_le (banks_of_cut config f) (weight_stride f)). unfold weight_banks in Hb. nia.
Qed.

(** The position after a weight vector. *)
Definition next_weight (p : Pos) : Pos :=
  if p_x p + 1 =? pb then p <| p_phase := 1 |> <| p_x := 0 |> else p <| p_x := p_x p + 1 |>.

(** What an access to the memory leaves of a cut. *)
Definition moved_weights (c : Cut) (p : Pos) (b : bool) : Cut :=
  c <| w_act_placed := b |> <| N_it := n_tile f * p_n p + p_x (next_weight p) |>
    <| iw_status := p_phase (next_weight p) |>.

(** *** Inputs *)

Lemma input_offset_nonneg m k y : 0 ≤ m < tm → 0 ≤ k → 0 ≤ y → 0 ≤ input_offset config f job m k y.
Proof.
  intros Hm Hk Hy. pose proof (m_tile_pos _ _ Hflow). pose proof (tiles_k_pos _ _ _ _ Hflow Hjob).
  pose proof (stream_pos _ _ _ _ Hflow Hjob m (proj2 Hm)). unfold input_offset.
  assert (0 ≤ M_tile_size f * tk) by nia. nia.
Qed.

Lemma input_stride_fits b : 0 ≤ b < mc f → 0 ≤ b * input_stride config f < banks_of_cut config f.
Proof.
  intros Hb. pose proof (cut_banks_pos _ _ Hflow). unfold input_stride.
  pose proof (Z.div_pos (banks_of_cut config f) (mc f)).
  pose proof (Z.mul_div_le (banks_of_cut config f) (mc f)). nia.
Qed.

Lemma last_slice_at k :
  0 ≤ k < tk → (K job <=? (k + 1) * k_tile config f job) = (k + 1 =? tk).
Proof.
  intros Hk. pose proof (k_tile_pos _ _ _ _ Hflow Hjob). destruct Hjob.
  pose proof (pieces_last (K job) (k_tile config f job) k).
  pose proof (pieces_spec (K job) (k_tile config f job) k). fold (tiles_k config f job) in *.
  destruct (Z.leb_spec (K job) ((k + 1) * k_tile config f job)), (Z.eqb_spec (k + 1) tk); lia.
Qed.

Lemma input_cmd_at c p s j b :
  at_pos c p → pos_ok p → p_phase p = 2 → 0 ≤ j < rows_of_cut config f → 0 ≤ b < mc f →
  input_cmd config f (geo p s) c (input_offset config f job (p_m p) (p_k p) (p_y p)) j b
  = Ok (input_access config f i job (p_m p) (p_k p) (p_y p) j b).
Proof.
  intros Hc Hp Hph Hj Hb. destruct Hp as [_ Hm Hn Hk _ Hy _ _ _ _]. rewrite decide_True in Hy by done.
  destruct Hc as [Hjb _ HM _ HK _ _]. injection Hjb as EM _ EK EI _ _.
  pose proof (input_offset_nonneg (p_m p) (p_k p) (p_y p) ltac:(lia) ltac:(lia) ltac:(lia)) as Ho.
  pose proof (input_stride_fits b Hb). pose proof cut_column. pose proof (cut_banks_pos _ _ Hflow).
  pose proof (last_slice_at (p_k p) Hk) as Hlast.
  assert (0 ≤ first_bank config f i) by (unfold first_bank; nia).
  destruct Hflow. unfold input_cmd. geo_simpl. head_div.
  fold (input_stride config f) (first_channel config f i) (first_bank config f i).
  set (bk := if df f =? 0 then _ + 1 else _).
  assert (Ebk : bk = first_bank config f i + b * input_stride config f + (if df f =? 0 then 1 else 0))
    by (unfold bk; destruct (df f =? 0); lia).
  assert (0 ≤ bk) by (rewrite Ebk; destruct (df f =? 0); lia). clearbody bk. do 2 head_div.
  rewrite (pim_address_burst (input_type config f job (p_m p) (p_k p) (p_y p))) by done.
  cbn [mbind outcome_bind]. rewrite burst_columns_cols. cbn [mbind outcome_bind].
  unfold input_access, input_type, burst. cbn [cmd_addr column].
  by rewrite Ebk, HM, HK, EM, EK, EI, Hlast.
Qed.

Lemma input_access_ok m k y j b :
  0 ≤ j < rows_of_cut config f → 0 ≤ b < mc f →
  request_ok config (input_access config f i job m k y j b).
Proof.
  intros Hj Hb. split.
  - cbn. unfold input_type, read_type, readp_type. by destruct (_ || _), (df f =? 0).
  - by apply channel_exists.
  - apply bank_exists. pose proof (input_stride_fits b Hb). pose proof (cut_bank_exists _ H).
    pose proof cut_column. pose proof (fo_inputs _ _ Hflow (i mod vcuts f) b) as Hi.
    destruct (Z.eqb_spec (df f) 0); [|lia]. destruct Hi as [Hi _]; [done..|]. unfold first_bank in *. lia.
Qed.

(** The position after an input vector. *)
Definition next_input (p : Pos) : Pos :=
  if p_y p + 1 =? stream f job (p_m p) then
    let '(m, n, k) := next_slice config f job (p_m p) (p_n p) (p_k p) in
    p <| p_phase := 3 |> <| p_m := m |> <| p_n := n |> <| p_k := k |> <| p_y := 0 |>
  else p <| p_y := p_y p + 1 |>.

(** The counters that the first and the last vector of a stream start. *)
Definition out_cnt_after (c : Cut) (p : Pos) : Z :=
  if (p_k p + 1 =? tk) && (p_y p =? 0) then out_delay config else out_cnt c.
Definition in_cnt_after (c : Cut) (p : Pos) : Z :=
  if p_y p + 1 =? stream f job (p_m p)
  then (if tm <=? p_m (next_input p) then -1 else in_delay config f) else in_cnt c.

Definition moved_inputs (c : Cut) (p : Pos) : Cut :=
  let p' := next_input p in
  c <| out_cnt := out_cnt_after c p |> <| in_cnt := in_cnt_after c p |>
    <| iw_status := p_phase p' |> <| M_it := M_tile_size f * p_m p' + p_y p' |>
    <| K_tile_it := p_k p' |> <| N_it := n_tile f * p_n p' |>.

(** *** Outputs *)

Lemma tiles_n_out : (N job - 1) / (if df f =? 1 then 128 else n_tile f) + 1 = tn.
Proof.
  destruct (Z.eqb_spec (df f) 1) as [E|_]; [|done]. pose proof (jb_single _ _ _ _ Hjob E) as H1.
  pose proof (n_tile_pos _ _ Hflow). destruct Hflow, Hjob. rewrite H1.
  assert (N job ≤ n_tile f).
  { pose proof (proj1 (pieces_le (N job) (n_tile f) 1 jb_N ltac:(lia))). unfold tiles_n in H1. lia. }
  assert (n_tile f ≤ 128) by (apply Z.div_le_upper_bound; lia).
  by rewrite Z.div_small by lia.
Qed.

Lemma out_height_pos : 0 < out_height config f.
Proof. destruct Hflow. unfold out_height. apply Z.div_str_pos. lia. Qed.

Lemma out_channel_range n : 0 ≤ n → 0 ≤ out_channel f i job n < vcuts f.
Proof.
  intros Hn. pose proof cut_column. destruct Hflow. unfold out_channel.
  destruct (M job =? 1); [done|]. destruct (vcuts f =? 16).
  - pose proof (Z.div_le_upper_bound (i mod vcuts f) 2 (i mod vcuts f)).
    pose proof (Z.div_pos (i mod vcuts f) 2). lia.
  - apply Z.mod_pos_bound. lia.
Qed.

Lemma output_offset_nonneg m n y :
  0 ≤ m < to → 0 ≤ n → 0 ≤ y → 0 ≤ output_offset f job m n y.
Proof.
  intros Hm Hn Hy. pose proof (out_tile_pos _ _ Hflow). pose proof (tiles_n_pos _ _ _ _ Hflow Hjob).
  pose proof (out_stream_pos _ _ _ _ Hflow Hjob m (proj2 Hm)). destruct Hflow.
  unfold output_offset, channel_tiles. pose proof (Z.div_pos n (vcuts f)).
  pose proof (Z.div_pos tn (vcuts f)).
  assert (0 ≤ tn / vcuts f + (if n mod vcuts f <? tn mod vcuts f then 1 else 0)) by (destruct (_ <? _); lia).
  assert (0 ≤ out_tile f * (tn / vcuts f + (if n mod vcuts f <? tn mod vcuts f then 1 else 0))) by nia.
  nia.
Qed.

(** The variables of the output section at a position. *)
Definition out_geo (p : Pos) : OutGeometry :=
  mkOutGeometry (out_channel f i job (p_no p)) (out_tile f) (p_mo p) (out_rows f job)
    (if df f =? 1 then 128 else N job) (if df f =? 1 then 128 else n_tile f)
    (output_offset f job (p_mo p) (p_no p) (p_yo p)) (out_height config f).

Lemma out_geometry_at c p q s :
  at_pos c p → pos_ok p → out_geometry f (geo q s) c = Ok (out_geo p).
Proof.
  intros Hc Hp. pose proof (ap_job _ _ Hc) as Hj. injection Hj as EM EN _ _ _ _.
  pose proof (ap_M_out _ _ Hc) as HM. pose proof (ap_N_out _ _ Hc) as HN.
  pose proof (po_mo _ Hp) as Hmo. pose proof (po_no _ Hp) as Hno. pose proof (po_yo _ Hp) as Hyo.
  pose proof (out_tile_pos _ _ Hflow). pose proof (out_rows_pos _ _ _ _ Hjob). pose proof tiles_n_out as Htn.
  pose proof (out_stream_pos _ _ _ _ Hflow Hjob (p_mo p) (proj2 Hmo)). pose proof cut_column.
  pose proof (n_tile_pos _ _ Hflow). pose proof (tiles_n_pos _ _ _ _ Hflow Hjob).
  pose proof (rows_pos _ _ Hflow). pose proof (m_tile_pos _ _ Hflow).
  assert (0 ≤ out_tile f * p_mo p) by nia. destruct Hjob, Hflow.
  assert (0 ≤ M job * mcf f) by nia.
  unfold out_geometry. geo_simpl. rewrite EM, EN, HM, HN.
  assert (E1 : (if M job =? 1 then Ok (i mod vcuts f) else if vcuts f =? 16 then idiv (i mod vcuts f) 2
    else irem (i mod vcuts f + p_no p) (vcuts f)) = Ok (out_channel f i job (p_no p))).
  { unfold out_channel. destruct (M job =? 1); [done|]. destruct (vcuts f =? 16); [apply idiv_div; lia|].
    apply irem_mod; lia. }
  rewrite E1. cbn [mbind outcome_bind].
  assert (E2 : (if df f =? 1 then idiv (M_tile_size f) 128 ≫= λ q, Ok (q * mcf f) else Ok (M_tile_size f))
    = Ok (out_tile f)).
  { unfold out_tile. destruct (df f =? 1); [|done]. by rewrite idiv_div by lia. }
  rewrite E2. cbn [mbind outcome_bind]. head_div. rewrite div_at by lia.
  assert (E3 : (if df f =? 1 then idiv (M job * mcf f) 128 ≫= λ q, Ok (1 `max` q) else Ok (M job))
    = Ok (out_rows f job)).
  { unfold out_rows. destruct (df f =? 1); [|done]. by rewrite idiv_div by lia. }
  rewrite E3. cbn [mbind outcome_bind].
  assert (E4 : (if out_rows f job <? out_tile f * (p_mo p + 1) then irem (out_rows f job) (out_tile f)
    else Ok (out_tile f)) = Ok (out_stream f job (p_mo p))).
  { unfold out_stream in *. destruct (Z.ltb_spec (out_rows f job) (out_tile f * (p_mo p + 1))); [|f_equal; lia].
    rewrite irem_mod by lia. f_equal. rewrite Z.min_r by lia.
    replace (out_rows f job) with (out_tile f * p_mo p + (out_rows f job - out_tile f * p_mo p)) at 1 by lia.
    apply mod_at. lia. }
  rewrite E4. cbn [mbind outcome_bind].
  rewrite (idiv_div (N job - 1)) by (destruct (df f =? 1); lia). cbn [mbind outcome_bind]. rewrite Htn.
  do 5 head_div. rewrite mod_at by lia. rewrite (proj2 (Z.ltb_ge (rows_of_cut config f) (vcuts f))) by lia. head_div. done.
Qed.

Ltac out_simpl :=
  cbn [out_geo vcut_out_no M_tile_size_out M_out_tile_it M_out N_out N_tile_size_out out_col_offset
       cut_height_out].

Definition out_banks : Z := if df f =? 1 then 1 else mc f.

Lemma out_banks_pos : 0 < out_banks ∧ out_banks ≤ mc f.
Proof. destruct Hflow. unfold out_banks. destruct (df f =? 1); lia. Qed.

Lemma output_cmd_at c p q s j b :
  at_pos c p → pos_ok p → 0 ≤ j < out_height config f → 0 ≤ b < out_banks →
  output_cmd config f (geo q s) (out_geo p) c j b
  = Ok (output_access config f i job (p_mo p) (p_no p) (p_yo p) j b).
Proof.
  intros Hc Hp Hj Hb. pose proof (ap_job _ _ Hc) as Hjb. injection Hjb as _ _ _ _ _ EO.
  pose proof (ap_M_out _ _ Hc) as HM. pose proof (po_mo _ Hp) as Hmo. pose proof (po_no _ Hp) as Hno.
  pose proof (po_yo _ Hp) as Hyo. pose proof (out_stream_pos _ _ _ _ Hflow Hjob (p_mo p) (proj2 Hmo)).
  pose proof (output_offset_nonneg (p_mo p) (p_no p) (p_yo p) ltac:(lia) ltac:(lia) ltac:(lia)) as Ho.
  pose proof out_banks_pos as [_ Hbm]. pose proof (input_stride_fits b ltac:(lia)).
  pose proof cut_column. pose proof (cut_banks_pos _ _ Hflow).
  assert (0 ≤ first_bank config f i) by (unfold first_bank; nia).
  destruct Hflow. unfold output_cmd. geo_simpl. out_simpl. head_div.
  fold (input_stride config f) (first_channel config f i) (first_bank config f i).
  set (bk := if df f =? 1 then _ else _ + 1).
  assert (Ebk : bk = first_bank config f i + b * input_stride config f + (if df f =? 1 then 0 else 1))
    by (unfold bk; destruct (df f =? 1); lia).
  assert (0 ≤ bk) by (rewrite Ebk; destruct (df f =? 1); lia). clearbody bk. do 2 head_div.
  replace (if df f =? 0 then bk mod banks_per_group config + 2 else bk mod banks_per_group config)
    with (bk mod banks_per_group config + (if df f =? 0 then 2 else 0)) by (destruct (df f =? 0); lia).
  rewrite (pim_address_burst (output_type config f job (p_mo p) (p_no p) (p_yo p))) by done.
  cbn [mbind outcome_bind]. rewrite burst_columns_cols. cbn [mbind outcome_bind].
  unfold output_access, output_type, burst. cbn [cmd_addr column]. by rewrite HM, EO, Ebk.
Qed.

Lemma output_type_access m n y : pim_access (output_type config f job m n y) = true.
Proof. unfold output_type. by destruct (_ || _). Qed.

Lemma output_access_ok m n y j b :
  0 ≤ n → 0 ≤ j < out_height config f → 0 ≤ b < out_banks →
  request_ok config (output_access config f i job m n y j b).
Proof.
  intros Hn Hj Hb. pose proof out_banks_pos as [_ Hbm]. pose proof (input_stride_fits b ltac:(lia)) as Hs.
  pose proof (cut_bank_exists _ Hs) as Hbk. pose proof cut_column as Hcol. split.
  - apply output_type_access.
  - change (0 ≤ first_channel config f i + out_channel f i job n * out_height config f + j < channels config).
    rewrite <- Z.add_assoc. apply channel_exists. pose proof (out_channel_range n Hn). pose proof out_height_pos.
    destruct Hflow. pose proof (Z.mul_div_le (rows_of_cut config f) (vcuts f)). unfold out_height in *. nia.
  - change (valid_coord config (0, (first_bank config f i + b * input_stride config f + (if df f =? 1 then 0 else 1))
      / banks_per_group config, (first_bank config f i + b * input_stride config f + (if df f =? 1 then 0 else 1))
      mod banks_per_group config + (if df f =? 0 then 2 else 0))).
    destruct (fo_df _ _ Hflow) as [E|E]; rewrite E; cbn [Z.eqb].
    + destruct (fo_inputs _ _ Hflow (i mod vcuts f) b E Hcol ltac:(lia)) as [H1 H2].
      fold (first_bank config f i) in H1, H2.
      destruct (bank_exists (first_bank config f i + b * input_stride config f + 1)) as (? & ? & ?); [lia|].
      split; [done|]. split; [done|]. lia.
    + rewrite !Z.add_0_r. by apply bank_exists.
Qed.

(** The position after an output vector, and whether it was the last. *)
Definition tile_written (p : Pos) : bool := p_yo p + 1 =? out_stream f job (p_mo p).
Definition all_written (p : Pos) : bool :=
  tile_written p && negb (p_no p + 1 <? tn) && negb (p_mo p + 1 <? to).
Definition next_output (p : Pos) : Pos :=
  if tile_written p then
    if p_no p + 1 <? tn then p <| p_no := p_no p + 1 |> <| p_yo := 0 |>
    else p <| p_mo := p_mo p + 1 |> <| p_no := 0 |> <| p_yo := 0 |>
  else p <| p_yo := p_yo p + 1 |>.

Definition moved_outputs (c : Cut) (p : Pos) : Cut :=
  let p' := next_output p in
  c <| M_out_it := out_tile f * p_mo p' + p_yo p' |> <| N_out_tile_it := p_no p' |>
    <| in_pim := in_pim c && negb (all_written p) |>
    <| output_valid := output_valid c - (if tile_written p then 1 else 0) |>.

Lemma out_tiles_end_at n :
  0 ≤ n < tn →
  ((if df f =? 1 then 128 else N job) <=? (n + 1) * (if df f =? 1 then 128 else n_tile f)) = negb (n + 1 <? tn).
Proof.
  intros Hn. destruct (Z.eqb_spec (df f) 1) as [E|_].
  - pose proof (jb_single _ _ _ _ Hjob E) as H1. assert (n = 0) as -> by lia. by rewrite H1.
  - rewrite (Z.mul_comm (n + 1)). apply pieces_end; [apply Hjob|apply (n_tile_pos _ _ Hflow)].
Qed.

(** *** Moving along the nest *)

Lemma load_weight p :
  pos_ok p → p_phase p = 0 →
  to_load config f job p = Weights (p_m p) (p_n p) (p_k p) (p_x p) :: to_load config f job (next_weight p)
  ∧ pos_ok (next_weight p).
Proof.
  intros Hp Hph. destruct (po_m _ Hp) as [Hm Hm']. pose proof (po_x _ Hp) as Hx. rewrite decide_True in Hx by done.
  pose proof (po_y _ Hp) as Hy. rewrite decide_False in Hy by lia. split.
  - unfold to_load, next_weight. rewrite (proj2 (Z.leb_gt _ _)) by lia. rewrite Hph. cbn [Z.eqb].
    rewrite seqZ_fmap_head by lia. cbn [app]. f_equal.
    destruct (Z.eqb_spec (p_x p + 1) pb) as [E|E].
    + rewrite (seqZ_nil (p_x p + 1)) by lia. destruct p; cbn in *. unfold constant. cbn.
      by rewrite (proj2 (Z.leb_gt _ _)) by lia.
    + destruct p; cbn in *. unfold constant. subst. cbn. rewrite (proj2 (Z.leb_gt _ _)) by lia.
      by replace (pb - p_x - 1) with (pb - (p_x + 1)) by lia.
  - destruct Hp. unfold next_weight. destruct (Z.eqb_spec (p_x p + 1) pb), p; cbn in *; unfold constant; subst;
      split; cbn in *; repeat case_decide; lia.
Qed.

Lemma load_input p :
  pos_ok p → p_phase p = 2 →
  to_load config f job p = Inputs (p_m p) (p_n p) (p_k p) (p_y p) :: to_load config f job (next_input p)
  ∧ pos_ok (next_input p).
Proof.
  intros Hp Hph. destruct (po_m _ Hp) as [Hm Hm']. pose proof (po_x _ Hp) as Hx. rewrite decide_False in Hx by lia.
  pose proof (po_y _ Hp) as Hy. rewrite decide_True in Hy by done.
  pose proof (po_n _ Hp). pose proof (po_k _ Hp).
  assert (Hl : to_load config f job p = Inputs (p_m p) (p_n p) (p_k p) (p_y p) ::
    (Inputs (p_m p) (p_n p) (p_k p) <$> seqZ (p_y p + 1) (stream f job (p_m p) - p_y p - 1))
      ++ after config f job (p_m p) (p_n p) (p_k p)).
  { unfold to_load. rewrite (proj2 (Z.leb_gt _ _)) by lia. rewrite Hph. cbn [Z.eqb Pos.eqb].
    by rewrite (seqZ_fmap_head (Inputs (p_m p) (p_n p) (p_k p))) by lia. }
  rewrite Hl. clear Hl. unfold next_input. destruct (Z.eqb_spec (p_y p + 1) (stream f job (p_m p))) as [E|E].
  - rewrite (seqZ_nil (p_y p + 1)) by lia. cbn [fmap list_fmap app].
    destruct (next_slice config f job (p_m p) (p_n p) (p_k p)) as [[m' n'] k'] eqn:En.
    rewrite (after_next _ _ _ _ Hflow Hjob (p_m p) (p_n p) (p_k p) m' n' k' ltac:(lia) ltac:(lia) ltac:(lia) En).
    pose proof (tiles_n_pos _ _ _ _ Hflow Hjob). pose proof (tiles_k_pos _ _ _ _ Hflow Hjob).
    split.
    + f_equal. unfold to_load. destruct p; cbn in *. unfold constant. subst. cbn.
      destruct (tm <=? m'); [done|]. unfold slice. by rewrite Z.sub_0_r, <- (assoc (++)).
    + unfold next_slice in En. destruct Hp, p; cbn in *; unfold constant; subst.
      destruct (Z.ltb_spec (p_k + 1) tk); [|destruct (Z.ltb_spec (p_n + 1) tn)]; injection En as <- <- <-;
        split; cbn in *; repeat case_decide; lia.
  - split.
    + f_equal. unfold to_load. destruct p; cbn in *. unfold constant. subst. cbn.
      rewrite (proj2 (Z.leb_gt _ _)) by lia.
      by replace (stream f job p_m - p_y - 1) with (stream f job p_m - (p_y + 1)) by lia.
    + destruct Hp, p; cbn in *; unfold constant; subst; split; cbn in *; repeat case_decide; lia.
Qed.

(** The phases in which nothing is loaded. *)
Lemma load_wait p ph :
  pos_ok p → (p_phase p = 1 ∧ ph = 2) ∨ (p_phase p = 3 ∧ ph = 0 ∧ p_m p < tm) →
  to_load config f job (p <| p_phase := ph |>) = to_load config f job p ∧ pos_ok (p <| p_phase := ph |>).
Proof.
  intros Hp Hph. pose proof (per_bank_bounds _ _ _ _ Hflow Hjob).
  pose proof (stream_pos _ _ _ _ Hflow Hjob (p_m p)) as Hs.
  destruct Hp, p; cbn in *; unfold constant in *.
  destruct Hph as [[-> ->]|(-> & -> & Hm)]; cbn in *; repeat case_decide; try lia; split;
    try (split; cbn; repeat case_decide; lia); unfold to_load; cbn; rewrite (proj2 (Z.leb_gt _ _)) by lia;
    subst; by rewrite ?Z.sub_0_r.
Qed.

Lemma write_output p :
  pos_ok p →
  to_write f job p = mkOut (p_mo p) (p_no p) (p_yo p) :: to_write f job (next_output p)
  ∧ (if all_written p then to_write f job (next_output p) = [] else pos_ok (next_output p)).
Proof.
  intros Hp. pose proof (po_mo _ Hp) as Hmo. pose proof (po_no _ Hp) as Hno. pose proof (po_yo _ Hp) as Hyo.
  assert (Hw : to_write f job p = mkOut (p_mo p) (p_no p) (p_yo p) ::
    (mkOut (p_mo p) (p_no p) <$> seqZ (p_yo p + 1) (out_stream f job (p_mo p) - p_yo p - 1))
      ++ out_after f job (p_mo p) (p_no p)).
  { unfold to_write. rewrite (proj2 (Z.leb_gt _ _)) by lia. by rewrite seqZ_fmap_head by lia. }
  rewrite Hw. clear Hw. unfold all_written, next_output, tile_written.
  pose proof (tiles_n_pos _ _ _ _ Hflow Hjob).
  pose proof (out_stream_pos _ _ _ _ Hflow Hjob (p_mo p + 1)) as Hs.
  destruct (Z.eqb_spec (p_yo p + 1) (out_stream f job (p_mo p))) as [E|E]; cbn [andb].
  - rewrite (seqZ_nil (p_yo p + 1)) by lia. cbn [fmap list_fmap app].
    destruct (Z.ltb_spec (p_no p + 1) tn); cbn [negb andb].
    { rewrite out_after_same by done. split.
      - f_equal. unfold to_write. destruct p; cbn in *. unfold constant. cbn.
        rewrite (proj2 (Z.leb_gt _ _)) by lia. by rewrite Z.sub_0_r.
      - destruct Hp, p; cbn in *; unfold constant; subst; split; cbn in *; repeat case_decide; lia. }
    destruct (Z.ltb_spec (p_mo p + 1) to); cbn [negb].
    + rewrite (out_after_next _ _ _ _ Hflow Hjob) by done. split.
      * f_equal. unfold to_write. destruct p; cbn in *. unfold constant. cbn.
        rewrite (proj2 (Z.leb_gt _ _)) by lia. by rewrite Z.sub_0_r.
      * destruct Hp, p; cbn in *; unfold constant; subst; split; cbn in *; repeat case_decide; lia.
    + rewrite (out_after_last f job) by done.
      assert (El : to_write f job (p <| p_mo := p_mo p + 1 |> <| p_no := 0 |> <| p_yo := 0 |>) = []).
      { unfold to_write. destruct p; cbn in *. unfold constant. cbn. by rewrite (proj2 (Z.leb_le _ _)) by lia. }
      by rewrite El.
  - split.
    + f_equal. unfold to_write. destruct p; cbn in *. unfold constant. cbn.
      rewrite (proj2 (Z.leb_gt _ _)) by lia.
      by replace (out_stream f job p_mo - p_yo - 1) with (out_stream f job p_mo - (p_yo + 1)) by lia.
    + destruct Hp, p; cbn in *; unfold constant; subst; split; cbn in *; repeat case_decide; lia.
Qed.

(** *** What a cut asks for *)

(** The position that the members of a cut hold. *)
Definition position (c : Cut) : Pos :=
  mkPos (iw_status c) (M_it c / M_tile_size f) (N_it c / n_tile f) (K_tile_it c)
    (N_it c mod n_tile f) (M_it c mod M_tile_size f)
    (M_out_it c / out_tile f) (N_out_tile_it c) (M_out_it c mod out_tile f).

(** An output tile is there to be written. *)
Definition announced (c : Cut) : bool := 0 <? output_valid c + (if out_cnt c =? 0 then 1 else 0).

(** The accesses that a cut asks the memory for in a cycle. *)
Definition wanted_at (c : Cut) (p : Pos) : list Command :=
  if p_phase p =? 0 then accesses config f i job (Weights (p_m p) (p_n p) (p_k p) (p_x p))
  else if p_phase p =? 2 then accesses config f i job (Inputs (p_m p) (p_n p) (p_k p) (p_y p))
  else if (p_phase p =? 3) && announced c then
    out_accesses config f i job (mkOut (p_mo p) (p_no p) (p_yo p))
  else [].
Definition wanted (c : Cut) : list Command := wanted_at c (position c).

Lemma position_at c p : at_pos c p → pos_ok p → position c = p.
Proof.
  intros [_ E1 E2 E3 E4 E5 E6] [_ _ _ _ Hx Hy _ Hmo _ Hyo].
  pose proof (n_tile_pos _ _ Hflow). pose proof (m_tile_pos _ _ Hflow). pose proof (per_bank_bounds _ _ _ _ Hflow Hjob).
  pose proof (out_stream_pos _ _ _ _ Hflow Hjob (p_mo p) (proj2 Hmo)).
  assert (0 ≤ p_x p < n_tile f) by (repeat case_decide; lia).
  assert (0 ≤ p_y p < M_tile_size f) by (unfold stream in Hy; repeat case_decide; lia).
  unfold position. rewrite E1, E2, E3, E4, E5, E6, !div_at, !mod_at by lia. by destruct p.
Qed.

Context (ready : Command → outcome Command) (wr : bool).

Lemma step_weights_at c p s :
  at_pos c p → pos_ok p → p_phase p = 0 →
  let v := accesses config f i job (Weights (p_m p) (p_n p) (p_k p) (p_x p)) in
  lawful ready v →
  ∃ b c' cmds, step_weights config f ready wr (geo p s) c = Ok (c', cmds) ∧
    ((c' = c <| w_act_placed := b |> ∧ activations config cmds ∧ ¬ welcoming ready v) ∨
     (c' = moved_weights c p b ∧ cmds = v)).
Proof.
  intros Hc Hp Hph v Hready. pose proof (weight_cmd_at c p s) as Hcmd.
  pose proof (per_bank_bounds _ _ _ _ Hflow Hjob). pose proof (n_tile_pos _ _ Hflow).
  pose proof (k_tile_pos _ _ _ _ Hflow Hjob). pose proof weight_stride_pos.
  pose proof (cut_banks_pos _ _ Hflow). pose proof (po_n _ Hp) as Hn. pose proof (po_k _ Hp).
  pose proof (po_x _ Hp) as Hx. rewrite decide_True in Hx by done.
  pose proof (ap_N _ _ Hc) as HN. pose proof (ap_phase _ _ Hc) as Hst. pose proof (ap_K _ _ Hc) as HK.
  pose proof (ap_job _ _ Hc) as Hj. injection Hj as _ EN EK _ EW _.
  assert (0 ≤ n_tile f * p_n p) by nia. destruct Hjob as [_ _ _ HK0 _ _ _].
  unfold step_weights. rewrite per_bank_at by done. cbn [mbind outcome_bind]. geo_simpl. rewrite EK, HN, HK.
  do 3 head_div. fold (tiles_k config f job). change (banks_of_cut config f / weight_stride f) with (weight_banks config f).
  rewrite mod_at by lia.
  replace (_ + _ + p_x p) with (weight_offset config f job (p_n p) (p_k p) (p_x p))
    by (unfold weight_offset, tiles_k, pieces; lia).
  destruct (vector_cases config ready (rows_of_cut config f) (weight_banks config f)
    (weight_cmd config (geo p s) c pb (weight_offset config f job (p_n p) (p_k p) (p_x p)))
    (weight_access config f i job (p_n p) (p_k p) (p_x p)) (weight_type config f job (p_n p) (p_k p) (p_x p)))
    as (cmds & -> & Hcases); [done|apply (rows_pos _ _ Hflow)|apply (fo_weights _ _ Hflow)| | |].
  { unfold weight_type. by destruct (_ || _). }
  { intros j b Hjr Hb. split; [by apply Hcmd|]. split; [by apply weight_access_ok|done]. }
  cbn [mbind outcome_bind]. destruct Hcases as [[Hall Hnw]|(-> & first & rest & Hg & Hty)].
  - exists (match cmds with [] => w_act_placed c | _ => w_act_placed c || negb wr end).
    destruct cmds as [|first rest]; [eexists _, _; split; [done|]; left; by destruct c|].
    apply activations_type in Hall as Htys. inversion Htys as [|? ? E _]; subst.
    unfold type_eqb. rewrite bool_decide_eq_true_2 by done.
    destruct (w_act_placed c) eqn:Ew, wr; cbn [orb negb]; eexists _, _; (split; [done|]); left; destruct c; cbn in *; by subst.
  - assert (Hna : type_eqb (cmd_type first) PIM_ACTIVATE = false ∧ type_eqb (cmd_type first) PRECHARGE = false).
    { rewrite Hty. unfold weight_type. by destruct (_ || _). }
    rewrite Hg. destruct Hna as [-> ->]. rewrite andb_false_r.
    set (b := if type_eqb (cmd_type first) GH_READ_PRECHARGE then false else w_act_placed c).
    set (c1 := if type_eqb _ GH_READ_PRECHARGE then _ else c).
    assert (Ec1 : c1 = c <| w_act_placed := b |>) by (unfold c1, b; destruct (type_eqb _ _), c; done).
    rewrite Ec1. clear Ec1 c1. exists b.
    assert (E : N_it (c <| w_act_placed := b |> <| N_it := N_it (c <| w_act_placed := b |>) + 1 |>)
      = n_tile f * p_n p + p_x p + 1) by (change (N_it c + 1 = n_tile f * p_n p + p_x p + 1); lia).
    rewrite E, tile_end_at by done. cbn [mbind outcome_bind]. unfold moved_weights, next_weight.
    destruct (p_x p + 1 =? pb); eexists _, _; (split; [done|]); right; (split; [|by rewrite <- Hg]);
      clear -HN Hst Hph; clearbody b; destruct c, p; cut_eq.
Qed.

Lemma advance_inputs_at c p s :
  at_pos c p → pos_ok p → p_phase p = 2 →
  advance_inputs config f (geo p s) c = Ok (moved_inputs c p).
Proof.
  intros Hc Hp Hph. destruct Hp as [_ Hm Hn Hk Hx Hy _ _ _ _]. rewrite decide_True in Hy by done.
  rewrite decide_False in Hx by lia.
  destruct Hc as [Hjb Hst HM HN HK _ _]. injection Hjb as EM EN EK _ _ _.
  pose proof (m_tile_pos _ _ Hflow). pose proof (n_tile_pos _ _ Hflow).
  pose proof (piece_end _ _ (p_m p) (p_y p) (m_tile_pos _ _ Hflow) Hy) as Hend. fold (stream f job (p_m p)) in Hend.
  pose proof (stream_pos _ _ _ _ Hflow Hjob (p_m p) ltac:(lia)).
  pose proof (last_slice_at (p_k p) Hk) as Hlast.
  pose proof (pieces_end (M job) (M_tile_size f) (p_m p) (jb_M _ _ _ _ Hjob) ltac:(lia)) as HendM.
  pose proof (pieces_end (N job) (n_tile f) (p_n p) (jb_N _ _ _ _ Hjob) ltac:(lia)) as HendN.
  fold (tiles_m f job) in HendM. fold (tiles_n f job) in HendN.
  assert (0 ≤ M_tile_size f * p_m p) by nia. destruct Hflow.
  unfold advance_inputs. geo_simpl. head_div. change (128 / vcuts f) with (n_tile f).
  rewrite (proj2 (Z.ltb_lt _ _) fo_tile). cbn [ensure mbind outcome_bind].
  rewrite EK, HK, Hlast, HM.
  rewrite (irem_mod (M_tile_size f * p_m p + p_y p)), mod_at by lia. cbn [mbind outcome_bind].
  replace (if p_k p + 1 =? tk then Ok (p_y p =? 0) else Ok false)
    with (Ok ((p_k p + 1 =? tk) && (p_y p =? 0))) by (by destruct (p_k p + 1 =? tk)).
  cbn [mbind outcome_bind]. fold (out_delay config).
  set (c1 := if _ && _ then _ else c).
  assert (Ec1 : c1 = c <| out_cnt := out_cnt_after c p |>).
  { unfold c1, out_cnt_after. destruct (_ && _), c; done. }
  clearbody c1. subst c1. set (c2 := _ <| M_it := _ |>).
  assert (HM2 : M_it c2 = M_tile_size f * p_m p + p_y p + 1).
  { change (M_it c + 1 = M_tile_size f * p_m p + p_y p + 1). lia. }
  rewrite HM2. head_div. change (M c2) with (M c). rewrite EM, Hend.
  unfold moved_inputs, in_cnt_after, next_input. unfold c2. clear HM2 c2.
  destruct (p_y p + 1 =? stream f job (p_m p)).
  2:{ f_equal. clear -HM HN HK Hst Hph Hx. generalize (out_cnt_after c p) as oc. intros oc.
      destruct c, p; cut_eq. }
  head_div. fold (in_delay config f). unfold next_slice. set (c3 := _ <| K_tile_it := _ |>).
  change (K c3) with (K c). change (K_tile_it c3) with (K_tile_it c + 1).
  rewrite EK, HK, Hlast.
  replace (p_k p + 1 <? tk) with (negb (p_k p + 1 =? tk))
    by (destruct (Z.eqb_spec (p_k p + 1) tk), (Z.ltb_spec (p_k p + 1) tk); cbn; lia).
  assert (Hlt : (tm <=? p_m p) = false) by (apply Z.leb_gt; lia).
  assert (Hge : (tm <=? p_m p + 1) = negb (p_m p + 1 <? tm)) by apply Z.leb_antisym.
  change (N (c3 <| K_tile_it := _ |> <| N_it := _ |>)) with (N c).
  change (N_it (_ <| N_it := n_tile f * (p_n p + 1) |>)) with (n_tile f * (p_n p + 1)).
  change (M (_ <| M_it := M_tile_size f * (p_m p + 1) |>)) with (M c).
  change (M_it (_ <| M_it := M_tile_size f * (p_m p + 1) |>)) with (M_tile_size f * (p_m p + 1)).
  rewrite EN, EM, HendN, HendM.
  clear -HM HN HK Hst Hph Hx Hlt Hge. unfold c3. clear c3. generalize (out_cnt_after c p) as oc. intros oc.
  destruct (p_k p + 1 =? tk); [destruct (p_n p + 1 <? tn); [|destruct (p_m p + 1 <? tm)]|]; cbn [negb] in *;
    f_equal; destruct c, p; cbn in *; unfold constant in *; subst; rewrite ?Hlt, ?Hge; f_equal; lia.
Qed.

Lemma input_type_cases m k y :
  input_type config f job m k y = read_type f ∨ input_type config f job m k y = readp_type f.
Proof. unfold input_type. destruct (_ || _); auto. Qed.

Lemma input_type_access m k y : pim_access (input_type config f job m k y) = true.
Proof. destruct (input_type_cases m k y) as [-> | ->]; unfold read_type, readp_type; by destruct (df f =? 0). Qed.

(** The vector of inputs that is collected and filtered. *)
Lemma inputs_collected c p s :
  at_pos c p → pos_ok p → p_phase p = 2 →
  let g := input_access config f i job (p_m p) (p_k p) (p_y p) in
  lawful ready (grid (rows_of_cut config f) (mc f) g) →
  ∃ x, collect_in ready (input_cmd config f (geo p s) c (input_offset config f job (p_m p) (p_k p) (p_y p)))
         (seqZ 0 (rows_of_cut config f)) (seqZ 0 (mc f)) = Ok x ∧
    (activations config (kept_inputs f x) ∨ ∃ j0, 0 ≤ j0 ≤ rows_of_cut config f ∧
       kept_inputs f x = part (rows_of_cut config f) (mc f) g j0 ∧
       x.1 = part (rows_of_cut config f) (mc f) g j0 ∧ dropped ready (mc f) g j0) ∧
    (welcoming ready (grid (rows_of_cut config f) (mc f) g) → x = (grid (rows_of_cut config f) (mc f) g, false)).
Proof.
  intros Hc Hp Hph g Hready.
  assert (Hg : ∀ j b, 0 ≤ j < rows_of_cut config f → 0 ≤ b < mc f →
    input_cmd config f (geo p s) c (input_offset config f job (p_m p) (p_k p) (p_y p)) j b = Ok (g j b) ∧
    request_ok config (g j b) ∧ cmd_type (g j b) = input_type config f job (p_m p) (p_k p) (p_y p)).
  { intros j b Hj Hb. split; [by apply input_cmd_at|]. split; [by apply input_access_ok|done]. }
  pose proof (rows_pos _ _ Hflow) as Hrows.
  destruct (collect_in_spec ready (input_cmd config f (geo p s) c
    (input_offset config f job (p_m p) (p_k p) (p_y p))) g (rows_of_cut config f) (mc f) Hready)
    as (x & j0 & Hx & Hj0 & Hans & Huni & Hdrop).
  { lia. }
  { intros j b Hj Hb. by apply Hg. }
  exists x. split; [done|]. split.
  - destruct (kept_inputs_spec config f (part (rows_of_cut config f) (mc f) g j0) x) as [?|[? ?]];
      [| |done|done|by left|right; by exists j0]; (apply part_Forall; [lia|]); apply grid_Forall; intros j b Hj Hb.
    + by apply Hg.
    + destruct (Hg j b Hj Hb) as (_ & _ & ->). apply input_type_cases.
  - intros Hwel.
    rewrite (collect_in_echo ready _ g _ _ _ Hwel (input_type_access (p_m p) (p_k p) (p_y p))) in Hx; [congruence|].
    intros j b Hj Hb. split; by apply Hg.
Qed.

Lemma part_size h w g j0 : 0 ≤ j0 ≤ h → 0 ≤ w → vsize (part h w g j0) = (h - j0) * w.
Proof.
  intros Hh Hw. unfold vsize, part.
  assert (E : ∀ js, Z.of_nat (length (j ← js; b ← seqZ 0 w; [g j b])) = Z.of_nat (length js) * w).
  { induction js as [|j js IH]; [done|]. rewrite grid_cons, length_app, length_fmap, length_seqZ.
    cbn [length]. lia. }
  rewrite E, length_seqZ, Z2Nat.id by lia. done.
Qed.

(** The commands that send an input vector: those of all channels, or, in an
    array that is not cut, those of the channels that follow the last one with
    an access that was not ready. *)
Definition inputs_sent (m k y : Z) (cmds : list Command) : Prop :=
  ∃ j0, 0 ≤ j0 < rows_of_cut config f ∧ (1 < total_cuts f → j0 = 0) ∧
    cmds = part (rows_of_cut config f) (mc f) (input_access config f i job m k y) j0 ∧
    dropped ready (mc f) (input_access config f i job m k y) j0.

(** Several cuts, or a memory that can serve all channels: the vector is whole. *)
Lemma inputs_sent_whole m n k y cmds :
  inputs_sent m k y cmds → 1 < total_cuts f ∨ welcoming ready (accesses config f i job (Inputs m n k y)) →
  cmds = accesses config f i job (Inputs m n k y).
Proof.
  intros (j0 & Hj & Hcuts & -> & Hd) H. cbn [accesses]. rewrite <- part_all. f_equal.
  destruct H as [H|H]; [by apply Hcuts|]. destruct (decide (0 < j0)) as [Hj0|]; [|lia].
  destruct (Hd Hj0) as (b & Hb & r & Hr & Hv). rewrite (grid_lookup _ _ _ _ (j0 - 1) b H) in Hr by lia.
  injection Hr as <-. pose proof (input_type_access m k y) as Ht.
  destruct (access_valid (input_access config f i job m k y (j0 - 1) b) Ht) as [Hv' _]. congruence.
Qed.

(** What was collected and passed the test of the size is a vector sent. *)
Lemma part_sent m k y j0 l first rest :
  let g := input_access config f i job m k y in
  0 ≤ j0 ≤ rows_of_cut config f → first :: rest = part (rows_of_cut config f) (mc f) g j0 →
  l = part (rows_of_cut config f) (mc f) g j0 → dropped ready (mc f) g j0 →
  (1 <? total_cuts f) && negb (vsize l =? u64 (rows_of_cut config f)) = false →
  inputs_sent m k y (first :: rest).
Proof.
  intros g Hj0 Ek El Hd Esize. pose proof (rows_pos _ _ Hflow). pose proof (rows_fit _ _ Hflow 0). destruct Hflow.
  pose proof (part_size (rows_of_cut config f) (mc f) g j0 Hj0) as Hsz. exists j0. split; [|split; [|done]].
  - rewrite <- Ek in Hsz. unfold vsize in Hsz. cbn [length] in Hsz. nia.
  - intros Hcuts. rewrite (proj2 (Z.ltb_lt _ _) Hcuts) in Esize. cbn [andb] in Esize.
    apply negb_false_iff, Z.eqb_eq in Esize. rewrite El, Hsz, u64_id, (fo_alone Hcuts) in Esize by lia. lia.
Qed.

(** A memory that serves the vector does not answer with activations. *)
Lemma inputs_not_served m n k y cmds :
  let v := accesses config f i job (Inputs m n k y) in
  activations config cmds → (welcoming ready v → v = cmds) → ¬ welcoming ready v.
Proof.
  intros v Hall%activations_type Hw Hwl. rewrite <- (Hw Hwl) in Hall.
  pose proof (rows_pos _ _ Hflow). destruct Hflow.
  destruct (grid_head (rows_of_cut config f) (mc f) (input_access config f i job m k y)) as [rest E]; [done..|].
  unfold v, accesses in Hall. rewrite E in Hall. inversion Hall as [|? ? Et _]; subst.
  pose proof (input_type_access m k y) as Ht. cbn in Et. by rewrite Et in Ht.
Qed.

Lemma step_inputs_at c p s :
  at_pos c p → pos_ok p → p_phase p = 2 → s = stream f job (p_m p) → vpu_cnt c ≤ 1 →
  let v := accesses config f i job (Inputs (p_m p) (p_n p) (p_k p) (p_y p)) in
  lawful ready v →
  ∃ b c' cmds, step_inputs config f ready wr (geo p s) c = Ok (c', cmds) ∧
    let c1 := c <| vpu_cnt := 0 |> <| in_act_placed := b |> in
    ((c' = c1 ∧ activations config cmds ∧ ¬ welcoming ready v) ∨
     (c' = moved_inputs c1 p ∧ inputs_sent (p_m p) (p_k p) (p_y p) cmds)).
Proof.
  intros Hc Hp Hph -> Hv v Hready. pose proof (ap_job _ _ Hc) as Hj. injection Hj as EM EN EK _ _ _.
  pose proof (ap_M _ _ Hc) as HM. pose proof (ap_K _ _ Hc) as HK.
  destruct (po_m _ Hp) as [Hm Hm']. pose proof (po_y _ Hp) as Hy. rewrite decide_True in Hy by done.
  pose proof (m_tile_pos _ _ Hflow). pose proof (stream_pos _ _ _ _ Hflow Hjob (p_m p) ltac:(lia)).
  pose proof (k_tile_pos _ _ _ _ Hflow Hjob). assert (0 ≤ M_tile_size f * p_m p) by nia.
  pose proof (rows_pos _ _ Hflow). pose proof (rows_fit _ _ Hflow 0).
  assert (Hc1 : at_pos (c <| vpu_cnt := 0 |>) p) by (destruct Hc; by split).
  destruct (inputs_collected _ p (stream f job (p_m p)) Hc1 Hp Hph Hready) as ([l mixed] & Hx & Hkept & Hecho).
  set (c1 := c <| vpu_cnt := 0 |>) in *.
  assert (Evpu : c <| vpu_cnt := Z.max 0 (vpu_cnt c - 1) |> = c1) by (by rewrite Z.max_l by lia).
  unfold step_inputs. rewrite Evpu. change (K c1) with (K c). change (M_it c1) with (M_it c).
  change (K_tile_it c1) with (K_tile_it c). geo_simpl. destruct Hjob as [_ _ _ HK0 _ _ _], Hflow.
  rewrite EK, HM, HK. do 2 head_div. rewrite mod_at by lia.
  replace (_ + _ + p_y p) with (input_offset config f job (p_m p) (p_k p) (p_y p))
    by (unfold input_offset, tiles_k, pieces; lia).
  rewrite Hx. cbn [mbind outcome_bind].
  change (if mixed then filter _ l else l) with (kept_inputs f (l, mixed)).
  change (grid _ _ _) with v in Hkept, Hecho.
  assert (Hv_type : Forall (λ x, cmd_type x ≠ PIM_ACTIVATE) v).
  { apply grid_Forall. intros j b _ _. cbn. pose proof (input_type_access (p_m p) (p_k p) (p_y p)) as Ht.
    intros E. by rewrite E in Ht. }
  assert (Hwel : welcoming ready v → kept_inputs f (l, mixed) = v) by (intros Hw; by rewrite (Hecho Hw)).
  assert (Hstay : ∀ cmds, activations config cmds → (welcoming ready v → v = cmds) →
    activations config cmds ∧ ¬ welcoming ready v) by (intros cmds Hall Hw; split; [done|by eapply inputs_not_served]).
  assert (Heta : c1 = c1 <| in_act_placed := in_act_placed c1 |>) by (by destruct c).
  destruct (_ && _) eqn:Esize.
  { exists (in_act_placed c1), c1, []. split; [done|]. left. split; [done|]. split; [apply Forall_nil_2|]. intros Hw.
    rewrite (Hecho Hw) in *. injection (Hecho Hw) as -> ->. apply andb_true_iff in Esize as [E1 E2]. split_bool.
    unfold v, accesses in E2. rewrite <- part_all, part_size, u64_id, (fo_alone E1) in E2 by lia. lia. }
  destruct (kept_inputs f (l, mixed)) as [|first rest] eqn:Ekept.
  { exists (in_act_placed c1), c1, []. split; [done|]. left. split; [done|]. apply Hstay; [apply Forall_nil_2|].
    intros Hw. by rewrite <- (Hwel Hw). }
  destruct (decide (cmd_type first = PIM_ACTIVATE)) as [E|E]; unfold type_eqb at 1.
  - assert (Hall : activations config (first :: rest)).
    { destruct Hkept as [?|(j0 & Hj0 & Hs & _)]; [done|]. exfalso. eapply part_Forall in Hv_type; [|apply Hj0].
      rewrite <- Hs in Hv_type. by inversion Hv_type. }
    rewrite bool_decide_eq_true_2 by done.
    assert (Hnw := Hstay _ Hall (λ Hw, eq_sym (Hwel Hw))).
    destruct (in_act_placed c1 || wr); [exists (in_act_placed c1)|exists true]; eexists _, _; (split; [done|]); left.
    + split; [done|]. split; [apply Forall_nil_2|]. apply Hnw.
    + done.
  - rewrite bool_decide_eq_false_2 by done.
    set (b := if type_eqb (cmd_type first) (readp_type f) then false else in_act_placed c1).
    replace (if type_eqb (cmd_type first) (readp_type f) then _ else c1) with (c1 <| in_act_placed := b |>)
      by (unfold b; by destruct (type_eqb _ _), c).
    cbn [negb Z.eqb vpu_cnt]. exists b. rewrite advance_inputs_at; [|by destruct Hc; split|done|done].
    cbn [mbind outcome_bind]. eexists _, _. split; [done|]. right. split; [done|].
    destruct Hkept as [Hall%activations_type|(j0 & Hj0 & Ek & El & Hd)]; [by inversion Hall|].
    by eapply part_sent.
Qed.

(** *** Writing outputs *)

Lemma vget_update {A} (l : list A) (k : Z) x :
  0 ≤ k < vsize l → vget (<[Z.to_nat k := x]> l) k = Ok x.
Proof. intros Hk. apply vget_Ok. split; [lia|]. apply list_lookup_insert_eq. unfold vsize in Hk. lia. Qed.

Lemma vset_update {A} (l : list A) (k : Z) x y :
  0 ≤ k < vsize l → vset (<[Z.to_nat k := x]> l) k y = Ok (<[Z.to_nat k := y]> l).
Proof.
  intros Hk. rewrite vset_in_range; [by rewrite list_insert_insert_eq|]. unfold vsize in *. by rewrite length_insert.
Qed.

Lemma existsb_update {A} (g : A → bool) (l : list A) n x y :
  g x = g y → existsb g (<[n := x]> l) = existsb g (<[n := y]> l).
Proof.
  intros E. revert n. induction l as [|a l IH]; intros [|n]; cbn; [done|done|by rewrite E|by rewrite IH].
Qed.

Lemma advance_outputs_at cs c p q s off :
  0 ≤ i < vsize cs → vget cs i = Ok c → at_pos c p → pos_ok p → (all_written p = true → in_cnt c = -1) →
  let cs' := <[Z.to_nat i := moved_outputs c p]> cs in
  advance_outputs f (geo q s) (out_geo p) i cs off
  = Ok (cs', if all_written p then negb (existsb in_pim cs') else off).
Proof.
  intros Hi Hget Hc Hp Hlast cs'. pose proof (ap_M_out _ _ Hc) as HM. pose proof (ap_N_out _ _ Hc) as HN.
  pose proof (po_mo _ Hp) as Hmo. pose proof (po_no _ Hp) as Hno. pose proof (po_yo _ Hp) as Hyo.
  pose proof (out_tile_pos _ _ Hflow) as Ht. pose proof (out_rows_pos _ _ _ _ Hjob) as Hr.
  pose proof (piece_end _ _ (p_mo p) (p_yo p) Ht Hyo) as Hend. fold (out_stream f job (p_mo p)) in Hend.
  pose proof (out_tiles_end_at (p_no p) Hno) as HendN.
  pose proof (pieces_end (out_rows f job) (out_tile f) (p_mo p) Hr Ht) as HendM. fold (tiles_out f job) in HendM.
  assert (0 ≤ out_tile f * p_mo p) by nia.
  assert (Hnext : ∀ upd l, also_next f (geo q s) upd i l = Ok l).
  { intros upd l. unfold also_next. geo_simpl. by rewrite (proj2 (Z.ltb_ge _ _)) by apply Hflow. }
  unfold advance_outputs. rewrite Hget. cbn [mbind outcome_bind]. out_simpl.
  change (M_out_it (c <| M_out_it := _ |>)) with (M_out_it c + 1). rewrite HM. head_div. rewrite Hend.
  fold (tile_written p). unfold cs', moved_outputs, all_written, next_output. clear cs'.
  destruct (tile_written p) eqn:Ew; cbn [andb].
  2:{ rewrite vset_in_range by done. cbn [mbind outcome_bind]. do 3 f_equal.
      clear -HM HN. destruct c, p. rewrite andb_true_r. cut_eq. }
  unfold all_written in Hlast. rewrite Ew in Hlast.
  change (N_out_tile_it (_ <| N_out_tile_it := N_out_tile_it _ + 1 |>)) with (N_out_tile_it c + 1).
  rewrite HN, HendN. destruct (p_no p + 1 <? tn); cbn [negb andb] in *.
  { rewrite vset_in_range by done. cbn [mbind outcome_bind]. rewrite vget_update by done. cbn [mbind outcome_bind].
    rewrite vset_update by done. cbn [mbind outcome_bind]. rewrite Hnext. cbn [mbind outcome_bind]. do 3 f_equal.
    clear -HM HN. destruct c, p. rewrite andb_true_r. cut_eq. }
  rewrite vset_in_range by done. cbn [mbind outcome_bind].
  change (M_out_it (_ <| M_out_it := out_tile f * (p_mo p + 1) |>)) with (out_tile f * (p_mo p + 1)).
  rewrite HendM. destruct (p_mo p + 1 <? to); cbn [negb andb] in *.
  { cbn [mbind outcome_bind]. rewrite vget_update by done. cbn [mbind outcome_bind].
    rewrite vset_update by done. cbn [mbind outcome_bind]. rewrite Hnext. cbn [mbind outcome_bind]. do 3 f_equal.
    clear -HM HN. destruct c, p. rewrite andb_true_r. cut_eq. }
  unfold finish_outputs. rewrite vget_update by done. cbn [mbind outcome_bind].
  set (c2 := _ <| M_out_it := out_tile f * (p_mo p + 1) |>). change (in_cnt c2) with (in_cnt c).
  rewrite (Hlast eq_refl), Z.eqb_refl. cbn [ensure mbind outcome_bind]. rewrite vset_update by done.
  cbn [mbind outcome_bind]. rewrite Hnext. cbn [mbind outcome_bind]. rewrite vget_update by done.
  cbn [mbind outcome_bind]. rewrite vset_update by done. cbn [mbind outcome_bind]. rewrite Hnext.
  cbn [mbind outcome_bind]. unfold c2. rewrite andb_false_r. do 2 f_equal.
  - f_equal. clear -HM HN. destruct c, p; cut_eq.
  - f_equal. by apply existsb_update.
Qed.

(** ** The counters of the array *)

(** What of the delay of an output the shortest stream and the wait after it do
    not cover; the weights of the next slice do ([jb_in_time]). *)
Definition lead : Z := out_delay config - in_delay config f - shortest f job.

(** The most the output counter can be at a position, [wait] cycles before the
    array is free. *)
Definition slack (wait : Z) (p : Pos) : Z :=
  if p_phase p =? 0 then lead - p_x p
  else if p_phase p =? 1 then -1
  else if p_phase p =? 2 then
    (if (p_k p + 1 =? tk) && (0 <? p_y p) then out_delay config - p_y p else -1)
  else if p_m p =? tm then out_delay config else wait + lead.

(** The tiles whose last slice has begun to stream. *)
Definition started (p : Pos) : Z :=
  p_m p * tn + p_n p + (if (p_phase p =? 2) && (p_k p + 1 =? tk) && (0 <? p_y p) then 1 else 0).

(** Every tile that has started is written, announced or counted down to;
    [e] is 1 before the counter of the cycle is decremented. *)
Record clocks (e : Z) (c : Cut) (p : Pos) : Prop := {
  ck_pim : in_pim c = true;
  ck_in : -1 ≤ in_cnt c ≤ in_delay config f;
  ck_end : in_cnt c = -1 ↔ p_m p = tm;
  ck_vpu : vpu_cnt c ≤ 1;
  ck_valid : 0 ≤ output_valid c;
  ck_out : -1 ≤ out_cnt c ≤ Z.max (-1) (slack (in_cnt c) p + e);
  ck_account : p_mo p * tn + p_no p + output_valid c + (if out_cnt c =? -1 then 0 else 1) = started p
}.

Lemma count_clocks c p : clocks 1 c p → clocks 0 (count_outputs c) p.
Proof.
  intros [Hpim Hin Hend Hvpu Hval Hout Hacc]. unfold count_outputs.
  destruct (Z.eqb_spec (out_cnt c) 0) as [E0|E0]; [|destruct (Z.eqb_spec (out_cnt c) (-1)) as [E1|E1]].
  - change (out_cnt (c <| output_valid := _ |>)) with (out_cnt c). rewrite E0 in *. cbn [negb Z.eqb] in *.
    split; try done; cbn; unfold constant; rewrite ?E0; try lia. change (if 0 - 1 =? -1 then 0 else 1) with 0. lia.
  - cbn [negb]. split; try done; rewrite E1 in *; cbn in *; lia.
  - cbn [negb]. destruct c; cbn in *; unfold constant; split; cbn; try done; try lia.
    rewrite (proj2 (Z.eqb_neq _ _)) by lia. lia.
Qed.

Lemma count_at_pos c p : at_pos c p → at_pos (count_outputs c) p.
Proof.
  intros [? ? ? ? ? ? ?]. unfold count_outputs.
  destruct (out_cnt c =? 0); cbv zeta; destruct (negb _); by split.
Qed.

Lemma clocks_stay c p c1 :
  clocks 0 c p → in_pim c1 = in_pim c → in_cnt c1 = in_cnt c → vpu_cnt c1 ≤ 1 →
  output_valid c1 = output_valid c → out_cnt c1 = out_cnt c → clocks 1 c1 p.
Proof.
  intros [? ? ? ? ? ? ?] E1 E2 Hv E3 E4. split; rewrite ?E1, ?E2, ?E3, ?E4; try done; lia.
Qed.

Lemma clocks_weight c p b :
  pos_ok p → clocks 0 c p → p_phase p = 0 → clocks 1 (moved_weights c p b) (next_weight p).
Proof.
  intros Hp [Hpim Hin Hend Hvpu Hval Hout Hacc] Hph. pose proof (po_x _ Hp) as Hx.
  rewrite decide_True in Hx by done. pose proof (jb_in_time _ _ _ _ Hjob) as Ht.
  unfold moved_weights, next_weight, slack, started, lead in *.
  destruct (Z.eqb_spec (p_x p + 1) pb); destruct c, p; cbn in *; unfold constant in *; subst; cbn in *;
    split; unfold slack, started, lead; cbn in *; try done; lia.
Qed.

Lemma clocks_loaded c p :
  pos_ok p → clocks 0 c p → p_phase p = 1 →
  clocks 1 (c <| iw_status := 2 |> <| vpu_cnt := 1 |>) (p <| p_phase := 2 |>).
Proof.
  intros Hp [Hpim Hin Hend Hvpu Hval Hout Hacc] Hph. pose proof (po_y _ Hp) as Hy.
  rewrite decide_False in Hy by lia. unfold slack, started in *.
  destruct c, p; cbn in *; unfold constant in *; subst; cbn in *;
    split; unfold slack, started; cbn in *; rewrite ?andb_false_r in *; try done; lia.
Qed.

Lemma clocks_wait c p :
  pos_ok p → clocks 0 c p → at_pos c p → p_phase p = 3 →
  let p1 := p <| p_phase := iw_status (step_wait c) |> in
  (iw_status (step_wait c) = 3 ∨ iw_status (step_wait c) = 0 ∧ p_m p < tm) ∧
  at_pos (step_wait c) p1 ∧ clocks 1 (step_wait c) p1.
Proof.
  intros Hp [Hpim Hin Hend Hvpu Hval Hout Hacc] Hc Hph. pose proof (po_m _ Hp) as [Hm _].
  pose proof (po_x _ Hp) as Hx. rewrite decide_False in Hx by lia.
  destruct Hc as [? Hst ? ? ? ? ?]. unfold step_wait. unfold slack, started in *.
  destruct c, p; cbn in *; unfold constant in *; subst; cbn in *.
  destruct (Z.eqb_spec in_cnt (-1)); [|destruct (Z.eqb_spec (Z.max 0 (in_cnt - 1)) 0), (Z.eqb_spec output_valid 0)];
    cbn in *; unfold constant in *; (split; [lia|]); (split; [by split|]); split; unfold slack, started; cbn in *;
    try done; destruct (Z.eqb_spec p_m tm); lia.
Qed.

Lemma clocks_input c p b :
  pos_ok p → clocks 0 c p → p_phase p = 2 →
  clocks 1 (moved_inputs (c <| vpu_cnt := 0 |> <| in_act_placed := b |>) p) (next_input p).
Proof.
  intros Hp [Hpim Hin Hend Hvpu Hval Hout Hacc] Hph. pose proof (po_m _ Hp) as [Hm Hm'].
  pose proof (po_y _ Hp) as Hy. rewrite decide_True in Hy by done. pose proof (po_n _ Hp) as Hn. pose proof (po_k _ Hp) as Hk.
  pose proof (shortest_le _ _ _ _ Hflow Hjob (p_m p) (p_n p)) as Hshort.
  assert (Hd : 0 < in_delay config f ∧ 0 < out_delay config) by (unfold in_delay, out_delay; lia).
  unfold moved_inputs, next_input, out_cnt_after, in_cnt_after, next_input, next_slice, slack, started, lead in *.
  destruct c, p; cbn in *; unfold constant in *; subst; cbn in *.
  destruct (Z.eqb_spec (p_k + 1) tk), (Z.eqb_spec p_y 0), (Z.eqb_spec (p_y + 1) (stream f job p_m)); cbn in *;
    unfold constant in *; subst; cbn in *.
  all: try destruct (Z.ltb_spec (p_k + 1) tk); try lia.
  all: try destruct (Z.ltb_spec (p_n + 1) tn); cbn in *; unfold constant in *.
  all: split; unfold slack, started, lead; cbn in *; try done; zcases.
Qed.

(** ** One cycle *)

(** A bound on the cycles in which the memory is ready that are left: the
    vectors to load, each with the delays it may start, and the counters. *)
Definition span : Z := in_delay config f + out_delay config + 3.
Definition energy (c : Cut) (p : Pos) : Z :=
  span * vsize (to_load config f job p)
  + (if p_phase p =? 1 then 1 else if p_phase p =? 3 then 1 + Z.max 0 (in_cnt c) else 0)
  + (out_cnt c + 1).

(** The commands of a batch that load the vector [v]. *)
Definition sent (v : Vector) (w l : list Command) : Prop :=
  match v with
  | Weights _ _ _ _ => w = accesses config f i job v ∧ l = []
  | Inputs m _ k y => w = [] ∧ inputs_sent m k y l
  end.

Definition loaded (p p' : Pos) (w l : list Command) : Prop :=
  (to_load config f job p = to_load config f job p' ∧ activations config w ∧ activations config l) ∨
  (∃ v, to_load config f job p = v :: to_load config f job p' ∧ sent v w l).

Definition same_outputs (p p' : Pos) : Prop :=
  p_mo p' = p_mo p ∧ p_no p' = p_no p ∧ p_yo p' = p_yo p.

(** What the first half of a cycle does to a cut. *)
Record status_step (c : Cut) (p : Pos) (c1 : Cut) (p1 : Pos) (w l : list Command) : Prop := {
  ss_at : at_pos c1 p1;
  ss_pos : pos_ok p1;
  ss_clocks : clocks 1 c1 p1;
  ss_outputs : same_outputs p p1;
  ss_phase : p_phase p = 3 → p_phase p1 ≠ 2;
  ss_valid : p_phase p = 3 → output_valid c1 = output_valid c ∧ out_cnt c1 = out_cnt c;
  ss_loaded : loaded p p1 w l;
  ss_energy : energy (count_outputs c1) p1 ≤ energy c p;
  ss_progress : welcoming ready (wanted_at c p) →
    energy (count_outputs c1) p1 < energy c p ∨ (p_phase p = 3 ∧ 0 < output_valid (count_outputs c1))
}.

Lemma count_out c : -1 ≤ out_cnt c → out_cnt (count_outputs c) = Z.max (-1) (out_cnt c - 1).
Proof.
  intros H. unfold count_outputs. destruct (Z.eqb_spec (out_cnt c) 0) as [E|E].
  - change (out_cnt (c <| output_valid := _ |>)) with (out_cnt c). rewrite E. done.
  - destruct (Z.eqb_spec (out_cnt c) (-1)) as [E1|E1]; [rewrite E1; done|]. cbn. unfold constant. lia.
Qed.

Lemma count_in c : in_cnt (count_outputs c) = in_cnt c.
Proof. unfold count_outputs. destruct (out_cnt c =? 0); cbv zeta; by destruct (negb _). Qed.

Lemma count_valid c :
  output_valid (count_outputs c) = output_valid c + (if out_cnt c =? 0 then 1 else 0).
Proof.
  unfold count_outputs. destruct c; cbn in *; unfold constant.
  destruct (out_cnt =? 0); cbn; destruct (negb _); cbn; lia.
Qed.

Lemma delays_pos : 0 < in_delay config f ∧ 0 < out_delay config.
Proof. unfold in_delay, out_delay. lia. Qed.

(** The energy after a vector has been loaded, and when nothing is loaded. *)
Lemma energy_loaded c p c1 p1 v :
  clocks 0 c p → clocks 1 c1 p1 → to_load config f job p = v :: to_load config f job p1 →
  p_phase p ≠ 3 → out_cnt c1 = out_cnt c ∨ out_cnt c1 ≤ out_delay config →
  energy (count_outputs c1) p1 < energy c p.
Proof.
  intros Hc Hc1 E Hph Hout. unfold energy. rewrite E, count_in. rewrite count_out by apply Hc1.
  pose proof delays_pos. destruct Hc, Hc1. unfold vsize, span. cbn [length].
  rewrite Nat2Z.inj_succ. zcases.
Qed.

(** The accesses of a vector are accesses of existing banks. *)
Lemma accesses_exist v : Forall (request_ok config) (accesses config f i job v).
Proof.
  destruct v as [m n k x|m n k y]; apply grid_Forall; intros j b Hj Hb;
    [by apply weight_access_ok|by apply input_access_ok].
Qed.

Lemma out_accesses_exist v : 0 ≤ o_n v → Forall (request_ok config) (out_accesses config f i job v).
Proof. intros Hn. apply grid_Forall. intros j b Hj Hb. by apply output_access_ok. Qed.

Lemma weights_status c p b w :
  at_pos c p → pos_ok p → clocks 0 c p → p_phase p = 0 →
  w = accesses config f i job (Weights (p_m p) (p_n p) (p_k p) (p_x p)) →
  status_step c p (moved_weights c p b) (next_weight p) w [].
Proof.
  intros Hc Hp Hk Hph Hw. destruct (load_weight p Hp Hph) as [Hl Hp'].
  pose proof (clocks_weight c p b Hp Hk Hph) as Hk'.
  assert (energy (count_outputs (moved_weights c p b)) (next_weight p) < energy c p).
  { eapply energy_loaded; [done|done|exact Hl|lia|by left]. }
  assert (E : p_m (next_weight p) = p_m p ∧ p_n (next_weight p) = p_n p ∧ p_k (next_weight p) = p_k p ∧
    p_y (next_weight p) = p_y p ∧ same_outputs p (next_weight p))
    by (unfold same_outputs, next_weight; by destruct (_ =? _)).
  destruct E as (Em & En & Ek & Ey & Eo). split; try done; try lia.
  - destruct Hc, Eo as (E1 & E2 & E3). by split; rewrite ?Em, ?En, ?Ek, ?Ey, ?E1, ?E2, ?E3.
  - right. eexists. split; [exact Hl|]. by split.
Qed.

Lemma inputs_status c p b l :
  at_pos c p → pos_ok p → clocks 0 c p → p_phase p = 2 →
  sent (Inputs (p_m p) (p_n p) (p_k p) (p_y p)) [] l →
  status_step c p (moved_inputs (c <| vpu_cnt := 0 |> <| in_act_placed := b |>) p) (next_input p) [] l.
Proof.
  intros Hc Hp Hk Hph Hs. destruct (load_input p Hp Hph) as [Hl Hp'].
  pose proof (clocks_input c p b Hp Hk Hph) as Hk'.
  set (c1 := moved_inputs _ p) in *.
  assert (energy (count_outputs c1) (next_input p) < energy c p).
  { eapply energy_loaded; [done|done|exact Hl|lia|].
    change (out_cnt c1) with (if (p_k p + 1 =? tk) && (p_y p =? 0) then out_delay config else out_cnt c).
    destruct (_ && _); [right; lia|by left]. }
  assert (Hx : p_x (next_input p) = p_x p).
  { unfold next_input. destruct (_ =? _); [|by destruct p].
    destruct (next_slice _ _ _ _ _ _) as [[? ?] ?]. by destruct p. }
  assert (Hx0 : p_x p = 0) by (pose proof (po_x _ Hp) as Hx0; rewrite decide_False in Hx0 by lia; done).
  assert (Hso : same_outputs p (next_input p)).
  { unfold same_outputs, next_input. destruct (_ =? _); [|by destruct p].
    destruct (next_slice _ _ _ _ _ _) as [[? ?] ?]. by destruct p. }
  split; try done; try lia.
  - destruct Hc, Hso as (E1 & E2 & E3). split; rewrite ?Hx, ?E1, ?E2, ?E3; try done.
    change (N_it c1) with (n_tile f * p_n (next_input p)). lia.
  - right. eexists. split; [exact Hl|]. done.
Qed.

Lemma stay_status c p c1 w l :
  at_pos c1 p → pos_ok p → clocks 0 c p → clocks 1 c1 p → in_cnt c1 = in_cnt c → out_cnt c1 = out_cnt c →
  p_phase p ≠ 3 → activations config w → activations config l → ¬ welcoming ready (wanted_at c p) →
  status_step c p c1 p w l.
Proof.
  intros Hc Hp Hk Hk1 Ein Eout Hph Hw Hl Hnw. split; try done.
  - by left.
  - unfold energy. rewrite count_in, Ein, count_out by apply Hk1. rewrite Eout. pose proof (ck_out _ _ _ Hk). lia.
Qed.

Lemma loaded_status c p :
  at_pos c p → pos_ok p → clocks 0 c p → p_phase p = 1 →
  status_step c p (c <| iw_status := 2 |> <| vpu_cnt := 1 |>) (p <| p_phase := 2 |>) [] [].
Proof.
  intros Hc Hp Hk Hph. destruct (load_wait p 2 Hp ltac:(by left)) as [Hl Hp'].
  pose proof (clocks_loaded c p Hp Hk Hph) as Hk'.
  set (c1 := c <| iw_status := 2 |> <| vpu_cnt := 1 |>) in *.
  assert (He : energy (count_outputs c1) (p <| p_phase := 2 |>) < energy c p).
  { unfold energy. rewrite Hl, Hph, count_in, count_out by apply Hk'. change (out_cnt c1) with (out_cnt c).
    pose proof (ck_out _ _ _ Hk). cbn. unfold constant. cbn. lia. }
  split; try done; try lia.
  - destruct Hc. by split.
  - left. rewrite Hl. split; [done|]. split; constructor.
Qed.

Lemma wait_status c p :
  at_pos c p → pos_ok p → clocks 0 c p → p_phase p = 3 →
  status_step c p (step_wait c) (p <| p_phase := iw_status (step_wait c) |>) [] [].
Proof.
  intros Hc Hp Hk Hph. destruct (clocks_wait c p Hp Hk Hc Hph) as (Hst & Hc' & Hk').
  set (p1 := p <| p_phase := iw_status (step_wait c) |>) in *.
  assert (Hl : to_load config f job p1 = to_load config f job p ∧ pos_ok p1).
  { destruct Hst as [E|[E Hm]]; unfold p1; rewrite E.
    - assert (p <| p_phase := 3 |> = p) as -> by (destruct p; cbn in *; unfold constant; congruence). done.
    - apply load_wait; [done|]. by right. }
  destruct Hl as [Hl Hp'].
  assert (Hval : output_valid (step_wait c) = output_valid c ∧ out_cnt (step_wait c) = out_cnt c).
  { unfold step_wait. destruct (in_cnt c =? -1); [done|]. cbv zeta. by destruct (_ && _). }
  destruct Hval as [Ev Eo].
  assert (Hc2 := count_clocks _ _ Hk'). pose proof (count_out (step_wait c)) as Hco.
  rewrite Eo in Hco. specialize (Hco (proj1 (ck_out _ _ _ Hk))).
  assert (Hwait : 0 ≤ in_cnt c → Z.max 0 (in_cnt (step_wait c)) = Z.max 0 (in_cnt c - 1) ∧
    (in_cnt c ≤ 0 → output_valid c = 0 → iw_status (step_wait c) = 0)).
  { intros Hin. unfold step_wait. rewrite (proj2 (Z.eqb_neq _ _)) by lia. cbv zeta.
    split; [destruct (_ && _); cbn; unfold constant; lia|]. intros Hle E.
    change (in_cnt (c <| in_cnt := _ |>)) with (Z.max 0 (in_cnt c - 1)).
    change (output_valid (c <| in_cnt := _ |>)) with (output_valid c).
    by rewrite E, (proj2 (Z.eqb_eq (Z.max 0 _) 0)) by lia. }
  pose proof (ck_out _ _ _ Hk). pose proof (ck_in _ _ _ Hk). pose proof (ck_in _ _ _ Hk').
  pose proof (ck_end _ _ _ Hk) as Hend. pose proof (ck_end _ _ _ Hk') as Hend'.
  assert (Ee : energy (count_outputs (step_wait c)) p1 = span * vsize (to_load config f job p)
    + (if iw_status (step_wait c) =? 3 then 1 + Z.max 0 (in_cnt (step_wait c)) else 0)
    + (Z.max (-1) (out_cnt c - 1) + 1)).
  { unfold energy. rewrite Hl, count_in, Hco. change (p_phase p1) with (iw_status (step_wait c)).
    destruct Hst as [->|[-> _]]; done. }
  assert (Ee0 : energy c p = span * vsize (to_load config f job p) + (1 + Z.max 0 (in_cnt c)) + (out_cnt c + 1)).
  { unfold energy. by rewrite Hph. }
  change (p_m p1) with (p_m p) in Hend'.
  split; try done.
  - intros _. change (p_phase p1) with (iw_status (step_wait c)). destruct Hst as [->|[-> _]]; done.
  - left. rewrite Hl. split; [done|]. split; constructor.
  - rewrite Ee, Ee0. destruct (_ =? 3); lia.
  - intros _. rewrite count_valid, Ev, Eo, Ee, Ee0. pose proof (ck_valid _ _ _ Hk).
    pose proof (ck_account _ _ _ Hk) as Hacc. unfold started in Hacc. rewrite Hph in Hacc. cbn in Hacc.
    pose proof (po_mo _ Hp). pose proof (po_no _ Hp). pose proof (jb_outputs _ _ _ _ Hjob).
    destruct (decide (0 < output_valid c + (if out_cnt c =? 0 then 1 else 0))) as [?|Hnv]; [by right|left].
    destruct (Z.eqb_spec (out_cnt c) 0); [lia|]. assert (output_valid c = 0) as Ev0 by lia. rewrite Ev0 in *.
    destruct (Z.eqb_spec (out_cnt c) (-1)); [|destruct (_ =? 3); lia].
    assert (p_m p ≠ tm) by (intros E; rewrite E in Hacc; destruct (po_end _ Hp E); nia).
    destruct Hwait as [Hw1 Hw2]; [lia|]. destruct (Z.eqb_spec (iw_status (step_wait c)) 3) as [E3|E3]; lia.
Qed.

Lemma step_loaded_at cs c :
  vsize cs = total_cuts f → vget cs i = Ok c → iw_status c = 1 →
  step_loaded f i cs = Ok (<[Z.to_nat i := c <| iw_status := 2 |> <| vpu_cnt := 1 |>]> cs).
Proof.
  intros Hlen Hget Hst. pose proof (jb_cut _ _ _ _ Hjob) as Hi. unfold step_loaded. rewrite Hget.
  cbn [mbind outcome_bind]. rewrite Hst, vset_in_range by lia. cbn [mbind outcome_bind].
  change (1 + 1) with 2. destruct (Z.eqb_spec (total_cuts f) 1) as [E|E]; [|done]. cbn [andb].
  unfold vsize in Hlen. destruct cs as [|c' [|]]; cbn in Hlen; try lia.
  assert (i = 0) as -> by lia. done.
Qed.

Lemma step_status_at cs c p s :
  vsize cs = total_cuts f → vget cs i = Ok c → at_pos c p → pos_ok p → clocks 0 c p →
  (p_m p < tm → s = stream f job (p_m p)) → lawful ready (wanted_at c p) →
  ∃ c1 p1 w l, step_status config f ready wr (geo p s) i cs = Ok (<[Z.to_nat i := c1]> cs, w, l) ∧
    status_step c p c1 p1 w l.
Proof.
  intros Hlen Hget Hc Hp Hk Hs Hready. pose proof (jb_cut _ _ _ _ Hjob) as Hi. pose proof (ap_phase _ _ Hc) as Hph.
  pose proof (po_phase _ Hp). destruct (po_m _ Hp) as [_ Hm]. unfold step_status. rewrite Hget. cbn [mbind outcome_bind].
  rewrite Hph.
  assert (p_phase p = 0 ∨ p_phase p = 1 ∨ p_phase p = 2 ∨ p_phase p = 3) as [E|[E|[E|E]]] by lia; rewrite E; cbn [Z.eqb Pos.eqb].
  - unfold wanted_at in Hready. rewrite E in Hready. destruct (step_weights_at c p s Hc Hp E Hready) as (b & c' & w & -> & Hcase). cbn [mbind outcome_bind].
    rewrite vset_in_range by lia. cbn [mbind outcome_bind]. destruct Hcase as [(-> & Hw & Hnw)|[-> Hw]].
    + eexists _, p, w, []. split; [done|]. apply stay_status; try done; [by destruct Hc; split|by apply (clocks_stay c); destruct Hk|lia|].
      unfold wanted_at. by rewrite E.
    + eexists _, _, w, []. split; [done|]. by apply weights_status.
  - rewrite (step_loaded_at cs c) by (done || congruence). cbn [mbind outcome_bind].
    eexists _, _, [], []. split; [done|]. by apply loaded_status.
  - unfold wanted_at in Hready. rewrite E in Hready. destruct (step_inputs_at c p s Hc Hp E (Hs (Hm ltac:(lia))) (ck_vpu _ _ _ Hk) Hready) as (b & c' & l & -> & Hcase).
    cbn [mbind outcome_bind]. rewrite vset_in_range by lia. cbn [mbind outcome_bind].
    destruct Hcase as [(-> & Hl & Hnw)|(-> & Hl)].
    + eexists _, p, [], l. split; [done|].
      apply stay_status; try done; [by destruct Hc; split|by apply (clocks_stay c); destruct Hk|lia|].
      unfold wanted_at. by rewrite E.
    + eexists _, _, [], l. split; [done|]. by apply inputs_status.
  - rewrite vset_in_range by lia. cbn [mbind outcome_bind].
    eexists _, _, [], []. split; [done|]. by apply wait_status.
Qed.

(** *** The second half of a cycle *)

Lemma written_after_stream c p :
  pos_ok p → clocks 0 c p → p_phase p ≠ 2 → 0 < output_valid c →
  p_mo p * tn + p_no p < p_m p * tn + p_n p ∧ (all_written p = true → in_cnt c = -1).
Proof.
  intros Hp Hk Hph Hv. pose proof (ck_account _ _ _ Hk) as Hacc. pose proof (ck_end _ _ _ Hk) as Hend.
  unfold started in Hacc. rewrite (proj2 (Z.eqb_neq _ _) Hph) in Hacc. cbn [andb] in Hacc.
  split; [destruct (_ =? -1); lia|]. unfold all_written. intros Hall. split_bool.
  pose proof (po_m _ Hp) as [Hm _]. pose proof (po_n _ Hp). pose proof (po_mo _ Hp). pose proof (po_no _ Hp).
  pose proof (jb_outputs _ _ _ _ Hjob). apply Hend. assert (p_mo p = tm - 1) as E by lia. rewrite E in Hacc.
  destruct (_ =? -1); nia.
Qed.

Lemma clocks_output c p b :
  pos_ok p → clocks 0 c p → 0 < output_valid c → all_written p = false →
  clocks 0 (moved_outputs (c <| out_act_placed := b |>) p) (next_output p).
Proof.
  intros Hp [Hpim Hin Hend Hvpu Hval Hout Hacc] Hv Hall. pose proof (po_mo _ Hp). pose proof (po_no _ Hp).
  unfold moved_outputs. rewrite Hall. unfold all_written, next_output, tile_written, slack, started in *.
  destruct c, p; cbn in *; unfold constant in *; subst; cbn in *.
  destruct (Z.eqb_spec (p_yo + 1) (out_stream f job p_mo)); [destruct (Z.ltb_spec (p_no + 1) tn)|]; cbn in *;
    unfold constant; split; unfold slack, started; cbn in *; try done; lia.
Qed.

Lemma output_same_load p :
  to_load config f job (next_output p) = to_load config f job p ∧ p_phase (next_output p) = p_phase p ∧
  p_m (next_output p) = p_m p.
Proof.
  unfold next_output, to_load. destruct (tile_written p); [destruct (_ <? tn)|]; by destruct p.
Qed.

Definition written (p p' : Pos) (cmds : list Command) : Prop :=
  (to_write f job p = to_write f job p' ∧ activations config cmds) ∨
  (∃ v, to_write f job p = v :: to_write f job p' ∧ cmds = out_accesses config f i job v ∧
     Forall (request_ok config) cmds ∧ o_m v * tn + o_n v < p_m p' * tn + p_n p').

(** A cut at a position of the nest, or one that has finished. *)
Definition simulates (c : Cut) (p : Pos) : Prop :=
  if in_pim c then at_pos c p ∧ pos_ok p ∧ clocks 0 c p
  else to_load config f job p = [] ∧ to_write f job p = [].

(** What the second half of a cycle does to a cut. *)
Record outputs_step (cs : list Cut) (c : Cut) (p : Pos) (rdy off : bool) (c' : Cut) (p' : Pos)
    (off' : bool) (cmds : list Command) : Prop := {
  os_sim : simulates c' p';
  os_written : written p p' cmds;
  os_load : to_load config f job p' = to_load config f job p;
  os_energy : energy c' p' = energy c p;
  os_progress : welcoming ready (out_accesses config f i job (mkOut (p_mo p) (p_no p) (p_yo p))) →
    rdy = true → 0 < output_valid c →
    to_write f job p ≠ to_write f job p';
  os_off : off' = (if in_pim c' then off else negb (existsb in_pim (<[Z.to_nat i := c']> cs)))
}.

Lemma outputs_stay cs c p rdy off b cmds :
  at_pos c p → pos_ok p → clocks 0 c p → activations config cmds →
  ¬ (welcoming ready (out_accesses config f i job (mkOut (p_mo p) (p_no p) (p_yo p))) ∧
     rdy = true ∧ 0 < output_valid c) →
  outputs_step cs c p rdy off (c <| out_act_placed := b |>) p off cmds.
Proof.
  intros Hc Hp Hk Hcmds Hnw. pose proof (ck_pim _ _ _ Hk) as Hpim. split; try done.
  - unfold simulates. change (in_pim (c <| out_act_placed := b |>)) with (in_pim c). rewrite Hpim.
    split; [by destruct Hc; split|]. split; [done|]. by destruct Hk; split.
  - by left.
  - intros Hw Hr Hv. exfalso. by apply Hnw.
  - change (in_pim (c <| out_act_placed := b |>)) with (in_pim c). by rewrite Hpim.
Qed.

Lemma outputs_moved cs c p rdy off b :
  at_pos c p → pos_ok p → clocks 0 c p → 0 < output_valid c → p_phase p ≠ 2 →
  let c' := moved_outputs (c <| out_act_placed := b |>) p in
  outputs_step cs c p rdy off c' (next_output p)
    (if all_written p then negb (existsb in_pim (<[Z.to_nat i := c']> cs)) else off)
    (out_accesses config f i job (mkOut (p_mo p) (p_no p) (p_yo p))).
Proof.
  intros Hc Hp Hk Hv Hph c'. pose proof (ck_pim _ _ _ Hk) as Hpim.
  destruct (write_output p Hp) as [Hw Hnext]. destruct (output_same_load p) as (Hl & Ep & Em).
  destruct (written_after_stream c p Hp Hk Hph Hv) as [Hlt Hin].
  assert (Hpc : in_pim c' = negb (all_written p)).
  { change (in_pim c') with (in_pim c && negb (all_written p)). by rewrite Hpim. }
  split.
  - unfold simulates. rewrite Hpc. destruct (all_written p) eqn:Hall; cbn [negb].
    + split; [|done]. rewrite Hl. unfold to_load. apply (proj1 (ck_end _ _ _ Hk)) in Hin as ->; [|done].
      by rewrite Z.leb_refl.
    + split; [|split; [done|by apply clocks_output]]. destruct Hc. split; try done; unfold next_output;
        destruct (tile_written p); try destruct (_ <? tn); by destruct p.
  - right. eexists. split; [exact Hw|]. split; [done|]. split; [apply out_accesses_exist, (po_no _ Hp)|]. cbn [o_m o_n].
    assert (p_n (next_output p) = p_n p) as ->
      by (unfold next_output; destruct (tile_written p); [destruct (_ <? tn)|]; by destruct p).
    by rewrite Em.
  - exact Hl.
  - unfold energy. by rewrite Hl, Ep.
  - intros _ _ _ E. apply (f_equal length) in E. rewrite Hw in E. cbn in E. lia.
  - rewrite Hpc. by destruct (all_written p).
Qed.

Lemma step_outputs_at cs c p q s rdy off :
  vsize cs = total_cuts f → vget cs i = Ok c → at_pos c p → pos_ok p → clocks 0 c p →
  (rdy = true → p_phase p ≠ 2) →
  (rdy = true → 0 < output_valid c → lawful ready (out_accesses config f i job (mkOut (p_mo p) (p_no p) (p_yo p)))) →
  ∃ c' p' off' cmds,
    step_outputs config f ready wr (geo q s) rdy i cs off = Ok (<[Z.to_nat i := c']> cs, off', cmds) ∧
    outputs_step cs c p rdy off c' p' off' cmds.
Proof.
  intros Hlen Hget Hc Hp Hk Hph Hready. pose proof (jb_cut _ _ _ _ Hjob) as Hi. pose proof out_height_pos as Hh.
  pose proof out_banks_pos as [Hob _]. pose proof cut_column. pose proof (po_no _ Hp) as Hno.
  assert (Hid : cs = <[Z.to_nat i := c <| out_act_placed := out_act_placed c |>]> cs).
  { assert (c <| out_act_placed := out_act_placed c |> = c) as -> by (by destruct c).
    symmetry. apply list_insert_id. by apply vget_Ok in Hget as [_ ?]. }
  unfold step_outputs. rewrite Hget. cbn [mbind outcome_bind]. geo_simpl.
  pose proof (fo_vcuts _ _ Hflow). pose proof (rows_pos _ _ Hflow).
  do 2 head_div. fold (out_height config f). rewrite (proj2 (Z.ltb_lt _ _) Hh). cbn [orb]. rewrite andb_true_r.
  destruct (_ && rdy) eqn:Eready.
  2:{ eexists _, p, off, []. split; [by rewrite <- Hid|]. apply outputs_stay; try done.
      intros (_ & -> & Hv). apply Z.ltb_lt in Hv. by rewrite Hv in Eready. }
  split_bool. subst rdy. rewrite (out_geometry_at c p q s Hc Hp). cbn [mbind outcome_bind]. out_simpl. fold out_banks.
  destruct (vector_cases config ready (out_height config f) out_banks
    (output_cmd config f (geo q s) (out_geo p) c) (output_access config f i job (p_mo p) (p_no p) (p_yo p))
    (output_type config f job (p_mo p) (p_no p) (p_yo p))) as (cmds & -> & Hcases);
    [by apply Hready|done|done|apply output_type_access| |].
  { intros j b Hj Hb. split; [by apply output_cmd_at|]. split; [by apply output_access_ok; [lia|..]|done]. }
  cbn [mbind outcome_bind]. destruct Hcases as [[Hall Hnw]|(Eg & first & rest & -> & Hty)].
  - destruct cmds as [|first rest].
    { eexists _, p, off, []. split; [by rewrite <- Hid|]. apply outputs_stay; try done. by intros []. }
    apply activations_type in Hall as Htys. inversion Htys as [|? ? E _]; subst.
    unfold type_eqb. rewrite bool_decide_eq_true_2 by done.
    destruct (out_act_placed c || wr).
    + eexists _, p, off, []. split; [by rewrite <- Hid|]. apply outputs_stay; try done. by intros [].
    + rewrite vset_in_range by lia. cbn [mbind outcome_bind].
      eexists _, p, off, (first :: rest). split; [done|]. apply outputs_stay; try done. by intros [].
  - assert (type_eqb (cmd_type first) PIM_ACTIVATE = false) as ->.
    { rewrite Hty. unfold output_type. by destruct (_ || _). }
    set (b := if type_eqb (cmd_type first) PIM_WRITE_PRECHARGE then false else out_act_placed c).
    assert (Eb : (if type_eqb (cmd_type first) PIM_WRITE_PRECHARGE
      then vset cs i (c <| out_act_placed := false |>) else Ok cs)
      = Ok (<[Z.to_nat i := c <| out_act_placed := b |>]> cs)).
    { unfold b. destruct (type_eqb _ _); [by apply vset_in_range; lia|]. by rewrite <- Hid. }
    rewrite Eb. cbn [mbind outcome_bind].
    assert (Hc1 : at_pos (c <| out_act_placed := b |>) p) by (by destruct Hc; split).
    rewrite (advance_outputs_at _ (c <| out_act_placed := b |>) p q s off);
      [|unfold vsize in *; rewrite length_insert; lia|apply vget_update; lia|done|done|].
    2:{ apply (written_after_stream c p Hp Hk (Hph eq_refl)); done. }
    cbn [mbind outcome_bind]. rewrite !list_insert_insert_eq, Eg.
    eexists _, _, _, _. split; [done|]. by apply outputs_moved; [..|apply Hph].
Qed.

(** *** The whole cycle *)

Definition measure (c : Cut) (p : Pos) : Z := energy c p + vsize (to_write f job p).

Record cycle_step (cs : list Cut) (c : Cut) (p : Pos) (off : bool) (c' : Cut) (p' : Pos) (off' : bool)
    (b : Batch) : Prop := {
  cy_sim : simulates c' p';
  cy_loaded : loaded p p' (w_cmds b) (in_cmds b);
  cy_written : written p p' (out_cmds b);
  cy_measure : measure c' p' ≤ measure c p;
  cy_progress : welcoming ready (wanted_at c p) → measure c' p' < measure c p;
  cy_off : off' = (if in_pim c' then off else negb (existsb in_pim (<[Z.to_nat i := c']> cs)))
}.

Lemma cycle_placeable cs c p off c' p' off' b :
  cycle_step cs c p off c' p' off' b → Forall (placeable config) (batch_cmds b).
Proof.
  intros [_ Hl Hw _ _ _]. unfold batch_cmds. rewrite !Forall_app, (assoc (∧)). split.
  - destruct Hl as [(_ & ? & ?)|(v & _ & Hs)]; [by split; apply activations_placeable|].
    pose proof (accesses_placeable config _ (accesses_exist v)) as Hv.
    destruct v; [by destruct Hs as [-> ->]; split|]. destruct Hs as (-> & j0 & Hj0 & _ & -> & _).
    split; [done|]. apply part_Forall; [lia|done].
  - destruct Hw as [[_ ?]|(v & _ & _ & ? & _)]; [by apply activations_placeable|by apply accesses_placeable].
Qed.

Lemma written_shorter p p' cmds :
  written p p' cmds → vsize (to_write f job p') ≤ vsize (to_write f job p) ∧
  (to_write f job p ≠ to_write f job p' → vsize (to_write f job p') < vsize (to_write f job p)).
Proof.
  intros [[-> _]|(v & -> & _)]; [split; [lia|done]|]. unfold vsize. cbn [length]. split; [lia|]. intros _. lia.
Qed.

Lemma cycle_at cs c p off :
  vsize cs = total_cuts f → vget cs i = Ok c → in_pim c = true → simulates c p → lawful ready (wanted_at c p) →
  ∃ c' p' off' b, schedule_cut config f ready wr i cs off = Ok (<[Z.to_nat i := c']> cs, off', b) ∧
    cycle_step cs c p off c' p' off' b.
Proof.
  intros Hlen Hget Hpim Hsim Hready. unfold simulates in Hsim. rewrite Hpim in Hsim. destruct Hsim as (Hc & Hp & Hk).
  pose proof (jb_cut _ _ _ _ Hjob) as Hi. unfold schedule_cut. rewrite Hget. cbn [mbind outcome_bind].
  destruct (geometry_at c p Hc Hp) as (s & -> & Hs). cbn [mbind outcome_bind].
  destruct (step_status_at cs c p s Hlen Hget Hc Hp Hk Hs Hready) as (c1 & p1 & w & l & -> & [Hc1 Hp1 Hk1 (Eo1 & Eo2 & Eo3) Hph Hval Hld He Hpr]).
  cbn [mbind outcome_bind]. rewrite vget_update by lia. cbn [mbind outcome_bind]. rewrite vset_update by lia.
  cbn [mbind outcome_bind].
  assert (Hout : p_phase p = 3 → 0 < output_valid (count_outputs c1) →
    wanted_at c p = out_accesses config f i job (mkOut (p_mo p1) (p_no p1) (p_yo p1))).
  { intros E Hv. destruct (Hval E) as [Ev Ec]. rewrite count_valid, Ev, Ec in Hv. apply Z.ltb_lt in Hv.
    unfold wanted_at, announced. by rewrite E, Hv, Eo1, Eo2, Eo3. }
  assert (Ew : to_write f job p1 = to_write f job p) by (unfold to_write; by rewrite Eo1, Eo2, Eo3).
  destruct (step_outputs_at (<[Z.to_nat i := count_outputs c1]> cs) (count_outputs c1) p1 p s (iw_status c =? 3) off)
    as (c' & p' & off' & o & -> & [Hsim Hwr Hl Hen Hop Hoff]).
  { unfold vsize in *. by rewrite length_insert. }
  { apply vget_update. lia. }
  { by apply count_at_pos. }
  { done. }
  { by apply count_clocks. }
  { intros E. apply Z.eqb_eq in E. apply Hph. by rewrite <- (ap_phase _ _ Hc). }
  { intros E Hv. apply Z.eqb_eq in E. rewrite <- Hout; [done|by rewrite <- (ap_phase _ _ Hc)|done]. }
  cbn [mbind outcome_bind]. rewrite !list_insert_insert_eq in *.
  eexists c', p', off', _. split; [done|].
  destruct (written_shorter _ _ _ Hwr) as [Hs1 Hs2]. rewrite Ew in Hs1, Hs2.
  split; cbn [w_cmds in_cmds out_cmds]; try done.
  - unfold loaded. by rewrite Hl.
  - unfold written in *. by rewrite Ew in Hwr.
  - unfold measure. lia.
  - intros Hwel. unfold measure. destruct (Hpr Hwel) as [?|[E Hv]]; [lia|].
    rewrite (ap_phase _ _ Hc) in Hop. rewrite E in Hop. rewrite (Hout E Hv) in Hwel. specialize (Hop Hwel eq_refl Hv). rewrite Ew in Hop.
    specialize (Hs2 Hop). lia.
Qed.
End Cut.
