(* ===== verification/PimProgress.v ===== *)
(** * Runs of the accelerator's scheduler

    The loop over cuts of JedecDRAMSystem::ClockTick, cycle after cycle, against
    a memory that may answer every access with the access, with an activation
    or not at all.  The array never fails, every cut loads and writes the data
    vectors of its loop nest ([PimNest]) in order, outputs follow the inputs
    they depend on, and the array turns off after a bounded number of cycles in
    which the memory is ready. *)
From stdpp Require Import base tactics numbers list list_numbers gmap strings sets.
From coqutil Require Import Datatypes.RecordSetters.
From S2P Require Import Prelude Common Configuration ChannelState Refresh PimScheduler.
From S2P Require Import JedecSystem PimSafety PimNest PimRefinement.

Import TriangleBracketNotations.
Local Open Scope Z_scope.

(** ** Runs *)

(** What a cycle brings: the answers of the memory, whether a refresh is near,
    and whether one holds the scheduler. *)
Record Env := mkEnv {
  env_ready : Command → outcome Command;
  env_wait : bool;
  env_in_ref : bool
}.

(** What a cut sent in a cycle, with the memory as it was in that cycle. *)
Record Sent := mkSent {
  st_memory : Command → outcome Command;
  st_batch : Batch
}.

(** The look-ahead for refreshes and the loop over cuts, as in [look_ahead] and
    [schedule]; the log records which cut sent which commands. *)
Definition array_cycle (config : Config) (f : Dataflow) (e : Env)
    (x : list Cut * bool * list (Z * Sent)) : outcome (list Cut * bool * list (Z * Sent)) :=
  let '(cs, off, log) := x in
  let cs := if env_wait e then clear_placed <$> cs else cs in
  for_range (total_cuts f)
    (λ i '(cs, off, log),
       c ← vget cs i;
       if negb (in_pim c) || env_in_ref e then Ok (cs, off, log)
       else
         '(cs, off, b) ← schedule_cut config f (env_ready e) (env_wait e) i cs off;
         Ok (cs, off, log ++ [(i, mkSent (env_ready e) b)]))
    (cs, off, log).

Definition array_run (config : Config) (f : Dataflow) (es : list Env)
    (x : list Cut * bool * list (Z * Sent)) : outcome (list Cut * bool * list (Z * Sent)) :=
  for_each (array_cycle config f) es x.

(** The accesses that the running cuts ask for. *)
Definition wanted_cmds (config : Config) (f : Dataflow) (cs : list Cut) : list Command :=
  concat (imap (λ k c, if in_pim c then wanted config f (Z.of_nat k) c c else []) cs).

(** The cycles in which they are all executed. *)
Definition ready_cycle (config : Config) (f : Dataflow) (e : Env) (cs : list Cut) : Prop :=
  env_in_ref e = false ∧ welcoming (env_ready e) (wanted_cmds config f cs).
#[global] Instance ready_cycle_dec config f e cs : Decision (ready_cycle config f e cs).
Proof. unfold ready_cycle, welcoming. apply _. Defined.

(** How many of them a run has. *)
Fixpoint ready_cycles (config : Config) (f : Dataflow) (es : list Env)
    (x : list Cut * bool * list (Z * Sent)) : Z :=
  match es with
  | [] => 0
  | e :: es =>
      (if bool_decide (ready_cycle config f e x.1.1) then 1 else 0) +
      match array_cycle config f e x with Ok x => ready_cycles config f es x | Fail _ => 0 end
  end.

(** A run in which the memory never has a bank open on another row than the one
    a cut asks for. *)
Fixpoint lawful_run (config : Config) (f : Dataflow) (es : list Env)
    (x : list Cut * bool * list (Z * Sent)) : Prop :=
  match es with
  | [] => True
  | e :: es =>
      (env_in_ref e = false → lawful (env_ready e) (wanted_cmds config f x.1.1)) ∧
      match array_cycle config f e x with Ok x => lawful_run config f es x | Fail _ => True end
  end.

(** A cut that has been configured and launched and has done nothing. *)
Definition fresh (c : Cut) : Prop :=
  c = Cut_init <| base_rows_in := base_rows_in c |> <| base_rows_w := base_rows_w c |>
               <| base_rows_out := base_rows_out c |> <| M := M c |> <| N := N c |> <| K := K c |>
               <| in_pim := true |>.

(** The cuts of an array that works. *)
Definition jobs_ok (config : Config) (f : Dataflow) (cs : list Cut) : Prop :=
  vsize cs = total_cuts f ∧
  ∀ k job, cs !! k = Some job → fresh job ∧ job_ok config f (Z.of_nat k) job.

(** ** What a log says *)

Definition batches (i : Z) (log : list (Z * Sent)) : list Sent :=
  (filter (λ x, x.1 = i) log).*2.

Section Log.
Context (config : Config) (f : Dataflow) (i : Z) (job : Cut).

(** Apart from activations, the batches load the vectors [vs] one by one: the
    weights of a vector all together, its inputs all together or, in an array
    that is not cut, to the channels that follow the last one of which the
    memory could not serve the access in that cycle ([inputs_sent]). *)
Inductive loads : list Vector → list Sent → Prop :=
| loads_nil : loads [] []
| loads_idle vs bs b :
    activations config (w_cmds (st_batch b)) → activations config (in_cmds (st_batch b)) →
    loads vs bs → loads vs (bs ++ [b])
| loads_weights m n k x vs bs b :
    w_cmds (st_batch b) = accesses config f i job (Weights m n k x) → in_cmds (st_batch b) = [] →
    loads vs bs → loads (vs ++ [Weights m n k x]) (bs ++ [b])
| loads_inputs m n k y vs bs b :
    w_cmds (st_batch b) = [] →
    inputs_sent config f i job (st_memory b) m k y (in_cmds (st_batch b)) →
    loads vs bs → loads (vs ++ [Inputs m n k y]) (bs ++ [b]).

(** Apart from activations, they write the vectors [vs] one by one. *)
Inductive writes : list OutVector → list Sent → Prop :=
| writes_nil : writes [] []
| writes_idle vs bs b :
    activations config (out_cmds (st_batch b)) → writes vs bs → writes vs (bs ++ [b])
| writes_vector v vs bs b :
    out_cmds (st_batch b) = out_accesses config f i job v → writes vs bs →
    writes (vs ++ [v]) (bs ++ [b]).

(** The tile of a vector, in the order of the nest. *)
Definition tile (v : Vector) : Z :=
  match v with Weights m n _ _ | Inputs m n _ _ => m * tiles_n f job + n end.
Definition out_index (v : OutVector) : Z := o_m v * tiles_n f job + o_n v.

(** The progress of a cut after the batches [bs], of [ready] cycles in which
    the memory executed every access. *)
Record progress (c : Cut) (bs : list Sent) (ready : Z) (p : Pos) (vs : list Vector)
    (os : list OutVector) : Prop := {
  pr_sim : simulates config f job c p;
  pr_nest : nest config f job = vs ++ to_load config f job p;
  pr_out : out_nest f job = os ++ to_write f job p;
  pr_loads : loads vs bs;
  pr_writes : writes os bs;
  pr_order o u : o ∈ os → u ∈ to_load config f job p → out_index o < tile u;
  pr_measure : in_pim c = true →
    measure config f job c p + ready ≤ span config f * vsize (nest config f job) + vsize (out_nest f job)
}.

Definition advances (c : Cut) (bs : list Sent) (ready : Z) : Prop :=
  ∃ p vs os, progress c bs ready p vs os.
End Log.

(** ** What the cuts ask for *)

Lemma wanted_job config f i job c : workload c = workload job → wanted config f i c c = wanted config f i job c.
Proof. intros E. injection E as E1 E2 E3 E4 E5 E6. destruct c, job. cbn in *. by subst. Qed.

Lemma wanted_lookup (P : Command → Prop) config f cs k c :
  Forall P (wanted_cmds config f cs) → cs !! k = Some c → in_pim c = true →
  Forall P (wanted config f (Z.of_nat k) c c).
Proof.
  unfold wanted_cmds. rewrite Forall_concat. intros H Hk Hp.
  assert (Hl : imap (λ k c, if in_pim c then wanted config f (Z.of_nat k) c c else []) cs !! k
    = Some (wanted config f (Z.of_nat k) c c)) by (rewrite list_lookup_imap, Hk; simpl; by rewrite Hp).
  exact (Forall_lookup_1 _ _ _ _ H Hl).
Qed.

Lemma wanted_clear config f cs : wanted_cmds config f (clear_placed <$> cs) = wanted_cmds config f cs.
Proof. unfold wanted_cmds. rewrite imap_fmap. done. Qed.

(** ** One cut *)

Section Cut.
Context (config : Config) (f : Dataflow) (i : Z) (job : Cut).
Context (Hdims : dims_ok config) (Hflow : flow_ok config f) (Hjob : job_ok config f i job).

Local Notation tn := (tiles_n f job).

Lemma slice_tiles m n k u : u ∈ slice config f job m n k → tile f job u = m * tn + n.
Proof.
  unfold slice. rewrite elem_of_app, !list_elem_of_fmap. by intros [(x & -> & _)|(x & -> & _)].
Qed.

Lemma from_k_tiles m n k u : u ∈ from_k config f job m n k → tile f job u = m * tn + n.
Proof. unfold from_k. rewrite list_elem_of_bind. intros (k' & Hu & _). by eapply slice_tiles. Qed.

Lemma from_n_tiles m n u : u ∈ from_n config f job m n → m * tn + n ≤ tile f job u.
Proof.
  unfold from_n. rewrite list_elem_of_bind. intros (n' & Hu & Hn%elem_of_seqZ). apply from_k_tiles in Hu. lia.
Qed.

Lemma from_m_tiles m u : u ∈ from_m config f job m → m * tn ≤ tile f job u.
Proof.
  unfold from_m. rewrite list_elem_of_bind. intros (m' & Hu & Hm%elem_of_seqZ). apply from_n_tiles in Hu.
  pose proof (tiles_n_pos _ _ _ _ Hflow Hjob). nia.
Qed.

(** Nothing of an earlier tile is left to load. *)
Lemma to_load_tiles p u :
  p_n p < tn → u ∈ to_load config f job p → p_m p * tn + p_n p ≤ tile f job u.
Proof.
  intros Hn. assert (Ha : u ∈ after config f job (p_m p) (p_n p) (p_k p) → p_m p * tn + p_n p ≤ tile f job u).
  { unfold after. rewrite !elem_of_app. intros [H|[H|H]].
    - apply from_k_tiles in H. lia.
    - apply from_n_tiles in H. lia.
    - apply from_m_tiles in H. lia. }
  unfold to_load. destruct (_ <=? _); [by intros ?%elem_of_nil|].
  destruct (_ =? 1); [|destruct (_ =? 2)]; rewrite !elem_of_app, !list_elem_of_fmap;
    intros; destruct_or?; destruct_and?; try (by apply Ha);
    match goal with H : ∃ _, u = _ ∧ _ |- _ => destruct H as (? & -> & _) end; simpl; lia.
Qed.

Lemma simulates_tile c p : in_pim c = true → simulates config f job c p → p_n p < tn.
Proof. intros Hp Hs. unfold simulates in Hs. rewrite Hp in Hs. destruct Hs as (_ & Hpos & _). apply Hpos. Qed.

(** The start of the nest. *)
Lemma fresh_advances : fresh job → advances config f i job job [] 0.
Proof.
  intros Hfr. exists (mkPos 0 0 0 0 0 0 0 0 0), [], [].
  pose proof (tiles_m_pos _ _ _ _ Hflow Hjob) as Hm. pose proof (tiles_n_pos _ _ _ _ Hflow Hjob) as Hn.
  pose proof (tiles_k_pos _ _ _ _ Hflow Hjob). pose proof (per_bank_bounds _ _ _ _ Hflow Hjob).
  pose proof (jb_outputs _ _ _ _ Hjob) as Eo. pose proof (out_stream_pos _ _ _ _ Hflow Hjob 0 ltac:(lia)).
  pose proof (delays_pos config f). pose proof (jb_in_time _ _ _ _ Hjob).
  assert (Hl : nest config f job = to_load config f job (mkPos 0 0 0 0 0 0 0 0 0)).
  { unfold nest, to_load. cbn. rewrite (proj2 (Z.leb_gt _ _)) by lia.
    rewrite (from_m_slice _ _ _ _ Hflow Hjob) by lia. unfold slice. by rewrite Z.sub_0_r, <- (assoc (++)). }
  assert (Hw : out_nest f job = to_write f job (mkPos 0 0 0 0 0 0 0 0 0)).
  { unfold out_nest, to_write. cbn. rewrite (proj2 (Z.leb_gt _ _)) by lia.
    rewrite out_from_m_head, out_from_n_head by lia. by rewrite Z.sub_0_r, <- (assoc (++)). }
  assert (Efields : in_pim job = true ∧ iw_status job = 0 ∧ M_it job = 0 ∧ N_it job = 0 ∧ K_tile_it job = 0 ∧
    M_out_it job = 0 ∧ N_out_tile_it job = 0 ∧ in_cnt job = 0 ∧ vpu_cnt job = 0 ∧ output_valid job = 0 ∧
    out_cnt job = -1) by (rewrite Hfr; done).
  destruct Efields as (E1 & E2 & E3 & E4 & E5 & E6 & E7 & E8 & E9 & E10 & E11).
  split; try done.
  - unfold simulates. rewrite E1. split_and!.
    + split; cbn; rewrite ?E2, ?E3, ?E4, ?E5, ?E6, ?E7; lia || done.
    + split; cbn; repeat case_decide; lia.
    + split; unfold slack, started; cbn; rewrite ?E8, ?E9, ?E10, ?E11; cbn; lia || done.
  - constructor.
  - constructor.
  - by intros o u ?%elem_of_nil.
  - intros _. unfold measure, energy. rewrite <- Hl, <- Hw, E11. cbn. lia.
Qed.

Lemma clear_advances c bs n : advances config f i job c bs n → advances config f i job (clear_placed c) bs n.
Proof.
  intros (p & vs & os & [Hs ? ? ? ? ? ?]). exists p, vs, os. split; try done.
  unfold simulates in *. change (in_pim (clear_placed c)) with (in_pim c). destruct (in_pim c); [|done].
  destruct Hs as (Hc & Hp & Hk). split; [by destruct Hc; split|]. split; [done|]. by destruct Hk; split.
Qed.

(** One cycle of a running cut. *)
Lemma cut_advances ready wr cs c off bs n :
  lawful ready (wanted config f i c c) → vsize cs = total_cuts f → vget cs i = Ok c → in_pim c = true →
  advances config f i job c bs n →
  ∃ c' off' b, schedule_cut config f ready wr i cs off = Ok (<[Z.to_nat i := c']> cs, off', b) ∧
    advances config f i job c' (bs ++ [mkSent ready b]) n ∧
    (welcoming ready (wanted config f i c c) → advances config f i job c' (bs ++ [mkSent ready b]) (n + 1)) ∧
    Forall (placeable config) (batch_cmds b) ∧
    off' = (if in_pim c' then off else negb (existsb in_pim (<[Z.to_nat i := c']> cs))).
Proof.
  intros Hl Hlen Hget Hpim (p & vs & os & [Hs Hn Ho Hlo Hwr Hord Hm]).
  assert (Ew : wanted config f i c c = wanted_at config f i job c p).
  { unfold simulates in Hs. rewrite Hpim in Hs. destruct Hs as (Hc & Hp & _).
    rewrite (wanted_job _ _ _ job) by apply Hc. unfold wanted. by rewrite (position_at config f i job Hflow Hjob c p). }
  rewrite Ew in *.
  destruct (cycle_at config f i job Hdims Hflow Hjob ready wr cs c p off Hlen Hget Hpim Hs Hl)
    as (c' & p' & off' & b & Hsc & Hstep).
  pose proof (cycle_placeable config f i job Hdims Hflow Hjob ready cs c p off c' p' off' b Hstep) as Hplace.
  destruct Hstep as [Hs' Hld Hw Hme Hpr Hoff]. exists c', off', b. split; [done|].
  assert (Hvs : ∃ vs', nest config f job = vs' ++ to_load config f job p' ∧ loads config f i job vs' (bs ++ [mkSent ready b]) ∧
    (∀ u, u ∈ to_load config f job p' → u ∈ to_load config f job p)).
  { destruct Hld as [(E & Hw1 & Hi1)|(v & E & Hsent)].
    - exists vs. rewrite <- E. split; [done|]. split; [by apply loads_idle|done].
    - exists (vs ++ [v]). rewrite <- (assoc (++)), Hn, E. split; [done|].
      split; [|intros u Hu; by right].
      destruct v; destruct Hsent as [? ?]; [by apply loads_weights|by apply loads_inputs]. }
  destruct Hvs as (vs' & Hn' & Hlo' & Hsub).
  assert (Hos : ∃ os', out_nest f job = os' ++ to_write f job p' ∧ writes config f i job os' (bs ++ [mkSent ready b]) ∧
    (∀ o u, o ∈ os' → u ∈ to_load config f job p' → out_index f job o < tile f job u)).
  { destruct Hw as [[E Hact]|(v & E & Hcmds & _ & Hlt)].
    - exists os. rewrite <- E. split; [done|]. split; [by apply writes_idle|]. intros o u Ho' Hu. by apply Hord, Hsub.
    - exists (os ++ [v]). rewrite <- (assoc (++)), Ho, E. split; [done|]. split; [by apply writes_vector|].
      intros o u [Ho'|Ho']%elem_of_app Hu; [by apply Hord, Hsub|]. apply list_elem_of_singleton in Ho' as ->.
      destruct (in_pim c') eqn:Epim.
      + pose proof (to_load_tiles p' u (simulates_tile c' p' Epim Hs') Hu). unfold out_index. lia.
      + unfold simulates in Hs'. rewrite Epim in Hs'. destruct Hs' as [E' _]. rewrite E' in Hu.
        by apply elem_of_nil in Hu. }
  destruct Hos as (os' & Ho' & Hwr' & Hord'). specialize (Hm Hpim). split; [|split; [|by split]].
  - exists p', vs', os'. split; try done. intros _. lia.
  - intros Hwel. exists p', vs', os'. split; try done. intros _. specialize (Hpr Hwel). lia.
Qed.
End Cut.

(** ** The array *)

Section Array.
Context (config : Config) (f : Dataflow) (cs0 : list Cut).
Context (Hdims : dims_ok config) (Hflow : flow_ok config f) (Hjobs : jobs_ok config f cs0).

(** After [n k] ready cycles of cut [k]. *)
Record array_inv (n : Z → Z) (x : list Cut * bool * list (Z * Sent)) : Prop := {
  ai_size : vsize x.1.1 = total_cuts f;
  ai_cuts k job : cs0 !! k = Some job → ∃ c, x.1.1 !! k = Some c ∧
    advances config f (Z.of_nat k) job c (batches (Z.of_nat k) x.2) (n (Z.of_nat k));
  ai_off : x.1.2 = negb (existsb in_pim x.1.1);
  ai_cmds : Forall (λ y, Forall (placeable config) (batch_cmds (st_batch y.2))) x.2
}.

Lemma batches_snoc i log j b :
  batches i (log ++ [(j, b)]) = if decide (j = i) then batches i log ++ [b] else batches i log.
Proof.
  unfold batches. rewrite filter_app, fmap_app, filter_cons. cbn [fst]. destruct (decide (j = i)); [done|].
  by rewrite filter_nil, app_nil_r.
Qed.

Lemma existsb_insert_true (cs : list Cut) k c :
  cs !! k = Some c → in_pim c = true → existsb in_pim cs = true.
Proof. intros Hk Hc. apply existsb_exists. exists c. split; [|done]. by eapply list_elem_of_In, list_elem_of_lookup_2. Qed.

Lemma array_round e n d i cs off log :
  (∀ c, cs !! Z.to_nat i = Some c → in_pim c = true →
     (env_in_ref e = false → lawful (env_ready e) (wanted config f i c c)) ∧
     (d = 0 ∨ d = 1 ∧ env_in_ref e = false ∧ welcoming (env_ready e) (wanted config f i c c))) →
  0 ≤ i < total_cuts f →
  array_inv (λ k, n + (if k <? i then d else 0)) (cs, off, log) →
  ∃ x, (c ← vget cs i;
        if negb (in_pim c) || env_in_ref e then Ok (cs, off, log)
        else '(cs, off, b) ← schedule_cut config f (env_ready e) (env_wait e) i cs off;
             Ok (cs, off, log ++ [(i, mkSent (env_ready e) b)])) = Ok x ∧
    array_inv (λ k, n + (if k <? i + 1 then d else 0)) x ∧
    (∀ k, k ≠ Z.to_nat i → x.1.1 !! k = cs !! k).
Proof.
  intros Hl Hi [Hsize Hcuts Hoff Hcmds]. cbn [fst snd] in *. destruct Hjobs as [Hsize0 Hjob].
  destruct (lookup_lt_is_Some_2 cs0 (Z.to_nat i)) as [job Hj]; [unfold vsize in *; lia|].
  destruct (Hjob _ _ Hj) as [_ Hjb]. rewrite Z2Nat.id in Hjb by lia.
  destruct (Hcuts _ _ Hj) as (c & Hc & Hadv). rewrite Z2Nat.id, Z.ltb_irrefl in Hadv by lia.
  assert (Hget : vget cs i = Ok c) by (apply vget_Ok; split; [lia|done]).
  assert (Hothers : ∀ (cs' : list Cut) (k : nat) job', k ≠ Z.to_nat i → cs' !! k = cs !! k → cs0 !! k = Some job' →
    ∃ c, cs' !! k = Some c ∧ advances config f (Z.of_nat k) job' c (batches (Z.of_nat k) log)
      (n + (if Z.of_nat k <? i + 1 then d else 0))).
  { intros cs' k job' Hk E Hj'. rewrite E. destruct (Hcuts _ _ Hj') as (c' & Hc' & Hadv'). exists c'. split; [done|].
    replace (Z.of_nat k <? i + 1) with (Z.of_nat k <? i); [done|].
    destruct (Z.ltb_spec (Z.of_nat k) i), (Z.ltb_spec (Z.of_nat k) (i + 1)); lia. }
  rewrite Hget. cbn [mbind outcome_bind].
  destruct (negb (in_pim c) || env_in_ref e) eqn:Eg.
  - exists (cs, off, log). split; [done|]. split; [|done]. split; cbn [fst snd]; [done| |done|done]. intros k job' Hj'.
    destruct (decide (k = Z.to_nat i)) as [->|Hk]; [|by apply Hothers]. assert (job' = job) as -> by congruence.
    exists c. split; [done|]. rewrite Z2Nat.id by lia. rewrite (proj2 (Z.ltb_lt i (i + 1))) by lia.
    destruct Hadv as (p & vs & os & [? ? ? ? ? ? Hm]). exists p, vs, os. split; try done.
    intros Hp. specialize (Hm Hp). rewrite Hp in Eg. cbn in Eg.
    destruct (Hl c Hc Hp) as [_ [->|(-> & Href & _)]]; [done|congruence].
  - apply orb_false_iff in Eg as [Hp Href]. apply negb_false_iff in Hp. destruct (Hl c Hc Hp) as [Hlaw Hd].
    specialize (Hlaw Href). clear Hl.
    destruct (cut_advances config f i job Hdims Hflow Hjb (env_ready e) (env_wait e) cs c off
      (batches i log) (n + 0) Hlaw Hsize Hget Hp Hadv) as (c' & off' & b & -> & Hadv0 & Hadv1 & Hplace & Hoff').
    cbn [mbind outcome_bind]. eexists. split; [done|].
    split; [split|intros k Hk; by apply list_lookup_insert_ne]; cbn [fst snd].
    + unfold vsize. by rewrite length_insert.
    + intros k job' Hj'. rewrite batches_snoc. destruct (decide (k = Z.to_nat i)) as [->|Hk].
      * assert (job' = job) as -> by congruence. exists c'. split; [apply list_lookup_insert_eq; unfold vsize in *; lia|].
        rewrite Z2Nat.id by lia. rewrite decide_True by done. rewrite (proj2 (Z.ltb_lt i (i + 1))) by lia.
        destruct Hd as [->|(-> & _ & Hw)]; [done|]. specialize (Hadv1 Hw). by rewrite Z.add_0_r in Hadv1.
      * rewrite decide_False by lia. apply Hothers; [done|by rewrite list_lookup_insert_ne|done].
    + rewrite Hoff'. destruct (in_pim c') eqn:Ec'; [|done].
      rewrite Hoff, (existsb_insert_true cs _ _ Hc Hp).
      by rewrite (existsb_insert_true _ (Z.to_nat i) c') by (done || apply list_lookup_insert_eq; unfold vsize in *; lia).
    + apply Forall_app. split; [done|]. by apply Forall_singleton.
Qed.

(** The cuts are told to place their activations again. *)
Lemma array_clear n cs off log : array_inv n (cs, off, log) → array_inv n (clear_placed <$> cs, off, log).
Proof.
  intros [Hsize Hcuts Hoff Hcmds]. split; cbn [fst snd] in *; [|intros k job Hk| |done].
  - unfold vsize in *. by rewrite length_fmap.
  - destruct (Hcuts k job Hk) as (c & Hc & Hadv). exists (clear_placed c). rewrite list_lookup_fmap, Hc.
    split; [done|]. by apply clear_advances.
  - rewrite Hoff. f_equal. clear. induction cs as [|c cs IH]; [done|]. csimpl. by rewrite IH.
Qed.

Lemma array_inv_ext n n' x : (∀ k, 0 ≤ k < total_cuts f → n k = n' k) → array_inv n x → array_inv n' x.
Proof.
  intros Hn [Hsize Hcuts Hoff Hcmds]. split; [done| |done|done]. intros k job Hk.
  destruct (Hcuts k job Hk) as (c & Hc & Hadv). exists c. split; [done|]. rewrite <- Hn; [done|].
  destruct Hjobs as [Hs _]. apply lookup_lt_Some in Hk. unfold vsize in Hs. lia.
Qed.

(** The rounds of a cycle, from the cuts [cs] on: a cut asks for what it wants
    at the start of the cycle. *)
Definition array_rounds (n d : Z) (cs : list Cut) (i : Z) (x : list Cut * bool * list (Z * Sent)) : Prop :=
  array_inv (λ k, n + (if k <? i then d else 0)) x ∧ ∀ k : nat, i ≤ Z.of_nat k → x.1.1 !! k = cs !! k.

Lemma array_rounds_step e n d cs i x :
  (env_in_ref e = false → lawful (env_ready e) (wanted_cmds config f cs)) →
  (d = 0 ∨ d = 1 ∧ ready_cycle config f e cs) → 0 ≤ i < total_cuts f → array_rounds n d cs i x →
  ∃ x', (let '(cs, off, log) := x in
         c ← vget cs i;
         if negb (in_pim c) || env_in_ref e then Ok (cs, off, log)
         else '(cs, off, b) ← schedule_cut config f (env_ready e) (env_wait e) i cs off;
              Ok (cs, off, log ++ [(i, mkSent (env_ready e) b)])) = Ok x' ∧ array_rounds n d cs (i + 1) x'.
Proof.
  intros Hl Hd Hi [Hinv Hsame]. destruct x as [[cs1 off] log]. cbn [fst] in Hsame.
  destruct (array_round e n d i cs1 off log) as (x' & Hx' & Hinv' & Hrest); [|done|done|].
  - intros c Hc Hp. rewrite Hsame in Hc by lia.
    assert (E : ∀ P, Forall P (wanted_cmds config f cs) → Forall P (wanted config f i c c)).
    { intros P HP. replace i with (Z.of_nat (Z.to_nat i)) by lia. by apply (wanted_lookup P config f cs). }
    split; [intros Href; by apply E, Hl|]. destruct Hd as [->|(-> & Href & Hw)]; [by left|right].
    split; [done|]. split; [done|]. by apply E.
  - exists x'. split; [done|]. split; [done|]. intros k Hk. rewrite Hrest by lia. apply Hsame. lia.
Qed.

Lemma array_cycle_inv e n d x :
  (env_in_ref e = false → lawful (env_ready e) (wanted_cmds config f x.1.1)) →
  (d = 0 ∨ d = 1 ∧ ready_cycle config f e x.1.1) → array_inv (λ _, n) x →
  ∃ x', array_cycle config f e x = Ok x' ∧ array_inv (λ _, n + d) x'.
Proof.
  intros Hl Hd Hx. destruct x as [[cs off] log]. unfold array_cycle. cbn [fst] in Hl, Hd.
  set (cs1 := if env_wait e then clear_placed <$> cs else cs).
  assert (Ew : wanted_cmds config f cs1 = wanted_cmds config f cs)
    by (unfold cs1; destruct (env_wait e); [apply wanted_clear|done]).
  assert (Hx1 : array_inv (λ _, n) (cs1, off, log)) by (unfold cs1; destruct (env_wait e); [by apply array_clear|done]).
  unfold ready_cycle in Hd. rewrite <- Ew in Hl, Hd.
  destruct (for_range_total (array_rounds n d cs1) (total_cuts f)
    (λ i '(cs, off, log), c ← vget cs i;
       if negb (in_pim c) || env_in_ref e then Ok (cs, off, log)
       else '(cs, off, b) ← schedule_cut config f (env_ready e) (env_wait e) i cs off;
            Ok (cs, off, log ++ [(i, mkSent (env_ready e) b)])) (cs1, off, log)) as (x' & Hx' & Hinv & _).
  - destruct Hflow. unfold total_cuts. nia.
  - split; [|done]. apply (array_inv_ext (λ _, n)); [|done]. intros k Hk. rewrite (proj2 (Z.ltb_ge _ _)); lia.
  - intros k x1 Hk Hk1. by apply array_rounds_step.
  - exists x'. split; [exact Hx'|]. eapply array_inv_ext; [|exact Hinv]. intros k Hk. cbn.
    by rewrite (proj2 (Z.ltb_lt _ _)) by lia.
Qed.

Lemma array_start : array_inv (λ _, 0) (cs0, false, []).
Proof.
  destruct Hjobs as [Hsize Hjob]. split; cbn [fst snd]; [done| | |done].
  - intros k job Hk. destruct (Hjob k job Hk) as [Hfr Hjb]. exists job. split; [done|].
    by apply fresh_advances.
  - destruct (lookup_lt_is_Some_2 cs0 0) as [job Hj].
    { destruct Hflow. unfold vsize, total_cuts in Hsize. nia. }
    destruct (Hjob _ _ Hj) as [Hfr _]. rewrite (existsb_insert_true cs0 0 job); [done|done|]. by rewrite Hfr.
Qed.

Lemma array_run_inv es : ∀ n x,
  lawful_run config f es x → array_inv (λ _, n) x →
  ∃ x', array_run config f es x = Ok x' ∧ array_inv (λ _, n + ready_cycles config f es x) x'.
Proof.
  unfold array_run. induction es as [|e es IH]; intros n x Hes Hx; cbn [for_each ready_cycles].
  { exists x. by rewrite Z.add_0_r. }
  destruct Hes as [He Hes]. set (d := if bool_decide _ then 1 else 0).
  destruct (array_cycle_inv e n d x He) as (x1 & E & H1); [|done|].
  { unfold d. case_bool_decide; [by right|by left]. }
  rewrite E in *. cbn [mbind outcome_bind]. rewrite Z.add_assoc. by apply IH.
Qed.

(** What is known of a cut at any time. *)
Lemma advances_facts k job c bs n :
  job_ok config f (Z.of_nat k) job → advances config f (Z.of_nat k) job c bs n →
  ∃ vs os, loads config f (Z.of_nat k) job vs bs ∧ vs `prefix_of` nest config f job ∧
    writes config f (Z.of_nat k) job os bs ∧ os `prefix_of` out_nest f job ∧
    (∀ o v, o ∈ os → v ∈ nest config f job → tile f job v ≤ out_index f job o → v ∈ vs) ∧
    (in_pim c = false → vs = nest config f job ∧ os = out_nest f job) ∧
    (in_pim c = true → n < span config f * vsize (nest config f job) + vsize (out_nest f job)).
Proof.
  intros Hjb (p & vs & os & [Hs Hn Ho Hl Hw Hord Hm]). exists vs, os.
  split; [done|]. split; [by exists (to_load config f job p)|]. split; [done|].
  split; [by exists (to_write f job p)|]. split; [|split].
  - intros o v Hov Hv Hle. rewrite Hn in Hv. apply elem_of_app in Hv as [Hv|Hv]; [done|].
    specialize (Hord o v Hov Hv). lia.
  - intros Hp. unfold simulates in Hs. rewrite Hp in Hs. destruct Hs as [E1 E2].
    rewrite E1, app_nil_r in Hn. rewrite E2, app_nil_r in Ho. done.
  - intros Hp. specialize (Hm Hp). unfold simulates in Hs. rewrite Hp in Hs. destruct Hs as (_ & Hpos & Hk).
    destruct (write_output config f (Z.of_nat k) job Hflow Hjb p Hpos) as [E _].
    unfold measure, energy in Hm. rewrite E in Hm. unfold vsize in Hm at 2. cbn [length] in Hm.
    pose proof (delays_pos config f). pose proof (ck_out _ _ _ _ _ _ Hk). pose proof (ck_in _ _ _ _ _ _ Hk).
    assert (0 ≤ span config f * vsize (to_load config f job p)) by (unfold span, vsize; nia).
    destruct (p_phase p =? 1), (p_phase p =? 3); lia.
Qed.
End Array.

(** ** The size of a nest *)

Section Size.
Context (config : Config) (f : Dataflow) (i : Z) (job : Cut).
Context (Hflow : flow_ok config f) (Hjob : job_ok config f i job).

Lemma bind_size {B} (g : Z → list B) a t s :
  a ≤ t → (∀ k, a ≤ k < t → vsize (g k) = s) → vsize (k ← seqZ a (t - a); g k) = (t - a) * s.
Proof.
  intros Ha Hg. remember (Z.to_nat (t - a)) as m eqn:Em. revert a Ha Hg Em.
  induction m as [|m IH]; intros a Ha Hg Em.
  - rewrite seqZ_nil by lia. replace (t - a) with 0 by lia. done.
  - rewrite seqZ_head by lia. unfold vsize in *. rewrite length_app, Nat2Z.inj_add, (Hg a), IH by (intros; apply Hg || idtac; lia).
    lia.
Qed.

Lemma slice_size m n k : m < tiles_m f job →
  vsize (slice config f job m n k) = per_bank config f job + stream f job m.
Proof.
  intros Hm. pose proof (stream_pos _ _ _ _ Hflow Hjob m Hm). pose proof (per_bank_bounds _ _ _ _ Hflow Hjob).
  unfold slice, vsize. rewrite length_app, !length_fmap, !length_seqZ. lia.
Qed.

Lemma from_n_size m : m < tiles_m f job →
  vsize (from_n config f job m 0)
  = tiles_n f job * (tiles_k config f job * (per_bank config f job + stream f job m)).
Proof.
  intros Hm. pose proof (tiles_n_pos _ _ _ _ Hflow Hjob). pose proof (tiles_k_pos _ _ _ _ Hflow Hjob).
  unfold from_n. rewrite (bind_size _ 0 (tiles_n f job) (tiles_k config f job * (per_bank config f job + stream f job m)));
    [lia|lia|]. intros n _. unfold from_k.
  rewrite (bind_size _ 0 _ (per_bank config f job + stream f job m)); [lia|lia|]. intros k _. by apply slice_size.
Qed.

(** The pieces of a tiling cover what is tiled. *)
Lemma tiles_size {B} (g : Z → list B) a b e s :
  0 < a → 0 < b →
  (∀ m, 0 ≤ m < pieces a b → vsize (g m) = s * (e + Z.min b (a - b * m))) →
  vsize (m ← seqZ 0 (pieces a b - 0); g m) = s * (pieces a b * e + a).
Proof.
  intros Ha Hb Hg. pose proof (pieces_pos a b Ha Hb) as Ht. set (t := pieces a b) in *.
  assert (H : ∀ d : nat, Z.of_nat d < t → let m := t - 1 - Z.of_nat d in
    vsize (m' ← seqZ m (t - m); g m') = s * ((Z.of_nat d + 1) * e + (a - b * m))).
  { induction d as [|d IH]; intros Hd m.
    - pose proof (proj1 (pieces_last a b m Ha Hb) ltac:(unfold m; fold t; lia)).
      rewrite seqZ_head, seqZ_done, app_nil_r, Hg by lia. rewrite Z.min_r by lia. lia.
    - pose proof (proj1 (pieces_spec a b (m + 1) Ha Hb) ltac:(unfold m; fold t; lia)).
      rewrite seqZ_head by lia. unfold vsize. rewrite length_app, Nat2Z.inj_add.
      fold (vsize (g m)) (vsize (m' ← seqZ (m + 1) (t - (m + 1)); g m')). rewrite Hg by lia.
      replace (m + 1) with (t - 1 - Z.of_nat d) by lia. rewrite IH by lia. rewrite Z.min_l by lia. lia. }
  specialize (H (Z.to_nat (t - 1)) ltac:(lia)). cbv zeta in H. rewrite Z2Nat.id in H by lia.
  replace (t - 1 - (t - 1)) with 0 in H by lia. rewrite H. lia.
Qed.

Lemma nest_size :
  vsize (nest config f job)
  = tiles_n f job * tiles_k config f job * (tiles_m f job * per_bank config f job + M job).
Proof.
  destruct Hjob. apply tiles_size; [done|apply (m_tile_pos _ _ Hflow)|]. intros m Hm.
  rewrite from_n_size by apply Hm. unfold stream. lia.
Qed.

Lemma out_nest_size : vsize (out_nest f job) = tiles_n f job * out_rows f job.
Proof.
  pose proof (tiles_n_pos _ _ _ _ Hflow Hjob).
  pose proof (tiles_size (λ m, out_from_n f job m 0) (out_rows f job) (out_tile f) 0 (tiles_n f job)) as H1.
  unfold out_nest, out_from_m. fold (tiles_out f job) in H1. rewrite H1; [lia|apply (out_rows_pos _ _ _ _ Hjob)|apply (out_tile_pos _ _ Hflow)|].
  intros m Hm. unfold out_from_n. rewrite (bind_size _ 0 _ (out_stream f job m)); [unfold out_stream; lia|lia|].
  intros n _. pose proof (out_stream_pos _ _ _ _ Hflow Hjob m (proj2 Hm)).
  unfold vsize. rewrite length_fmap, length_seqZ. lia.
Qed.
End Size.

(** A bound on the ready cycles a cut needs: every vector of the nest and the
    delays it may start, and every output vector. *)
Definition cycles_needed (config : Config) (f : Dataflow) (job : Cut) : Z :=
  (in_delay config f + out_delay config + 3)
    * (tiles_n f job * tiles_k config f job * (tiles_m f job * per_bank config f job + M job))
  + tiles_n f job * out_rows f job.

(** After enough ready cycles every cut has finished. *)
Lemma array_done (config : Config) f cs0 n cs off log :
  flow_ok config f → jobs_ok config f cs0 → array_inv config f cs0 (λ _, n) (cs, off, log) →
  Forall (λ job, cycles_needed config f job ≤ n) cs0 →
  off = true ∧ Forall (λ c, in_pim c = false) cs ∧
  ∀ k job, cs0 !! k = Some job → let i := Z.of_nat k in
    loads config f i job (nest config f job) (batches i log) ∧
    writes config f i job (out_nest f job) (batches i log).
Proof.
  intros Hf Hj [Hsize Hcuts Hoff _] Hb. cbn [fst snd] in *. destruct Hj as [Hsize0 Hj].
  assert (Hdone : ∀ k job, cs0 !! k = Some job → ∃ c, cs !! k = Some c ∧ in_pim c = false ∧
    loads config f (Z.of_nat k) job (nest config f job) (batches (Z.of_nat k) log) ∧
    writes config f (Z.of_nat k) job (out_nest f job) (batches (Z.of_nat k) log)).
  { intros k job Hk. destruct (Hcuts k job Hk) as (c & Hc & Hadv). destruct (Hj k job Hk) as [_ Hjb].
    destruct (advances_facts config f Hf k job c _ _ Hjb Hadv) as (vs & os & H1 & _ & H3 & _ & _ & H6 & H7).
    pose proof (Forall_lookup_1 _ _ _ _ Hb Hk) as Hbk. cbn beta in Hbk. unfold cycles_needed in Hbk.
    rewrite <- (nest_size _ _ _ _ Hf Hjb), <- (out_nest_size _ _ _ _ Hf Hjb) in Hbk.
    exists c. split; [done|]. destruct (in_pim c) eqn:Ep; [specialize (H7 eq_refl); unfold span in H7; lia|].
    destruct (H6 eq_refl) as [-> ->]. done. }
  assert (Hall : Forall (λ c, in_pim c = false) cs).
  { apply Forall_lookup_2. intros k c Hc. destruct (lookup_lt_is_Some_2 cs0 k) as [job Hk].
    { apply lookup_lt_Some in Hc. unfold vsize in *. lia. }
    destruct (Hdone k job Hk) as (c' & Hc' & Hp & _). congruence. }
  split; [|split; [done|]].
  - rewrite Hoff. f_equal. clear -Hall. induction Hall as [|c cs Hc _ IH]; [done|]. cbn. by rewrite Hc.
  - intros k job Hk. destruct (Hdone k job Hk) as (_ & _ & _ & H). exact H.
Qed.

(** ** Examples *)

Definition always_ready : Env := mkEnv Ok false false.

Lemma always_ready_cycle config f cs : ready_cycle config f always_ready cs.
Proof. split; [done|]. by apply Forall_forall. Qed.

(** A memory that is always ready. *)
Lemma always_ready_run (config : Config) f cs0 n : ∀ m x,
  dims_ok config → flow_ok config f → jobs_ok config f cs0 → array_inv config f cs0 (λ _, m) x →
  lawful_run config f (replicate n always_ready) x ∧
  ready_cycles config f (replicate n always_ready) x = Z.of_nat n.
Proof.
  induction n as [|n IH]; intros m x Hd Hf Hj Hx; [done|]. cbn [replicate lawful_run ready_cycles].
  pose proof (always_ready_cycle config f x.1.1) as Hr.
  assert (Hl : lawful (env_ready always_ready) (wanted_cmds config f x.1.1)) by (by apply welcoming_lawful, Hr).
  destruct (array_cycle_inv config f cs0 Hd Hf Hj always_ready m 0 x (λ _, Hl) ltac:(by left) Hx) as (x' & -> & Hx').
  destruct (IH _ x' Hd Hf Hj Hx') as [H1 H2]. rewrite H2, bool_decide_eq_true_2 by done. split; [done|lia].
Qed.

(** A product of 300 x 100 by 100 x 200 on one array of HBM2. *)
Definition sample_job : Cut := (cut_of 300 200 100) <| in_pim := true |>.

Lemma one_cut_fits : flow_ok hbm2_config one_cut.
Proof.
  split; try (vm_compute; (congruence || tauto || (split; congruence))).
  - intros v b _ Hv Hb. change (vcuts one_cut) with 1 in Hv. change (mc one_cut) with 1 in Hb.
    assert (v = 0) as -> by lia. assert (b = 0) as -> by lia. by vm_compute.
Qed.

Lemma sample_jobs : jobs_ok hbm2_config one_cut [sample_job].
Proof.
  split; [done|]. intros [|k] job Hk; [|by destruct k]. injection Hk as <-. split; [by vm_compute|].
  split; by vm_compute.
Qed.

(** ** Properties *)

(** [C5] The accelerator's scheduler implements the loop nest of a tiled matrix
    product.  The dataflow has to fit the array ([flow_ok]: dataflow 0 or 1; no
    cut has fewer channels than there are vertical cuts; one input bank per
    channel if there are several cuts; the weights divide evenly over the
    banks; tiles of rows longer than tiles of columns; in dataflow 0 the banks
    of inputs and outputs exist and stay in their bank group, in dataflow 1 a
    tile has at least 128 rows) and the jobs the dataflow ([jobs_ok]: every cut
    launched, with non-zero dimensions, as many tiles of outputs as of inputs,
    one tile of columns in dataflow 1, and outputs announced before the next
    tile is loaded); outside this the code asserts or sends nothing.  Then for
    every memory that answers an access that a cut asks for with itself, its
    activation or nothing ([lawful_run]: no bank is open on another row), in any
    cycles and under any refresh, the scheduler does not fail; every cut loads
    weights and inputs vector by vector in the order of its nest, at the
    addresses of the nest, each weight vector whole, each input vector whole if
    there are several cuts and otherwise to all channels behind the last one
    whose access the memory could not serve in that cycle (all channels, if it
    could serve all: [inputs_sent]); it writes outputs, each vector whole, in
    the order of its tiles, writes an output only when all vectors of its tile
    have been sent, and stops only after the whole nest. *)
Theorem array_follows_nests (config : Config) f cs0 es :
  dims_ok config → flow_ok config f → jobs_ok config f cs0 →
  lawful_run config f es (cs0, false, []) →
  ∃ cs off log, array_run config f es (cs0, false, []) = Ok (cs, off, log) ∧
    ∀ k job, cs0 !! k = Some job → ∃ c vs os, cs !! k = Some c ∧
      let i := Z.of_nat k in let bs := batches i log in
      loads config f i job vs bs ∧ vs `prefix_of` nest config f job ∧
      writes config f i job os bs ∧ os `prefix_of` out_nest f job ∧
      (∀ o v, o ∈ os → v ∈ nest config f job → tile f job v ≤ out_index f job o → v ∈ vs) ∧
      (in_pim c = false → vs = nest config f job ∧ os = out_nest f job).
Proof.
  intros Hd Hf Hj Hes.
  destruct (array_run_inv config f cs0 Hd Hf Hj es 0 _ Hes (array_start _ _ _ Hf Hj))
    as ([[cs off] log] & Hrun & [_ Hcuts _ _]).
  exists cs, off, log. split; [done|]. intros k job Hk. destruct (Hcuts k job Hk) as (c & Hc & Hadv).
  destruct Hj as [_ Hj]. destruct (Hj k job Hk) as [_ Hjb].
  destruct (advances_facts config f Hf k job c _ _ Hjb Hadv) as (vs & os & H1 & H2 & H3 & H4 & H5 & H6 & _).
  exists c, vs, os. by split_and!.
Qed.

Lemma array_follows_nests_witness :
  ∃ cs off log vs os, array_run hbm2_config one_cut [always_ready; always_ready] ([sample_job], false, []) = Ok (cs, off, log) ∧
    loads hbm2_config one_cut 0 sample_job vs (batches 0 log) ∧ vs `prefix_of` nest hbm2_config one_cut sample_job ∧
    writes hbm2_config one_cut 0 sample_job os (batches 0 log) ∧ os `prefix_of` out_nest one_cut sample_job.
Proof.
  destruct (array_follows_nests hbm2_config one_cut [sample_job] [always_ready; always_ready])
    as (cs & off & log & H & Hcuts).
  - split; by vm_compute.
  - exact one_cut_fits.
  - exact sample_jobs.
  - apply (always_ready_run hbm2_config one_cut [sample_job] 2 0);
      [split; by vm_compute|exact one_cut_fits|exact sample_jobs|].
    apply (array_start _ _ _ one_cut_fits sample_jobs).
  - destruct (Hcuts 0%nat sample_job eq_refl) as (c & vs & os & _ & H1 & H2 & H3 & H4 & _).
    exists cs, off, log, vs, os. split; [exact H|]. split; [exact H1|]. split; [exact H2|]. split; [exact H3|exact H4].
Defined.

(** [C6] The accelerator finishes: for a dataflow that fits the array ([flow_ok])
    and jobs that fit the dataflow ([jobs_ok]), and a memory that answers an
    access with itself, its activation or nothing, if among the cycles there
    are enough in which the memory executes every access the cuts ask for (the
    bound is explicit: the vectors of the nest, each with the delays it may
    start, and the output vectors), then every cut has gone through all of its
    nest and the system is turned off, whatever the memory does in the other
    cycles.  Going through the nest means [loads] and [writes] as in the
    previous property: weight and output vectors are sent whole, and so are
    input vectors if there are several cuts or the memory can serve all their
    channels; in an array that is not cut, an input vector that meets a
    channel that is not ready counts as loaded although only the channels
    behind the last such one receive it. *)
Theorem array_finishes (config : Config) f cs0 es :
  dims_ok config → flow_ok config f → jobs_ok config f cs0 →
  lawful_run config f es (cs0, false, []) →
  Forall (λ job, cycles_needed config f job ≤ ready_cycles config f es (cs0, false, [])) cs0 →
  ∃ cs log, array_run config f es (cs0, false, []) = Ok (cs, true, log) ∧
    Forall (λ c, in_pim c = false) cs ∧
    ∀ k job, cs0 !! k = Some job → let i := Z.of_nat k in
      loads config f i job (nest config f job) (batches i log) ∧
      writes config f i job (out_nest f job) (batches i log).
Proof.
  intros Hd Hf Hj Hes Hb.
  destruct (array_run_inv config f cs0 Hd Hf Hj es 0 _ Hes (array_start _ _ _ Hf Hj))
    as ([[cs off] log] & Hrun & Hinv).
  destruct (array_done config f cs0 _ cs off log Hf Hj Hinv) as (-> & Hall & Hnest); [by rewrite Z.add_0_l|].
  by exists cs, log.
Qed.

Lemma array_finishes_witness :
  let es := replicate 240000 always_ready in
  ∃ cs log, array_run hbm2_config one_cut es ([sample_job], false, []) = Ok (cs, true, log) ∧
    loads hbm2_config one_cut 0 sample_job (nest hbm2_config one_cut sample_job) (batches 0 log).
Proof.
  intros es. assert (Hd : dims_ok hbm2_config) by (split; by vm_compute).
  destruct (always_ready_run hbm2_config one_cut [sample_job] 240000 0 ([sample_job], false, []) Hd
    one_cut_fits sample_jobs (array_start _ _ _ one_cut_fits sample_jobs)) as [Hl Hr].
  destruct (array_finishes hbm2_config one_cut [sample_job] es) as (cs & log & H & _ & Hcuts).
  - exact Hd.
  - exact one_cut_fits.
  - exact sample_jobs.
  - exact Hl.
  - unfold es. rewrite Hr. apply Forall_singleton. by vm_compute.
  - exists cs, log. split; [exact H|exact (proj1 (Hcuts 0%nat sample_job eq_refl))].
Defined.
