(* ===== verification/PimSystem.v ===== *)
(** * A JEDEC memory system whose accelerator runs

    The composition of the accelerator's scheduler ([PimProgress]), the
    controllers with its commands ([ControllerSafety]) and the cycle of the
    memory system: as long as no bank that the accelerator uses is open on a
    row it does not want, every cycle returns, the array goes on with its loop
    nests, and the transactions of the processor are neither lost nor
    invented. *)
From stdpp Require Import base tactics numbers list list_numbers gmap strings sets.
From coqutil Require Import Datatypes.RecordSetters.
From S2P Require Import Prelude Common Double Configuration Timing BankState ChannelState Refresh SimpleStats.
From S2P Require Import CommandQueue Controller ControllerSafety DramSystem PimScheduler JedecSystem.
From S2P Require Import JedecSafety PimSafety PimNest PimRefinement PimProgress.

Import TriangleBracketNotations.
Local Open Scope Z_scope.

(** ** What the scheduler sees of the controllers *)

Definition channel_states (cs : list Controller) : list ChannelState := channel_state_ <$> cs.

Lemma ready_by_states s cmd :
  ready_command s cmd =
    (cs ← vget (channel_states (ctrls_ s)) (Channel cmd);
     ChannelState.GetReadyCommand (js_config s) cs cmd (js_clk_ s)).
Proof.
  unfold ready_command, vget, channel_states. rewrite list_lookup_fmap.
  destruct (bool_decide _); [|done]. by destruct (ctrls_ s !! Z.to_nat (Channel cmd)).
Qed.

Lemma ready_same s s' cmd :
  js_config s' = js_config s → js_clk_ s' = js_clk_ s →
  channel_states (ctrls_ s') = channel_states (ctrls_ s) → ready_command s' cmd = ready_command s cmd.
Proof. intros E1 E2 E3. by rewrite !ready_by_states, E1, E2, E3. Qed.

(** ** Giving commands to the controllers *)

(** What giving commands to the controllers leaves alone. *)
Definition same_ctrls (config : Config) (clk : Z) (cs cs' : list Controller) : Prop :=
  Forall (ctrl_ok config clk) cs' ∧ vsize cs' = vsize cs ∧
  channel_states cs' = channel_states cs ∧ owed cs' = owed cs.

Lemma same_ctrls_trans config clk cs1 cs2 cs3 :
  same_ctrls config clk cs1 cs2 → same_ctrls config clk cs2 cs3 → same_ctrls config clk cs1 cs3.
Proof. intros (_ & ? & ? & ?) (? & ? & ? & ?). split; [done|]. split_and!; congruence. Qed.

Lemma placeable_cmd config x : placeable config x → pim_cmd_ok config x ∧ 0 ≤ Channel x < channels config.
Proof.
  assert (H : ∀ r, request_ok config r → pim_cmd_ok config r ∧ 0 ≤ Channel r < channels config).
  { intros [t a h] [Ht Hc Hv]. split; [|done]. split; [|done]. cbn in *. destruct t; try discriminate Ht; set_solver. }
  intros [Hx|(r & Hr & ->)]; [by apply H|]. destruct (H r Hr) as [[_ Hv] Hc].
  split; [|exact Hc]. split; [cbn; set_solver|exact Hv].
Qed.

Lemma owed_insert cs i c c' : cs !! i = Some c → outstanding c' = outstanding c → owed (<[i := c']> cs) = owed cs.
Proof.
  intros Hi Ho. unfold owed. revert i Hi. induction cs as [|x cs IH]; intros [|i] Hi; try done; csimpl.
  - injection Hi as ->. by rewrite Ho.
  - by rewrite (IH i Hi).
Qed.

(** The commands for the controller of channel [k]. *)
Definition on_channel (k : nat) (cmds : list Command) : list Command :=
  filter (λ cmd, Channel cmd = Z.of_nat k) cmds.

(** The commands of a list of batches that go to one of the three lists. *)
Definition all_of (sel : Batch → list Command) (log : list (Z * Sent)) : list Command :=
  log ≫= λ y, sel (st_batch y.2).

(** The lists of commands of every controller have grown by the commands of
    the log for its channel, in their order. *)
Definition placed (log : list (Z * Sent)) (cs cs' : list Controller) : Prop :=
  ∀ k c, cs !! k = Some c → ∃ c', cs' !! k = Some c' ∧
    rd_w_cmds_ c' = rd_w_cmds_ c ++ on_channel k (all_of w_cmds log) ∧
    rd_in_cmds_ c' = rd_in_cmds_ c ++ on_channel k (all_of in_cmds log) ∧
    wr_cmds_ c' = wr_cmds_ c ++ on_channel k (all_of out_cmds log).

Lemma placed_nil cs : placed [] cs cs.
Proof. intros k c Hk. exists c. cbn. by rewrite !app_nil_r. Qed.

Lemma placed_app log1 log2 cs1 cs2 cs3 :
  placed log1 cs1 cs2 → placed log2 cs2 cs3 → placed (log1 ++ log2) cs1 cs3.
Proof.
  intros H1 H2 k c Hk. destruct (H1 k c Hk) as (c2 & Hk2 & E1 & E2 & E3).
  destruct (H2 k c2 Hk2) as (c3 & Hk3 & F1 & F2 & F3). exists c3. split; [done|].
  unfold all_of, on_channel in *. rewrite !bind_app, !filter_app, !(assoc (++)), <- E1, <- E2, <- E3. done.
Qed.

(** Appending to one of the lists. *)
Lemma push_grows (sel : Controller → list Command) (add : Command → Controller → Controller) cmds :
  (∀ cmd c, sel (add cmd c) = sel c ++ [cmd]) → ∀ cs cs' k c,
  for_each (push_command add) cmds cs = Ok cs' → cs !! k = Some c →
  ∃ c', cs' !! k = Some c' ∧ sel c' = sel c ++ on_channel k cmds ∧
    ∀ g : Controller → list Command, (∀ cmd c, g (add cmd c) = g c) → g c' = g c.
Proof.
  intros Hsel. induction cmds as [|cmd cmds IH]; intros cs cs' k c; cbn [for_each].
  { intros [= <-] Hk. exists c. by rewrite app_nil_r. }
  intros H Hk. apply bind_Ok in H as (cs1 & H1 & H). unfold push_command in H1.
  apply bind_Ok in H1 as (c0 & [Hch Hc0]%vget_Ok & [Hin ->]%vset_Ok).
  unfold on_channel. rewrite filter_cons. destruct (decide (Z.to_nat (Channel cmd) = k)) as [<-|Hne].
  - assert (c0 = c) as -> by congruence. rewrite decide_True by lia.
    destruct (IH _ _ (Z.to_nat (Channel cmd)) (add cmd c) H) as (c' & Hk' & E & Hg); [apply list_lookup_insert_eq; lia|].
    exists c'. split; [done|]. rewrite E, Hsel, <- (assoc (++)). split; [done|].
    intros g Hadd. by rewrite (Hg g Hadd), Hadd.
  - rewrite decide_False by lia. apply (IH _ _ _ c H). by rewrite list_lookup_insert_ne.
Qed.

Lemma push_batch_placed clk b cs cs' i ready :
  push_batch clk b cs = Ok cs' → placed [(i, mkSent ready b)] cs cs'.
Proof.
  intros H k c Hk. unfold push_batch in H. apply bind_Ok in H as (cs1 & H1 & H). apply bind_Ok in H as (cs2 & H2 & H3).
  eapply (push_grows rd_w_cmds_) in H1 as (c1 & Hk1 & E1 & G1); [|done|exact Hk].
  eapply (push_grows rd_in_cmds_) in H2 as (c2 & Hk2 & E2 & G2); [|done|exact Hk1].
  eapply (push_grows wr_cmds_) in H3 as (c3 & Hk3 & E3 & G3); [|done|exact Hk2].
  exists c3. split; [done|]. unfold all_of. cbn [mbind list_bind snd st_batch]. rewrite !app_nil_r.
  rewrite E3, (G2 wr_cmds_), (G1 wr_cmds_), (G3 rd_in_cmds_), E2, (G1 rd_in_cmds_),
    (G3 rd_w_cmds_), (G2 rd_w_cmds_), E1 by done. done.
Qed.

Section Push.
Context (config : Config) (clk : Z) (add : Command → Controller → Controller).
Hypothesis add_ok : ∀ cmd c, pim_cmd_ok config cmd → ctrl_ok config clk c → ctrl_ok config clk (add cmd c).
Hypothesis add_same : ∀ cmd c,
  channel_state_ (add cmd c) = channel_state_ c ∧ outstanding (add cmd c) = outstanding c.

Lemma push_list_spec cmds cs :
  Forall (placeable config) cmds → Forall (ctrl_ok config clk) cs → vsize cs = channels config →
  ∃ cs', for_each (push_command add) cmds cs = Ok cs' ∧ same_ctrls config clk cs cs'.
Proof.
  intros Hp Hcs Hn.
  destruct (for_each_total (same_ctrls config clk cs) (push_command add) cmds cs) as (cs' & H & Hs); [|done|by exists cs'].
  intros cmd cs1 Hin (H1 & H2 & H3 & H4). destruct (placeable_cmd config cmd) as [Hcmd Hch];
    [by apply (proj1 (Forall_forall _ _) Hp)|].
  unfold push_command. destruct (vget_in_range cs1 (Channel cmd)) as [c Hc]; [lia|].
  rewrite Hc. cbn [mbind outcome_bind]. rewrite vset_in_range by lia. eexists. split; [reflexivity|].
  apply vget_Ok in Hc as [_ Hc]. destruct (add_same cmd c) as [E1 E2]. split; [|split; [|split]].
  - apply Forall_insert; [done|]. apply add_ok; [done|]. exact (Forall_lookup_1 _ _ _ _ H1 Hc).
  - unfold vsize in *. by rewrite length_insert.
  - rewrite <- H3. unfold channel_states. rewrite list_fmap_insert, E1. apply list_insert_id.
    by rewrite list_lookup_fmap, Hc.
  - by rewrite (owed_insert _ _ c).
Qed.
End Push.

Lemma push_batch_spec config clk b cs :
  Forall (placeable config) (batch_cmds b) → Forall (ctrl_ok config clk) cs → vsize cs = channels config →
  ∃ cs', push_batch clk b cs = Ok cs' ∧ same_ctrls config clk cs cs'.
Proof.
  intros Hb Hcs Hn. unfold batch_cmds in Hb. rewrite !Forall_app in Hb. destruct Hb as (Hw & Hi & Ho). unfold push_batch.
  assert (Hsingle : ∀ l cmd, Forall (pim_cmd_ok config) l → pim_cmd_ok config cmd → Forall (pim_cmd_ok config) (l ++ [cmd])).
  { intros l cmd Hl Hc. by apply Forall_app; split; [|apply Forall_singleton]. }
  destruct (push_list_spec config clk (λ cmd c, set_rd_w_cmds_ (rd_w_cmds_ c ++ [cmd]) c)) with (cmds := w_cmds b) (cs := cs)
    as (cs1 & -> & H1); [|done|done|done|done|].
  { intros cmd c Hc [[[lost Hl] [? ? ? ?]] Hk]. split; [split; [exists lost; by destruct Hl; split|]|done].
    split; try done. by apply Hsingle. }
  cbn [mbind outcome_bind]. pose proof H1 as (Hcs1 & Hn1 & _).
  destruct (push_list_spec config clk (λ cmd c, set_release_time (release_time c ++ [s32 clk])
      (set_rd_in_cmds_ (rd_in_cmds_ c ++ [cmd]) c))) with (cmds := in_cmds b) (cs := cs1)
    as (cs2 & -> & H2); [|done|done|done|congruence|].
  { intros cmd c Hc [[[lost Hl] [? ? ? ?]] Hk]. split; [split; [exists lost; by destruct Hl; split|]|done].
    split; try done; [by apply Hsingle|]. cbn. rewrite !length_app. cbn. lia. }
  cbn [mbind outcome_bind]. pose proof H2 as (Hcs2 & Hn2 & _).
  destruct (push_list_spec config clk (λ cmd c, set_wr_cmds_ (wr_cmds_ c ++ [cmd]) c)) with (cmds := out_cmds b) (cs := cs2)
    as (cs3 & -> & H3); [|done|done|done|congruence|].
  { intros cmd c Hc [[[lost Hl] [? ? ? ?]] Hk]. split; [split; [exists lost; by destruct Hl; split|]|done].
    split; try done. by apply Hsingle. }
  exists cs3. split; [done|]. by do 2 (eapply same_ctrls_trans; [done|]).
Qed.

(** ** The system *)

(** The first half of a cycle: completed transactions return, refreshes are
    looked ahead for and the packet at the head of the queue is taken. *)
Definition front (s : JedecDRAMSystem) : outcome (bool * JedecDRAMSystem * list callback) :=
  let '(cs, cbs) := return_all (js_clk_ s) (ctrls_ s) in
  let s := s <| ctrls_ := cs |> in
  '(wait_refresh, cuts) ← look_ahead s;
  s ← take_packet (s <| cuts_ := cuts |>);
  Ok (wait_refresh, s, cbs).

(** The accelerator and the memory as the scheduler finds them. *)
Definition wants (s : JedecDRAMSystem) : list Command := wanted_cmds (js_config s) (flow s) (cuts_ s).

(** No bank is open on another row than the one a cut asks for. *)
Definition lawful_clock (s : JedecDRAMSystem) : bool :=
  match front s with
  | Ok (_, s, _) => bool_decide (in_refresh s = Ok true) || bool_decide (lawful (ready_command s) (wants s))
  | Fail _ => true
  end.

(** Every access that a cut asks for can be executed. *)
Definition ready_clock (s : JedecDRAMSystem) : bool :=
  match front s with
  | Ok (_, s, _) => bool_decide (in_refresh s = Ok false) && bool_decide (welcoming (ready_command s) (wants s))
  | Fail _ => false
  end.

(** *** What the accelerator gives to the controllers *)

(** The commands of one round of the loop over cuts. *)
Definition round_sent (wait_refresh is_in_ref : bool) (i : Z) (s : JedecDRAMSystem) : list (Z * Sent) :=
  match vget (cuts_ s) i with
  | Ok c =>
      if negb (PimScheduler.in_pim c) || is_in_ref then []
      else match schedule_cut (js_config s) (flow s) (ready_command s) wait_refresh i (cuts_ s) (js_turn_off s) with
           | Ok (_, _, b) => [(i, mkSent (ready_command s) b)]
           | Fail _ => []
           end
  | Fail _ => []
  end.

(** The loop, with a record of them. *)
Definition logged_round (wait_refresh is_in_ref : bool) (i : Z) (x : JedecDRAMSystem * list (Z * Sent))
    : outcome (JedecDRAMSystem * list (Z * Sent)) :=
  s ← schedule_round wait_refresh is_in_ref i x.1;
  Ok (s, x.2 ++ round_sent wait_refresh is_in_ref i x.1).

(** Those of a clock. *)
Definition clock_sent (s : JedecDRAMSystem) : list (Z * Sent) :=
  match '(wait_refresh, s, _) ← front s;
        is_in_ref ← in_refresh s;
        for_range (total_cuts (flow s)) (logged_round wait_refresh is_in_ref) (s, []) with
  | Ok (_, log) => log
  | Fail _ => []
  end.

(** The clock puts exactly these commands into the lists of the controllers. *)
Definition clock_places (s : JedecDRAMSystem) : Prop :=
  match '(wait_refresh, s1, _) ← front s; s2 ← schedule wait_refresh s1; Ok (s1, s2) with
  | Ok (s1, s2) => placed (clock_sent s) (ctrls_ s1) (ctrls_ s2)
  | Fail _ => True
  end.

Lemma logged_loop w r l : ∀ s log s' log',
  for_each (logged_round w r) l (s, log) = Ok (s', log') → for_each (schedule_round w r) l s = Ok s'.
Proof.
  induction l as [|i l IH]; intros s log s' log'; cbn [for_each]; [by intros [= -> _]|].
  intros H. apply bind_Ok in H as ([s1 log1] & H1 & H). unfold logged_round in H1.
  apply bind_Ok in H1 as (s2 & H2 & [= <- <-]). cbn [fst] in H2. rewrite H2. by eapply IH.
Qed.

(** Along a session: the clocks are lawful; how many of them are ready; what
    the accelerator sends; that it reaches the controllers. *)
Section Session.
Context (fd : double → string) (st : string → string → string → string).
Local Notation serve := (@serve _ (jedec_system fd st)).

Fixpoint undisturbed (rs : list request) (x : JedecDRAMSystem * list callback * list callback) : bool :=
  match rs with
  | [] => true
  | r :: rs =>
      match r with Clock => lawful_clock x.1.1 | Submit _ _ => true end &&
      match serve r x with Ok x => undisturbed rs x | Fail _ => true end
  end.

Fixpoint ready_clocks (rs : list request) (x : JedecDRAMSystem * list callback * list callback) : Z :=
  match rs with
  | [] => 0
  | r :: rs =>
      match r with Clock => if ready_clock x.1.1 then 1 else 0 | Submit _ _ => 0 end +
      match serve r x with Ok x => ready_clocks rs x | Fail _ => 0 end
  end.

Fixpoint session_sent (rs : list request) (x : JedecDRAMSystem * list callback * list callback)
    : list (Z * Sent) :=
  match rs with
  | [] => []
  | r :: rs =>
      match r with Clock => clock_sent x.1.1 | Submit _ _ => [] end ++
      match serve r x with Ok x => session_sent rs x | Fail _ => [] end
  end.

Fixpoint session_places (rs : list request) (x : JedecDRAMSystem * list callback * list callback) : Prop :=
  match rs with
  | [] => True
  | r :: rs =>
      match r with Clock => clock_places x.1.1 | Submit _ _ => True end ∧
      match serve r x with Ok x => session_places rs x | Fail _ => True end
  end.

Lemma tick_front s :
  Jedec_ClockTick fd st s =
    ('(wait_refresh, s, cbs) ← front s;
     s ← schedule wait_refresh s;
     cs ← tick_controllers (js_config s) (js_timing s) (ctrls_ s);
     let s := s <| ctrls_ := cs |> <| js_clk_ := u64 (js_clk_ s + 1) |> in
     if u64 (epoch_period (js_config s)) =? 0 then Fail DivisionByZero
     else if js_clk_ s mod u64 (epoch_period (js_config s)) =? 0 then
       '(s, ops) ← PrintEpochStats fd st s; Ok (s, cbs, ops)
     else Ok (s, cbs, [])).
Proof.
  unfold Jedec_ClockTick, front. destruct (return_all _ _) as [cs cbs]. destruct (look_ahead _) as [[w cuts]|]; [|done].
  cbn [mbind outcome_bind]. by destruct (take_packet _).
Qed.
End Session.

(** ** The accelerator in the system *)

Lemma clear_loop (cs : list Cut) n :
  vsize cs = n → for_range n (λ j cs, c ← vget cs j; vset cs j (clear_placed c)) cs = Ok (clear_placed <$> cs).
Proof.
  intros Hn. unfold vsize in Hn.
  destruct (for_range_total (λ k x, length x = length cs ∧
      ∀ j : nat, x !! j = (if Z.of_nat j <? k then clear_placed else id) <$> cs !! j) n
    (λ j cs, c ← vget cs j; vset cs j (clear_placed c)) cs) as (x & -> & Hl & Hx).
  - lia.
  - split; [done|]. intros j. rewrite (proj2 (Z.ltb_ge _ _)) by lia. by rewrite option_fmap_id.
  - intros k x Hk [Hl Hx]. destruct (lookup_lt_is_Some_2 cs (Z.to_nat k)) as [c Hc]; [lia|].
    assert (Hk' : x !! Z.to_nat k = Some c) by (rewrite Hx, Hc, (proj2 (Z.ltb_ge _ _)) by lia; done).
    rewrite (proj2 (vget_Ok x k c)) by (split; [lia|done]). cbn [mbind outcome_bind].
    rewrite vset_in_range by (unfold vsize; lia). eexists. split; [reflexivity|]. rewrite length_insert. split; [done|].
    intros j. destruct (decide (j = Z.to_nat k)) as [->|Hj].
    + rewrite list_lookup_insert_eq, Hc, (proj2 (Z.ltb_lt _ _)) by lia. done.
    + rewrite list_lookup_insert_ne, Hx by done.
      by destruct (Z.ltb_spec (Z.of_nat j) k), (Z.ltb_spec (Z.of_nat j) (k + 1)); try lia.
  - f_equal. apply list_eq. intros j. rewrite list_lookup_fmap, Hx. destruct (Z.ltb_spec (Z.of_nat j) n); [done|].
    by rewrite (lookup_ge_None_2 cs) by lia.
Qed.

Lemma clear_twice (cs : list Cut) : clear_placed <$> (clear_placed <$> cs) = clear_placed <$> cs.
Proof. rewrite <- list_fmap_compose. by apply list_fmap_ext. Qed.

(** What the look-ahead does to the cuts. *)
Lemma look_ahead_cuts s clk :
  Forall (ctrl_ok (js_config s) clk) (ctrls_ s) → total_cuts (flow s) = vsize (cuts_ s) →
  ∃ w, look_ahead s = Ok (w, if (w : bool) then clear_placed <$> cuts_ s else cuts_ s).
Proof.
  intros Hcs Hn. unfold look_ahead.
  destruct (for_each_total (λ x : bool * list Cut, x.2 = if x.1 then clear_placed <$> cuts_ s else cuts_ s)
    (λ c '(wait_refresh, cs),
      coming ← pim_refresh_coming (js_config s) c;
      if (coming : bool) && negb (vcuts (flow s) =? -1) && negb (hcuts (flow s) =? -1) then
        cs ← for_range (total_cuts (flow s))
               (λ j cs, c ← vget cs j; vset cs j (clear_placed c)) cs;
        Ok (true, cs)
      else Ok (wait_refresh, cs)) (ctrls_ s) (false, cuts_ s)) as ([w cuts] & H & Hc); [|done|].
  - intros c [w cs] Hin Hw. cbn [fst snd] in Hw. unfold pim_refresh_coming, Refresh.pim_refresh_coming.
    destruct (refresh_coming_total _ _ _ (tRAS (js_config s) + 3) (proj1 (Forall_forall _ _) Hcs c Hin)) as [b ->].
    cbn [mbind outcome_bind]. destruct (b && _ && _); [|by eexists].
    rewrite clear_loop; [|rewrite Hw; unfold vsize in *; destruct w; by rewrite ?length_fmap].
    eexists. split; [reflexivity|]. cbn. rewrite Hw. destruct w; [apply clear_twice|done].
  - exists w. cbn [fst snd] in Hc. by rewrite H, Hc.
Qed.

Section Running.
Context (config : Config) (f : Dataflow) (cs0 : list Cut).
Context (Hsup : supported config) (Hepoch : u64 (epoch_period config) ≠ 0).
Context (Hflow : flow_ok config f) (Hjobs : jobs_ok config f cs0).

(** The memory around the accelerator. *)
Record machine (s : JedecDRAMSystem) : Prop := {
  ma_config : js_config s = config;
  ma_timing : js_timing s = Timing_of config;
  ma_clk : 0 ≤ js_clk_ s < 2 ^ 64;
  ma_ctrls : Forall (ctrl_ok config (js_clk_ s)) (ctrls_ s);
  ma_channels : vsize (ctrls_ s) = channels config;
  ma_flow : flow s = f
}.

(** The cuts have been launched, have been given [n] ready cycles and have sent
    the commands of [log]. *)
Definition running (n : Z) (log : list (Z * Sent)) (s : JedecDRAMSystem) : Prop :=
  pim_trans_queue_ s = [] ∧ array_inv config f cs0 (λ _, n) (cuts_ s, js_turn_off s, log).

(** The cuts are configured and the packet that launches all of them waits. *)
Record launching (s : JedecDRAMSystem) : Prop := {
  la_off : js_turn_off s = false;
  la_clear : clear_placed <$> cuts_ s = cuts_ s;
  la_packet : ∃ it, pim_trans_queue_ s = [it] ∧ is_launch (trans_addr it) = true ∧
    configured f (cuts_ s) (Z.shiftr (trans_addr it) 1) = Ok true ∧
    launch f (cuts_ s) (Z.shiftr (trans_addr it) 1) = Ok cs0
}.

Definition engaged (n : Z) (log : list (Z * Sent)) (s : JedecDRAMSystem) : Prop :=
  running n log s ∨ (n = 0 ∧ log = [] ∧ launching s).

Lemma launch_size cs a cs' : launch f cs a = Ok cs' → vsize cs' = vsize cs.
Proof.
  unfold launch, for_range. revert cs. induction (seqZ 0 (total_cuts f)) as [|i l IH]; intros cs; cbn [for_each].
  { by intros [= ->]. }
  intros H. apply bind_Ok in H as (cs1 & H1 & H). rewrite (IH _ H). clear IH H. destruct (selects a i); [|congruence].
  apply bind_Ok in H1 as (c & _ & H1). by eapply vset_size.
Qed.

Lemma engaged_size n log s : engaged n log s → vsize (cuts_ s) = total_cuts f.
Proof.
  intros [(_ & H)|(_ & _ & [_ _ (it & _ & _ & _ & H)])]; [exact (ai_size _ _ _ _ _ H)|].
  rewrite <- (launch_size _ _ _ H). apply Hjobs.
Qed.

Lemma front_spec n log s :
  machine s → engaged n log s →
  ∃ w s2 cbs, front s = Ok (w, s2, cbs) ∧ machine s2 ∧ running n log s2 ∧ js_clk_ s2 = js_clk_ s ∧
    length (ctrls_ s2) = length (ctrls_ s) ∧ owed (ctrls_ s) ≡ₚ cbs ++ owed (ctrls_ s2).
Proof.
  intros Hm He. pose proof (engaged_size n log s He) as Hn. unfold front.
  pose proof (return_all_spec config (js_clk_ s) _ _ (ma_ctrls _ Hm)) as Hr.
  destruct (return_all (js_clk_ s) (ctrls_ s)) as [cs cbs]. destruct Hr as (Hcs & Hl & Hp).
  set (s1 := s <| ctrls_ := cs |>).
  assert (Hm1 : machine s1) by (destruct Hm; split; try done; cbn; unfold constant, vsize in *; congruence).
  destruct (look_ahead_cuts s1 (js_clk_ s)) as [w ->].
  { rewrite (ma_config _ Hm1). apply Hm1. }
  { rewrite (ma_flow _ Hm1). done. }
  change (cuts_ s1) with (cuts_ s). cbn [mbind outcome_bind]. unfold take_packet.
  change (pim_trans_queue_ (s1 <| cuts_ := _ |>)) with (pim_trans_queue_ s).
  destruct He as [(Hq & Harr)|(-> & -> & [Hoff Hclear (it & Hq & Hla & Hcfg & Hlaunch)])]; rewrite Hq.
  - cbn [mbind outcome_bind]. eexists _, _, _. split; [reflexivity|]. split; [by destruct Hm1; split|].
    split; [|done]. split; [done|]. cbn. unfold constant. destruct w; [by apply array_clear|done].
  - rewrite Hla. change (flow (s1 <| cuts_ := _ |>)) with (flow s). rewrite (ma_flow _ Hm).
    change (cuts_ (s1 <| cuts_ := ?x |>)) with x.
    assert (Ec : (if w then clear_placed <$> cuts_ s else cuts_ s) = cuts_ s) by (by destruct w).
    rewrite Ec, Hcfg. cbn [mbind outcome_bind]. rewrite Hlaunch. cbn [mbind outcome_bind].
    eexists _, _, _. split; [reflexivity|]. split; [|split; [|split; [done|split]]].
    + destruct Hm1 as [? ? ? Hok ? ?]. split; try done.
      * cbn. unfold constant. apply Forall_fmap. eapply Forall_impl; [exact Hok|]. intros c Hc.
        by apply (ctrl_ok_pim_flags _ _ _ true true).
      * cbn in *. unfold constant, vsize in *. by rewrite length_fmap.
    + split; [done|]. pose proof (array_start config f cs0 Hflow Hjobs) as H0. rewrite <- Hoff in H0. exact H0.
    + cbn. unfold constant. by rewrite length_fmap.
    + change (owed (ctrls_ s) ≡ₚ cbs ++ owed (set_in_pim true <$> cs)). by rewrite owed_fmap.
Qed.

(** One round of the loop over cuts, and the loop.  [s] is the system at the
    start of the loop; only cuts and lists of commands change. *)
Record round (n d i : Z) (log0 : list (Z * Sent)) (s : JedecDRAMSystem)
    (x : JedecDRAMSystem * list (Z * Sent)) : Prop := {
  ro_machine : machine x.1;
  ro_queue : pim_trans_queue_ x.1 = pim_trans_queue_ s;
  ro_clk : js_clk_ x.1 = js_clk_ s;
  ro_states : channel_states (ctrls_ x.1) = channel_states (ctrls_ s);
  ro_owed : owed (ctrls_ x.1) = owed (ctrls_ s);
  ro_placed : placed x.2 (ctrls_ s) (ctrls_ x.1);
  ro_array : array_rounds config f cs0 n d (cuts_ s) i (cuts_ x.1, js_turn_off x.1, log0 ++ x.2)
}.

Lemma schedule_round_spec w r n d i log0 s x :
  (r = false → lawful (ready_command s) (wants s)) →
  (d = 0 ∨ d = 1 ∧ r = false ∧ welcoming (ready_command s) (wants s)) → 0 ≤ i < total_cuts f →
  machine s → round n d i log0 s x →
  ∃ x', logged_round w r i x = Ok x' ∧ round n d (i + 1) log0 s x'.
Proof.
  intros Hl Hd Hi Hms [Hm Hq Hk Hst Ho Hpl Ha]. destruct x as [s' log]. cbn [fst snd] in *.
  set (e := mkEnv (ready_command s') w r).
  assert (Hready : ∀ cmd, ready_command s' cmd = ready_command s cmd).
  { intros cmd. apply ready_same; [by rewrite (ma_config _ Hm), (ma_config _ Hms)|done|done]. }
  assert (Hw : wants s = wanted_cmds config f (cuts_ s)) by (unfold wants; by rewrite (ma_config _ Hms), (ma_flow _ Hms)).
  destruct (array_rounds_step config f cs0 (su_dims _ Hsup) Hflow Hjobs e n d (cuts_ s) i (cuts_ s', js_turn_off s', log0 ++ log))
    as ([[cuts off] log'] & Hx & Ha'); [| |done|done|].
  { intros Hr. eapply Forall_impl; [rewrite <- Hw; by apply Hl|]. intros cmd. unfold answered. cbn. by rewrite Hready. }
  { destruct Hd as [->|(-> & Hr & Hwel)]; [by left|right]. split; [done|]. split; [done|]. rewrite <- Hw.
    eapply Forall_impl; [exact Hwel|]. intros cmd. cbn. by rewrite Hready. }
  unfold logged_round, schedule_round, round_sent. cbn [fst snd].
  apply bind_Ok in Hx as (c & Hc & Hx). rewrite Hc. cbn [mbind outcome_bind].
  change (env_in_ref e) with r in Hx. destruct (negb (PimScheduler.in_pim c) || r).
  { injection Hx as <- <- <-. cbn [mbind outcome_bind]. rewrite app_nil_r. by eexists. }
  apply bind_Ok in Hx as ([[cs1 off1] b] & Hs & [= <- <- <-]). change (env_ready e) with (ready_command s') in Hs.
  change (env_wait e) with w in Hs. rewrite (ma_config _ Hm), (ma_flow _ Hm), Hs. cbn [mbind outcome_bind].
  destruct (push_batch_spec config (js_clk_ s') b (ctrls_ s')) as (cs & Hpush & Hcs & Hn & Hst' & Ho').
  { pose proof (ai_cmds _ _ _ _ _ (proj1 Ha')) as Hb. cbn [snd] in Hb. apply Forall_app in Hb as [_ Hb].
    apply Forall_cons in Hb as [Hb _]. exact Hb. }
  { apply Hm. }
  { apply Hm. }
  rewrite Hpush. cbn [mbind outcome_bind]. eexists. split; [reflexivity|]. split; try done; cbn [fst snd].
  - destruct Hm. split; try done. cbn. unfold constant. congruence.
  - exact (eq_trans Hst' Hst).
  - exact (eq_trans Ho' Ho).
  - eapply placed_app; [exact Hpl|]. by eapply push_batch_placed.
  - rewrite (assoc (++)). exact Ha'.
Qed.

Lemma schedule_spec w r n d log0 s :
  in_refresh s = Ok r → machine s → running n log0 s →
  (r = false → lawful (ready_command s) (wants s)) →
  (d = 0 ∨ d = 1 ∧ r = false ∧ welcoming (ready_command s) (wants s)) →
  ∃ s' log, schedule w s = Ok s' ∧ for_range (total_cuts (flow s)) (logged_round w r) (s, []) = Ok (s', log) ∧
    machine s' ∧ running (n + d) (log0 ++ log) s' ∧ placed log (ctrls_ s) (ctrls_ s') ∧
    js_clk_ s' = js_clk_ s ∧ owed (ctrls_ s') = owed (ctrls_ s).
Proof.
  intros Hr Hm (Hq & Ha) Hl Hd. unfold schedule. rewrite Hr. cbn [mbind outcome_bind].
  rewrite (ma_flow _ Hm). pose proof (fo_vcuts _ _ Hflow). pose proof (fo_hcuts _ _ Hflow).
  rewrite !(proj2 (Z.eqb_neq _ (-1))) by lia. cbn [negb andb].
  destruct (for_range_total (λ i x, round n d i log0 s x) (total_cuts f) (logged_round w r) (s, []))
    as ([s' log] & Hlog & [Hm' Hq' Hk' Hst Ho Hpl [Ha' _]]).
  - unfold total_cuts. nia.
  - split; try done; [apply placed_nil|]. split; [|done]. cbn [fst snd]. rewrite app_nil_r.
    eapply (array_inv_ext config f cs0 Hjobs); [|exact Ha].
    intros k Hk. cbn. rewrite (proj2 (Z.ltb_ge _ _)) by lia. lia.
  - intros i x Hi Hx. by apply schedule_round_spec.
  - cbn [fst snd] in *. exists s', log. split; [exact (logged_loop _ _ _ _ _ _ _ Hlog)|]. split; [done|].
    split; [done|]. split; [|done]. split; [congruence|]. eapply (array_inv_ext config f cs0 Hjobs); [|exact Ha'].
    intros k Hk. cbn. by rewrite (proj2 (Z.ltb_lt _ _)) by lia.
Qed.

(** One cycle, and a session. *)
Section Clock.
Context (fd : double → string) (st : string → string → string → string).
Local Notation serve := (@serve _ (jedec_system fd st)).

Lemma clock_spec n log s :
  machine s → engaged n log s → js_clk_ s < 2 ^ 63 → lawful_clock s = true →
  ∃ s' cbs ops, Jedec_ClockTick fd st s = Ok (s', cbs, ops) ∧ machine s' ∧ clock_places s ∧
    running (n + if ready_clock s then 1 else 0) (log ++ clock_sent s) s' ∧ js_clk_ s' = js_clk_ s + 1 ∧
    owed (ctrls_ s) ≡ₚ cbs ++ owed (ctrls_ s').
Proof.
  intros Hm He Hb Hl. rewrite tick_front.
  destruct (front_spec n log s Hm He) as (w & s2 & cbs & Hfr & Hm2 & Hrun & Hk2 & _ & Ho2).
  destruct (in_refresh_total s2 (js_clk_ s2)) as [r Hr]; [rewrite (ma_config _ Hm2); apply Hm2|].
  unfold lawful_clock in Hl. unfold ready_clock, clock_places, clock_sent. rewrite Hfr in *. cbn [mbind outcome_bind].
  rewrite Hr in *. cbn [mbind outcome_bind].
  destruct (schedule_spec w r n (if bool_decide (Ok r = Ok false) &&
      bool_decide (welcoming (ready_command s2) (wants s2)) then 1 else 0) log s2 Hr Hm2 Hrun)
    as (s3 & log3 & -> & -> & Hm3 & Hrun3 & Hpl & Hk3 & Ho3).
  { intros ->. apply orb_true_iff in Hl as [Hl|Hl]; by apply bool_decide_eq_true in Hl. }
  { destruct (_ && _) eqn:E; [right|by left]. apply andb_true_iff in E as [E1 E2].
    apply bool_decide_eq_true in E1, E2. by injection E1. }
  cbn [mbind outcome_bind]. pose proof (ma_config _ Hm3) as Ecfg. pose proof (ma_clk _ Hm).
  destruct (cycle_end_spec fd st s3 cbs) as (cs & ops & Hend & Hcs & Hlen & Ho);
    [by rewrite Ecfg|by rewrite Ecfg|by rewrite Ecfg; apply Hm3|lia|by rewrite Ecfg; apply Hm3|].
  eexists _, cbs, ops. split; [exact Hend|]. rewrite Ecfg in Hcs. split; [|split; [done|split; [done|split]]].
  - destruct Hm3. split; try done; cbn; unfold constant, vsize in *; [lia|by rewrite Hlen].
  - cbn. unfold constant. lia.
  - rewrite Ho2, <- Ho3. cbn. unfold constant. by rewrite Ho.
Qed.

(** The addresses of existing channels and banks. *)
Definition reachable_request (r : request) : Prop :=
  match r with
  | Clock => True
  | Submit a _ => 0 ≤ GetChannel config a < channels config ∧ mappable config (Transaction_rw a false)
  end.

Lemma machine_submit n log s a w :
  machine s → engaged n log s → reachable_request (Submit a w) →
  ∃ b, Jedec_WillAcceptTransaction s a w = Ok b ∧
  (b = true → ∃ s', Jedec_AddTransaction a w s = Ok (s', true) ∧ machine s' ∧ engaged n log s' ∧
     js_clk_ s' = js_clk_ s ∧ owed (ctrls_ s') ≡ₚ callback_of a w :: owed (ctrls_ s)).
Proof.
  intros Hm He [Hch Hmap]. assert (Ha : jedec_addr s a).
  { unfold jedec_addr. by rewrite (ma_config _ Hm), (ma_channels _ Hm). }
  pose proof (ma_channels _ Hm) as Hn. destruct (vget_in_range _ _ (proj1 Ha)) as [c Hc].
  assert (Hacc : Jedec_WillAcceptTransaction s a w = Ok (WillAcceptTransaction (js_config s) c a w)).
  { unfold Jedec_WillAcceptTransaction. by rewrite Hc. }
  eexists. split; [exact Hacc|]. intros E. rewrite E in Hacc. pose proof (ma_ctrls _ Hm) as Hcs.
  rewrite <- (ma_config _ Hm) in Hcs.
  destruct (add_ctrls_spec s a w Hcs Ha Hacc) as (cs & -> & Hcs' & Hl & Ho).
  eexists. split; [reflexivity|]. rewrite (ma_config _ Hm) in Hcs'. split; [|split; [|done]].
  - destruct Hm. split; try done. cbn. unfold constant, vsize in *. by rewrite Hl.
  - destruct He as [[? ?]|(-> & -> & [? ? ?])]; [by left|right; split; [done|split; [done|by split]]].
Qed.

Lemma accelerated rs : ∀ n log s acc rec,
  machine s → engaged n log s → Forall reachable_request rs → js_clk_ s + Z.of_nat (length rs) ≤ 2 ^ 63 →
  undisturbed fd st rs (s, acc, rec) = true →
  ∃ s' acc' rec', for_each serve rs (s, acc, rec) = Ok (s', acc', rec') ∧ machine s' ∧
    engaged (n + ready_clocks fd st rs (s, acc, rec)) (log ++ session_sent fd st rs (s, acc, rec)) s' ∧
    session_places fd st rs (s, acc, rec) ∧
    acc' ++ rec ++ owed (ctrls_ s) ≡ₚ acc ++ rec' ++ owed (ctrls_ s').
Proof.
  induction rs as [|r rs IH]; intros n log s acc rec Hm He Hr Hb Hu; cbn [for_each ready_clocks session_sent session_places].
  { exists s, acc, rec. by rewrite Z.add_0_r, app_nil_r. }
  apply Forall_cons in Hr as [Hr Hrs]. cbn [length] in Hb. cbn [undisturbed] in Hu. apply andb_true_iff in Hu as [Hl Hu].
  destruct r as [|a w].
  - destruct (clock_spec n log s Hm He ltac:(lia) Hl) as (s1 & cbs & ops & Ht & Hm1 & Hpl & He1 & Hk1 & Ho1).
    assert (E : serve Clock (s, acc, rec) = Ok (s1, acc, rec ++ cbs)) by (cbn; by rewrite Ht).
    rewrite E in *. cbn [mbind outcome_bind fst].
    destruct (IH _ _ s1 acc (rec ++ cbs) Hm1 (or_introl He1) Hrs ltac:(lia) Hu) as (s2 & acc2 & rec2 & H & Hm2 & He2 & Hpl2 & Hp).
    exists s2, acc2, rec2. split; [done|]. split; [done|]. rewrite Z.add_assoc, (assoc (++)). split; [done|]. split; [done|].
    by rewrite <- Hp, Ho1, !(assoc (++)).
  - destruct (machine_submit n log s a w Hm He Hr) as (b & Hacc & Hadd). destruct b.
    + destruct (Hadd eq_refl) as (s1 & Ht & Hm1 & He1 & Hk1 & Ho1).
      assert (E : serve (Submit a w) (s, acc, rec) = Ok (s1, acc ++ [callback_of a w], rec))
        by (cbn; rewrite Hacc; cbn; by rewrite Ht).
      rewrite E in *. cbn [mbind outcome_bind].
      destruct (IH n log s1 (acc ++ [callback_of a w]) rec Hm1 He1 Hrs ltac:(lia) Hu) as (s2 & acc2 & rec2 & H & Hm2 & He2 & Hpl2 & Hp).
      exists s2, acc2, rec2. split; [done|]. split; [done|]. rewrite Z.add_0_l. split; [done|]. split; [done|].
      rewrite Ho1 in Hp. apply (Permutation_cons_inv (a := callback_of a w)).
      rewrite !(Permutation_middle acc2), !(Permutation_middle rec), Hp.
      rewrite <- (assoc (++)). by rewrite Permutation_middle.
    + assert (E : serve (Submit a w) (s, acc, rec) = Ok (s, acc, rec)) by (cbn; by rewrite Hacc).
      rewrite E in *. cbn [mbind outcome_bind]. rewrite Z.add_0_l.
      destruct (IH n log s acc rec) as (s2 & acc2 & rec2 & H); [done..|lia|done|]. exists s2, acc2, rec2.
      destruct H as (? & ? & ? & ? & ?). done.
Qed.
End Clock.
End Running.

(** What is known of the cuts of an engaged system. *)
Lemma engaged_facts config f cs0 n log s :
  flow_ok config f → jobs_ok config f cs0 → engaged config f cs0 n log s →
  (∀ k job, cs0 !! k = Some job → ∃ vs os,
     let i := Z.of_nat k in let bs := batches i log in
     loads config f i job vs bs ∧ vs `prefix_of` nest config f job ∧
     writes config f i job os bs ∧ os `prefix_of` out_nest f job ∧
     (∀ o v, o ∈ os → v ∈ nest config f job → tile f job v ≤ out_index f job o → v ∈ vs) ∧
     (js_turn_off s = true → vs = nest config f job ∧ os = out_nest f job)) ∧
  (js_turn_off s = true → Forall (λ c, PimScheduler.in_pim c = false) (cuts_ s)) ∧
  (Forall (λ job, cycles_needed config f job ≤ n) cs0 → js_turn_off s = true).
Proof.
  intros Hf Hj [[_ Ha]|(-> & -> & Hla)].
  - assert (Hoff : js_turn_off s = true → Forall (λ c, PimScheduler.in_pim c = false) (cuts_ s)).
    { intros Hoff. pose proof (ai_off _ _ _ _ _ Ha) as E. cbn [fst snd] in E. rewrite Hoff in E.
      apply Forall_forall. intros c Hc. destruct (PimScheduler.in_pim c) eqn:Ec; [|done].
      symmetry in E. apply negb_true_iff in E. apply list_elem_of_lookup in Hc as [k Hk'].
      by rewrite (existsb_insert_true _ _ _ Hk' Ec) in E. }
    split; [|split; [done|]].
    + intros k job Hk. destruct (ai_cuts _ _ _ _ _ Ha k job Hk) as (c & Hc & Hadv). cbn [fst snd] in *.
      destruct (advances_facts config f Hf k job c _ _ (proj2 (proj2 Hj k job Hk)) Hadv)
        as (vs & os & H1 & H2 & H3 & H4 & H5 & H6 & _).
      exists vs, os. split_and!; [done..|]. intros E. apply H6. exact (Forall_lookup_1 _ _ _ _ (Hoff E) Hc).
    + intros Hbound. by apply (array_done config f cs0 _ (cuts_ s) (js_turn_off s) log Hf Hj Ha).
  - rewrite (la_off _ _ _ Hla). split; [|split; [done|]].
    + intros k job Hk. exists [], []. split_and!; [constructor|apply prefix_nil|constructor|apply prefix_nil| |done].
      by intros o v ?%elem_of_nil.
    + intros Hbound. by destruct (array_done config f cs0 0 cs0 false [] Hf Hj (array_start _ _ _ Hf Hj) Hbound) as [? _].
Qed.

(** ** Properties *)

(** Packets that configure one array for a product of 300 x 100 by 100 x 200,
    and the packet that launches it. *)
Definition product_packets : list Z :=
  [dataflow_packet 0 0 0 0 0 0 8 0 0 0 0; workload_packet 0 0 300 0; workload_packet 0 1 100 0;
   workload_packet 0 2 200 0].
Definition launch_packet : Z := 3.

(** A memory system of HBM2 that has taken the first and holds the second. *)
Definition product_configured : outcome JedecDRAMSystem :=
  s ← Jedec_init hbm2_config;
  s ← add_packets product_packets s;
  '(s, _, _) ← for_each (@serve _ (jedec_system no_double no_line)) [Clock; Clock; Clock; Clock] (s, [], []);
  '(s, _) ← Jedec_AddPim launch_packet s;
  Ok s.

Lemma jedec_clocks fd st n : ∀ s acc rec s' acc' rec',
  jedec_ok s → js_clk_ s + Z.of_nat n < 2 ^ 63 →
  for_each (@serve _ (jedec_system fd st)) (replicate n Clock) (s, acc, rec) = Ok (s', acc', rec') →
  jedec_ok s' ∧ js_config s' = js_config s ∧ length (ctrls_ s') = length (ctrls_ s).
Proof.
  induction n as [|n IH]; intros s acc rec s' acc' rec' Hs Hb; cbn [replicate for_each]; [by intros [= <- _ _]|].
  destruct (jedec_tick_spec fd st s Hs ltac:(lia)) as (s1 & cbs & ops & E & Hs1 & Hk & Hc & Hl & _).
  cbn. rewrite E. cbn. intros Hr. rewrite <- Hc, <- Hl. eapply (IH s1); [done|lia|exact Hr].
Qed.

Lemma product_idle s : product_configured = Ok s → idle s ∧ js_config s = hbm2_config ∧ vsize (ctrls_ s) = channels hbm2_config.
Proof.
  unfold product_configured, vsize. intros H. apply bind_Ok in H as (s0 & H0 & H).
  destruct (Jedec_init_ok hbm2_config s0 hbm2_supported ltac:(vm_compute; congruence) H0)
    as (Hok & Hcfg & Hk & Hn & Ho & Hcuts & Hqueue). unfold vsize in Hn.
  destruct (add_packets_spec product_packets s0 (proj1 Hok)) as (s1 & H1 & Hs1 & (Hk1 & Hc1 & Hl1 & Ho1) & Hcu1 & Hq1);
    [by rewrite Hqueue|].
  rewrite H1 in H. cbn [mbind outcome_bind] in H. apply bind_Ok in H as ([[s2 acc] rec] & H2 & H).
  assert (Hok1 : jedec_ok s1).
  { split; [done|]. rewrite Hcu1, Hcuts, Hq1, Hqueue. vm_compute. repeat split; congruence. }
  destruct (jedec_clocks no_double no_line 4 s1 [] [] s2 acc rec Hok1) as (Hok2 & Hc2 & Hl2); [lia|exact H2|].
  apply bind_Ok in H as ([s3 b] & H3 & [= <-]). unfold Jedec_AddPim in H3. apply bind_Ok in H3 as (_ & _ & [= <- _]).
  split; [destruct Hok2 as [[] _]; by split|]. split; [exact (eq_trans Hc2 (eq_trans Hc1 Hcfg))|].
  rewrite <- Hl1, <- Hl2 in Hn. exact Hn.
Qed.

(** [C7] The accelerator works beside the processor.  Take a memory system that
    is otherwise idle ([idle]: a supported configuration, controllers in order)
    and has configured its cuts and holds the packet that launches all of them
    ([launching]), with a dataflow that fits the array ([flow_ok]) and jobs that
    fit the dataflow ([jobs_ok]), and any session of clocks and transactions (to
    existing channels and banks) in which no bank is open on another row than
    the one a cut asks for ([undisturbed]).  The system never fails; the
    transactions accepted are exactly those reported plus those still owed,
    with the commands of the accelerator in the same controllers; in every
    clock the lists of commands of the controllers grow by exactly what the
    cuts send ([session_places]); over the session every cut loads and writes
    the vectors of its nest in order ([loads], [writes], as in [PimProgress]:
    in an array that is not cut an input vector may reach only its last
    channels), and an output only after all vectors of its tile; the system is
    turned off only when every cut has finished its whole nest, and it is
    turned off once the memory could execute what the cuts asked for in as many
    clocks as the bound of [cycles_needed] says. *)
Theorem accelerated_session fd st s cs0 rs :
  let config := js_config s in let f := flow s in
  idle s → vsize (ctrls_ s) = channels config → flow_ok config f → jobs_ok config f cs0 → launching f cs0 s →
  Forall (reachable_request config) rs → js_clk_ s + Z.of_nat (length rs) ≤ 2 ^ 63 →
  undisturbed fd st rs (s, [], []) = true →
  ∃ s' accepted received,
    for_each (@serve _ (jedec_system fd st)) rs (s, [], []) = Ok (s', accepted, received) ∧
    accepted ++ owed (ctrls_ s) ≡ₚ received ++ owed (ctrls_ s') ∧
    session_places fd st rs (s, [], []) ∧
    (∀ k job, cs0 !! k = Some job → ∃ vs os,
       let i := Z.of_nat k in let bs := batches i (session_sent fd st rs (s, [], [])) in
       loads config f i job vs bs ∧ vs `prefix_of` nest config f job ∧
       writes config f i job os bs ∧ os `prefix_of` out_nest f job ∧
       (∀ o v, o ∈ os → v ∈ nest config f job → tile f job v ≤ out_index f job o → v ∈ vs) ∧
       (js_turn_off s' = true → vs = nest config f job ∧ os = out_nest f job)) ∧
    (js_turn_off s' = true → Forall (λ c, PimScheduler.in_pim c = false) (cuts_ s')) ∧
    (Forall (λ job, cycles_needed config f job ≤ ready_clocks fd st rs (s, [], [])) cs0 → js_turn_off s' = true).
Proof.
  intros config f [Hsup Hep Ht Hk Hcs _ _] Hn Hf Hj Hl Hrs Hb Hu.
  assert (Hm : machine config f s) by (by split).
  destruct (accelerated config f cs0 Hsup Hep Hf Hj fd st rs 0 [] s [] [] Hm) as (s' & acc & rec & H & Hm' & He & Hpl & Hp);
    [by right|done|done|done|].
  exists s', acc, rec. split; [done|]. split; [done|]. split; [done|]. by eapply engaged_facts.
Qed.

(** Beside transactions of the processor, the array activates its rows and
    loads the first seven weight vectors. *)
Lemma accelerated_session_witness :
  let rs := [Submit 4096 false; Submit 65536 true; Clock; Clock; Clock; Submit 4096 true] ++ replicate 24 Clock in
  ∃ s s' accepted received vs, product_configured = Ok s ∧
    for_each (@serve _ (jedec_system no_double no_line)) rs (s, [], []) = Ok (s', accepted, received) ∧
    accepted ++ owed (ctrls_ s) ≡ₚ received ++ owed (ctrls_ s') ∧
    let log := session_sent no_double no_line rs (s, [], []) in
    length (all_of w_cmds log) = 128%nat ∧
    loads hbm2_config one_cut 0 sample_job vs (batches 0 log) ∧ vs `prefix_of` nest hbm2_config one_cut sample_job.
Proof.
  intros rs. destruct (is_ok_exists product_configured) as [s Hs]; [vm_compute; reflexivity|].
  destruct (product_idle s Hs) as (Hidle & Hcfg & Hn).
  assert (Hview : (s ← product_configured;
    Ok (flow s, cuts_ s, js_turn_off s, pim_trans_queue_ s, js_clk_ s, undisturbed no_double no_line rs (s, [], []),
        length (all_of w_cmds (session_sent no_double no_line rs (s, [], [])))))
    = Ok (one_cut, [cut_of 300 200 100], false, [Transaction_rw 3 false], 4, true, 128%nat)) by (vm_compute; reflexivity).
  rewrite Hs in Hview. cbn [mbind outcome_bind] in Hview. injection Hview as Ef Ec Eo Eq Ek Eu El.
  destruct (accelerated_session no_double no_line s [sample_job] rs) as (s' & acc & rec & H & Hp & _ & Hcuts & _).
  - exact Hidle.
  - by rewrite Hcfg.
  - rewrite Hcfg, Ef. exact one_cut_fits.
  - rewrite Hcfg, Ef. exact sample_jobs.
  - rewrite Ef. split; [done|by rewrite Ec|]. exists (Transaction_rw 3 false). rewrite Ec.
    split; [exact Eq|]. split; [reflexivity|]. split; vm_compute; reflexivity.
  - rewrite Hcfg. solve_Forall first [exact I|repeat split; vm_compute; congruence].
  - rewrite Ek. cbn. lia.
  - exact Eu.
  - destruct (Hcuts 0%nat sample_job eq_refl) as (vs & os & H1 & H2 & _). rewrite Hcfg, Ef in H1, H2.
    exists s, s', acc, rec, vs. split; [exact Hs|]. split; [exact H|]. split; [exact Hp|]. split; [exact El|]. split; [exact H1|exact H2].
Defined.
