(* ===== verification/Hmc.v ===== *)
(** * Hybrid memory cubes: src/src/hmc.h and src/src/hmc.cc

    A cube has one controller per vault, links to the processor, and a
    crossbar between the links and the four quadrants of vaults.  Requests
    travel link queue, quadrant queue, vault; responses travel quadrant queue,
    link queue, processor.  A request or response has one owner at a time, so
    the pointers of the source are values here; a member that the source leaves
    uninitialised until a later assignment starts as zero.  The crossbar
    ages are [int]s in exact arithmetic. *)
From stdpp Require Import base tactics numbers list list_numbers gmap strings sets.
From coqutil Require Import Datatypes.RecordSetters.
From S2P Require Import Prelude Common Double Configuration Timing SimpleStats Controller.
From S2P Require Import DramSystem JedecSystem.

Import TriangleBracketNotations.
Local Open Scope Z_scope.

(** ** Requests and responses *)

Inductive HMCReqType :=
| RD0 | RD16 | RD32 | RD48 | RD64 | RD80 | RD96 | RD112 | RD128 | RD256
| WR0 | WR16 | WR32 | WR48 | WR64 | WR80 | WR96 | WR112 | WR128 | WR256
| P_WR16 | P_WR32 | P_WR48 | P_WR64 | P_WR80 | P_WR96 | P_WR112 | P_WR128 | P_WR256
| ADD8 | ADD16 | P_2ADD8 | P_ADD16 | ADDS8R | ADDS16R | INC8 | P_INC8
| XOR16 | OR16 | NOR16 | AND16 | NAND16
| CASGT8 | CASGT16 | CASLT8 | CASLT16 | CASEQ8 | CASZERO16 | EQ8 | EQ16
| BWR | P_BWR | BWR8R | SWAP16 | HMCReqType_SIZE.

Inductive HMCRespType := NONE | RD_RS | WR_RS | ERR | HMCRespType_SIZE.

#[global] Instance HMCRespType_eq_dec : EqDecision HMCRespType.
Proof. solve_decision. Defined.

Record HMCRequest := mkHMCRequest {
  req_type : HMCReqType;
  mem_operand : Z;
  req_link : Z;
  req_quad : Z;
  req_vault : Z;
  req_flits : Z;
  req_is_write : bool;
  req_exit_time : Z
}.

Record HMCResponse := mkHMCResponse {
  resp_id : Z;
  resp_type : HMCRespType;
  resp_link : Z;
  resp_quad : Z;
  resp_flits : Z;
  resp_exit_time : Z
}.

(** [type >= WR0 && type <= P_WR256]. *)
Definition type_is_write (t : HMCReqType) : bool :=
  match t with
  | WR0 | WR16 | WR32 | WR48 | WR64 | WR80 | WR96 | WR112 | WR128 | WR256
  | P_WR16 | P_WR32 | P_WR48 | P_WR64 | P_WR80 | P_WR96 | P_WR112 | P_WR128 | P_WR256 => true
  | _ => false
  end.

Definition request_flits (t : HMCReqType) : outcome Z :=
  match t with
  | RD0 | WR0 => Ok 0
  | RD16 | RD32 | RD48 | RD64 | RD80 | RD96 | RD112 | RD128 | RD256 => Ok 1
  | WR16 | P_WR16 => Ok 2
  | WR32 | P_WR32 => Ok 3
  | WR48 | P_WR48 => Ok 4
  | WR64 | P_WR64 => Ok 5
  | WR80 | P_WR80 => Ok 6
  | WR96 | P_WR96 => Ok 7
  | WR112 | P_WR112 => Ok 8
  | WR128 | P_WR128 => Ok 9
  | WR256 | P_WR256 => Ok 17
  | ADD8 | ADD16 | P_2ADD8 | P_ADD16 | ADDS8R | ADDS16R => Ok 2
  | INC8 | P_INC8 => Ok 1
  | XOR16 | OR16 | NOR16 | AND16 | NAND16
  | CASGT8 | CASGT16 | CASLT8 | CASLT16 | CASEQ8 | CASZERO16 => Ok 2
  | EQ8 | EQ16 | BWR | P_BWR | BWR8R | SWAP16 => Ok 2
  | HMCReqType_SIZE => Fail (AbruptExit "hmc.cc" 107)
  end.

Definition HMCRequest_init (t : HMCReqType) (hex_addr vault : Z) : outcome HMCRequest :=
  flits ← request_flits t;
  Ok (mkHMCRequest t hex_addr 0 (Z.rem vault 4) vault flits (type_is_write t) 0).

Definition response_kind (t : HMCReqType) : outcome (HMCRespType * Z) :=
  match t with
  | RD0 => Ok (RD_RS, 0)
  | RD16 => Ok (RD_RS, 2)
  | RD32 => Ok (RD_RS, 3)
  | RD48 => Ok (RD_RS, 4)
  | RD64 => Ok (RD_RS, 5)
  | RD80 => Ok (RD_RS, 6)
  | RD96 => Ok (RD_RS, 7)
  | RD112 => Ok (RD_RS, 8)
  | RD128 => Ok (RD_RS, 9)
  | RD256 => Ok (RD_RS, 17)
  | WR0 => Ok (WR_RS, 0)
  | WR16 | WR32 | WR48 | WR64 | WR80 | WR96 | WR112 | WR128 | WR256 => Ok (WR_RS, 1)
  | P_WR16 | P_WR32 | P_WR48 | P_WR64 | P_WR80 | P_WR96 | P_WR112 | P_WR128 | P_WR256 =>
      Ok (NONE, 0)
  | ADD8 | ADD16 => Ok (WR_RS, 1)
  | P_2ADD8 | P_ADD16 => Ok (NONE, 0)
  | ADDS8R | ADDS16R => Ok (RD_RS, 2)
  | INC8 => Ok (WR_RS, 1)
  | P_INC8 => Ok (NONE, 0)
  | XOR16 | OR16 | NOR16 | AND16 | NAND16
  | CASGT8 | CASGT16 | CASLT8 | CASLT16 | CASEQ8 | CASZERO16 => Ok (RD_RS, 2)
  | EQ8 | EQ16 | BWR => Ok (WR_RS, 1)
  | P_BWR => Ok (NONE, 0)
  | BWR8R | SWAP16 => Ok (RD_RS, 2)
  | HMCReqType_SIZE => Fail (AbruptExit "hmc.cc" 237)
  end.

Definition HMCResponse_init (id : Z) (t : HMCReqType) (dest_link src_quad : Z)
    : outcome HMCResponse :=
  '(kind, flits) ← response_kind t;
  Ok (mkHMCResponse id kind dest_link src_quad flits 0).

(** ** State

    [resp_lookup_table_] is a [std::multimap]: its elements are kept in the
    order of insertion, which is the order in which [find] considers equal
    keys in the library the program is built with. *)
Record HMCMemorySystem := mkHMC {
  hs_config : Config;
  hs_timing : Timing;
  hs_clk_ : Z;
  hs_last_req_clk_ : Z;
  hs_turn_off : bool;
  hs_ctrls_ : list Controller;
  logic_clk_ : Z;
  ps_per_dram_ : Z;
  ps_per_logic_ : Z;
  logic_ps_ : Z;
  dram_ps_ : Z;
  next_link_ : Z;
  links_ : Z;
  queue_depth_ : Z;
  resp_lookup_table_ : list (Z * HMCResponse);
  link_req_queues_ : list (list HMCRequest);
  link_resp_queues_ : list (list HMCResponse);
  quad_req_queues_ : list (list HMCRequest);
  quad_resp_queues_ : list (list HMCResponse);
  link_busy_ : list Z;
  quad_busy_ : list Z;
  link_age_counter_ : list Z;
  quad_age_counter_ : list Z
}.

(** [SetClockRatio]: the two periods in picoseconds. *)
Definition SetClockRatio (config : Config) : outcome (Z * Z) :=
  let ps_per_dram := 800 in
  link_cycles_per_flit ← idiv 128 (link_width config);
  logic_speed ← idiv (link_speed config) link_cycles_per_flit;
  ps_per_logic ← from_option_or OutOfRange
                   (d_to_u64 (ddiv (d_of_Z 1000000) (d_of_Z logic_speed)));
  Ok (ps_per_dram, if ps_per_dram <? ps_per_logic then ps_per_dram else ps_per_logic).

Definition HMC_init (config : Config) : outcome HMCMemorySystem :=
  if negb (IsHMC config) then Fail (AbruptExit "hmc.cc" 255)
  else
    '(ps_dram, ps_logic) ← SetClockRatio config;
    _ ← reserve (channels config);
    ctrls ← for_range (channels config)
              (λ i cs, c ← Controller_init config i; Ok (cs ++ [c])) [];
    let links := num_links config in
    _ ← reserve links;
    let n := Z.to_nat links in
    Ok (mkHMC config (Timing_of config) 0 0 false ctrls 0 ps_dram ps_logic 0 0 0 links
          (u64 (xbar_queue_depth config)) []
          (replicate n []) (replicate n []) (replicate 4 []) (replicate 4 [])
          (replicate n 0) [0; 0; 0; 0] (replicate n 0) [0; 0; 0; 0]).

(** ** Accepting requests *)

Definition IterateNextLink (s : HMCMemorySystem) : outcome HMCMemorySystem :=
  if links_ s =? 0 then Fail DivisionByZero
  else Ok (s <| next_link_ := Z.rem (next_link_ s + 1) (links_ s) |>).

Definition HMC_WillAcceptTransaction (s : HMCMemorySystem) : bool :=
  existsb (λ q, vsize q <? queue_depth_ s) (link_req_queues_ s).

Definition InsertReqToLink (req : HMCRequest) (link : Z) (s : HMCMemorySystem)
    : outcome (HMCMemorySystem * bool) :=
  q ← vget (link_req_queues_ s) link;
  if vsize q <? queue_depth_ s then
    let req := req <| req_link := link |> in
    qs ← vset (link_req_queues_ s) link (q ++ [req]);
    resp ← HMCResponse_init (mem_operand req) (req_type req) link (req_quad req);
    ages ← vset (link_age_counter_ s) link 1;
    Ok (s <| link_req_queues_ := qs |>
          <| resp_lookup_table_ := resp_lookup_table_ s ++ [(resp_id resp, resp)] |>
          <| link_age_counter_ := ages |> <| hs_last_req_clk_ := hs_clk_ s |>, true)
  else Ok (s, false).

(** [while (start_link != next_link_)]: the links are tried in turn, so that
    there are fewer rounds than links ([insert_loop_spec]). *)
Fixpoint insert_loop (fuel : nat) (req : HMCRequest) (start_link : Z) (s : HMCMemorySystem)
    : outcome (HMCMemorySystem * bool) :=
  match fuel with
  | O => Fail DoesNotReturn
  | S fuel =>
      if start_link =? next_link_ s then Ok (s, false)
      else
        '(s, ok) ← InsertReqToLink req (next_link_ s) s;
        s ← IterateNextLink s;
        if (ok : bool) then Ok (s, true) else insert_loop fuel req start_link s
  end.

Definition InsertHMCReq (req : HMCRequest) (s : HMCMemorySystem)
    : outcome (HMCMemorySystem * bool) :=
  '(s, is_inserted) ← InsertReqToLink req (next_link_ s) s;
  if negb is_inserted then
    let start_link := next_link_ s in
    s ← IterateNextLink s;
    insert_loop (Z.to_nat (links_ s)) req start_link s
  else s ← IterateNextLink s; Ok (s, true).

Definition block_request (block : Z) (is_write : bool) : outcome HMCReqType :=
  if is_write then
    if block =? 0 then Ok WR0
    else if block =? 32 then Ok WR32
    else if block =? 64 then Ok WR64
    else if block =? 128 then Ok WR128
    else if block =? 256 then Ok WR256
    else Fail (AbruptExit "hmc.cc" 366)
  else
    if block =? 0 then Ok RD0
    else if block =? 32 then Ok RD32
    else if block =? 64 then Ok RD64
    else if block =? 128 then Ok RD128
    else if block =? 256 then Ok RD256
    else Fail (AbruptExit "hmc.cc" 388).

Definition HMC_AddTransaction (hex_addr : Z) (is_write : bool) (s : HMCMemorySystem)
    : outcome (HMCMemorySystem * bool) :=
  t ← block_request (block_size (hs_config s)) is_write;
  let vault := GetChannel (hs_config s) hex_addr in
  req ← HMCRequest_init t hex_addr vault;
  InsertHMCReq req s.

(** ** The crossbar *)

(** The inner loop of [BuildAgeQueue]: the age of the newcomer is compared with
    the elements of the queue, which are positions. *)
Fixpoint age_insert (age pos : Z) (age_queue : list Z) : list Z :=
  match age_queue with
  | [] => [pos]
  | it :: rest => if it <? age then pos :: it :: rest else it :: age_insert age pos rest
  end.

Definition BuildAgeQueue (logic_clk : Z) (age_counter : list Z) : outcome (list Z) :=
  let queue_len := vsize age_counter in
  if queue_len =? 0 then Fail DivisionByZero
  else
    let start_pos := logic_clk mod queue_len in
    for_range queue_len (λ i age_queue,
        let pos := Z.rem (i + start_pos) queue_len in
        age ← vget age_counter pos;
        Ok (if 0 <? age then age_insert age pos age_queue else age_queue)) [].

Definition InsertReqToDRAM (req : HMCRequest) (s : HMCMemorySystem) : outcome HMCMemorySystem :=
  c ← vget (hs_ctrls_ s) (req_vault req);
  let '(c, _) := AddTransaction (Transaction_rw (mem_operand req) (req_is_write req)) c in
  cs ← vset (hs_ctrls_ s) (req_vault req) c;
  Ok (s <| hs_ctrls_ := cs |>).

(** Quadrant [i] hands its first request to the vault. *)
Definition drain_quad_request (i : Z) (s : HMCMemorySystem) : outcome HMCMemorySystem :=
  q ← vget (quad_req_queues_ s) i;
  match q with
  | [] => Ok s
  | req :: rest =>
      resps ← vget (quad_resp_queues_ s) i;
      if (vsize resps <? queue_depth_ s) && (req_exit_time req <=? logic_clk_ s) then
        c ← vget (hs_ctrls_ s) (req_vault req);
        if WillAcceptTransaction (hs_config s) c (mem_operand req) (req_is_write req) then
          s ← InsertReqToDRAM req s;
          qs ← vset (quad_req_queues_ s) i rest;
          Ok (s <| quad_req_queues_ := qs |>)
        else Ok s
      else Ok s
  end.

(** [if (i > 0) i -= 2;] for every element. *)
Definition drain_busy (busy : list Z) : list Z := (λ i, if 0 <? i then i - 2 else i) <$> busy.

(** One round of the loop from the links to the quadrants. *)
Definition forward_request (src_link : Z) (s : HMCMemorySystem) : outcome HMCMemorySystem :=
  q ← vget (link_req_queues_ s) src_link;
  match q with
  | [] => Fail OutOfRange
  | req :: rest =>
      let dest_quad := req_quad req in
      dest ← vget (quad_req_queues_ s) dest_quad;
      busy ← vget (quad_busy_ s) dest_quad;
      if (vsize dest <? queue_depth_ s) && (busy <=? 0) then
        lqs ← vset (link_req_queues_ s) src_link rest;
        qqs ← vset (quad_req_queues_ s) dest_quad
                (dest ++ [req <| req_exit_time := u64 (logic_clk_ s + req_flits req) |>]);
        bs ← vset (quad_busy_ s) dest_quad (req_flits req);
        ages ← vset (link_age_counter_ s) src_link (if bool_decide (rest = []) then 0 else 1);
        Ok (s <| link_req_queues_ := lqs |> <| quad_req_queues_ := qqs |>
              <| quad_busy_ := bs |> <| link_age_counter_ := ages |>)
      else
        age ← vget (link_age_counter_ s) src_link;
        ages ← vset (link_age_counter_ s) src_link (age + 1);
        Ok (s <| link_age_counter_ := ages |>)
  end.

Definition DrainRequests (s : HMCMemorySystem) : outcome HMCMemorySystem :=
  s ← for_range 4 drain_quad_request s;
  let s := s <| quad_busy_ := drain_busy (quad_busy_ s) |> in
  age_queue ← BuildAgeQueue (logic_clk_ s) (link_age_counter_ s);
  for_each forward_request age_queue s.

Definition resp_callback (resp : HMCResponse) : callback :=
  if bool_decide (resp_type resp = RD_RS) then ReadCallback (resp_id resp)
  else WriteCallback (resp_id resp).

(** Link [i] hands its first response to the processor. *)
Definition drain_link_response (i : Z) (x : HMCMemorySystem * list callback)
    : outcome (HMCMemorySystem * list callback) :=
  let '(s, cbs) := x in
  q ← vget (link_resp_queues_ s) i;
  match q with
  | [] => Ok (s, cbs)
  | resp :: rest =>
      if resp_exit_time resp <=? logic_clk_ s then
        qs ← vset (link_resp_queues_ s) i rest;
        Ok (s <| link_resp_queues_ := qs |>, cbs ++ [resp_callback resp])
      else Ok (s, cbs)
  end.

(** One round of the loop from the quadrants to the links. *)
Definition forward_response (src_quad : Z) (s : HMCMemorySystem) : outcome HMCMemorySystem :=
  q ← vget (quad_resp_queues_ s) src_quad;
  match q with
  | [] => Fail OutOfRange
  | resp :: rest =>
      let dest_link := resp_link resp in
      dest ← vget (link_resp_queues_ s) dest_link;
      busy ← vget (link_busy_ s) dest_link;
      if (vsize dest <? queue_depth_ s) && (busy <=? 0) then
        qqs ← vset (quad_resp_queues_ s) src_quad rest;
        lqs ← vset (link_resp_queues_ s) dest_link
                (dest ++ [resp <| resp_exit_time := u64 (logic_clk_ s + resp_flits resp) |>]);
        bs ← vset (link_busy_ s) dest_link (resp_flits resp);
        ages ← vset (quad_age_counter_ s) src_quad (if bool_decide (rest = []) then 0 else 1);
        Ok (s <| quad_resp_queues_ := qqs |> <| link_resp_queues_ := lqs |>
              <| link_busy_ := bs |> <| quad_age_counter_ := ages |>)
      else
        age ← vget (quad_age_counter_ s) src_quad;
        ages ← vset (quad_age_counter_ s) src_quad (age + 1);
        Ok (s <| quad_age_counter_ := ages |>)
  end.

Definition DrainResponses (s : HMCMemorySystem) : outcome (HMCMemorySystem * list callback) :=
  '(s, cbs) ← for_range (links_ s) drain_link_response (s, []);
  let s := s <| link_busy_ := drain_busy (link_busy_ s) |> in
  age_queue ← BuildAgeQueue (logic_clk_ s) (quad_age_counter_ s);
  s ← for_each forward_response age_queue s;
  Ok (s, cbs).

(** ** The vaults *)

(** [resp_lookup_table_.find(req_id)] and the table without the element found;
    [find] on a missing key yields an iterator that must not be read. *)
Fixpoint take_response (req_id : Z) (table : list (Z * HMCResponse))
    : outcome (HMCResponse * list (Z * HMCResponse)) :=
  match table with
  | [] => Fail OutOfRange
  | (k, resp) :: table =>
      if k =? req_id then Ok (resp, table)
      else '(r, rest) ← take_response req_id table; Ok (r, (k, resp) :: rest)
  end.

Definition VaultCallback (req_id : Z) (s : HMCMemorySystem) : outcome HMCMemorySystem :=
  '(resp, table) ← take_response req_id (resp_lookup_table_ s);
  q ← vget (quad_resp_queues_ s) (resp_quad resp);
  qs ← vset (quad_resp_queues_ s) (resp_quad resp) (q ++ [resp]);
  ages ← vset (quad_age_counter_ s) (resp_quad resp) 1;
  Ok (s <| resp_lookup_table_ := table |> <| quad_resp_queues_ := qs |>
        <| quad_age_counter_ := ages |>).

(** The address that a controller reports as read or written. *)
Definition callback_addr (cb : callback) : Z :=
  match cb with ReadCallback a | WriteCallback a => a end.

Section Clock.
Context (fmt_double : double → string) (stat_text : string → string → string → string).

(** The vault callbacks do not touch the controllers, so that they can follow
    the loop that collects what the controllers return. *)
Definition DRAMClockTick (s : HMCMemorySystem) : outcome (HMCMemorySystem * list FileOp) :=
  let '(cs, done) := return_all (hs_clk_ s) (hs_ctrls_ s) in
  s ← for_each (λ cb, VaultCallback (callback_addr cb)) done (s <| hs_ctrls_ := cs |>);
  cs ← tick_controllers (hs_config s) (hs_timing s) (hs_ctrls_ s);
  let s := s <| hs_ctrls_ := cs |> <| hs_clk_ := u64 (hs_clk_ s + 1) |> in
  if u64 (epoch_period (hs_config s)) =? 0 then Fail DivisionByZero
  else if hs_clk_ s mod u64 (epoch_period (hs_config s)) =? 0 then
    '(cs, ops) ← Base_PrintEpochStats fmt_double stat_text (hs_config s) (hs_clk_ s) (hs_ctrls_ s);
    Ok (s <| hs_ctrls_ := cs |>, ops)
  else Ok (s, []).

Definition advance_logic (s : HMCMemorySystem) : HMCMemorySystem :=
  s <| logic_ps_ := u64 (logic_ps_ s + ps_per_logic_ s) |>
    <| logic_clk_ := u64 (logic_clk_ s + 1) |>.

(** [while (logic_ps_ < dram_ps_ + ps_per_dram_)].  A logic cycle takes at
    least a picosecond, so that there are at most as many rounds as a DRAM
    cycle has picoseconds ([logic_loop_spec]). *)
Fixpoint logic_loop (fuel : nat) (x : HMCMemorySystem * list callback)
    : outcome (HMCMemorySystem * list callback) :=
  let '(s, cbs) := x in
  if logic_ps_ s <? u64 (dram_ps_ s + ps_per_dram_ s) then
    match fuel with
    | O => Fail DoesNotReturn
    | S fuel =>
        '(s, cb) ← DrainResponses s;
        s ← DrainRequests s;
        logic_loop fuel (advance_logic s, cbs ++ cb)
    end
  else Ok (s, cbs).

Definition HMC_ClockTick (s : HMCMemorySystem)
    : outcome (HMCMemorySystem * list callback * list FileOp) :=
  '(s, cbs, ops) ←
    (if dram_ps_ s =? logic_ps_ s then
       '(s, cbs) ← DrainResponses s;
       '(s, ops) ← DRAMClockTick s;
       s ← DrainRequests s;
       Ok (advance_logic s, cbs, ops)
     else '(s, ops) ← DRAMClockTick s; Ok (s, [], ops));
  '(s, cbs) ← logic_loop (Z.to_nat (ps_per_dram_ s)) (s, cbs);
  Ok (s <| dram_ps_ := u64 (dram_ps_ s + ps_per_dram_ s) |>, cbs, ops).

#[global] Instance hmc_system : DRAMSystem HMCMemorySystem := {
  ds_will_accept_pim _ := true;
  ds_add_pim _ s := Ok (s, true);
  ds_will_accept s _ _ := Ok (HMC_WillAcceptTransaction s);
  ds_add := HMC_AddTransaction;
  ds_tick s := '(s, cbs, _) ← HMC_ClockTick s; Ok (s, cbs);
  ds_turn_off := hs_turn_off
}.
End Clock.
