(* ===== verification/HmcSafety.v ===== *)
(** * A hybrid memory cube keeps the contract of a memory system

    The invariant of the crossbar and the proof that a cube implements
    [DRAMSystemLaws]: it accepts, forwards, completes and reports transactions
    without ever failing and without losing or inventing one. *)
From stdpp Require Import base tactics numbers list list_numbers gmap strings sets.
From coqutil Require Import Datatypes.RecordSetters.
From S2P Require Import Prelude Common Double Configuration Timing SimpleStats.
From S2P Require Import Controller ControllerSafety DramSystem JedecSystem JedecSafety Hmc.

Import TriangleBracketNotations.
Local Open Scope Z_scope.

(** ** The invariant *)

(** Requests that have not reached a vault, and responses that have not reached
    the processor. *)
Definition in_flight (s : HMCMemorySystem) : list HMCRequest :=
  concat (link_req_queues_ s) ++ concat (quad_req_queues_ s).
Definition responses (s : HMCMemorySystem) : list HMCResponse :=
  (resp_lookup_table_ s).*2 ++ concat (quad_resp_queues_ s) ++ concat (link_resp_queues_ s).
Definition hmc_pending (s : HMCMemorySystem) : list callback := resp_callback <$> responses s.

Definition req_ok (config : Config) (vaults : Z) (r : HMCRequest) : Prop :=
  0 ≤ req_quad r < 4 ∧ 0 ≤ req_vault r < vaults ∧
  mappable config (Transaction_rw (mem_operand r) (req_is_write r)).
Definition resp_ok (links : Z) (r : HMCResponse) : Prop :=
  0 ≤ resp_link r < links ∧ 0 ≤ resp_quad r < 4.

(** A positive age marks a queue that is not empty. *)
Definition aged {A} (ages : list Z) (queues : list (list A)) : Prop :=
  Forall2 (λ a q, 0 < a → q ≠ []) ages queues.

(** The crossbar between two operations.  [back] are the completions that the
    vaults have reported and the crossbar has not looked up yet: the table has
    an entry for every request on its way to a vault, every transaction in a
    vault and every element of [back]. *)
Record traffic (back : list callback) (s : HMCMemorySystem) : Prop := {
  tr_config : supported (hs_config s);
  tr_epoch : u64 (epoch_period (hs_config s)) ≠ 0;
  tr_block : block_size (hs_config s) ∈ [0; 32; 64; 128; 256];
  tr_timing : hs_timing s = Timing_of (hs_config s);
  tr_ctrls : Forall (ctrl_ok (hs_config s) (hs_clk_ s)) (hs_ctrls_ s);
  tr_links : 0 < links_ s;
  tr_next : 0 ≤ next_link_ s < links_ s;
  tr_logic : 0 ≤ logic_clk_ s;
  tr_link_req : vsize (link_req_queues_ s) = links_ s;
  tr_link_resp : vsize (link_resp_queues_ s) = links_ s;
  tr_link_busy : vsize (link_busy_ s) = links_ s;
  tr_quad_req : vsize (quad_req_queues_ s) = 4;
  tr_quad_resp : vsize (quad_resp_queues_ s) = 4;
  tr_quad_busy : vsize (quad_busy_ s) = 4;
  tr_link_age : aged (link_age_counter_ s) (link_req_queues_ s);
  tr_quad_age : aged (quad_age_counter_ s) (quad_resp_queues_ s);
  tr_reqs : Forall (req_ok (hs_config s) (vsize (hs_ctrls_ s))) (in_flight s);
  tr_resps : Forall (resp_ok (links_ s)) (responses s);
  tr_table : (resp_lookup_table_ s).*1 ≡ₚ
    (mem_operand <$> in_flight s) ++ (callback_addr <$> back ++ owed (hs_ctrls_ s))
}.

(** What the crossbar does not change. *)
Definition frame (s : HMCMemorySystem) :=
  (hs_config s, hs_clk_ s, (ps_per_dram_ s, ps_per_logic_ s), (logic_ps_ s, dram_ps_ s, logic_clk_ s),
   links_ s, vsize (hs_ctrls_ s)).

(** An operation of the crossbar that reports [cbs] to the processor. *)
Definition passes (back : list callback) (cbs : list callback) (s s' : HMCMemorySystem) : Prop :=
  traffic back s' ∧ frame s' = frame s ∧ hmc_pending s ≡ₚ cbs ++ hmc_pending s'.

(** What a logic cycle does not change. *)
Definition dram_frame (s : HMCMemorySystem) :=
  (hs_config s, hs_clk_ s, (ps_per_dram_ s, ps_per_logic_ s), dram_ps_ s, links_ s,
   vsize (hs_ctrls_ s)).

(** The two clocks: a DRAM cycle takes 800 ps, and the logic layer is less than
    a DRAM cycle ahead. *)
Record clocks_ok (s : HMCMemorySystem) : Prop := {
  ck_clk : 0 ≤ hs_clk_ s;
  ck_dram : ps_per_dram_ s = 800;
  ck_logic : 0 < ps_per_logic_ s ≤ 800;
  ck_time : dram_ps_ s = 800 * hs_clk_ s;
  ck_ahead : dram_ps_ s ≤ logic_ps_ s < dram_ps_ s + 800
}.

Definition hmc_ok (s : HMCMemorySystem) : Prop := traffic [] s ∧ clocks_ok s.

(** A configuration of a cube: the block is the size of some request, there is
    a link, and the logic layer does not outrun the picosecond. *)
Record cube_ok (config : Config) : Prop := {
  cu_block : block_size config ∈ [0; 32; 64; 128; 256];
  cu_links : 0 < num_links config;
  cu_speed ps_dram ps_logic : SetClockRatio config = Ok (ps_dram, ps_logic) → 0 < ps_logic
}.

Definition hmc_addr (s : HMCMemorySystem) (a : Z) : Prop :=
  0 ≤ GetChannel (hs_config s) a < vsize (hs_ctrls_ s) ∧
  mappable (hs_config s) (Transaction_rw a false).

(** [fields s] evaluates the updates of [s] and names the members again. *)
Ltac fields s :=
  simpl; unfold constant;
  fold (hs_config s) (hs_timing s) (hs_clk_ s) (hs_ctrls_ s) (logic_clk_ s) (ps_per_dram_ s)
     (ps_per_logic_ s) (logic_ps_ s) (dram_ps_ s) (next_link_ s) (links_ s) (queue_depth_ s)
     (resp_lookup_table_ s) (link_req_queues_ s) (link_resp_queues_ s) (quad_req_queues_ s)
     (quad_resp_queues_ s) (link_busy_ s) (quad_busy_ s) (link_age_counter_ s)
     (quad_age_counter_ s).

(** ** Lists of queues *)

Lemma concat_insert {A} (qs : list (list A)) i q q' :
  qs !! i = Some q → q ++ concat (<[i := q']> qs) ≡ₚ q' ++ concat qs.
Proof.
  revert i. induction qs as [|x qs IH]; intros [|i] Hi; simplify_eq/=.
  - apply Permutation_app_swap_app.
  - by rewrite Permutation_app_swap_app, IH, Permutation_app_swap_app.
Qed.

Lemma concat_pop {A} (qs : list (list A)) i x q :
  qs !! i = Some (x :: q) → concat qs ≡ₚ x :: concat (<[i := q]> qs).
Proof.
  intros Hi. apply (Permutation_app_inv_l q). rewrite <- (concat_insert qs i (x :: q) q Hi).
  simpl. by rewrite Permutation_middle.
Qed.

Lemma concat_push {A} (qs : list (list A)) i x q :
  qs !! i = Some q → concat (<[i := q ++ [x]]> qs) ≡ₚ x :: concat qs.
Proof.
  intros Hi. apply (Permutation_app_inv_l q). rewrite (concat_insert qs i q (q ++ [x]) Hi).
  rewrite <- (assoc (++)). done.
Qed.

Lemma aged_insert {A} ages (queues : list (list A)) i a q :
  aged ages queues → (0 < a → q ≠ []) → aged (<[i := a]> ages) (<[i := q]> queues).
Proof. intros H Ha. by apply Forall2_insert. Qed.

Lemma aged_same {A} ages (queues : list (list A)) i a q :
  aged ages queues → queues !! i = Some q → q ≠ [] → aged (<[i := a]> ages) queues.
Proof.
  intros H Hi Hq. rewrite <- (list_insert_id queues i q Hi). by apply aged_insert.
Qed.

Lemma aged_size {A} ages (queues : list (list A)) : aged ages queues → vsize ages = vsize queues.
Proof. intros H. unfold vsize. f_equal. apply (Forall2_length _ _ _ H). Qed.

(** The positions that [BuildAgeQueue] lists have something to forward. *)
Lemma aged_nonempty {A} ages (queues : list (list A)) pos :
  aged ages queues → 0 < default 0 (ages !! Z.to_nat pos) → queues !! Z.to_nat pos ≠ Some [].
Proof.
  intros H Ha Hq. destruct (ages !! Z.to_nat pos) as [a|] eqn:E; simpl in Ha; [|lia].
  by apply (Forall2_lookup_lr _ _ _ _ _ _ H E Hq Ha).
Qed.

Lemma vsize_insert {A} (l : list A) i x : vsize (<[i := x]> l) = vsize l.
Proof. unfold vsize. by rewrite length_insert. Qed.

Lemma vget_lookup {A} (l : list A) i :
  0 ≤ i < vsize l → ∃ x, vget l i = Ok x ∧ l !! Z.to_nat i = Some x.
Proof. intros Hi. destruct (vget_in_range l i Hi) as [x Hx]. exists x. split; [done|]. by apply vget_Ok in Hx as [_ Hx]. Qed.

#[export] Hint Rewrite @vsize_insert : dramsim.

(** ** The age queue *)

Lemma age_insert_perm age pos q : age_insert age pos q ≡ₚ pos :: q.
Proof.
  induction q as [|it q IH]; [done|]. simpl. destruct (it <? age); [done|].
  rewrite IH. constructor.
Qed.

(** The ages that a list of positions asks about. *)
Definition age_at (ages : list Z) (pos : Z) : Z := default 0 (ages !! Z.to_nat pos).

Lemma age_rounds ages n start l q :
  0 < n → n = vsize ages → Forall (λ i, 0 ≤ i + start) l →
  ∃ q', for_each (λ i age_queue,
        age ← vget ages (Z.rem (i + start) n);
        Ok (if 0 <? age then age_insert age (Z.rem (i + start) n) age_queue else age_queue)) l q
      = Ok q' ∧
    q' ≡ₚ filter (λ pos, 0 < age_at ages pos) ((λ i, (i + start) mod n) <$> l) ++ q.
Proof.
  intros Hn Hsz Hl. revert q. induction Hl as [|i l Hi _ IH]; intros q; cbn [for_each].
  { by exists q. }
  rewrite Z.rem_mod_nonneg by lia. pose proof (Z.mod_pos_bound (i + start) n Hn) as Hb.
  destruct (vget_lookup ages ((i + start) mod n)) as (a & -> & Ha); [lia|].
  cbn [mbind outcome_bind]. edestruct IH as (q' & -> & Hq). exists q'. split; [done|].
  assert (Hage : age_at ages ((i + start) mod n) = a) by (unfold age_at; by rewrite Ha).
  rewrite Hq, fmap_cons, filter_cons. destruct (0 <? a) eqn:E; split_bool.
  - rewrite decide_True by lia. rewrite age_insert_perm. simpl. by rewrite Permutation_middle.
  - by rewrite decide_False by lia.
Qed.

Lemma BuildAgeQueue_spec clk ages :
  0 ≤ clk → ages ≠ [] →
  ∃ q, BuildAgeQueue clk ages = Ok q ∧ NoDup q ∧
    ∀ pos, pos ∈ q ↔ 0 ≤ pos < vsize ages ∧ 0 < age_at ages pos.
Proof.
  intros Hc Hne. unfold BuildAgeQueue. set (n := vsize ages).
  assert (Hn : 0 < n) by (unfold n, vsize; destruct ages; simpl; [done|lia]).
  rewrite (proj2 (Z.eqb_neq _ _)) by lia. cbv zeta. unfold for_range.
  pose proof (Z.mod_pos_bound clk n Hn) as Hs. set (start := clk mod n) in *.
  destruct (age_rounds ages n start (seqZ 0 n) [] Hn eq_refl) as (q & -> & Hq).
  { apply Forall_forall. intros i ?%elem_of_seqZ. lia. }
  rewrite app_nil_r in Hq. exists q. split; [done|]. split.
  - rewrite Hq. apply NoDup_filter, NoDup_fmap_2_strong; [|apply NoDup_seqZ].
    intros i j Hi%elem_of_seqZ Hj%elem_of_seqZ E.
    assert ((i - j) mod n = 0) as Hd.
    { replace (i - j) with (i + start - (j + start)) by lia. by rewrite Zminus_mod, E, Z.sub_diag, Z.mod_0_l by lia. }
    apply Z.mod_divide in Hd as [k Hk]; [|lia]. destruct (Z.lt_trichotomy k 0) as [|[|]]; nia.
  - intros pos. rewrite Hq, list_elem_of_filter, list_elem_of_fmap. split.
    + intros (Ha & i & -> & _). split; [|done]. by apply Z.mod_pos_bound.
    + intros [Hp Ha]. split; [done|]. exists ((pos - start) mod n). split.
      * rewrite Zplus_mod_idemp_l. replace (pos - start + start) with pos by lia. by rewrite Z.mod_small.
      * apply elem_of_seqZ. pose proof (Z.mod_pos_bound (pos - start) n Hn). lia.
Qed.

(** ** From the quadrants to the vaults *)

Lemma passes_refl back s : traffic back s → passes back [] s s.
Proof. intros H. unfold passes. by split_and!. Qed.

Lemma passes_trans back c1 c2 s1 s2 s3 :
  passes back c1 s1 s2 → passes back c2 s2 s3 → passes back (c1 ++ c2) s1 s3.
Proof.
  intros (_ & Hf1 & Hp1) (Ht & Hf2 & Hp2). split; [done|]. split; [congruence|].
  by rewrite Hp1, Hp2, (assoc (++)).
Qed.

(** A loop each of whose rounds passes the crossbar's state on. *)
Lemma passes_loop {A} (body : A → HMCMemorySystem → outcome HMCMemorySystem) l s :
  (∀ x s, x ∈ l → traffic [] s → ∃ s', body x s = Ok s' ∧ passes [] [] s s') →
  traffic [] s → ∃ s', for_each body l s = Ok s' ∧ passes [] [] s s'.
Proof.
  intros Hb Hs. apply (for_each_total (passes [] [] s)); [|by apply passes_refl].
  intros x s1 Hx Hs1. destruct (Hb x s1 Hx (proj1 Hs1)) as (s2 & Hr & Hs2).
  exists s2. split; [done|]. exact (passes_trans _ [] [] _ _ _ Hs1 Hs2).
Qed.

Lemma in_flight_quad s i req rest :
  quad_req_queues_ s !! i = Some (req :: rest) →
  in_flight s ≡ₚ req :: in_flight (s <| quad_req_queues_ := <[i := rest]> (quad_req_queues_ s) |>).
Proof.
  intros Hi. unfold in_flight. fields s. rewrite (concat_pop _ _ _ _ Hi). by rewrite Permutation_middle.
Qed.

Lemma drain_quad_request_spec i s :
  0 ≤ i < 4 → traffic [] s → ∃ s', drain_quad_request i s = Ok s' ∧ passes [] [] s s'.
Proof.
  intros Hi Hs. pose proof (passes_refl [] s Hs) as Hsame. unfold drain_quad_request.
  destruct (vget_lookup (quad_req_queues_ s) i) as (q & -> & Hq); [by rewrite (tr_quad_req _ _ Hs)|].
  cbn [mbind outcome_bind]. destruct q as [|req rest]; [by exists s|].
  destruct (vget_lookup (quad_resp_queues_ s) i) as (rq & -> & _); [by rewrite (tr_quad_resp _ _ Hs)|].
  cbn [mbind outcome_bind]. destruct (_ && _); [|by exists s].
  pose proof (in_flight_quad s _ _ _ Hq) as Hfl. pose proof (tr_reqs _ _ Hs) as Hr.
  rewrite Hfl in Hr. apply Forall_cons in Hr as [(Hqd & Hv & Hm) Hr].
  destruct (vget_lookup (hs_ctrls_ s) (req_vault req) Hv) as (c & Hc & Hlk). rewrite Hc.
  cbn [mbind outcome_bind]. destruct (WillAcceptTransaction _ _ _ _); [|by exists s].
  unfold InsertReqToDRAM. rewrite Hc. cbn [mbind outcome_bind].
  pose proof (proj1 (Forall_forall _ _) (tr_ctrls _ _ Hs) c (list_elem_of_lookup_2 _ _ _ Hlk)) as [Hci Hk].
  destruct (AddTransaction_ok _ _ c Hci Hm) as (Hci' & _ & Ho & Hk').
  destruct (AddTransaction _ c) as [c' b]. simpl in Hci', Ho, Hk'.
  rewrite vset_in_range by done. cbn [mbind outcome_bind]. fields s.
  rewrite vset_in_range by (by rewrite (tr_quad_req _ _ Hs)). cbn [mbind outcome_bind].
  eexists. split; [reflexivity|].
  split; [|split; [unfold frame; fields s; by rewrite vsize_insert|done]].
  pose proof (tr_table _ _ Hs) as Htb. rewrite Hfl in Htb.
  destruct Hs. split; fields s; rewrite ?vsize_insert; try done.
  - apply Forall_insert; [done|]. split; [done|congruence].
  - rewrite Htb. simpl. rewrite (owed_update _ _ _ _ _ Hlk Ho). csimpl.
    replace (callback_addr _) with (mem_operand req) by (simpl; by destruct (req_is_write req)).
    by rewrite Permutation_middle.
Qed.

(** ** From the links to the quadrants *)

Lemma drain_busy_size l : vsize (drain_busy l) = vsize l.
Proof. unfold vsize, drain_busy. by rewrite length_fmap. Qed.

(** The queue at [src] is not empty; no other queue changes. *)
Lemma forward_request_spec src s :
  traffic [] s → 0 ≤ src < links_ s → link_req_queues_ s !! Z.to_nat src ≠ Some [] →
  ∃ s', forward_request src s = Ok s' ∧ passes [] [] s s' ∧
    ∀ j, j ≠ Z.to_nat src → link_req_queues_ s' !! j = link_req_queues_ s !! j.
Proof.
  intros Hs Hi Hne. unfold forward_request.
  destruct (vget_lookup (link_req_queues_ s) src) as (q & -> & Hq); [by rewrite (tr_link_req _ _ Hs)|].
  cbn [mbind outcome_bind]. destruct q as [|req rest]; [done|].
  assert (Hages : vsize (link_age_counter_ s) = links_ s).
  { rewrite <- (tr_link_req _ _ Hs). apply aged_size, Hs. }
  assert (Hreq : req_ok (hs_config s) (vsize (hs_ctrls_ s)) req).
  { pose proof (tr_reqs _ _ Hs) as Hr. unfold in_flight in Hr.
    rewrite (concat_pop _ _ _ _ Hq) in Hr. by apply Forall_cons in Hr as [? _]. }
  destruct Hreq as (Hqd & Hv & Hm).
  destruct (vget_lookup (quad_req_queues_ s) (req_quad req)) as (dest & -> & Hdest);
    [by rewrite (tr_quad_req _ _ Hs)|]. cbn [mbind outcome_bind].
  destruct (vget_lookup (quad_busy_ s) (req_quad req)) as (busy & -> & _);
    [by rewrite (tr_quad_busy _ _ Hs)|]. cbn [mbind outcome_bind].
  destruct (_ && _).
  - rewrite !vset_in_range by (rewrite ?Hages, ?(tr_link_req _ _ Hs), ?(tr_quad_req _ _ Hs),
      ?(tr_quad_busy _ _ Hs); done). cbn [mbind outcome_bind].
    eexists. split; [reflexivity|]. split; [|intros j Hj; fields s; by rewrite list_lookup_insert_ne].
    split; [|done]. set (req' := req <| req_exit_time := _ |>).
    assert (Hfl : ∃ X, in_flight s ≡ₚ req :: X ∧
      concat (<[Z.to_nat src := rest]> (link_req_queues_ s)) ++
      concat (<[Z.to_nat (req_quad req) := dest ++ [req']]> (quad_req_queues_ s)) ≡ₚ req' :: X).
    { exists (concat (<[Z.to_nat src := rest]> (link_req_queues_ s)) ++ concat (quad_req_queues_ s)).
      split; [unfold in_flight; by rewrite (concat_pop _ _ _ _ Hq)|].
      rewrite (concat_push _ _ _ _ Hdest). by rewrite Permutation_middle. }
    destruct Hfl as (X & Hfl & Hfl').
    pose proof (tr_reqs _ _ Hs) as Hr. rewrite Hfl in Hr. apply Forall_cons in Hr as [_ Hr].
    pose proof (tr_table _ _ Hs) as Htb. rewrite Hfl in Htb.
    destruct Hs. split; fields s; rewrite ?vsize_insert; try done.
    + apply aged_insert; [done|]. by case_bool_decide.
    + unfold in_flight. fields s. rewrite Hfl'. by constructor.
    + unfold in_flight. fields s. by rewrite Hfl'.
  - destruct (vget_lookup (link_age_counter_ s) src) as (age & -> & _); [by rewrite Hages|].
    cbn [mbind outcome_bind]. rewrite vset_in_range by (by rewrite Hages). cbn [mbind outcome_bind].
    eexists. split; [reflexivity|]. split; [|done]. split; [|done].
    destruct Hs. split; fields s; try done. by eapply aged_same.
Qed.

(** The loop over an age queue: [queues] selects the queues it takes from. *)
Lemma forward_loop {A} (queues : HMCMemorySystem → list (list A)) (n : HMCMemorySystem → Z)
    (forward : Z → HMCMemorySystem → outcome HMCMemorySystem) l :
  (∀ src s, traffic [] s → 0 ≤ src < n s → queues s !! Z.to_nat src ≠ Some [] →
     ∃ s', forward src s = Ok s' ∧ passes [] [] s s' ∧
       ∀ j, j ≠ Z.to_nat src → queues s' !! j = queues s !! j) →
  (∀ s s', frame s' = frame s → n s' = n s) →
  ∀ s, traffic [] s → NoDup l →
  Forall (λ i, 0 ≤ i < n s ∧ queues s !! Z.to_nat i ≠ Some []) l →
  ∃ s', for_each forward l s = Ok s' ∧ passes [] [] s s'.
Proof.
  intros Hf Hn. induction l as [|src l IH]; intros s Hs Hnd Hl; cbn [for_each].
  { exists s. split; [done|]. by apply passes_refl. }
  apply NoDup_cons in Hnd as [Hnin Hnd]. apply Forall_cons in Hl as [[Hi Hne] Hl].
  destruct (Hf src s Hs Hi Hne) as (s1 & -> & Hp1 & Hoth). cbn [mbind outcome_bind].
  destruct (IH s1 (proj1 Hp1) Hnd) as (s2 & -> & Hp2).
  - apply Forall_forall. intros j Hj. pose proof (proj1 (Forall_forall _ _) Hl j Hj) as [Hjr Hjn].
    simpl in *. rewrite (Hn s s1) by apply Hp1. split; [done|]. rewrite Hoth; [done|].
    intros E. apply Hnin. by replace src with j by lia.
  - exists s2. split; [done|]. exact (passes_trans _ [] [] _ _ _ Hp1 Hp2).
Qed.

Lemma frame_links s s' : frame s' = frame s → links_ s' = links_ s.
Proof. by intros [=]. Qed.

Lemma DrainRequests_spec s :
  traffic [] s → ∃ s', DrainRequests s = Ok s' ∧ passes [] [] s s'.
Proof.
  intros Hs. unfold DrainRequests, for_range.
  destruct (passes_loop drain_quad_request (seqZ 0 4) s) as (s1 & -> & Hp1); [|done|].
  { intros i s1 Hi%elem_of_seqZ. apply drain_quad_request_spec. lia. }
  cbn [mbind outcome_bind]. set (s2 := s1 <| quad_busy_ := _ |>).
  assert (Hp2 : passes [] [] s1 s2).
  { split; [|done]. destruct (proj1 Hp1). split; fields s1; try done. by rewrite drain_busy_size. }
  pose proof (proj1 Hp2) as Hs2. pose proof (aged_size _ _ (tr_link_age _ _ Hs2)) as Hsz.
  rewrite (tr_link_req _ _ Hs2) in Hsz. pose proof (tr_links _ _ Hs2) as Hl.
  destruct (BuildAgeQueue_spec (logic_clk_ s2) (link_age_counter_ s2)) as (l & -> & Hnd & Hin).
  { apply Hs2. } { intros E. rewrite E in Hsz. by rewrite <- Hsz in Hl. }
  cbn [mbind outcome_bind].
  destruct (forward_loop link_req_queues_ links_ forward_request l forward_request_spec frame_links
    s2 Hs2 Hnd) as (s3 & -> & Hp3).
  - apply Forall_forall. intros i [Hi Ha]%Hin. rewrite Hsz in Hi. split; [done|].
    eapply aged_nonempty; [apply Hs2|exact Ha].
  - exists s3. split; [done|]. eapply (passes_trans _ [] []); [|exact Hp3].
    exact (passes_trans _ [] [] _ _ _ Hp1 Hp2).
Qed.

(** ** From the quadrants to the processor *)

Lemma drain_link_response_spec i s cbs :
  0 ≤ i < links_ s → traffic [] s →
  ∃ s' new, drain_link_response i (s, cbs) = Ok (s', cbs ++ new) ∧ passes [] new s s'.
Proof.
  intros Hi Hs. pose proof (passes_refl [] s Hs) as Hsame. unfold drain_link_response.
  destruct (vget_lookup (link_resp_queues_ s) i) as (q & -> & Hq); [by rewrite (tr_link_resp _ _ Hs)|].
  cbn [mbind outcome_bind]. destruct q as [|resp rest]; [exists s, []; by rewrite app_nil_r|].
  destruct (_ <=? _); [|exists s, []; by rewrite app_nil_r].
  rewrite vset_in_range by (by rewrite (tr_link_resp _ _ Hs)). cbn [mbind outcome_bind].
  eexists _, [resp_callback resp]. split; [reflexivity|].
  assert (Hr : responses s ≡ₚ resp :: ((resp_lookup_table_ s).*2 ++ concat (quad_resp_queues_ s) ++
    concat (<[Z.to_nat i := rest]> (link_resp_queues_ s)))).
  { unfold responses. rewrite (concat_pop _ _ _ _ Hq). by rewrite !Permutation_middle. }
  split; [|split; [done|]].
  - pose proof (tr_resps _ _ Hs) as Hok. rewrite Hr in Hok. apply Forall_cons in Hok as [_ Hok].
    destruct Hs. split; fields s; rewrite ?vsize_insert; done.
  - unfold hmc_pending at 1. rewrite Hr. done.
Qed.

Lemma drain_link_loop l : ∀ s cbs,
  traffic [] s → Forall (λ i, 0 ≤ i < links_ s) l →
  ∃ s' new, for_each drain_link_response l (s, cbs) = Ok (s', cbs ++ new) ∧ passes [] new s s'.
Proof.
  induction l as [|i l IH]; intros s cbs Hs Hl; cbn [for_each].
  { exists s, []. rewrite app_nil_r. split; [done|]. by apply passes_refl. }
  apply Forall_cons in Hl as [Hi Hl].
  destruct (drain_link_response_spec i s cbs Hi Hs) as (s1 & n1 & -> & Hp1). cbn [mbind outcome_bind].
  destruct (IH s1 (cbs ++ n1) (proj1 Hp1)) as (s2 & n2 & -> & Hp2).
  { by rewrite (frame_links s s1) by apply Hp1. }
  exists s2, (n1 ++ n2). rewrite (assoc (++)). split; [done|]. by eapply passes_trans.
Qed.

Lemma forward_response_spec src s :
  traffic [] s → 0 ≤ src < 4 → quad_resp_queues_ s !! Z.to_nat src ≠ Some [] →
  ∃ s', forward_response src s = Ok s' ∧ passes [] [] s s' ∧
    ∀ j, j ≠ Z.to_nat src → quad_resp_queues_ s' !! j = quad_resp_queues_ s !! j.
Proof.
  intros Hs Hi Hne. unfold forward_response.
  destruct (vget_lookup (quad_resp_queues_ s) src) as (q & -> & Hq); [by rewrite (tr_quad_resp _ _ Hs)|].
  cbn [mbind outcome_bind]. destruct q as [|resp rest]; [done|].
  assert (Hages : vsize (quad_age_counter_ s) = 4).
  { rewrite <- (tr_quad_resp _ _ Hs). apply aged_size, Hs. }
  set (X := (resp_lookup_table_ s).*2 ++ concat (<[Z.to_nat src := rest]> (quad_resp_queues_ s)) ++
    concat (link_resp_queues_ s)).
  assert (Hr : responses s ≡ₚ resp :: X).
  { unfold responses, X. rewrite (concat_pop _ _ _ _ Hq). symmetry. apply Permutation_middle. }
  pose proof (tr_resps _ _ Hs) as Hok. rewrite Hr in Hok. apply Forall_cons in Hok as [[Hlk Hqd] Hok].
  destruct (vget_lookup (link_resp_queues_ s) (resp_link resp)) as (dest & -> & Hdest);
    [by rewrite (tr_link_resp _ _ Hs)|]. cbn [mbind outcome_bind].
  destruct (vget_lookup (link_busy_ s) (resp_link resp)) as (busy & -> & _);
    [by rewrite (tr_link_busy _ _ Hs)|]. cbn [mbind outcome_bind].
  destruct (_ && _).
  - rewrite !vset_in_range by (rewrite ?Hages, ?(tr_link_resp _ _ Hs), ?(tr_quad_resp _ _ Hs),
      ?(tr_link_busy _ _ Hs); done). cbn [mbind outcome_bind].
    eexists. split; [reflexivity|]. split; [|intros j Hj; fields s; by rewrite list_lookup_insert_ne].
    set (resp' := resp <| resp_exit_time := _ |>). set (s' := _ <| quad_age_counter_ := _ |>).
    assert (Hr' : responses s' ≡ₚ resp' :: X).
    { unfold responses, s', X. fields s. rewrite (concat_push _ _ _ _ Hdest).
      by rewrite !Permutation_middle. }
    split; [|split; [done|unfold hmc_pending; by rewrite Hr, Hr']].
    destruct Hs. split; try (rewrite Hr'; by constructor); unfold s'; fields s;
      rewrite ?vsize_insert; try done.
    apply aged_insert; [done|]. by case_bool_decide.
  - destruct (vget_lookup (quad_age_counter_ s) src) as (age & -> & _); [by rewrite Hages|].
    cbn [mbind outcome_bind]. rewrite vset_in_range by (by rewrite Hages). cbn [mbind outcome_bind].
    eexists. split; [reflexivity|]. split; [|done]. split; [|done].
    destruct Hs. split; fields s; try done. by eapply aged_same.
Qed.

Lemma DrainResponses_spec s :
  traffic [] s → ∃ s' cbs, DrainResponses s = Ok (s', cbs) ∧ passes [] cbs s s'.
Proof.
  intros Hs. unfold DrainResponses, for_range.
  destruct (drain_link_loop (seqZ 0 (links_ s)) s [] Hs) as (s1 & new & -> & Hp1).
  { apply Forall_forall. intros i Hi%elem_of_seqZ. simpl. lia. }
  cbn [mbind outcome_bind app]. set (s2 := s1 <| link_busy_ := _ |>).
  assert (Hp2 : passes [] [] s1 s2).
  { split; [|done]. destruct (proj1 Hp1). split; fields s1; try done. by rewrite drain_busy_size. }
  pose proof (proj1 Hp2) as Hs2. pose proof (aged_size _ _ (tr_quad_age _ _ Hs2)) as Hsz.
  rewrite (tr_quad_resp _ _ Hs2) in Hsz.
  destruct (BuildAgeQueue_spec (logic_clk_ s2) (quad_age_counter_ s2)) as (l & -> & Hnd & Hin).
  { apply Hs2. } { intros E. by rewrite E in Hsz. }
  cbn [mbind outcome_bind].
  destruct (forward_loop quad_resp_queues_ (λ _, 4) forward_response l forward_response_spec
    (λ _ _ _, eq_refl) s2 Hs2 Hnd) as (s3 & -> & Hp3).
  - apply Forall_forall. intros i [Hi Ha]%Hin. rewrite Hsz in Hi. split; [done|].
    eapply aged_nonempty; [apply Hs2|exact Ha].
  - exists s3, new. split; [done|]. rewrite <- (app_nil_r new). eapply passes_trans; [|exact Hp3].
    rewrite <- (app_nil_r new). by eapply passes_trans.
Qed.

(** ** The vaults *)

Lemma take_response_spec a table :
  a ∈ table.*1 → ∃ r rest, take_response a table = Ok (r, rest) ∧ table ≡ₚ (a, r) :: rest.
Proof.
  induction table as [|[k r] table IH]; intros Ha; [by apply not_elem_of_nil in Ha|].
  cbn [take_response]. destruct (k =? a) eqn:E; split_bool; [subst; by exists r, table|].
  csimpl in Ha. apply elem_of_cons in Ha as [->|Ha]; [done|].
  destruct (IH Ha) as (r' & rest & -> & Hp). cbn [mbind outcome_bind].
  exists r', ((k, r) :: rest). split; [done|]. rewrite Hp. constructor.
Qed.

Lemma VaultCallback_spec cb back s :
  traffic (cb :: back) s →
  ∃ s', VaultCallback (callback_addr cb) s = Ok s' ∧ passes back [] s s'.
Proof.
  intros Hs. unfold VaultCallback.
  destruct (take_response_spec (callback_addr cb) (resp_lookup_table_ s)) as (r & rest & -> & Hp).
  { rewrite (tr_table _ _ Hs). csimpl. set_solver. }
  cbn [mbind outcome_bind].
  assert (Hr : responses s ≡ₚ r :: (rest.*2 ++ concat (quad_resp_queues_ s) ++ concat (link_resp_queues_ s))).
  { unfold responses. by rewrite Hp. }
  pose proof (tr_resps _ _ Hs) as Hok. rewrite Hr in Hok. apply Forall_cons in Hok as [[Hlk Hqd] Hok].
  assert (Hages : vsize (quad_age_counter_ s) = 4).
  { rewrite <- (tr_quad_resp _ _ Hs). apply aged_size, Hs. }
  destruct (vget_lookup (quad_resp_queues_ s) (resp_quad r)) as (q & -> & Hq);
    [by rewrite (tr_quad_resp _ _ Hs)|]. cbn [mbind outcome_bind].
  rewrite !vset_in_range by (rewrite ?Hages, ?(tr_quad_resp _ _ Hs); done).
  cbn [mbind outcome_bind]. eexists. split; [reflexivity|]. set (s' := _ <| quad_age_counter_ := _ |>).
  assert (Hr' : responses s' ≡ₚ responses s).
  { rewrite Hr. unfold responses, s'. fields s. rewrite (concat_push _ _ _ _ Hq).
    symmetry. apply Permutation_middle. }
  split; [|split; [done|unfold hmc_pending; by rewrite Hr']].
  pose proof (tr_table _ _ Hs) as Htb. rewrite Hp in Htb. csimpl in Htb.
  rewrite <- Permutation_middle in Htb. apply Permutation_cons_inv in Htb.
  destruct Hs. split; try (by rewrite Hr'); unfold s'; fields s; rewrite ?vsize_insert; try done.
  apply aged_insert; [done|]. intros _ E. by apply app_eq_nil in E as [_ ?].
Qed.

Lemma VaultCallback_loop done : ∀ s,
  traffic done s →
  ∃ s', for_each (λ cb, VaultCallback (callback_addr cb)) done s = Ok s' ∧ passes [] [] s s'.
Proof.
  induction done as [|cb back IH]; intros s Hs; cbn [for_each].
  { exists s. split; [done|]. by apply passes_refl. }
  destruct (VaultCallback_spec cb back s Hs) as (s1 & -> & Hp1). cbn [mbind outcome_bind].
  destruct (IH s1 (proj1 Hp1)) as (s2 & -> & Hs2 & Hf2 & Hp2). destruct Hp1 as (_ & Hf1 & Hp1).
  exists s2. split; [done|]. split; [done|]. split; [congruence|]. by rewrite Hp1.
Qed.

Section Clock.
Context (fd : double → string) (st : string → string → string → string).

(** The controllers after a cycle, at the clock [k]. *)
Lemma traffic_ticked s cs k :
  traffic [] s → Forall (ctrl_ok (hs_config s) k) cs → length cs = length (hs_ctrls_ s) →
  owed cs ≡ₚ owed (hs_ctrls_ s) → traffic [] (s <| hs_ctrls_ := cs |> <| hs_clk_ := k |>).
Proof.
  intros Hs Hc Hl Ho. assert (Hv : vsize cs = vsize (hs_ctrls_ s)) by (unfold vsize; congruence).
  destruct Hs. split; fields s; rewrite ?Hv; try done. by rewrite Ho.
Qed.

Lemma DRAMClockTick_spec s :
  traffic [] s → 0 ≤ hs_clk_ s < 2 ^ 63 →
  ∃ s' ops, DRAMClockTick fd st s = Ok (s', ops) ∧ traffic [] s' ∧
    frame s' = frame (s <| hs_clk_ := hs_clk_ s + 1 |>) ∧ hmc_pending s' ≡ₚ hmc_pending s.
Proof.
  intros Hs Hclk. unfold DRAMClockTick.
  pose proof (return_all_spec _ (hs_clk_ s) _ _ (tr_ctrls _ _ Hs)) as Hr.
  destruct (return_all (hs_clk_ s) (hs_ctrls_ s)) as [cs done]. destruct Hr as (Hcs & Hl & Hp).
  assert (Hv : vsize cs = vsize (hs_ctrls_ s)) by (unfold vsize; congruence).
  destruct (VaultCallback_loop done (s <| hs_ctrls_ := cs |>)) as (s1 & -> & Hs1 & Hf1 & Hp1).
  { pose proof (tr_table _ _ Hs) as Htb. rewrite Hp in Htb.
    destruct Hs. split; fields s; rewrite ?Hv; by try done. }
  cbn [mbind outcome_bind].
  assert (Hk1 : hs_clk_ s1 = hs_clk_ s) by (by injection Hf1). rewrite (tr_timing _ _ Hs1).
  destruct (tick_controllers_spec (hs_config s1) (hs_clk_ s1) (hs_ctrls_ s1) (tr_config _ _ Hs1))
    as (cs2 & -> & Hcs2 & Hl2 & Ho2); [lia|apply Hs1|]. cbn [mbind outcome_bind].
  fields s1. rewrite (u64_id (hs_clk_ s1 + 1)), Hk1 by lia. rewrite Hk1 in Hcs2.
  rewrite (proj2 (Z.eqb_neq _ _) (tr_epoch _ _ Hs1)).
  assert (Hend : ∀ cs', Forall (ctrl_ok (hs_config s1) (hs_clk_ s + 1)) cs' → length cs' = length cs2 →
    owed cs' ≡ₚ owed cs2 → let s' := s1 <| hs_ctrls_ := cs' |> <| hs_clk_ := hs_clk_ s + 1 |> in
    traffic [] s' ∧ frame s' = frame (s <| hs_clk_ := hs_clk_ s + 1 |>) ∧
    hmc_pending s' ≡ₚ hmc_pending s).
  { intros cs' Hc' Hl' Ho'. split_and!; [apply traffic_ticked; [done|done|congruence|by rewrite Ho']| |].
    - injection Hf1. unfold frame. fields s1. fields s. intros. unfold vsize in *. congruence.
    - symmetry. exact Hp1. }
  destruct (_ mod _ =? 0).
  - destruct (base_epoch_spec fd st (hs_config s1) (hs_clk_ s + 1) (hs_clk_ s + 1) cs2 Hcs2)
      as (cs3 & ops & -> & Hcs3 & Hl3 & Ho3). cbn [mbind outcome_bind]. eexists _, ops.
    split; [reflexivity|]. apply (Hend cs3 Hcs3 Hl3). by rewrite Ho3.
  - eexists _, []. split; [reflexivity|]. by apply (Hend cs2 Hcs2).
Qed.

(** *** Logic cycles *)

Lemma frame_dram s s' : frame s' = frame s → dram_frame s' = dram_frame s.
Proof. intros [=]. unfold dram_frame. congruence. Qed.

Lemma advance_logic_spec s :
  traffic [] s → traffic [] (advance_logic s) ∧ dram_frame (advance_logic s) = dram_frame s ∧
    hmc_pending (advance_logic s) = hmc_pending s.
Proof.
  intros Hs. split_and!; [|done|done]. unfold advance_logic.
  destruct Hs. split; fields s; try done. apply u64_range.
Qed.

Lemma logic_round s cbs (k : HMCMemorySystem * list callback → outcome (HMCMemorySystem * list callback)) :
  traffic [] s →
  ∃ s' new, ('(s, cb) ← DrainResponses s; s ← DrainRequests s; k (advance_logic s, cbs ++ cb))
      = k (s', cbs ++ new) ∧
    traffic [] s' ∧ dram_frame s' = dram_frame s ∧ hmc_pending s ≡ₚ new ++ hmc_pending s' ∧
    logic_ps_ s' = u64 (logic_ps_ s + ps_per_logic_ s).
Proof.
  intros Hs. destruct (DrainResponses_spec s Hs) as (s1 & new & -> & Hs1 & Hf1 & Hp1).
  cbn [mbind outcome_bind]. destruct (DrainRequests_spec s1 Hs1) as (s2 & -> & Hs2 & Hf2 & Hp2).
  cbn [mbind outcome_bind]. destruct (advance_logic_spec s2 Hs2) as (Hs3 & Hf3 & Hp3).
  exists (advance_logic s2), new. split; [done|]. split; [done|]. split; [|split].
  - rewrite Hf3, (frame_dram _ _ Hf2). by apply frame_dram.
  - by rewrite Hp1, Hp2, Hp3.
  - injection Hf1. injection Hf2. intros. unfold advance_logic. fields s2. congruence.
Qed.

(** The loop ends: the remaining picoseconds are a measure of its rounds. *)
Lemma logic_loop_spec fuel : ∀ s cbs,
  traffic [] s → ps_per_dram_ s = 800 → 0 < ps_per_logic_ s ≤ 800 →
  0 ≤ dram_ps_ s ≤ logic_ps_ s → logic_ps_ s < dram_ps_ s + 1600 → dram_ps_ s + 1600 < 2 ^ 64 →
  dram_ps_ s + 800 - logic_ps_ s ≤ Z.of_nat fuel →
  ∃ s' new, logic_loop fuel (s, cbs) = Ok (s', cbs ++ new) ∧ traffic [] s' ∧
    dram_frame s' = dram_frame s ∧ hmc_pending s ≡ₚ new ++ hmc_pending s' ∧
    dram_ps_ s + 800 ≤ logic_ps_ s' < dram_ps_ s + 1600.
Proof.
  induction fuel as [|fuel IH]; intros s cbs Hs Hd Hl Hdl Hb Hmax Hfuel; cbn [logic_loop];
    rewrite Hd, (u64_id (dram_ps_ s + 800)) by lia;
    destruct (logic_ps_ s <? dram_ps_ s + 800) eqn:E; split_bool.
  - lia.
  - exists s, []. rewrite app_nil_r. split_and!; [done..|lia|lia].
  - destruct (logic_round s cbs (logic_loop fuel) Hs) as (s1 & new & -> & Hs1 & Hf1 & Hp1 & Hl1).
    rewrite u64_id in Hl1 by lia. assert (Hf1' := Hf1). injection Hf1' as _ _ Hd1 Hps1 Hdr1 _ _.
    destruct (IH s1 (cbs ++ new) Hs1) as (s2 & new2 & -> & Hs2 & Hf2 & Hp2 & Hl2); [lia..|].
    exists s2, (new ++ new2). rewrite (assoc (++)).
    split_and!; [done|done|congruence|by rewrite Hp1, Hp2, (assoc (++))|lia|lia].
  - exists s, []. rewrite app_nil_r. split_and!; [done..|lia|lia].
Qed.

(** *** A DRAM cycle *)

(** The first part of a cycle, which includes the tick of the vaults. *)
Lemma first_part_spec s :
  hmc_ok s → hs_clk_ s < 2 ^ 53 →
  ∃ s' cbs ops,
    (if dram_ps_ s =? logic_ps_ s then
       '(s, cbs) ← DrainResponses s;
       '(s, ops) ← DRAMClockTick fd st s;
       s ← DrainRequests s;
       Ok (advance_logic s, cbs, ops)
     else '(s, ops) ← DRAMClockTick fd st s; Ok (s, [], ops)) = Ok (s', cbs, ops) ∧
    traffic [] s' ∧ dram_frame s' = dram_frame (s <| hs_clk_ := hs_clk_ s + 1 |>) ∧
    hmc_pending s ≡ₚ cbs ++ hmc_pending s' ∧
    dram_ps_ s ≤ logic_ps_ s' < dram_ps_ s + 1600.
Proof.
  intros [Hs [Hc Hd Hl Ht Ha]] Hb. destruct (dram_ps_ s =? logic_ps_ s) eqn:E; split_bool.
  - destruct (DrainResponses_spec s Hs) as (s1 & cbs & -> & Hs1 & Hf1 & Hp1). cbn [mbind outcome_bind].
    assert (Hk1 : hs_clk_ s1 = hs_clk_ s) by (by injection Hf1).
    destruct (DRAMClockTick_spec s1 Hs1) as (s2 & ops & -> & Hs2 & Hf2 & Hp2); [lia|].
    cbn [mbind outcome_bind]. destruct (DrainRequests_spec s2 Hs2) as (s3 & -> & Hs3 & Hf3 & Hp3).
    cbn [mbind outcome_bind]. destruct (advance_logic_spec s3 Hs3) as (Hs4 & Hf4 & Hp4).
    exists (advance_logic s3), cbs, ops. split; [done|]. split; [done|].
    injection Hf1. injection Hf2. injection Hf3. fields s1. intros.
    split_and!.
    + rewrite Hf4. unfold dram_frame. fields s. congruence.
    + by rewrite Hp1, <- Hp2, Hp3, Hp4.
    + unfold advance_logic. fields s3. rewrite u64_id by lia. lia.
    + unfold advance_logic. fields s3. rewrite u64_id by lia. lia.
  - destruct (DRAMClockTick_spec s Hs) as (s2 & ops & -> & Hs2 & Hf2 & Hp2); [lia|].
    cbn [mbind outcome_bind]. exists s2, [], ops. injection Hf2. fields s. intros.
    split_and!; [done|done| |by rewrite Hp2|lia|lia]. unfold dram_frame. fields s. congruence.
Qed.

Lemma HMC_ClockTick_spec s :
  hmc_ok s → hs_clk_ s < 2 ^ 53 →
  ∃ s' cbs ops, HMC_ClockTick fd st s = Ok (s', cbs, ops) ∧ hmc_ok s' ∧
    hs_clk_ s' = hs_clk_ s + 1 ∧ hs_config s' = hs_config s ∧
    vsize (hs_ctrls_ s') = vsize (hs_ctrls_ s) ∧ hmc_pending s ≡ₚ cbs ++ hmc_pending s'.
Proof.
  intros Hs Hb. unfold HMC_ClockTick.
  destruct (first_part_spec s Hs Hb) as (s1 & cbs & ops & -> & Hs1 & Hf1 & Hp1 & Hl1).
  cbn [mbind outcome_bind]. destruct Hs as [_ [Hc Hd Hl Ht Ha]].
  injection Hf1. fields s. intros.
  destruct (logic_loop_spec (Z.to_nat (ps_per_dram_ s1)) s1 cbs Hs1)
    as (s2 & new & -> & Hs2 & Hf2 & Hp2 & Hl2); [lia..|].
  cbn [mbind outcome_bind]. injection Hf2. intros. eexists _, _, _. split; [reflexivity|].
  split_and!; [|fields s2; congruence..|].
  - split.
    + destruct Hs2. by split.
    + split; fields s2; rewrite ?u64_id; lia.
  - rewrite Hp1, Hp2. by rewrite (assoc (++)).
Qed.
End Clock.

(** ** Accepting a request *)

Section Insert.
Context (req : HMCRequest) (kind : HMCRespType) (flits : Z).
Hypothesis Hkind : response_kind (req_type req) = Ok (kind, flits).

Let cb : callback :=
  if bool_decide (kind = RD_RS) then ReadCallback (mem_operand req) else WriteCallback (mem_operand req).

Definition full (s : HMCMemorySystem) (link : Z) : Prop :=
  ∃ q, link_req_queues_ s !! Z.to_nat link = Some q ∧ queue_depth_ s ≤ vsize q.

Definition accepted (s s' : HMCMemorySystem) : Prop :=
  traffic [] s' ∧ frame s' = frame s ∧ hmc_pending s' ≡ₚ cb :: hmc_pending s.

Lemma InsertReqToLink_spec link s :
  traffic [] s → 0 ≤ link < links_ s → req_ok (hs_config s) (vsize (hs_ctrls_ s)) req →
  ∃ s' b, InsertReqToLink req link s = Ok (s', b) ∧
    if (b : bool) then accepted s s' ∧ next_link_ s' = next_link_ s else s' = s ∧ full s link.
Proof.
  intros Hs Hi Hreq. unfold InsertReqToLink.
  destruct (vget_lookup (link_req_queues_ s) link) as (q & -> & Hq); [by rewrite (tr_link_req _ _ Hs)|].
  cbn [mbind outcome_bind]. destruct (vsize q <? queue_depth_ s) eqn:E; split_bool;
    [|exists s, false; split; [done|]; split; [done|]; by exists q].
  assert (Hages : vsize (link_age_counter_ s) = links_ s).
  { rewrite <- (tr_link_req _ _ Hs). apply aged_size, Hs. }
  unfold HMCResponse_init. rewrite !vset_in_range by (by rewrite ?Hages, ?(tr_link_req _ _ Hs)).
  cbn [mbind outcome_bind]. change (response_kind _) with (response_kind (req_type req)).
  rewrite Hkind. cbn [mbind outcome_bind].
  eexists _, true. split; [reflexivity|]. split; [|done].
  set (req' := req <| req_link := link |>). set (s' := _ <| hs_last_req_clk_ := _ |>).
  assert (Hfl : in_flight s' ≡ₚ req' :: in_flight s).
  { unfold in_flight, s'. fields s. by rewrite (concat_push _ _ _ _ Hq). }
  assert (Hr : responses s' ≡ₚ mkHMCResponse (mem_operand req) kind link (req_quad req) flits 0 :: responses s).
  { unfold responses, s'. fields s. rewrite fmap_app. simpl. rewrite <- (assoc (++)). simpl.
    symmetry. apply Permutation_middle. }
  split; [|split; [done|unfold hmc_pending; by rewrite Hr]].
  destruct Hs. split; try (rewrite Hfl; by constructor); try (rewrite Hr; constructor; [|done];
    split; [done|apply Hreq]); try (rewrite Hfl; unfold s'; fields s; rewrite fmap_app, tr_table0; simpl;
    by rewrite Permutation_app_comm); unfold s'; fields s; rewrite ?vsize_insert; try done.
  apply aged_insert; [done|]. intros _ E'. by apply app_eq_nil in E' as [_ ?].
Qed.

Lemma IterateNextLink_spec s :
  traffic [] s →
  ∃ s', IterateNextLink s = Ok s' ∧ s' = s <| next_link_ := (next_link_ s + 1) mod links_ s |> ∧
    traffic [] s'.
Proof.
  intros Hs. pose proof (tr_links _ _ Hs) as Hl. pose proof (tr_next _ _ Hs) as Hn.
  unfold IterateNextLink. rewrite (proj2 (Z.eqb_neq _ _)), Z.rem_mod_nonneg by lia.
  eexists. split; [reflexivity|]. split; [done|].
  destruct Hs. split; fields s; try done. by apply Z.mod_pos_bound.
Qed.

Lemma mod_step start k n : 0 < n → ((start + k) mod n + 1) mod n = (start + (k + 1)) mod n.
Proof. intros Hn. rewrite Zplus_mod_idemp_l. f_equal. lia. Qed.

(** The search comes back to its start after trying every link. *)
Lemma insert_loop_spec fuel : ∀ k start s,
  traffic [] s → req_ok (hs_config s) (vsize (hs_ctrls_ s)) req →
  0 ≤ start < links_ s → 0 < k ≤ links_ s → next_link_ s = (start + k) mod links_ s →
  links_ s - k < Z.of_nat fuel → (∀ j, 0 ≤ j < k → full s ((start + j) mod links_ s)) →
  ∃ s' b, insert_loop fuel req start s = Ok (s', b) ∧
    if (b : bool) then accepted s s' else ∀ j, 0 ≤ j < links_ s → full s j.
Proof.
  induction fuel as [|fuel IH]; intros k start s Hs Hreq Hst Hk Hn Hf Hfull; [lia|].
  cbn [insert_loop]. destruct (start =? next_link_ s) eqn:E; split_bool.
  - assert (k = links_ s) as ->.
    { destruct (decide (k = links_ s)); [done|]. exfalso. rewrite Hn in E.
      destruct (decide (start + k < links_ s)).
      - rewrite Z.mod_small in E by lia. lia.
      - rewrite <- (Z.mod_unique_pos (start + k) (links_ s) 1 (start + k - links_ s)) in E by lia. lia. }
    exists s, false. split; [done|]. intros j Hj.
    rewrite <- (Z.mod_small j (links_ s)) by lia. replace j with (start + (j - start)) by lia.
    rewrite <- Zplus_mod_idemp_r. apply Hfull. apply Z.mod_pos_bound. lia.
  - pose proof (tr_next _ _ Hs) as Hnr.
    destruct (InsertReqToLink_spec (next_link_ s) s Hs Hnr Hreq) as (s1 & b & -> & Hb).
    cbn [mbind outcome_bind]. destruct b.
    + destruct Hb as [(Hs1 & Hf1 & Hp1) _]. destruct (IterateNextLink_spec s1 Hs1) as (s2 & -> & -> & Hs2).
      cbn [mbind outcome_bind]. eexists _, true. by split.
    + destruct Hb as [-> Hthis]. destruct (IterateNextLink_spec s Hs) as (s2 & -> & -> & Hs2).
      cbn [mbind outcome_bind].
      assert (k ≠ links_ s).
      { intros ->. apply E. rewrite Hn, <- Zplus_mod_idemp_r, Z.mod_same, Z.add_0_r by lia.
        symmetry. apply Z.mod_small. lia. }
      destruct (IH (k + 1) start _ Hs2 Hreq) as (s3 & b & -> & Hb); fields s; [done|lia| |lia| |].
      * by rewrite Hn, mod_step by lia.
      * intros j Hj. destruct (decide (j = k)) as [->|]; [by rewrite <- Hn|].
        apply Hfull. lia.
      * by exists s3, b.
Qed.

Lemma InsertHMCReq_spec s :
  traffic [] s → req_ok (hs_config s) (vsize (hs_ctrls_ s)) req →
  ∃ s' b, InsertHMCReq req s = Ok (s', b) ∧
    if (b : bool) then accepted s s' else ∀ j, 0 ≤ j < links_ s → full s j.
Proof.
  intros Hs Hreq. pose proof (tr_next _ _ Hs) as Hn. pose proof (tr_links _ _ Hs) as Hl.
  unfold InsertHMCReq. destruct (InsertReqToLink_spec (next_link_ s) s Hs Hn Hreq) as (s1 & b & -> & Hb).
  cbn [mbind outcome_bind]. destruct b; cbn [negb].
  - destruct Hb as [(Hs1 & Hf1 & Hp1) _]. destruct (IterateNextLink_spec s1 Hs1) as (s2 & -> & -> & Hs2).
    cbn [mbind outcome_bind]. eexists _, true. by split.
  - destruct Hb as [-> Hthis]. destruct (IterateNextLink_spec s Hs) as (s2 & -> & -> & Hs2).
    cbn [mbind outcome_bind].
    apply (insert_loop_spec _ 1 (next_link_ s) _ Hs2 Hreq); fields s; [done|lia|done|lia|].
    intros j Hj. replace j with 0 by lia. rewrite Z.add_0_r, (Z.mod_small (next_link_ s)) by lia. exact Hthis.
Qed.
End Insert.

(** *** Transactions *)

Lemma block_request_spec block w :
  block ∈ [0; 32; 64; 128; 256] →
  ∃ t f fl, block_request block w = Ok t ∧ request_flits t = Ok f ∧
    response_kind t = Ok (if w then WR_RS else RD_RS, fl) ∧ type_is_write t = w.
Proof.
  intros H. repeat (apply elem_of_cons in H as [->|H]; [destruct w; by eexists _, _, _|]).
  by apply not_elem_of_nil in H.
Qed.

Lemma will_accept_room s :
  traffic [] s → HMC_WillAcceptTransaction s = true → ¬ ∀ j, 0 ≤ j < links_ s → full s j.
Proof.
  intros Hs (q & Hin & Hq)%existsb_exists Hall. split_bool.
  apply list_elem_of_In, list_elem_of_lookup in Hin as [j Hj].
  pose proof (lookup_lt_Some _ _ _ Hj) as Hlt. pose proof (tr_link_req _ _ Hs) as Hsz.
  unfold vsize in Hsz. destruct (Hall (Z.of_nat j)) as (q' & Hq' & Hd); [lia|].
  rewrite Nat2Z.id, Hj in Hq'. injection Hq' as <-. lia.
Qed.

Lemma HMC_AddTransaction_spec a w s :
  traffic [] s → hmc_addr s a → HMC_WillAcceptTransaction s = true →
  ∃ s', HMC_AddTransaction a w s = Ok (s', true) ∧ traffic [] s' ∧ frame s' = frame s ∧
    hmc_pending s' ≡ₚ callback_of a w :: hmc_pending s.
Proof.
  intros Hs [Hch Hm] Hacc. unfold HMC_AddTransaction.
  destruct (block_request_spec _ w (tr_block _ _ Hs)) as (t & f & fl & -> & Hf & Hk & Hw).
  cbn [mbind outcome_bind]. unfold HMCRequest_init. rewrite Hf. cbn [mbind outcome_bind].
  set (req := mkHMCRequest _ _ _ _ _ _ _ _).
  destruct (InsertHMCReq_spec req _ _ Hk s Hs) as (s' & b & -> & Hb).
  { split_and!; simpl; [apply Z.rem_nonneg; lia| |lia|lia|exact Hm].
    pose proof (Z.rem_bound_pos (GetChannel (hs_config s) a) 4). lia. }
  destruct b; [|by destruct (will_accept_room s Hs Hacc)].
  destruct Hb as (Hs' & Hfr & Hp). exists s'. split; [done|]. split; [done|]. split; [done|].
  rewrite Hp. unfold callback_of. by destruct w.
Qed.

(** ** The constructor *)

Lemma concat_replicate_nil {A} n : concat (replicate n ([] : list A)) = [].
Proof. by induction n. Qed.

Lemma vsize_replicate {A} n (x : A) : 0 ≤ n → vsize (replicate (Z.to_nat n) x) = n.
Proof. intros Hn. unfold vsize. rewrite length_replicate. lia. Qed.

Lemma SetClockRatio_spec config ps_dram ps_logic :
  SetClockRatio config = Ok (ps_dram, ps_logic) → ps_dram = 800 ∧ ps_logic ≤ 800.
Proof.
  unfold SetClockRatio. intros H. apply bind_Ok in H as (x & _ & H). apply bind_Ok in H as (y & _ & H).
  apply bind_Ok in H as (z & _ & [= <- <-]). split; [done|].
  destruct (800 <? z) eqn:E; split_bool; lia.
Qed.

Lemma HMC_init_ok (config : Config) s :
  supported config → u64 (epoch_period config) ≠ 0 → cube_ok config → HMC_init config = Ok s →
  hmc_ok s ∧ hs_config s = config ∧ hs_clk_ s = 0 ∧
  vsize (hs_ctrls_ s) = Z.max 0 (channels config) ∧ hmc_pending s = [].
Proof.
  intros Hs He [Hb Hn Hps] H. unfold HMC_init in H. destruct (negb (IsHMC config)); [discriminate H|].
  apply bind_Ok in H as ([ps_dram ps_logic] & Hc & H). specialize (Hps _ _ Hc).
  apply SetClockRatio_spec in Hc as [-> Hc].
  apply bind_Ok in H as (_ & _ & H). apply bind_Ok in H as (cs & Hcs & H).
  apply bind_Ok in H as (_ & _ & [= <-]).
  destruct (build_controllers config _ _ _ Hs Hcs) as (new & -> & Hl & Hok & Ho). simpl.
  split_and!; [split|done|done| |unfold hmc_pending, responses; simpl; by rewrite concat_replicate_nil].
  - split; simpl; rewrite ?vsize_replicate by lia; try done; try lia.
    + apply Forall2_replicate. lia.
    + repeat constructor; lia.
    + unfold in_flight. simpl. by rewrite concat_replicate_nil.
    + unfold responses. simpl. by rewrite concat_replicate_nil.
    + unfold in_flight. simpl. by rewrite concat_replicate_nil, Ho.
  - split; simpl; lia.
  - unfold vsize. rewrite Hl, length_seqZ. lia.
Qed.

(** ** The contract *)

#[global] Program Instance hmc_laws fd st : @DRAMSystemLaws HMCMemorySystem (hmc_system fd st) := {
  sys_ok := hmc_ok;
  sys_addr := hmc_addr;
  sys_pending := hmc_pending;
  sys_left s := 2 ^ 53 - hs_clk_ s
}.
Next Obligation. intros fd st s a w _ _. by eexists. Qed.
Next Obligation.
  intros fd st s a w [Hs Hc] Ha [= Hacc].
  destruct (HMC_AddTransaction_spec a w s Hs Ha Hacc) as (s' & ? & Hs' & Hf & Hp).
  exists s'. injection Hf. intros. split_and!; try done; [|lia|].
  - split; [done|]. destruct Hc. split; lia.
  - unfold hmc_addr. intros a'. congruence.
Qed.
Next Obligation.
  intros fd st s Hs Hb.
  destruct (HMC_ClockTick_spec fd st s Hs ltac:(lia)) as (s' & cbs & ops & H & Hs' & ? & ? & ? & ?).
  exists s', cbs. split_and!; try done; [simpl; by rewrite H|lia|].
  unfold hmc_addr. intros a'. congruence.
Qed.

Lemma hmc_supported : supported hmc_config.
Proof.
  split.
  - split; reflexivity.
  - reflexivity.
  - discriminate.
  - intros rf H. vm_compute in H. injection H as <-. vm_compute. discriminate.
  - discriminate.
Qed.

Lemma hmc_cube : cube_ok hmc_config.
Proof.
  split.
  - apply (bool_decide_unpack _). vm_compute. exact I.
  - reflexivity.
  - intros d p H. vm_compute in H. by injection H as <- <-.
Qed.

Lemma hmc_start :
  ∃ s, HMC_init hmc_config = Ok s ∧ hmc_ok s ∧ hs_config s = hmc_config ∧ hs_clk_ s = 0 ∧
    vsize (hs_ctrls_ s) = 2.
Proof.
  destruct (is_ok_exists (HMC_init hmc_config)) as [s H]; [vm_compute; reflexivity|].
  assert (He : u64 (epoch_period hmc_config) ≠ 0) by (vm_compute; congruence).
  destruct (HMC_init_ok hmc_config s hmc_supported He hmc_cube H) as (Hs & Hc & Hk & Hv & _).
  exists s. exact (conj H (conj Hs (conj Hc (conj Hk Hv)))).
Qed.

(** ** Properties *)

(** [C11] The loops of a cube end.  A cycle returns, whatever the crossbar holds,
    after at most 800 rounds of its logic loop (one per picosecond of a DRAM
    cycle), with the logic clock less than a DRAM cycle ahead of the DRAM clock;
    and the search for a link with room returns, without finding one only if
    every link queue is full. *)
Theorem hmc_loops_terminate fd st s req kind flits :
  hmc_ok s → hs_clk_ s < 2 ^ 53 →
  req_ok (hs_config s) (vsize (hs_ctrls_ s)) req → response_kind (req_type req) = Ok (kind, flits) →
  (∃ s' cbs ops, HMC_ClockTick fd st s = Ok (s', cbs, ops) ∧ hmc_ok s' ∧
     dram_ps_ s' = dram_ps_ s + 800 ∧ dram_ps_ s' ≤ logic_ps_ s' < dram_ps_ s' + 800) ∧
  (∃ s' b, InsertHMCReq req s = Ok (s', b) ∧
     (b = false → ∀ link, 0 ≤ link < links_ s → full s link)).
Proof.
  intros Hs Hb Hreq Hk. split.
  - destruct (HMC_ClockTick_spec fd st s Hs Hb) as (s' & cbs & ops & H & Hs' & Hc & _).
    exists s', cbs, ops. pose proof (proj2 Hs) as Hck. pose proof (proj2 Hs') as Hck'.
    destruct Hck, Hck'. split_and!; [done|done|lia..].
  - destruct (InsertHMCReq_spec req kind flits Hk s (proj1 Hs) Hreq) as (s' & b & H & Hr).
    exists s', b. split; [done|]. by intros ->.
Qed.

Lemma hmc_loops_terminate_witness :
  ∃ s s' b, HMC_init hmc_config = Ok s ∧
    is_ok (HMC_ClockTick no_double no_line s) = true ∧
    InsertHMCReq (mkHMCRequest RD64 64 0 1 1 1 false 0) s = Ok (s', b).
Proof.
  destruct hmc_start as (s & H0 & Hs & Hc & Hk & Hv).
  destruct (hmc_loops_terminate no_double no_line s (mkHMCRequest RD64 64 0 1 1 1 false 0) RD_RS 5)
    as [(s1 & cbs & ops & H1 & _) (s2 & b & H2 & _)].
  - exact Hs.
  - rewrite Hk. reflexivity.
  - rewrite Hc, Hv. repeat split; vm_compute; congruence.
  - reflexivity.
  - exists s, s2, b. split; [exact H0|]. rewrite H1. split; [reflexivity|exact H2].
Defined.

(** The order of arbitration.  [BuildAgeQueue] lists exactly the positions
    with a positive age, each once; but the newcomer's age is compared with the
    positions already listed, not with their ages, so that of two waiting links
    the second goes first at every even logic cycle, however long the first
    has waited. *)
Theorem age_queue_order clk ages :
  0 ≤ clk → ages ≠ [] →
  (∃ q, BuildAgeQueue clk ages = Ok q ∧ NoDup q ∧
     ∀ pos, pos ∈ q ↔ 0 ≤ pos < vsize ages ∧ 0 < age_at ages pos) ∧
  (∀ a0 a1, 0 < a0 → 0 < a1 → BuildAgeQueue (2 * clk) [a0; a1] = Ok [1; 0]).
Proof.
  intros Hc Hne. split; [by apply BuildAgeQueue_spec|]. intros a0 a1 H0 H1.
  unfold BuildAgeQueue. change (vsize [a0; a1]) with 2. cbn [Z.eqb].
  replace ((2 * clk) mod 2) with 0 by (rewrite Z.mul_comm; by rewrite Z.mod_mul).
  unfold for_range. change (seqZ 0 2) with [0; 1]. cbn [for_each mbind outcome_bind].
  change (vget [a0; a1] ((0 + 0) `rem` 2)) with (Ok a0). cbn [mbind outcome_bind].
  change (vget [a0; a1] ((1 + 0) `rem` 2)) with (Ok a1). cbn [mbind outcome_bind].
  rewrite !(proj2 (Z.ltb_lt _ _)) by done. cbn [age_insert].
  change ((0 + 0) `rem` 2) with 0. by rewrite (proj2 (Z.ltb_lt _ _)).
Qed.

Lemma age_queue_order_witness :
  (∃ q, BuildAgeQueue 3 [4; 0; 2] = Ok q ∧ NoDup q ∧
     ∀ pos, pos ∈ q ↔ 0 ≤ pos < vsize [4; 0; 2] ∧ 0 < age_at [4; 0; 2] pos) ∧
  BuildAgeQueue 6 [1000; 1] = Ok [1; 0].
Proof.
  destruct (age_queue_order 3 [4; 0; 2] ltac:(lia) ltac:(discriminate)) as [H1 H2].
  split; [exact H1|]. exact (H2 1000 1 eq_refl eq_refl).
Defined.
