(* ===== verification/Cpu.v ===== *)
(** * Processors: src/src/cpu.h and src/src/cpu.cc

    The three processors that drive a memory system: random requests, a
    stream addition and the replay of a trace.  They are written, and their
    theorems are proved, against the interface of a memory system
    ([DRAMSystem], [DRAMSystemLaws]).  A cycle returns the transactions it
    submitted and the callbacks it received (the callbacks of [CPU] do
    nothing). *)
From stdpp Require Import base tactics numbers list list_numbers gmap strings sets.
From S2P Require Import Prelude Common Double Configuration SimpleStats Controller ControllerSafety.
From S2P Require Import DramSystem JedecSystem JedecSafety.

Local Open Scope Z_scope.

(** ** Random requests

    [gen n] is the [n]-th number that the generator [std::mt19937_64]
    delivers. *)
Record RandomCPU (S : Type) := mkRandomCPU {
  rnd_memory_system_ : S;
  rnd_clk_ : Z;
  last_addr_ : Z;
  last_write_ : bool;
  rnd_draws : nat;
  rnd_get_next_ : bool
}.
Arguments mkRandomCPU {S}.
Arguments rnd_memory_system_ {S}.
Arguments rnd_clk_ {S}.
Arguments last_addr_ {S}.
Arguments last_write_ {S}.
Arguments rnd_draws {S}.
Arguments rnd_get_next_ {S}.

(** ** Stream addition *)

Record StreamCPU (S : Type) := mkStreamCPU {
  str_memory_system_ : S;
  str_clk_ : Z;
  addr_a_ : Z;
  addr_b_ : Z;
  addr_c_ : Z;
  offset_ : Z;
  str_draws : nat;
  inserted_a_ : bool;
  inserted_b_ : bool;
  inserted_c_ : bool
}.
Arguments mkStreamCPU {S}.
Arguments str_memory_system_ {S}.
Arguments str_clk_ {S}.
Arguments addr_a_ {S}.
Arguments addr_b_ {S}.
Arguments addr_c_ {S}.
Arguments offset_ {S}.
Arguments str_draws {S}.
Arguments inserted_a_ {S}.
Arguments inserted_b_ {S}.
Arguments inserted_c_ {S}.

Definition array_size_ : Z := Z.shiftl 2 20.
Definition stride_ : Z := 64.

(** ** Traces

    A trace is a list of lines of an address, an operation and a cycle.  The
    end of the file is noticed when a read reaches it: with the last line if
    the file does not end in a newline, by a failing read otherwise. *)
Record TraceFile := mkTraceFile {
  lines : list (Z * string * Z);
  final_newline : bool;
  eof : bool
}.

(** [trace_file_ >> trans_]; a read that fails leaves the address and the cycle
    alone and finds an empty operation. *)
Definition read_line (file : TraceFile) (trans : Transaction) : TraceFile * Transaction :=
  match lines file with
  | [] => (mkTraceFile [] (final_newline file) true,
           read_transaction trans (trans_addr trans) EmptyString (added_cycle trans))
  | (a, op, cycle) :: rest =>
      (mkTraceFile rest (final_newline file)
         (eof file || (bool_decide (rest = []) && negb (final_newline file))),
       read_transaction trans a op cycle)
  end.

Record TraceBasedCPU (S : Type) := mkTraceCPU {
  tr_memory_system_ : S;
  tr_clk_ : Z;
  trace_file_ : TraceFile;
  trans_ : Transaction;
  tr_get_next_ : bool
}.
Arguments mkTraceCPU {S}.
Arguments tr_memory_system_ {S}.
Arguments tr_clk_ {S}.
Arguments trace_file_ {S}.
Arguments trans_ {S}.
Arguments tr_get_next_ {S}.

Section Processors.
Context {S : Type} `{!DRAMSystem S} (gen : nat → Z).

(** [if (WillAcceptTransaction(a, w)) AddTransaction(a, w);] and whether it
    was accepted. *)
Definition submit (a : Z) (w : bool) (s : S) : outcome (S * bool * list callback) :=
  ok ← ds_will_accept s a w;
  if (ok : bool) then '(s, _) ← ds_add a w s; Ok (s, true, [callback_of a w])
  else Ok (s, false, []).

Definition Random_init (s : S) : RandomCPU S := mkRandomCPU s 0 0 false 0 true.

Definition Random_ClockTick (c : RandomCPU S)
    : outcome (RandomCPU S * list callback * list callback) :=
  '(s, received) ← ds_tick (rnd_memory_system_ c);
  let n := rnd_draws c in
  let addr := if rnd_get_next_ c then gen n else last_addr_ c in
  let wr := if rnd_get_next_ c then gen (n + 1)%nat mod 3 =? 0 else last_write_ c in
  let n := if rnd_get_next_ c then (n + 2)%nat else n in
  '(s, get_next, submitted) ← submit addr wr s;
  Ok (mkRandomCPU s (u64 (rnd_clk_ c + 1)) addr wr n get_next, submitted, received).

Definition Stream_init (s : S) : StreamCPU S := mkStreamCPU s 0 0 0 0 0 0 false false false.

Definition submit_once (inserted : bool) (a : Z) (w : bool) (s : S)
    : outcome (S * bool * list callback) :=
  if inserted then Ok (s, true, []) else submit a w s.

Definition Stream_ClockTick (c : StreamCPU S)
    : outcome (StreamCPU S * list callback * list callback) :=
  '(s, received) ← ds_tick (str_memory_system_ c);
  let new := (array_size_ <=? offset_ c) || (str_clk_ c =? 0) in
  let n := str_draws c in
  let a := if new then gen n else addr_a_ c in
  let b := if new then gen (n + 1)%nat else addr_b_ c in
  let d := if new then gen (n + 2)%nat else addr_c_ c in
  let n := if new then (n + 3)%nat else n in
  let offset := if new then 0 else offset_ c in
  '(s, ia, s1) ← submit_once (inserted_a_ c) (u64 (a + offset)) false s;
  '(s, ib, s2) ← submit_once (inserted_b_ c) (u64 (b + offset)) false s;
  '(s, ic, s3) ← submit_once (inserted_c_ c) (u64 (d + offset)) true s;
  let all := ia && ib && ic in
  Ok (mkStreamCPU s (u64 (str_clk_ c + 1)) a b d (if all then u64 (offset + stride_) else offset) n
        (ia && negb all) (ib && negb all) (ic && negb all),
      s1 ++ s2 ++ s3, received).

Definition Trace_init (s : S) (file : TraceFile) : TraceBasedCPU S :=
  mkTraceCPU s 0 file (mkTransaction 0 0 0 false false false) true.

Definition Trace_ClockTick (c : TraceBasedCPU S)
    : outcome (TraceBasedCPU S * list callback * list callback) :=
  '(s, received) ← ds_tick (tr_memory_system_ c);
  let clk := u64 (tr_clk_ c + 1) in
  if eof (trace_file_ c) then
    Ok (mkTraceCPU s clk (trace_file_ c) (trans_ c) (tr_get_next_ c), [], received)
  else
    let '(file, trans) := if tr_get_next_ c then read_line (trace_file_ c) (trans_ c)
                          else (trace_file_ c, trans_ c) in
    if (added_cycle trans <=? tr_clk_ c) && active trans then
      if negb (is_pim trans) then
        '(s, get_next, submitted) ← submit (trans_addr trans) (is_write trans) s;
        Ok (mkTraceCPU s clk file trans get_next, submitted, received)
      else
        let get_next := ds_will_accept_pim s in
        if get_next then
          '(s, _) ← ds_add_pim (trans_addr trans) s;
          Ok (mkTraceCPU s clk file trans true, [], received)
        else Ok (mkTraceCPU s clk file trans false, [], received)
    else Ok (mkTraceCPU s clk file trans false, [], received).

Definition turnOff (c : TraceBasedCPU S) : bool := ds_turn_off (tr_memory_system_ c).

End Processors.

(** ** Specification *)

(** [n] cycles of a processor, with everything submitted and received. *)
Fixpoint cycles {C} (tick : C → outcome (C * list callback * list callback)) (n : nat)
    (x : C * list callback * list callback) : outcome (C * list callback * list callback) :=
  match n with
  | O => Ok x
  | S n =>
      let '(c, submitted, received) := x in
      '(c, s, r) ← tick c; cycles tick n (c, submitted ++ s, received ++ r)
  end.

(** The transaction a trace line asks for. *)
Definition line_callback (l : Z * string * Z) : callback :=
  callback_of l.1.1 (bool_decide (l.1.2 ∈ write_types)).

(** A trace of ordinary transactions. *)
Definition line_ok (l : Z * string * Z) : Prop := 0 ≤ l.1.1 < 2 ^ 64 ∧ l.1.2 ∉ pim_types.

(** The state of the replay: what has been submitted is the beginning of the
    trace, up to the transaction at hand. *)
Record replay_ok {M} (trace : list (Z * string * Z)) (submitted : list callback)
    (c : TraceBasedCPU M) : Prop := {
  rp_lines : Forall line_ok (lines (trace_file_ c));
  rp_hand : tr_get_next_ c = false → active (trans_ c) = true →
    0 ≤ trans_addr (trans_ c) < 2 ^ 64 ∧ is_pim (trans_ c) = false;
  rp_order : ∃ past, trace = past ++ lines (trace_file_ c) ∧
    submitted `prefix_of` (line_callback <$> past) ∧
    (tr_get_next_ c = true → submitted = line_callback <$> past) ∧
    (tr_get_next_ c = false → active (trans_ c) = true →
       line_callback <$> past = submitted ++ [trans_callback (trans_ c)])
}.

(** The lines before the first one that is not a write; that line, if it is not
    a PIM line, ends the replay ([trace_read_stalls]). *)
Fixpoint writes_of (ls : list (Z * string * Z)) : list (Z * string * Z) :=
  match ls with
  | [] => []
  | l :: ls => if bool_decide (l.1.2 ∈ write_types) then l :: writes_of ls else []
  end.

(** In this cycle the transaction at hand waits for its cycle or is refused by
    the memory system. *)
Definition waits {M} `{!DRAMSystem M} (c : TraceBasedCPU M) : bool :=
  match ds_tick (tr_memory_system_ c) with
  | Ok (s, _) =>
      let trans := if tr_get_next_ c then (read_line (trace_file_ c) (trans_ c)).2 else trans_ c in
      active trans &&
      negb ((added_cycle trans <=? tr_clk_ c) &&
            match ds_will_accept s (trans_addr trans) (is_write trans) with Ok b => b | Fail _ => false end)
  | Fail _ => false
  end.

(** The cycles in which it does not, among [n] cycles or until [stop]. *)
Fixpoint turns {M} `{!DRAMSystem M} (stop : TraceBasedCPU M → bool) (n : nat) (c : TraceBasedCPU M) : nat :=
  match n with
  | O => O
  | S n =>
      (if waits c then 0 else 1) +
      match Trace_ClockTick c with
      | Ok (c, _, _) => if stop c then 0 else turns stop n c
      | Fail _ => 0
      end
  end%nat.

(** The replay has the lines [rem] of its trace left to submit, the one at hand
    included, or has come to the end of what it submits. *)
Definition replays {M} (rem : list (Z * string * Z)) (c : TraceBasedCPU M) : Prop :=
  final_newline (trace_file_ c) = true ∧ Forall line_ok rem ∧
  ((eof (trace_file_ c) = false ∧ tr_get_next_ c = true ∧ rem = lines (trace_file_ c)) ∨
   (eof (trace_file_ c) = false ∧ tr_get_next_ c = false ∧ active (trans_ c) = true ∧
    ∃ l, rem = l :: lines (trace_file_ c) ∧ l.1.2 ∈ write_types ∧ is_pim (trans_ c) = false ∧
      trans_callback (trans_ c) = line_callback l) ∨
   (tr_get_next_ c = false ∧ active (trans_ c) = false ∧ writes_of rem = [])).

(** The addresses that the random and the stream processor hold are 64-bit
    numbers. *)
Definition random_ok {M} (_ : list callback) (c : RandomCPU M) : Prop := 0 ≤ last_addr_ c < 2 ^ 64.
Definition stream_ok {M} (_ : list callback) (c : StreamCPU M) : Prop := True.

(** ** Submitting *)

(** One cycle moves callbacks from [P] to [P'], submits [s] and receives [r]. *)
Lemma carry_callbacks {A} (acc rec s r P P' acc2 rec2 Q : list A) :
  s ++ P ≡ₚ r ++ P' → acc2 ++ (rec ++ r) ++ P' ≡ₚ (acc ++ s) ++ rec2 ++ Q →
  acc2 ++ rec ++ P ≡ₚ acc ++ rec2 ++ Q.
Proof.
  intros Hp Hp2.
  apply (Permutation_app_inv_l s). rewrite <- !(assoc (++)) in *.
  rewrite (assoc (++) s acc2), (Permutation_app_comm s acc2), <- (assoc (++)).
  rewrite (assoc (++) s rec), (Permutation_app_comm s rec), <- (assoc (++)), Hp.
  rewrite Hp2, !(assoc (++) acc), (Permutation_app_comm acc s). by rewrite <- !(assoc (++)).
Qed.

(** *** What a replay submits *)

Section Replay.
Context {M : Type} `{!DRAMSystem M}.

(** The transaction at hand after the next line has been read, if one is due
    to be read. *)
Lemma replays_hand rem (c : TraceBasedCPU M) (s : M) clk file trans :
  replays rem c → eof (trace_file_ c) = false →
  (if tr_get_next_ c then read_line (trace_file_ c) (trans_ c) else (trace_file_ c, trans_ c)) = (file, trans) →
  ∃ rem', writes_of rem' = writes_of rem ∧ replays rem' (mkTraceCPU s clk file trans false).
Proof.
  intros (Hnl & Hok & Hst) He Hr. destruct Hst as [(_ & Hn & Erem)|[(_ & Hn & Ha & l & H)|(Hn & Ha & H)]]; rewrite Hn in Hr.
  - unfold read_line in Hr. rewrite <- Erem in Hr. destruct rem as [|[[a op] cyc] rest]; injection Hr as <- <-.
    + exists []. split; [done|]. split; [done|]. split; [done|]. right. by right.
    + apply Forall_cons in Hok as Hok'. destruct Hok' as [[_ Hp] _]. cbn [fst snd] in Hp.
      exists ((a, op, cyc) :: rest). split; [done|]. split; [done|]. split; [done|]. right.
      cbn [trace_file_ trans_ tr_get_next_ active read_transaction eof lines is_pim trans_callback].
      rewrite He, Hnl, andb_false_r, (bool_decide_eq_false_2 (op ∈ pim_types)) by done. cbn [orb negb writes_of fst snd].
      destruct (bool_decide_reflect (op ∈ write_types)) as [Hw|Hw]; [left|right; done]. cbn.
      split_and!; [done..|]. exists (a, op, cyc). unfold trans_callback, line_callback. cbn.
      by rewrite bool_decide_eq_true_2 by done.
  - injection Hr as <- <-. exists rem. split; [done|]. split; [done|]. split; [done|]. right. left. by eauto 10.
  - injection Hr as <- <-. exists rem. split; [done|]. split; [done|]. split; [done|]. right. by right.
Qed.

(** One cycle of it. *)
Lemma Trace_step rem (c c' : TraceBasedCPU M) s r :
  replays rem c → Trace_ClockTick c = Ok (c', s, r) →
  ∃ rem', replays rem' c' ∧
    if waits c then s = [] ∧ writes_of rem' = writes_of rem
    else s = line_callback <$> take 1 (writes_of rem) ∧ writes_of rem' = drop 1 (writes_of rem).
Proof.
  intros Hrep H. unfold Trace_ClockTick in H. unfold waits.
  apply bind_Ok in H as ([m cbs] & -> & H).
  destruct (eof (trace_file_ c)) eqn:He.
  { destruct Hrep as (Hnl & Hok & [(E & _)|[(E & _)|(Hn & Ha & E)]]); [congruence..|].
    rewrite Hn, Ha, E. injection H as <- <- <-. exists rem. split; [|by rewrite E]. split; [done|]. split; [done|]. by right; right. }
  destruct (if tr_get_next_ c then read_line _ _ else _) as [file trans] eqn:Eread.
  assert (Etr : (if tr_get_next_ c then (read_line (trace_file_ c) (trans_ c)).2 else trans_ c) = trans)
    by (destruct (tr_get_next_ c); [by rewrite Eread|congruence]).
  rewrite Etr. destruct (replays_hand _ _ m (u64 (tr_clk_ c + 1)) _ _ Hrep He Eread) as (rem' & Ew & Hrep').
  pose proof Hrep' as (Hnl & Hok & Hst). cbn [trace_file_ trans_ tr_get_next_] in Hnl, Hst.
  destruct (active trans) eqn:Ha.
  2:{ rewrite andb_false_r in H. cbn [andb]. injection H as <- <- <-. exists rem'. split; [done|].
      destruct Hst as [(_ & [=] & _)|[(_ & _ & [=] & _)|(_ & _ & E)]]. by rewrite <- Ew, E. }
  destruct Hst as [(_ & [=] & _)|[(Hef & _ & _ & l & -> & Hw & Hp & Hcb)|(_ & [=] & _)]].
  rewrite andb_true_r in H. cbn [andb].
  destruct (added_cycle trans <=? tr_clk_ c); cbn [andb negb].
  2:{ injection H as <- <- <-. by exists (l :: lines file). }
  rewrite Hp in H. cbn [negb] in H. apply bind_Ok in H as ([[m2 b] l2] & Hsub & [= <- <- <-]).
  unfold submit in Hsub. apply bind_Ok in Hsub as (ok & -> & Hsub). cbn [writes_of] in Ew.
  rewrite bool_decide_eq_true_2 in Ew by done. rewrite <- Ew. apply Forall_cons in Hok as Hok'. destruct Hok' as [_ Hok'].
  destruct ok; cbn [negb].
  - apply bind_Ok in Hsub as ([m3 b3] & _ & [= <- <- <-]). exists (lines file). split.
    + split; [done|]. split; [done|]. by left.
    + cbn. rewrite <- Hcb. split; [done|]. by destruct (writes_of (lines file)).
  - injection Hsub as <- <- <-. exists (l :: lines file). split; [|by cbn [writes_of]; rewrite bool_decide_eq_true_2].
    split; [done|]. split; [done|]. right. left. by eauto 10.
Qed.

Lemma take_turns (ls : list (Z * string * Z)) n :
  (line_callback <$> take 1 ls) ++ (line_callback <$> take n (drop 1 ls)) = line_callback <$> take (1 + n) ls.
Proof. destruct ls as [|l ls]; cbn; [by rewrite take_nil|done]. Qed.

(** Any number of cycles: one more line in every cycle that does not wait. *)
Lemma Trace_exact n : ∀ rem (c c' : TraceBasedCPU M) acc acc' rec rec',
  replays rem c → cycles Trace_ClockTick n (c, acc, rec) = Ok (c', acc', rec') →
  acc' = acc ++ (line_callback <$> take (turns (λ _, false) n c) (writes_of rem)).
Proof.
  induction n as [|n IH]; intros rem c c' acc acc' rec rec' Hr; cbn [cycles turns].
  { intros [= <- <- <-]. by rewrite take_0, app_nil_r. }
  intros H. apply bind_Ok in H as ([[c1 s] r] & Ht & H). rewrite Ht.
  destruct (Trace_step _ _ _ _ _ Hr Ht) as (rem' & Hr' & Hw). apply (IH rem') in H as ->; [|done].
  destruct (waits c); destruct Hw as [-> ->]; [by rewrite app_nil_r|]. by rewrite <- (assoc (++)), take_turns.
Qed.

Lemma replays_start (m : M) file :
  final_newline file = true → eof file = false → Forall line_ok (lines file) →
  replays (lines file) (Trace_init m file).
Proof. intros Hn He Hl. split; [done|]. split; [done|]. by left. Qed.
End Replay.

Section Laws.
Context {S : Type} `{Hlaws : DRAMSystemLaws S} (gen : nat → Z).

Lemma submit_spec (s : S) a w :
  sys_ok s → sys_addr s a →
  ∃ (s' : S) (b : bool), submit a w s = Ok (s', b, if b then [callback_of a w] else []) ∧ sys_ok s' ∧
    sys_left s' = sys_left s ∧ (∀ a', sys_addr s a' → sys_addr s' a') ∧
    sys_pending s' ≡ₚ (if b then [callback_of a w] else []) ++ sys_pending s.
Proof.
  intros Hs Ha. unfold submit. destruct (sys_accept s a w Hs Ha) as [[] Hacc]; rewrite Hacc;
    cbn [mbind outcome_bind].
  - destruct (sys_add s a w Hs Ha Hacc) as (s' & -> & ? & ? & ? & ?). cbn [mbind outcome_bind].
    by exists s', true.
  - by exists s, false.
Qed.

Lemma submit_once_spec (s : S) ins a w :
  sys_ok s → sys_addr s a →
  ∃ (s' : S) (b : bool) l, submit_once ins a w s = Ok (s', b, l) ∧ sys_ok s' ∧
    sys_left s' = sys_left s ∧ (∀ a', sys_addr s a' → sys_addr s' a') ∧
    sys_pending s' ≡ₚ l ++ sys_pending s.
Proof.
  intros Hs Ha. unfold submit_once. destruct ins; [by exists s, true, []|].
  destruct (submit_spec s a w Hs Ha) as (s' & b & -> & ? & ? & ? & ?).
  exists s', b. by eexists.
Qed.

(** What a cycle of a processor guarantees about its memory system. *)
Definition cycle_ok {C} (mem : C → S) (Inv : list callback → C → Prop)
    (tick : C → outcome (C * list callback * list callback)) : Prop :=
  ∀ c acc, Inv acc c → sys_ok (mem c) → (∀ a, 0 ≤ a < 2 ^ 64 → sys_addr (mem c) a) →
  0 < sys_left (mem c) →
  ∃ c' s r, tick c = Ok (c', s, r) ∧ Inv (acc ++ s) c' ∧ sys_ok (mem c') ∧
    (∀ a, 0 ≤ a < 2 ^ 64 → sys_addr (mem c') a) ∧
    sys_left (mem c') = sys_left (mem c) - 1 ∧
    s ++ sys_pending (mem c) ≡ₚ r ++ sys_pending (mem c').

Lemma cycles_spec {C} (mem : C → S) Inv tick n : ∀ c acc rec,
  cycle_ok mem Inv tick → Inv acc c → sys_ok (mem c) →
  (∀ a, 0 ≤ a < 2 ^ 64 → sys_addr (mem c) a) → Z.of_nat n ≤ sys_left (mem c) →
  ∃ c' acc' rec', cycles tick n (c, acc, rec) = Ok (c', acc', rec') ∧ Inv acc' c' ∧
    acc' ++ rec ++ sys_pending (mem c) ≡ₚ acc ++ rec' ++ sys_pending (mem c').
Proof.
  induction n as [|n IH]; intros c acc rec Ht Hi Hs Ha Hb; cbn [cycles].
  { by exists c, acc, rec. }
  destruct (Ht c acc Hi Hs Ha) as (c1 & s & r & -> & Hi1 & Hs1 & Ha1 & Ht1 & Hp); [lia|].
  cbn [mbind outcome_bind].
  destruct (IH c1 (acc ++ s) (rec ++ r) Ht Hi1 Hs1 Ha1) as (c2 & acc2 & rec2 & -> & Hi2 & Hp2); [lia|].
  exists c2, acc2, rec2. split; [done|]. split; [done|].
  by eapply carry_callbacks.
Qed.

(** *** A cycle of each processor *)

Lemma Random_cycle :
  (∀ n, 0 ≤ gen n < 2 ^ 64) → cycle_ok rnd_memory_system_ random_ok (Random_ClockTick gen).
Proof.
  intros Hg c acc Hi Hs Ha Hb. unfold Random_ClockTick.
  destruct (sys_tick _ Hs Hb) as (s1 & r & -> & Hs1 & Ht1 & Ha1 & Hp1). cbn [mbind outcome_bind].
  set (addr := if rnd_get_next_ c then _ else _).
  assert (Haddr : 0 ≤ addr < 2 ^ 64) by (unfold addr; by destruct (rnd_get_next_ c)).
  set (wr := if rnd_get_next_ c then _ else _).
  destruct (submit_spec s1 addr wr Hs1) as (s2 & b & -> & Hs2 & Ht2 & Ha2 & Hp2); [auto|].
  cbn [mbind outcome_bind]. eexists _, _, _. split; [reflexivity|].
  split_and!; [done|done|simpl; auto|simpl; lia|simpl]. by rewrite Hp1, Hp2, Permutation_app_swap_app.
Qed.

Lemma Stream_cycle : cycle_ok str_memory_system_ stream_ok (Stream_ClockTick gen).
Proof.
  intros c acc _ Hs Ha Hb. unfold Stream_ClockTick.
  destruct (sys_tick _ Hs Hb) as (s1 & r & -> & Hs1 & Ht1 & Ha1 & Hp1). cbn [mbind outcome_bind].
  cbv zeta.
  destruct (submit_once_spec s1 (inserted_a_ c)
    (u64 ((if (array_size_ <=? offset_ c) || (str_clk_ c =? 0) then gen (str_draws c) else addr_a_ c) +
          (if (array_size_ <=? offset_ c) || (str_clk_ c =? 0) then 0 else offset_ c))) false Hs1)
    as (s2 & ia & l1 & -> & Hs2 & Ht2 & Ha2 & Hp2); [auto using u64_range|]. cbn [mbind outcome_bind].
  edestruct (submit_once_spec s2 (inserted_b_ c)) as (s3 & ib & l2 & -> & Hs3 & Ht3 & Ha3 & Hp3);
    [done|auto using u64_range|]. cbn [mbind outcome_bind].
  edestruct (submit_once_spec s3 (inserted_c_ c)) as (s4 & ic & l3 & -> & Hs4 & Ht4 & Ha4 & Hp4);
    [done|auto using u64_range|]. cbn [mbind outcome_bind].
  eexists _, _, _. split; [reflexivity|].
  split_and!; [done|done|simpl; auto 10|simpl; lia|simpl]. rewrite Hp1, Hp4, Hp3, Hp2.
  rewrite (Permutation_app_swap_app r l3), (Permutation_app_swap_app r l2), (Permutation_app_swap_app r l1).
  rewrite !(assoc (++)). do 2 f_equiv. rewrite (Permutation_app_comm l3 l2), <- (assoc (++)).
  by rewrite (Permutation_app_comm l1).
Qed.

(** Reading the next line keeps the replay in order. *)
Lemma read_line_ok trace acc (c : TraceBasedCPU S) (s : S) clk file trans :
  replay_ok trace acc c →
  (if tr_get_next_ c then read_line (trace_file_ c) (trans_ c)
   else (trace_file_ c, trans_ c)) = (file, trans) →
  replay_ok trace acc (mkTraceCPU s clk file trans false).
Proof.
  intros [Hl Hh (past & Htr & Hpre & Hn & Hf)] Hread.
  destruct (tr_get_next_ c) eqn:Eg; [|injection Hread as <- <-; split; simpl; eauto 10].
  unfold read_line in Hread. destruct (lines (trace_file_ c)) as [|[[a op] cyc] rest] eqn:El;
    injection Hread as <- <-.
  - split; simpl; [done|done|]. exists past. by split_and!.
  - apply Forall_cons in Hl as [[Hr Hp] Hl]. simpl in Hr, Hp. split; simpl; [done| |].
    + intros _ _. split; [done|]. by apply bool_decide_eq_false_2.
    + exists (past ++ [(a, op, cyc)]). rewrite <- (assoc (++)), fmap_app. simpl.
      rewrite (Hn eq_refl). split_and!; [done|by apply prefix_app_r|done|done].
Qed.

Lemma Trace_cycle trace : cycle_ok tr_memory_system_ (replay_ok trace) Trace_ClockTick.
Proof.
  intros c acc Hi Hs Ha Hb. unfold Trace_ClockTick.
  destruct (sys_tick _ Hs Hb) as (s1 & r & -> & Hs1 & Ht1 & Ha1 & Hp1). cbn [mbind outcome_bind].
  assert (Hquiet : ∀ c' : TraceBasedCPU S, replay_ok trace acc c' → tr_memory_system_ c' = s1 →
    ∃ c2 s r', Ok (c', [], r) = Ok (c2, s, r') ∧ replay_ok trace (acc ++ s) c2 ∧
      sys_ok (tr_memory_system_ c2) ∧
      (∀ a, 0 ≤ a < 2 ^ 64 → sys_addr (tr_memory_system_ c2) a) ∧
      sys_left (tr_memory_system_ c2) = sys_left (tr_memory_system_ c) - 1 ∧
      s ++ sys_pending (tr_memory_system_ c) ≡ₚ r' ++ sys_pending (tr_memory_system_ c2)).
  { intros c' Hc' Em. exists c', [], r. rewrite app_nil_r, Em. split_and!; auto. }
  destruct (eof (trace_file_ c)).
  { apply Hquiet; [|done]. destruct Hi. by split. }
  destruct (if tr_get_next_ c then _ else _) as [file trans] eqn:Eread.
  pose proof (read_line_ok _ _ _ s1 (u64 (tr_clk_ c + 1)) _ _ Hi Eread) as Hi1.
  destruct ((added_cycle trans <=? tr_clk_ c) && active trans) eqn:Eact; [|by apply Hquiet].
  apply andb_prop in Eact as [_ Eact].
  destruct (rp_hand _ _ _ Hi1 eq_refl Eact) as [Haddr Hpim]. simpl in Haddr, Hpim.
  rewrite Hpim. cbn [negb].
  destruct (submit_spec s1 (trans_addr trans) (is_write trans) Hs1) as (s2 & b & -> & Hs2 & Ht2 & Ha2 & Hp2); [auto|].
  cbn [mbind outcome_bind]. eexists _, _, _. split; [reflexivity|]. split.
  - destruct Hi1 as [Hl Hh (past & Htr & Hpre & Hn & Hf)]. simpl in *.
    specialize (Hf eq_refl Eact). destruct b; simpl; [|rewrite app_nil_r; split; simpl; eauto 10].
    split; simpl; [done|done|]. exists past. by rewrite Hf.
  - simpl. split_and!; [done|auto|lia|]. by rewrite Hp1, Hp2, Permutation_app_swap_app.
Qed.

(** A line whose operation is neither a write nor PIM is never retired. *)
Lemma Trace_stalled (c : TraceBasedCPU S) :
  sys_ok (tr_memory_system_ c) → 0 < sys_left (tr_memory_system_ c) →
  tr_get_next_ c = false → active (trans_ c) = false →
  ∃ s r, Trace_ClockTick c =
    Ok (mkTraceCPU s (u64 (tr_clk_ c + 1)) (trace_file_ c) (trans_ c) false, [], r) ∧
    sys_ok s ∧ sys_left s = sys_left (tr_memory_system_ c) - 1.
Proof.
  intros Hs Hb Hn Ha. unfold Trace_ClockTick.
  destruct (sys_tick _ Hs Hb) as (s1 & r & -> & Hs1 & Ht1 & _ & _). cbn [mbind outcome_bind].
  rewrite Hn, Ha, andb_false_r. exists s1, r. by destruct (eof (trace_file_ c)).
Qed.

Lemma Trace_stalled_forever n : ∀ (c : TraceBasedCPU S) acc rec,
  sys_ok (tr_memory_system_ c) → Z.of_nat n ≤ sys_left (tr_memory_system_ c) →
  tr_get_next_ c = false → active (trans_ c) = false →
  ∃ c' rec', cycles Trace_ClockTick n (c, acc, rec) = Ok (c', acc, rec') ∧
    trace_file_ c' = trace_file_ c.
Proof.
  induction n as [|n IH]; intros c acc rec Hs Hb Hn Ha; cbn [cycles]; [by exists c, rec|].
  destruct (Trace_stalled c Hs) as (s & r & -> & Hs1 & Ht1); [lia|done|done|].
  cbn [mbind outcome_bind]. rewrite app_nil_r.
  edestruct (IH (mkTraceCPU s (u64 (tr_clk_ c + 1)) (trace_file_ c) (trans_ c) false) acc (rec ++ r))
    as (c2 & rec2 & -> & Hf); [done|simpl; lia|done|done|]. by exists c2, rec2.
Qed.
End Laws.

(** ** Properties *)

(** [C18] Every processor, connected to any memory system that keeps the
    contract and serves all 64-bit addresses, runs for any number of cycles
    that the contract covers without failing: what it has submitted is what it
    has received plus what the memory system still owes.  For a trace without
    PIM lines ([line_ok]) the replay has submitted a beginning of the trace, in
    its order; and if the file ends in a newline, exactly the first [k] of the
    lines before the first line that is not a write, where [k] counts the
    cycles in which the transaction at hand neither waited for its cycle nor
    was refused.  (A line that is neither a write nor PIM, such as [READ], ends
    the replay: [trace_read_stalls].) *)
Theorem processors_conserve {M} `{DRAMSystemLaws M} (gen : nat → Z) (m : M) file n :
  (∀ k, 0 ≤ gen k < 2 ^ 64) → sys_ok m → sys_pending m = [] →
  (∀ a, 0 ≤ a < 2 ^ 64 → sys_addr m a) → Z.of_nat n ≤ sys_left m →
  Forall line_ok (lines file) →
  (∃ c s r, cycles (Random_ClockTick gen) n (Random_init m, [], []) = Ok (c, s, r) ∧
     s ≡ₚ r ++ sys_pending (rnd_memory_system_ c)) ∧
  (∃ c s r, cycles (Stream_ClockTick gen) n (Stream_init m, [], []) = Ok (c, s, r) ∧
     s ≡ₚ r ++ sys_pending (str_memory_system_ c)) ∧
  (∃ c s r, cycles Trace_ClockTick n (Trace_init m file, [], []) = Ok (c, s, r) ∧
     s ≡ₚ r ++ sys_pending (tr_memory_system_ c) ∧
     s `prefix_of` (line_callback <$> lines file) ∧
     (final_newline file = true → eof file = false →
        s = line_callback <$> take (turns (λ _, false) n (Trace_init m file)) (writes_of (lines file)))).
Proof.
  intros Hg Hs Hp Ha Hb Hl. split_and!.
  - destruct (cycles_spec rnd_memory_system_ random_ok (Random_ClockTick gen) n (Random_init m) [] [])
      as (c & s & r & E & _ & Hc); [by apply Random_cycle|done..|].
    exists c, s, r. split; [done|]. simpl in Hc. by rewrite Hp, app_nil_r in Hc.
  - destruct (cycles_spec str_memory_system_ stream_ok (Stream_ClockTick gen) n (Stream_init m) [] [])
      as (c & s & r & E & _ & Hc); [by apply Stream_cycle|done..|].
    exists c, s, r. split; [done|]. simpl in Hc. by rewrite Hp, app_nil_r in Hc.
  - destruct (cycles_spec tr_memory_system_ (replay_ok (lines file)) Trace_ClockTick n
      (Trace_init m file) [] []) as (c & s & r & E & Hi & Hc); [apply Trace_cycle| |done..|].
    { split; simpl; [done|done|]. by exists []. }
    exists c, s, r. split; [done|]. simpl in Hc. rewrite Hp, app_nil_r in Hc. split; [done|]. split.
    + destruct Hi as [_ _ (past & -> & Hpre & _)]. rewrite fmap_app. by apply prefix_app_r.
    + intros Hnl He. exact (Trace_exact n (lines file) _ c [] s [] r (replays_start m file Hnl He Hl) E).
Qed.

(** A memory with a latency of two cycles and a short trace. *)
Definition small_memory : IdealDRAMSystem := mkIdeal 0 2 [] false.
Definition small_trace : TraceFile :=
  mkTraceFile [(64, "WRITE"%string, 0); (128, "P_MEM_WR"%string, 1)] true false.
Definition small_gen (n : nat) : Z := Z.of_nat n mod 2 ^ 64.

Lemma small_memory_ok : ideal_ok small_memory.
Proof. split; simpl; [lia|lia|constructor]. Qed.

(** Both lines of a trace are submitted, in two cycles. *)
Lemma processors_conserve_witness :
  ∃ c r, cycles Trace_ClockTick 5 (Trace_init small_memory small_trace, [], []) =
      Ok (c, [WriteCallback 64; WriteCallback 128], r) ∧
    [WriteCallback 64; WriteCallback 128] ≡ₚ r ++ sys_pending (tr_memory_system_ c) ∧
    [WriteCallback 64; WriteCallback 128]
      = line_callback <$> take (turns (λ _, false) 5 (Trace_init small_memory small_trace)) (writes_of (lines small_trace)).
Proof.
  destruct (processors_conserve small_gen small_memory small_trace 5) as (_ & _ & c & s & r & E & Hp & _ & Ht).
  - intros k. apply Z.mod_pos_bound. lia.
  - apply small_memory_ok.
  - reflexivity.
  - intros a _. exact I.
  - vm_compute. congruence.
  - repeat constructor; simpl; try lia; set_solver.
  - specialize (Ht eq_refl eq_refl). vm_compute in E. injection E as <- <- <-.
    eexists _, _. split; [vm_compute; reflexivity|]. split; [exact Hp|exact Ht].
Defined.

(** A trace line whose operation is neither a write nor PIM, such as
    [READ], ends the replay: it is read as an inactive transaction, no line
    after it is ever read and nothing more is submitted. *)
Theorem trace_read_stalls {M} `{DRAMSystemLaws M} (c : TraceBasedCPU M) a op cyc rest n :
  sys_ok (tr_memory_system_ c) → Z.of_nat (S n) ≤ sys_left (tr_memory_system_ c) →
  eof (trace_file_ c) = false → tr_get_next_ c = true →
  lines (trace_file_ c) = (a, op, cyc) :: rest → op ∉ write_types → op ∉ pim_types →
  ∃ c' received, cycles Trace_ClockTick (S n) (c, [], []) = Ok (c', [], received) ∧
    lines (trace_file_ c') = rest.
Proof.
  intros Hs Hb He Hn Hl Hw Hp. cbn [cycles]. unfold Trace_ClockTick at 2.
  destruct (sys_tick _ Hs) as (s1 & r & -> & Hs1 & Ht1 & _ & _); [lia|]. cbn [mbind outcome_bind].
  rewrite He, Hn. unfold read_line. rewrite Hl. cbn [active read_transaction].
  rewrite !bool_decide_eq_false_2 by done. cbn [negb andb]. rewrite andb_false_r.
  cbn [mbind outcome_bind app].
  match goal with |- context [cycles _ n (?c1, [], r)] =>
    destruct (Trace_stalled_forever n c1 [] r) as (c2 & rec2 & -> & Hf) end;
    [done|simpl; lia|done| |].
  - simpl. by rewrite !bool_decide_eq_false_2.
  - exists c2, rec2. split; [done|]. by rewrite Hf.
Qed.

Lemma trace_read_stalls_witness :
  ∃ c' received, cycles Trace_ClockTick 100
      (Trace_init small_memory
         (mkTraceFile [(64, "READ"%string, 0); (128, "WRITE"%string, 1)] true false), [], []) =
      Ok (c', [], received) ∧
    lines (trace_file_ c') = [(128, "WRITE"%string, 1)].
Proof.
  apply (trace_read_stalls (Trace_init small_memory
    (mkTraceFile [(64, "READ"%string, 0); (128, "WRITE"%string, 1)] true false)) 64 "READ" 0
    [(128, "WRITE"%string, 1)] 99).
  - apply small_memory_ok.
  - vm_compute. congruence.
  - reflexivity.
  - reflexivity.
  - reflexivity.
  - set_solver.
  - set_solver.
Defined.
