(* ===== verification/MemorySystem.v ===== *)
(** * The facade and the main loop: src/src/memory_system.cc and src/src/main.cc

    [MemorySystem] owns the configuration and the memory system it selects, a
    cube or a JEDEC system, and forwards every call to it; the main program
    builds a processor around it, runs it for a number of cycles and prints the
    statistics.  The theorem about the main program composes the contracts of
    all the components below it. *)
From stdpp Require Import base tactics numbers list list_numbers gmap strings sets.
From coqutil Require Import Datatypes.RecordSetters.
From S2P Require Import Prelude Common Double Configuration AddressMapping ChannelState Refresh.
From S2P Require Import SimpleStats CommandQueue Controller ControllerSafety DramSystem.
From S2P Require Import JedecSystem JedecSafety Hmc HmcSafety Cpu.

Import TriangleBracketNotations.
Local Open Scope Z_scope.

(** ** The facade *)

Inductive MemorySystem :=
| HMCDram (s : HMCMemorySystem)
| JedecDram (s : JedecDRAMSystem).

Definition MemorySystem_init (config : Config) : outcome MemorySystem :=
  if IsHMC config then s ← HMC_init config; Ok (HMCDram s)
  else s ← Jedec_init config; Ok (JedecDram s).

Definition ms_config (m : MemorySystem) : Config :=
  match m with HMCDram s => hs_config s | JedecDram s => js_config s end.

Definition GetTCK (m : MemorySystem) : double := tCK (ms_config m).
Definition GetBusBits (m : MemorySystem) : Z := bus_width (ms_config m).
Definition GetBurstLength (m : MemorySystem) : Z := BL (ms_config m).
Definition GetQueueSize (m : MemorySystem) : Z := trans_queue_size (ms_config m).

Section Facade.
Context (fmt_double : double → string) (stat_text : string → string → string → string).

(** Every call goes to the memory system behind the facade. *)
#[global] Instance memory_system : DRAMSystem MemorySystem := {
  ds_will_accept_pim m :=
    match m with
    | HMCDram s => @ds_will_accept_pim _ (hmc_system fmt_double stat_text) s
    | JedecDram s => @ds_will_accept_pim _ (jedec_system fmt_double stat_text) s
    end;
  ds_add_pim a m :=
    match m with
    | HMCDram s => '(s, b) ← @ds_add_pim _ (hmc_system fmt_double stat_text) a s; Ok (HMCDram s, b)
    | JedecDram s => '(s, b) ← @ds_add_pim _ (jedec_system fmt_double stat_text) a s; Ok (JedecDram s, b)
    end;
  ds_will_accept m a w :=
    match m with
    | HMCDram s => @ds_will_accept _ (hmc_system fmt_double stat_text) s a w
    | JedecDram s => @ds_will_accept _ (jedec_system fmt_double stat_text) s a w
    end;
  ds_add a w m :=
    match m with
    | HMCDram s => '(s, b) ← @ds_add _ (hmc_system fmt_double stat_text) a w s; Ok (HMCDram s, b)
    | JedecDram s => '(s, b) ← @ds_add _ (jedec_system fmt_double stat_text) a w s; Ok (JedecDram s, b)
    end;
  ds_tick m :=
    match m with
    | HMCDram s => '(s, cbs) ← @ds_tick _ (hmc_system fmt_double stat_text) s; Ok (HMCDram s, cbs)
    | JedecDram s => '(s, cbs) ← @ds_tick _ (jedec_system fmt_double stat_text) s; Ok (JedecDram s, cbs)
    end;
  ds_turn_off m :=
    match m with
    | HMCDram s => @ds_turn_off _ (hmc_system fmt_double stat_text) s
    | JedecDram s => @ds_turn_off _ (jedec_system fmt_double stat_text) s
    end
}.

Definition MemorySystem_PrintStats (m : MemorySystem) : outcome (MemorySystem * list FileOp) :=
  match m with
  | HMCDram s =>
      '(cs, ops) ← Base_PrintStats fmt_double stat_text (hs_config s) (hs_ctrls_ s);
      Ok (HMCDram (s <| hs_ctrls_ := cs |>), ops)
  | JedecDram s =>
      '(s, ops) ← PrintStats fmt_double stat_text s; Ok (JedecDram s, ops)
  end.

Definition MemorySystem_ResetStats (m : MemorySystem) : MemorySystem :=
  match m with
  | HMCDram s => HMCDram (s <| hs_ctrls_ := Controller.ResetStats <$> hs_ctrls_ s |>)
  | JedecDram s => JedecDram (ResetStats s)
  end.

(** ** The main program

    [open_trace] opens a file by its name; [gen] is the generator of the random
    and the stream processor. *)
Context (open_trace : string → option TraceFile) (gen : nat → Z).

Inductive CPU :=
| ARandomCPU (c : RandomCPU MemorySystem)
| AStreamCPU (c : StreamCPU MemorySystem)
| ATraceCPU (c : TraceBasedCPU MemorySystem).

Definition cpu_memory (c : CPU) : MemorySystem :=
  match c with
  | ARandomCPU c => rnd_memory_system_ c
  | AStreamCPU c => str_memory_system_ c
  | ATraceCPU c => tr_memory_system_ c
  end.

Definition CPU_init (trace_file stream_type : string) (m : MemorySystem) : outcome CPU :=
  if negb (bool_decide (trace_file = EmptyString)) then
    f ← from_option_or (AbruptExit "cpu.cc" 69) (open_trace trace_file);
    Ok (ATraceCPU (Trace_init m f))
  else if bool_decide (stream_type = "stream"%string) || bool_decide (stream_type = "s"%string)
  then Ok (AStreamCPU (Stream_init m))
  else Ok (ARandomCPU (Random_init m)).

Definition CPU_ClockTick (c : CPU) : outcome (CPU * list callback * list callback) :=
  match c with
  | ARandomCPU c => '(c, s, r) ← Random_ClockTick gen c; Ok (ARandomCPU c, s, r)
  | AStreamCPU c => '(c, s, r) ← Stream_ClockTick gen c; Ok (AStreamCPU c, s, r)
  | ATraceCPU c => '(c, s, r) ← Trace_ClockTick c; Ok (ATraceCPU c, s, r)
  end.

(** The loop over [clk]: it ends early when the accelerator has turned off.
    Every processor is asked as if it were a [TraceBasedCPU]; the answer is read
    from the memory system, which all of them have. *)
Fixpoint main_loop (cycles : nat) (x : CPU * list callback * list callback)
    : outcome (CPU * list callback * list callback) :=
  match cycles with
  | O => Ok x
  | S cycles =>
      let '(c, submitted, received) := x in
      '(c, s, r) ← CPU_ClockTick c;
      let x := (c, submitted ++ s, received ++ r) in
      if ds_turn_off (cpu_memory c) then Ok x else main_loop cycles x
  end.

(** The program after the command line has been parsed; a missing configuration
    file name ends it before ([config_file.empty()]).  The result is the
    processor, what it submitted and received, and the files written. *)
Definition simulate (reader : INIReader) (dir_exist : bool) (output_dir : string) (cycles : Z)
    (trace_file stream_type : string)
    : outcome (CPU * list callback * list callback * list FileOp) :=
  config ← Config_init reader dir_exist output_dir;
  m ← MemorySystem_init config;
  cpu ← CPU_init trace_file stream_type m;
  '(cpu, submitted, received) ← main_loop (Z.to_nat cycles) (cpu, [], []);
  '(_, ops) ← MemorySystem_PrintStats (cpu_memory cpu);
  Ok (cpu, submitted, received, ops).
End Facade.

(** ** Specification *)

Definition ms_ok (m : MemorySystem) : Prop :=
  match m with HMCDram s => hmc_ok s | JedecDram s => jedec_ok s end.
Definition ms_addr (m : MemorySystem) (a : Z) : Prop :=
  match m with HMCDram s => hmc_addr s a | JedecDram s => jedec_addr s a end.
Definition ms_pending (m : MemorySystem) : list callback :=
  match m with HMCDram s => hmc_pending s | JedecDram s => owed (ctrls_ s) end.
Definition ms_left (m : MemorySystem) : Z :=
  match m with HMCDram s => 2 ^ 53 - hs_clk_ s | JedecDram s => 2 ^ 63 - js_clk_ s end.

(** A configuration that the program is meant for: its dimensions are positive
    [int]s, the controllers support it (without self refresh), the epoch is not
    empty, the queue structure is one that exists, and the clocks of a cube have
    a ratio and its crossbar can work. *)
Record runnable (config : Config) : Prop := {
  rn_dims : dimensions_ok config config config;
  rn_pos : dimensions_pos config config config;
  rn_supported : supported config;
  rn_epoch : u64 (epoch_period config) ≠ 0;
  rn_queues : queue_structure config ∈ ["PER_BANK"; "PER_RANK"]%string;
  rn_cube : IsHMC config = true → cube_ok config ∧ ∃ ratio, SetClockRatio config = Ok ratio
}.

(** The processor between two cycles; [replay] tells whether it replays
    [trace]. *)
Definition cpu_ok (replay : bool) (trace : list (Z * string * Z)) (submitted : list callback) (c : CPU) : Prop :=
  match c with
  | ARandomCPU c => replay = false ∧ random_ok submitted c
  | AStreamCPU c => replay = false ∧ stream_ok submitted c
  | ATraceCPU c => replay_ok trace submitted c
  end.

(** ** The facade keeps the contract *)

Section Contract.
Context (fd : double → string) (st : string → string → string → string).

#[global] Program Instance memory_laws : @DRAMSystemLaws MemorySystem (memory_system fd st) := {
  sys_ok := ms_ok;
  sys_addr := ms_addr;
  sys_pending := ms_pending;
  sys_left := ms_left
}.
Next Obligation.
  intros [s|s] a w Hs Ha; [exact (sys_accept (DRAMSystemLaws := hmc_laws fd st) s a w Hs Ha)|].
  exact (sys_accept (DRAMSystemLaws := jedec_laws fd st) s a w Hs Ha).
Qed.
Next Obligation.
  intros [s|s] a w Hs Ha Hacc; cbn [ds_add memory_system].
  - destruct (sys_add (DRAMSystemLaws := hmc_laws fd st) s a w Hs Ha Hacc) as (s' & -> & H).
    by exists (HMCDram s').
  - destruct (sys_add (DRAMSystemLaws := jedec_laws fd st) s a w Hs Ha Hacc) as (s' & -> & H).
    by exists (JedecDram s').
Qed.
Next Obligation.
  intros [s|s] Hs Hl; cbn [ds_tick memory_system].
  - destruct (sys_tick (DRAMSystemLaws := hmc_laws fd st) s Hs Hl) as (s' & cbs & -> & H).
    by exists (HMCDram s'), cbs.
  - destruct (sys_tick (DRAMSystemLaws := jedec_laws fd st) s Hs Hl) as (s' & cbs & -> & H).
    by exists (JedecDram s'), cbs.
Qed.

Lemma MemorySystem_PrintStats_spec m :
  ms_ok m → ∃ m' ops, MemorySystem_PrintStats fd st m = Ok (m', ops).
Proof.
  destruct m as [s|s]; intros Hs; unfold MemorySystem_PrintStats, PrintStats.
  - destruct (base_stats_spec fd st _ _ _ (tr_ctrls _ _ (proj1 Hs))) as (cs & ops & -> & _).
    by eexists _, _.
  - destruct (base_stats_spec fd st _ _ _ (jo_ctrls _ (proj1 Hs))) as (cs & ops & -> & _).
    by eexists _, _.
Qed.
End Contract.

(** Every address can be served: the mapping stays within the device. *)
Lemma runnable_addr reader dir_exist out_dir (config : Config) m a :
  Config_init reader dir_exist out_dir = Ok config → runnable config →
  ms_config m = config → (match m with HMCDram s => vsize (hs_ctrls_ s) | JedecDram s => vsize (ctrls_ s) end)
    = channels config → ms_addr m a.
Proof.
  intros H [Hd Hp _ _ _ _] Hc Hv. apply Config_init_mapping in H.
  destruct (mapping_bounds config config config config a Hd Hp H) as (Hch & Hra & Hbg & Hba & _).
  destruct m as [s|s]; simpl in *; unfold hmc_addr, jedec_addr; rewrite Hc, Hv; by split.
Qed.

(** The memory system of a runnable configuration can be built. *)
Lemma Controller_init_total (config : Config) ch :
  runnable config → ∃ c, Controller_init config ch = Ok c.
Proof.
  intros [_ _ [[Hr _ _ _] _ _ _ _] _ Hq _]. unfold Controller_init, CommandQueue_init, Refresh_init, idiv.
  rewrite (proj2 (Z.eqb_neq (ranks config) 0)) by lia.
  assert (queue_structure config = "PER_BANK"%string ∨ queue_structure config = "PER_RANK"%string) as [->| ->] by set_solver;
    cbn; destruct (refresh_policy config); cbn; by eexists.
Qed.

Lemma controllers_total (config : Config) :
  runnable config →
  ∃ cs, for_range (channels config) (λ i cs, c ← Controller_init config i; Ok (cs ++ [c])) [] = Ok cs.
Proof.
  intros Hr. destruct (for_each_total (λ _ : list Controller, True)
    (λ i cs, c ← Controller_init config i; Ok (cs ++ [c])) (seqZ 0 (channels config)) []) as (cs & H & _); [|done|by exists cs].
  intros i cs _ _. destruct (Controller_init_total config i Hr) as [c ->]. by eexists.
Qed.

Lemma MemorySystem_init_total (config : Config) :
  runnable config → ∃ m, MemorySystem_init config = Ok m.
Proof.
  intros Hr. pose proof Hr as [_ Hp [[Hk Hg Hb _] _ _ _ _] _ _ Hcube].
  assert (0 ≤ channels config) by (destruct Hp as [? _]; lia).
  destruct (controllers_total config Hr) as [cs Hcs].
  unfold MemorySystem_init, HMC_init, Jedec_init, reserve. destruct (IsHMC config) eqn:E; cbn [negb].
  - destruct (Hcube eq_refl) as [[_ Hl _] [[a b] ->]]. cbn [mbind outcome_bind].
    rewrite (proj2 (Z.leb_le 0 (channels config))) by done. cbn [ensure mbind outcome_bind]. rewrite Hcs. cbn [mbind outcome_bind].
    rewrite (proj2 (Z.leb_le 0 (num_links config))) by lia. by eexists.
  - rewrite (proj2 (Z.leb_le 0 (channels config))) by done. cbn [ensure mbind outcome_bind]. rewrite Hcs. cbn [mbind outcome_bind].
    rewrite (proj2 (Z.leb_le 0 _)) by nia. destruct (channels config =? 0); by eexists.
Qed.

Lemma MemorySystem_init_ok reader dir_exist out_dir (config : Config) m :
  Config_init reader dir_exist out_dir = Ok config → runnable config →
  MemorySystem_init config = Ok m →
  ms_ok m ∧ ms_pending m = [] ∧ 2 ^ 53 ≤ ms_left m ∧ ∀ a, ms_addr m a.
Proof.
  intros Hcfg Hr H. pose proof Hr as [Hd Hp Hs He _ Hcube]. unfold MemorySystem_init in H.
  assert (Hmax : Z.max 0 (channels config) = channels config) by (destruct Hp as [? _]; lia).
  destruct (IsHMC config) eqn:E.
  - apply bind_Ok in H as (s & H & [= <-]).
    destruct (HMC_init_ok config s Hs He (proj1 (Hcube eq_refl)) H) as (Hok & Hc & Hk & Hv & Hpe).
    split_and!; [done|done|simpl; lia|]. intros a.
    eapply (runnable_addr reader dir_exist out_dir config); [done..|congruence].
  - apply bind_Ok in H as (s & H & [= <-]).
    destruct (Jedec_init_ok config s Hs He H) as (Hok & Hc & Hk & Hv & Hpe & _).
    split_and!; [done|done|simpl; lia|]. intros a.
    eapply (runnable_addr reader dir_exist out_dir config); [done..|congruence].
Qed.

(** ** The main loop *)

Section Main.
Context (fd : double → string) (st : string → string → string → string).
Context (open_trace : string → option TraceFile) (gen : nat → Z).
Hypothesis Hgen : ∀ k, 0 ≤ gen k < 2 ^ 64.

Lemma CPU_cycle replay trace :
  cycle_ok (Hlaws := memory_laws fd st) cpu_memory (cpu_ok replay trace) (CPU_ClockTick fd st gen).
Proof.
  intros [c|c|c] acc Hi Hs Ha Hl; cbn [CPU_ClockTick cpu_memory] in *.
  - destruct Hi as [-> Hi].
    destruct (Random_cycle gen Hgen c acc Hi Hs Ha Hl) as (c' & s & r & -> & Hi' & H).
    by exists (ARandomCPU c'), s, r.
  - destruct Hi as [-> Hi].
    destruct (Stream_cycle gen c acc Hi Hs Ha Hl) as (c' & s & r & -> & Hi' & H).
    by exists (AStreamCPU c'), s, r.
  - destruct (Trace_cycle trace c acc Hi Hs Ha Hl) as (c' & s & r & -> & H).
    by exists (ATraceCPU c'), s, r.
Qed.

Lemma main_loop_spec replay trace n : ∀ c acc rec,
  cpu_ok replay trace acc c → ms_ok (cpu_memory c) → (∀ a, 0 ≤ a < 2 ^ 64 → ms_addr (cpu_memory c) a) →
  Z.of_nat n ≤ ms_left (cpu_memory c) →
  ∃ c' acc' rec', main_loop fd st gen n (c, acc, rec) = Ok (c', acc', rec') ∧
    cpu_ok replay trace acc' c' ∧ ms_ok (cpu_memory c') ∧
    acc' ++ rec ++ ms_pending (cpu_memory c) ≡ₚ acc ++ rec' ++ ms_pending (cpu_memory c').
Proof.
  induction n as [|n IH]; intros c acc rec Hi Hs Ha Hb; cbn [main_loop]; [by exists c, acc, rec|].
  destruct (CPU_cycle replay trace c acc Hi Hs Ha) as (c1 & s & r & -> & Hi1 & Hs1 & Ha1 & Ht1 & Hp);
    [change (0 < ms_left (cpu_memory c)); lia|]. cbn [mbind outcome_bind].
  change (ms_left (cpu_memory c1) = ms_left (cpu_memory c) - 1) in Ht1.
  change (s ++ ms_pending (cpu_memory c) ≡ₚ r ++ ms_pending (cpu_memory c1)) in Hp.
  destruct (ds_turn_off _).
  - exists c1, (acc ++ s), (rec ++ r). split_and!; [done..|]. by eapply carry_callbacks.
  - destruct (IH c1 (acc ++ s) (rec ++ r) Hi1 Hs1 Ha1) as (c2 & acc2 & rec2 & -> & ? & ? & Hp2); [lia|].
    exists c2, acc2, rec2. split_and!; [done..|]. by eapply carry_callbacks.
Qed.

(** A replay submits one more line in every cycle that does not wait. *)
Lemma main_loop_exact n : ∀ rem c c' acc acc' rec rec',
  replays rem c → main_loop fd st gen n (ATraceCPU c, acc, rec) = Ok (c', acc', rec') →
  acc' = acc ++ (line_callback <$>
    take (@turns _ (memory_system fd st) (@turnOff _ (memory_system fd st)) n c) (writes_of rem)).
Proof.
  induction n as [|n IH]; intros rem c c' acc acc' rec rec' Hr; cbn [main_loop turns].
  { intros [= <- <- <-]. by rewrite take_0, app_nil_r. }
  intros H. apply bind_Ok in H as ([[c1 s] r] & Ht & H). cbn [CPU_ClockTick] in Ht.
  apply bind_Ok in Ht as ([[c2 s2] r2] & Ht & [= <- <- <-]). rewrite Ht.
  destruct (Trace_step _ _ _ _ _ Hr Ht) as (rem' & Hr' & Hw). cbn [cpu_memory] in H. unfold turnOff at 1.
  assert (Hrest : acc' = (acc ++ s2) ++ (line_callback <$>
    take (if @ds_turn_off _ (memory_system fd st) (tr_memory_system_ c2) then 0
          else @turns _ (memory_system fd st) (@turnOff _ (memory_system fd st)) n c2)%nat (writes_of rem'))).
  { destruct (@ds_turn_off _ _ _); [injection H as _ <- _; by rewrite take_0, app_nil_r|]. by apply (IH rem') in H. }
  rewrite Hrest. destruct (waits c); destruct Hw as [-> ->]; [by rewrite app_nil_r|]. by rewrite <- (assoc (++)), take_turns.
Qed.

(** The lines of the trace that the program replays, if it replays one. *)
Definition trace_lines (trace_file : string) : list (Z * string * Z) :=
  if bool_decide (trace_file = EmptyString) then [] else
  match open_trace trace_file with Some f => lines f | None => [] end.

Lemma CPU_init_ok trace_file stream_type m :
  (trace_file = EmptyString ∨ is_Some (open_trace trace_file)) →
  Forall line_ok (trace_lines trace_file) →
  ∃ c, CPU_init open_trace trace_file stream_type m = Ok c ∧
    cpu_ok (negb (bool_decide (trace_file = EmptyString))) (trace_lines trace_file) [] c ∧ cpu_memory c = m.
Proof.
  intros Ht Hl. unfold CPU_init, trace_lines in *. case_bool_decide as E; cbn [negb].
  - destruct (_ || _); eexists; (split; [reflexivity|]); by repeat split.
  - destruct Ht as [?|[f Hf]]; [done|]. rewrite Hf in Hl |- *. cbn [from_option_or mbind outcome_bind].
    eexists. split; [reflexivity|]. split; [|done]. split; simpl; [done|done|]. by exists [].
Qed.
End Main.

(** ** Properties *)


(** *** A cube driven by a trace *)

Definition sample_trace : TraceFile :=
  mkTraceFile [(64, "WRITE"%string, 0); (4096, "write"%string, 1)] true false.

Lemma sample_trace_ok : Forall line_ok (lines sample_trace).
Proof. repeat constructor; simpl; try lia; set_solver. Qed.

Lemma hmc_runnable : runnable hmc_config.
Proof.
  split.
  - repeat split; vm_compute; congruence.
  - repeat split; vm_compute; congruence.
  - apply hmc_supported.
  - vm_compute. congruence.
  - vm_compute. set_solver.
  - intros _. split; [apply hmc_cube|]. by eexists.
Qed.


(** ** A recorded run

    The packets of dramsim3addr.trace, in the cycles in which they were
    submitted.  On configs/HBM2_8Gb_x128.ini the model issues the commands
    recorded in dramsim3ch_0cmd.trace, all of them and each in its cycle (a run
    of 6077 cycles); the first twenty cycles are checked here: an activation
    in cycle 5 and a weight read in cycle 19, in every channel. *)
Definition recorded_packets : TraceFile :=
  mkTraceFile [(0x2e2060, "PIM"%string, 0); (0x4808000003000, "PIM"%string, 1);
    (0x4808000030020, "PIM"%string, 2); (0xc0, "PIM"%string, 3); (3, "PIM"%string, 4)] true false.

(** The numbers of activations and of weight reads in every channel after [n]
    cycles. *)
Definition recorded_counts (n : nat) : outcome (list (option Z * option Z)) :=
  m ← MemorySystem_init hbm2_config;
  '(c, _, _) ← main_loop no_double no_line small_gen n (ATraceCPU (Trace_init m recorded_packets), [], []);
  match cpu_memory c with
  | JedecDram s =>
      Ok ((λ c, (epoch_counters_ (simple_stats_ c) !! "num_act_cmds"%string,
                 epoch_counters_ (simple_stats_ c) !! "num_gh_read_cmds"%string)) <$> ctrls_ s)
  | HMCDram _ => Ok []
  end.

Example recorded_start :
  recorded_counts 5 = Ok (replicate 8 (Some 0, Some 0)) ∧
  recorded_counts 6 = Ok (replicate 8 (Some 1, Some 0)) ∧
  recorded_counts 19 = Ok (replicate 8 (Some 1, Some 0)) ∧
  recorded_counts 20 = Ok (replicate 8 (Some 1, Some 1)).
Proof. vm_compute. repeat split. Qed.
