(* ===== verification/Text.v ===== *)
(** * Numbers in text

    [std::stoi] and [std::stoull] of the standard library, on strings as lists
    of characters: white space, a sign and the longest sequence of decimal
    digits are read, and what follows is ignored.  Both throw if there is no
    digit or the number does not fit. *)
From Stdlib Require Import Ascii.
From stdpp Require Import base tactics numbers list list_numbers strings.
From S2P Require Import Prelude.


Local Open Scope Z_scope.

Definition text : Type := list ascii.

Definition code (c : ascii) : Z := Z.of_N (N_of_ascii c).

(** [isspace] in the default locale. *)
Definition is_space (c : ascii) : bool := (code c =? 32) || ((9 <=? code c) && (code c <=? 13)).

Definition digit (c : ascii) : option Z :=
  if (48 <=? code c) && (code c <=? 57) then Some (code c - 48) else None.

Fixpoint skip_space (s : text) : text :=
  match s with
  | c :: s' => if is_space c then skip_space s' else s
  | [] => []
  end.

(** The value of the digits at the start of a text, after [acc]. *)
Fixpoint digits (acc : Z) (s : text) : Z :=
  match s with
  | c :: s' => match digit c with Some d => digits (acc * 10 + d) s' | None => acc end
  | [] => acc
  end.

Definition number (s : text) : option Z :=
  match s with
  | c :: _ => match digit c with Some _ => Some (digits 0 s) | None => None end
  | [] => None
  end.

Definition strtol (s : text) : option Z :=
  match skip_space s with
  | c :: s' =>
      if code c =? 45 then Z.opp <$> number s'
      else if code c =? 43 then number s'
      else number (c :: s')
  | [] => None
  end.

Definition stoi (s : text) : outcome Z :=
  z ← from_option_or UncaughtException (strtol s);
  if (- 2 ^ 31 <=? z) && (z <? 2 ^ 31) then Ok z else Fail UncaughtException.

(** A negative number is negated as an unsigned one. *)
Definition stoull (s : text) : outcome Z :=
  z ← from_option_or UncaughtException (strtol s);
  if Z.abs z <? 2 ^ 64 then Ok (u64 z) else Fail UncaughtException.

(** ** Representations of a number *)

Definition is_digit (c : ascii) : Prop := ∃ d, digit c = Some d.

(** [ds] is the number [n] in decimal. *)
Definition decimal (n : Z) (ds : text) : Prop :=
  ds ≠ [] ∧ Forall is_digit ds ∧ digits 0 ds = n.

Lemma digit_not_space c : is_digit c → is_space c = false ∧ code c ≠ 45 ∧ code c ≠ 43.
Proof.
  intros [d Hd]. unfold digit in Hd. case_match; [|done]. split_bool. unfold is_space.
  rewrite orb_false_iff, andb_false_iff, Z.eqb_neq, !Z.leb_gt. lia.
Qed.

Lemma strtol_decimal n ds : decimal n ds → strtol ds = Some n.
Proof.
  intros (Hne & Hds & <-). destruct ds as [|c ds]; [done|]. apply Forall_cons in Hds as [Hc _].
  destruct (digit_not_space c Hc) as (Hs & H1 & H2). destruct Hc as [d Hd]. unfold strtol. cbn [skip_space].
  rewrite Hs, (proj2 (Z.eqb_neq _ _) H1), (proj2 (Z.eqb_neq _ _) H2). unfold number. by rewrite Hd.
Qed.

Lemma stoi_decimal n ds : 0 ≤ n < 2 ^ 31 → decimal n ds → stoi ds = Ok n.
Proof.
  intros Hn Hd. unfold stoi. rewrite (strtol_decimal n ds Hd). cbn [from_option_or mbind outcome_bind].
  rewrite (proj2 (Z.leb_le _ _)), (proj2 (Z.ltb_lt _ _)) by lia. done.
Qed.

Lemma stoull_decimal n ds : 0 ≤ n < 2 ^ 64 → decimal n ds → stoull ds = Ok n.
Proof.
  intros Hn Hd. unfold stoull. rewrite (strtol_decimal n ds Hd). cbn [from_option_or mbind outcome_bind].
  rewrite (proj2 (Z.ltb_lt _ _)), u64_id by lia. done.
Qed.

(** The digits of a number below [10 ^ fuel]. *)
Definition digit_char (d : Z) : ascii := ascii_of_N (Z.to_N (48 + d)).

Fixpoint write_digits (fuel : nat) (n : Z) : text :=
  match fuel with
  | O => []
  | S fuel =>
      (if n <? 10 then [] else write_digits fuel (n / 10)) ++ [digit_char (n mod 10)]
  end.

Lemma digit_char_digit d : 0 ≤ d < 10 → digit (digit_char d) = Some d.
Proof.
  intros Hd. assert (d ∈ seqZ 0 10) as H by (apply elem_of_seqZ; lia). clear Hd. revert d H.
  apply Forall_forall. by repeat constructor.
Qed.

Lemma digits_app acc s c : Forall is_digit s →
  digits acc (s ++ [c]) = match digit c with Some d => digits acc s * 10 + d | None => digits acc s end.
Proof.
  intros Hs. revert acc. induction Hs as [|x s [d Hx] _ IH]; intros acc; cbn; [by destruct (digit c)|].
  by rewrite Hx, IH.
Qed.

Lemma write_digits_decimal fuel n : 0 ≤ n < 10 ^ Z.of_nat fuel → (0 < fuel)%nat → decimal n (write_digits fuel n).
Proof.
  revert n. induction fuel as [|fuel IH]; intros n Hn Hf; [lia|]. cbn [write_digits].
  pose proof (Z.mod_pos_bound n 10 ltac:(lia)) as Hm. pose proof (Z.div_mod n 10 ltac:(lia)) as Ed.
  assert (Hall : Forall is_digit (if n <? 10 then [] else write_digits fuel (n / 10)) ∧
    digits 0 (if n <? 10 then [] else write_digits fuel (n / 10)) = n / 10).
  { destruct (Z.ltb_spec n 10); [by rewrite Z.div_small by lia|].
    rewrite Nat2Z.inj_succ, Z.pow_succ_r in Hn by lia. assert (fuel ≠ O) by (intros ->; cbn in Hn; lia).
    destruct (IH (n / 10)) as (_ & ? & ?); [|lia|done].
    split; [apply Z.div_pos; lia|apply Z.div_lt_upper_bound; lia]. }
  destruct Hall as [Hd Ev]. split; [|split].
  - intros [_ ?]%app_nil. done.
  - apply Forall_app. split; [done|]. apply Forall_singleton. eexists. by apply digit_char_digit.
  - rewrite digits_app, digit_char_digit by done. unfold text in *. rewrite Ev. lia.
Qed.
