(* ===== verification/IniReader.v ===== *)
(** * The INI reader: src/ext/headers/INIReader.h

    The parser of the configuration files.  A file is the list of its bytes;
    [ini_parse_stream] reads it through [fgets] into a buffer of 200 bytes and
    calls a handler for every option; [INIReader] keeps the options in a map
    and converts their values with [strtol] and [strtod].  Bytes are classified
    as in the C locale.  The line buffer is overwritten in place by the source
    (a NUL ends a string); here the strings it holds are values, cut at the
    same bytes. *)
From Stdlib Require Import Ascii SpecFloat.
From stdpp Require Import base tactics numbers list gmap strings.
From S2P Require Import Prelude Text Double Configuration.

Local Open Scope char_scope.
Local Open Scope Z_scope.

Infix "=c" := Ascii.eqb (at level 70, no associativity).

Definition newline : ascii := "010".
Definition nul : ascii := "000".

(** ** The C library *)

(** [fgets] with room for [room] bytes: what it stores and what is left of the
    stream.  It stops behind a newline; the caller has seen the stream is not
    at its end. *)
Fixpoint fgets (room : nat) (s : text) : text * text :=
  match room, s with
  | S room, c :: s' =>
      if c =c newline then ([c], s') else let '(l, rest) := fgets room s' in (c :: l, rest)
  | _, _ => ([], s)
  end.

(** The string a buffer holds: the bytes before the first NUL. *)
Fixpoint c_str (s : text) : text :=
  match s with
  | c :: s' => if c =c nul then [] else c :: c_str s'
  | [] => []
  end.

Definition strchr (chars : text) (c : ascii) : bool := existsb (Ascii.eqb c) chars.

Definition tolower (c : ascii) : ascii :=
  if (65 <=? code c) && (code c <=? 90) then ascii_of_N (Z.to_N (code c + 32)) else c.

(** The digit a byte stands for in a base up to 16. *)
Definition digit_in (base : Z) (c : ascii) : option Z :=
  let v := if (48 <=? code c) && (code c <=? 57) then code c - 48
           else if (97 <=? code (tolower c)) && (code (tolower c) <=? 102) then code (tolower c) - 87
           else base in
  if v <? base then Some v else None.

(** The longest run of digits: its value after [acc], how many there are, and
    what follows. *)
Fixpoint digit_run (base acc : Z) (s : text) : Z * nat * text :=
  match s with
  | c :: s' =>
      match digit_in base c with
      | Some d => let '(v, n, rest) := digit_run base (acc * base + d) s' in (v, S n, rest)
      | None => (acc, O, s)
      end
  | [] => (acc, O, [])
  end.

(** The optional sign of a number. *)
Definition sign_of (s : text) : bool * text :=
  match s with
  | c :: s' => if c =c "-" then (true, s') else if c =c "+" then (false, s') else (false, s)
  | [] => (false, [])
  end.

(** The digits behind a hexadecimal prefix, if there is one with a digit. *)
Definition hex_prefix (s : text) : option text :=
  match s with
  | z :: x :: c :: s' =>
      if (z =c "0") && (tolower x =c "x") && (match digit_in 16 c with Some _ => true | None => false end)
      then Some (c :: s') else None
  | _ => None
  end.

Definition LONG_MAX : Z := 2 ^ 63 - 1.

Definition saturate (z : Z) : Z := Z.max (- LONG_MAX - 1) (Z.min LONG_MAX z).

(** [strtol] with base 0: [None] if no digit was read. *)
Definition strtol0 (s : text) : option Z :=
  let '(neg, s) := sign_of (skip_space s) in
  let '(v, n, _) :=
    match hex_prefix s with
    | Some s' => digit_run 16 0 s'
    | None => match s with
              | c :: _ => if c =c "0" then digit_run 8 0 s else digit_run 10 0 s
              | [] => (0, O, [])
              end
    end in
  if (n =? 0)%nat then None else Some (saturate (if neg then - v else v)).

(** [m * 10 ^ e], correctly rounded: the quotient of the Standard Library's
    specification takes operands of any precision. *)
Definition round_decimal (m e : Z) : double :=
  match m with
  | Z.pos p =>
      if 0 <=? e then d_of_Z (m * 10 ^ e)
      else ddiv (S754_finite false p 0) (S754_finite false (Z.to_pos (10 ^ (- e))) 0)
  | _ => S754_zero false
  end.

(** [m * 2 ^ e], correctly rounded. *)
Definition round_binary (m e : Z) : double := binary_normalize 53 1024 m e false.

(** An exponent behind the letter [mark]; without a digit there is none. *)
Definition exponent_of (mark : ascii) (s : text) : Z :=
  match s with
  | c :: s' =>
      if tolower c =c mark then
        let '(neg, s') := sign_of s' in
        let '(v, _, _) := digit_run 10 0 s' in if neg then - v else v
      else 0
  | [] => 0
  end.

(** Digits with an optional point: the value of all digits, their number, how
    many are behind the point, and what follows. *)
Definition fraction_run (base : Z) (s : text) : Z * nat * nat * text :=
  let '(v, n, rest) := digit_run base 0 s in
  match rest with
  | c :: rest' =>
      if c =c "." then
        let '(w, k, rest'') := digit_run base v rest' in
        if (n + k =? 0)%nat then (v, O, O, rest) else (w, n + k, k, rest'')%nat
      else (v, n, O, rest)
  | [] => (v, n, O, [])
  end.

(** The text starts with [word], which is in lower case. *)
Definition starts_with (word s : text) : bool :=
  bool_decide (map tolower (take (length word) s) = word).

Definition hex_float (s : text) : option (Z * nat * nat * text) :=
  match s with
  | z :: x :: s' =>
      if (z =c "0") && (tolower x =c "x") then
        let '(v, n, k, rest) := fraction_run 16 s' in
        if (n =? 0)%nat then None else Some (v, n, k, rest)
      else None
  | _ => None
  end.

(** [strtod]: [None] if nothing was converted. *)
Definition strtod (s : text) : option double :=
  let '(neg, s) := sign_of (skip_space s) in
  let signed (d : double) : double := if neg then SFopp d else d in
  if starts_with ["i"; "n"; "f"] s then Some (S754_infinity neg)
  else if starts_with ["n"; "a"; "n"] s then Some S754_nan
  else match hex_float s with
  | Some (v, _, k, rest) => Some (signed (round_binary v (exponent_of "p" rest - 4 * Z.of_nat k)))
  | None =>
      let '(v, n, k, rest) := fraction_run 10 s in
      if (n =? 0)%nat then None
      else Some (signed (round_decimal v (exponent_of "e" rest - Z.of_nat k)))
  end.

(** ** inih *)

Definition INI_MAX_LINE : nat := 200.
Definition MAX_SECTION : nat := 50.
Definition MAX_NAME : nat := 50.

(** Strips from the end: [p] runs down while it is at white space. *)
Fixpoint rstrip (s : text) : text :=
  match s with
  | c :: s' => match rstrip s' with
               | [] => if is_space c then [] else [c]
               | r => c :: r
               end
  | [] => []
  end.

Definition lskip (s : text) : text := skip_space s.

(** The text before the first of [chars] or inline comment, and the text from
    there on. *)
Fixpoint find_from (was_space : bool) (chars : text) (s : text) : text * text :=
  match s with
  | c :: s' =>
      if strchr chars c || (was_space && (c =c ";")) then ([], s)
      else let '(before, rest) := find_from (is_space c) chars s' in (c :: before, rest)
  | [] => ([], [])
  end.

Definition find_chars_or_comment (s chars : text) : text * text := find_from false chars s.

Definition strncpy0 (src : text) (size : nat) : text := take (size - 1) src.

Definition has_bom (s : text) : bool :=
  match s with
  | a :: b :: c :: _ => (code a =? 239) && (code b =? 187) && (code c =? 191)
  | _ => false
  end.

Section Stream.
Context {User : Type} (handler : User → text → text → text → User * bool).

Record Parse := mkParse {
  user : User;
  section : text;
  prev_name : text;
  lineno : Z;
  error : Z
}.

(** [error = lineno] unless an earlier line has set it. *)
Definition note_error (p : Parse) : Parse :=
  mkParse (user p) (section p) (prev_name p) (lineno p) (if error p =? 0 then lineno p else error p).

Definition call_handler (p : Parse) (name value : text) : Parse :=
  let '(u, ok) := handler (user p) (section p) name value in
  let p := mkParse u (section p) (prev_name p) (lineno p) (error p) in
  if ok then p else note_error p.

(** The value of an option up to an inline comment, stripped. *)
Definition cut_value (s : text) : text := rstrip (find_chars_or_comment s []).1.

(** The chain of conditions on the stripped line; [moved] is [start > line]. *)
Definition handle_line (p : Parse) (moved : bool) (start : text) : Parse :=
  match start with
  | [] => p
  | c :: rest =>
      if (c =c ";") || (c =c "#") then p
      else if bool_decide (prev_name p ≠ []) && moved then
        call_handler p (prev_name p) (cut_value start)
      else if c =c "[" then
        match find_chars_or_comment rest ["]"] with
        | (name, e :: _) =>
            if e =c "]" then mkParse (user p) (strncpy0 name MAX_SECTION) [] (lineno p) (error p)
            else note_error p
        | (_, []) => note_error p
        end
      else
        match find_chars_or_comment start ["="; ":"] with
        | (name, e :: rest) =>
            if (e =c "=") || (e =c ":") then
              let name := rstrip name in
              let value := cut_value (lskip rest) in
              call_handler (mkParse (user p) (section p) (strncpy0 name MAX_NAME) (lineno p) (error p))
                name value
            else note_error p
        | (_, []) => note_error p
        end
  end.

(** One round of the loop, for the line in the buffer. *)
Definition parse_line (p : Parse) (buffer : text) : Parse :=
  let p := mkParse (user p) (section p) (prev_name p) (lineno p + 1) (error p) in
  let line := c_str buffer in
  let bom := (lineno p =? 1) && has_bom line in
  let stripped := rstrip (if bom then drop 3 line else line) in
  let start := lskip stripped in
  handle_line p (bom || (length start <? length stripped)%nat) start.

(** The loop over the stream; every round takes at least one byte from it. *)
Fixpoint parse_stream (fuel : nat) (p : Parse) (s : text) : Parse :=
  match fuel, s with
  | S fuel, _ :: _ =>
      let '(line, rest) := fgets (INI_MAX_LINE - 1) s in parse_stream fuel (parse_line p line) rest
  | _, _ => p
  end.

(** The user data and the error; a file of less than 2^31 lines keeps [lineno]
    within an [int]. *)
Definition ini_parse_stream (u : User) (s : text) : User * Z :=
  let p := parse_stream (length s) (mkParse u [] [] 0 0) s in (user p, error p).

(** The file is [None] if it cannot be opened. *)
Definition ini_parse (u : User) (file : option text) : User * Z :=
  match file with Some s => ini_parse_stream u s | None => (u, -1) end.
End Stream.
#[global] Arguments Parse : clear implicits.
#[global] Arguments mkParse {User}.
#[global] Arguments note_error {User} p.

(** ** INIReader *)

Definition MakeKey (section name : text) : text := map tolower (section ++ "=" :: name).

Record Values := mkValues {
  values_ : gmap text text;
  sections_ : gset text
}.

(** [_values[key]] creates an empty entry if there is none. *)
Definition ValueHandler (r : Values) (section name value : text) : Values * bool :=
  let key := MakeKey section name in
  let old := default [] (values_ r !! key) in
  let old := match old with [] => [] | _ => old ++ [newline] end in
  (mkValues (<[key := old ++ value]> (values_ r)) ({[section]} ∪ sections_ r), true).

(** The constructor from a file name; [file] is what the file holds. *)
Definition INIReader_open (file : option text) : Values * Z :=
  ini_parse ValueHandler (mkValues ∅ ∅) file.

(** [Get(section, name, d)] with [d] for a missing option. *)
Definition lookup_value (r : Values) (section name : text) : option text :=
  values_ r !! MakeKey section name.

Definition Reader_Get (r : Values) (section name default_value : text) : text :=
  default default_value (lookup_value r section name).

Definition Reader_GetInteger (r : Values) (section name : text) (default_value : Z) : Z :=
  default default_value (strtol0 (c_str (Reader_Get r section name []))).

Definition Reader_GetReal (r : Values) (section name : text) (default_value : double) : double :=
  default default_value (strtod (c_str (Reader_Get r section name []))).

Definition words (l : list string) : list text := map String.list_ascii_of_string l.

Definition Reader_GetBoolean (r : Values) (section name : text) (default_value : bool) : bool :=
  let valstr := map tolower (Reader_Get r section name []) in
  if bool_decide (valstr ∈ words ["true"; "yes"; "on"; "1"]%string) then true
  else if bool_decide (valstr ∈ words ["false"; "no"; "off"; "0"]%string) then false
  else default_value.

(** The interface the configuration uses. *)
Definition reader_of (file : option text) : INIReader :=
  let '(r, error) := INIReader_open file in
  let t := String.list_ascii_of_string in
  {| ParseError := error;
     Get := λ s o d, String.string_of_list_ascii (Reader_Get r (t s) (t o) (t d));
     GetInteger_long := λ s o, Reader_GetInteger r (t s) (t o);
     GetReal := λ s o, Reader_GetReal r (t s) (t o);
     GetBoolean := λ s o, Reader_GetBoolean r (t s) (t o) |}.
