(* ===== verification/IniDocument.v ===== *)
(** * What an INI file means

    A grammar of the lines of an INI file (sections, options, continuation
    lines, comments and lines the parser has to reject), the options such a
    document defines, and the proof that the reader of IniReader.v finds
    exactly these, whatever the layout, and reports the first bad line. *)
From Stdlib Require Import Ascii SpecFloat.
From stdpp Require Import base tactics numbers list gmap strings.
From S2P Require Import Prelude Text Double Configuration IniReader.

Local Open Scope char_scope.
Local Open Scope Z_scope.

(** ** The grammar *)

Definition blank (s : text) : Prop := Forall (λ c, is_space c = true) s.
Definition lacks (chars s : text) : Prop := Forall (λ c, c ∉ chars) s.

#[global] Instance blank_dec s : Decision (blank s).
Proof. unfold blank. apply _. Defined.
#[global] Instance lacks_dec chars s : Decision (lacks chars s).
Proof. unfold lacks. apply _. Defined.

(** No white space at either end. *)
Definition tidy (s : text) : Prop :=
  (∀ c, head s = Some c → is_space c = false) ∧ (∀ c, last s = Some c → is_space c = false).

(** An inline comment is a semicolon behind white space. *)
Definition no_comment (s : text) : Prop := ∀ a w b, s = a ++ w :: ";" :: b → is_space w = false.

(** What may follow a value on its line: white space, or a comment behind
    white space, if there is a value. *)
Definition trailing (value tail : text) : Prop :=
  blank tail ∨ (value ≠ [] ∧ ∃ ws s, tail = ws ++ ";" :: s ∧ blank ws ∧ ws ≠ []).

Inductive item :=
| SectionLine (name : text)
| OptionLine (name value : text)
| MoreLine (value : text)
| SkippedLine
| BadLine.

Inductive renders : item → text → Prop :=
| renders_blank ws : blank ws → renders SkippedLine ws
| renders_comment ws c s : blank ws → c ∈ [";"; "#"] → renders SkippedLine (ws ++ c :: s)
| renders_section name s :
    lacks ["]"] name → no_comment name → (length name < MAX_SECTION)%nat →
    renders (SectionLine name) ("[" :: name ++ "]" :: s)
| renders_option c name ws sep ws' value tail :
    tidy (c :: name) → c ∉ ["["; ";"; "#"] → lacks ["="; ":"] (c :: name) → no_comment (c :: name) →
    (length (c :: name) < MAX_NAME)%nat → blank ws → sep ∈ ["="; ":"] → blank ws' →
    tidy value → no_comment value → trailing value tail →
    renders (OptionLine (c :: name) value) (c :: name ++ ws ++ sep :: ws' ++ value ++ tail)
| renders_more w ws c value tail :
    blank (w :: ws) → tidy (c :: value) → c ∉ [";"; "#"] → no_comment (c :: value) →
    trailing (c :: value) tail →
    renders (MoreLine (c :: value)) (w :: ws ++ (c :: value) ++ tail)
| renders_bad_section s : lacks ["]"] s → renders BadLine ("[" :: s)
| renders_bad_option c s :
    is_space c = false → c ∉ ["["; ";"; "#"] → lacks ["="; ":"] (c :: s) → renders BadLine (c :: s).

(** A line fits the buffer together with its newline and the final NUL. *)
Definition line_of (i : item) (line : text) : Prop :=
  renders i line ∧ lacks [nul; newline] line ∧ (length line + 2 ≤ INI_MAX_LINE)%nat.

Definition unlines (lines : list text) : text := concat (map (λ l, l ++ [newline]) lines).

(** A continuation line continues an option. *)
Fixpoint well_placed (in_option : bool) (items : list item) : Prop :=
  match items with
  | [] => True
  | SectionLine _ :: items => well_placed false items
  | OptionLine _ _ :: items => well_placed true items
  | MoreLine _ :: items => in_option = true ∧ well_placed true items
  | _ :: items => well_placed in_option items
  end.

(** ** The meaning *)

(** The values of a document in the order of its lines. *)
Fixpoint options_of (sec opt : text) (items : list item) : list (text * text * text) :=
  match items with
  | [] => []
  | SectionLine name :: items => options_of name [] items
  | OptionLine name value :: items => (sec, name, value) :: options_of sec name items
  | MoreLine value :: items => (sec, opt, value) :: options_of sec opt items
  | _ :: items => options_of sec opt items
  end.

(** The number of the first bad line, counted from [n]; 0 if there is none. *)
Fixpoint first_bad (n : Z) (items : list item) : Z :=
  match items with
  | [] => 0
  | BadLine :: _ => n
  | _ :: items => first_bad (n + 1) items
  end.

Definition option_key (o : text * text * text) : text := MakeKey o.1.1 o.1.2.

(** The values an option has been given, whatever the case of its name. *)
Definition values_of (key : text) (os : list (text * text * text)) : list text :=
  snd <$> filter (λ o, option_key o = key) os.

Definition joined (vs : list text) : text :=
  foldl (λ acc v, match acc with [] => [] | _ => acc ++ [newline] end ++ v) [] vs.

Definition meaning (os : list (text * text * text)) (sec name : text) : option text :=
  match values_of (MakeKey sec name) os with [] => None | vs => Some (joined vs) end.

(** ** Characters and strings *)

Lemma strchr_spec chars c : strchr chars c = bool_decide (c ∈ chars).
Proof.
  unfold strchr. apply eq_bool_prop_intro. rewrite bool_decide_spec, Is_true_true, existsb_exists.
  setoid_rewrite Ascii.eqb_eq. setoid_rewrite <- list_elem_of_In. naive_solver.
Qed.

Lemma not_char c d : c ≠ d → (c =c d) = false.
Proof. apply Ascii.eqb_neq. Qed.

Lemma blank_newline : blank [newline].
Proof. by repeat constructor. Qed.

Lemma skip_blank ws s : blank ws → skip_space (ws ++ s) = skip_space s.
Proof. induction 1 as [|c ws Hc _ IH]; cbn; [done|]. by rewrite Hc. Qed.

Lemma skip_nothing s : (∀ c, head s = Some c → is_space c = false) → skip_space s = s.
Proof. destruct s as [|c s]; intros H; [done|]. cbn. by rewrite (H c eq_refl). Qed.

Lemma rstrip_blank s ws : blank ws → rstrip (s ++ ws) = rstrip s.
Proof.
  intros Hw. assert (rstrip ws = []) as E.
  { induction Hw as [|c ws Hc _ IH]; cbn; [done|]. by rewrite IH, Hc. }
  induction s as [|c s IH]; cbn; [done|]. by rewrite IH.
Qed.

Lemma rstrip_keep s c t : is_space c = false → rstrip (s ++ c :: t) = s ++ c :: rstrip t.
Proof.
  intros Hc. assert (rstrip (c :: t) = c :: rstrip t) as E.
  { cbn. destruct (rstrip t); by rewrite ?Hc. }
  induction s as [|d s IH]; [done|]. cbn [app rstrip]. rewrite IH. by destruct s.
Qed.

Lemma rstrip_tidy s : (∀ c, last s = Some c → is_space c = false) → rstrip s = s.
Proof.
  destruct s as [|c s _] using rev_ind; intros H; [done|].
  rewrite rstrip_keep; [done|]. apply H. by rewrite last_snoc.
Qed.

Lemma rstrip_app s t : t ≠ [] → (∀ c, last t = Some c → is_space c = false) → rstrip (s ++ t) = s ++ t.
Proof.
  intros Ht H. apply rstrip_tidy. intros c. rewrite last_app. destruct (last t) as [d|] eqn:E; [|by apply last_None in E].
  intros [= ->]. by apply H.
Qed.

(** ** Searching a line *)

Fixpoint comment_free (was_space : bool) (s : text) : Prop :=
  match s with
  | [] => True
  | c :: s' => (was_space = true → c ≠ ";") ∧ comment_free (is_space c) s'
  end.

Lemma no_comment_free s : no_comment s → comment_free false s.
Proof.
  intros H. assert (∀ b, (b = true → head s ≠ Some ";") → comment_free b s) as G; [|by apply G].
  induction s as [|c s IH]; intros b Hb; [done|]. split; [intros E ->; by apply (Hb E)|]. apply IH.
  - intros a w t ->. by apply (H (c :: a) w t).
  - intros Hs. destruct s as [|d s]; [done|]. intros [= ->]. specialize (H [] c s eq_refl). congruence.
Qed.

Lemma comment_free_no b s : comment_free b s → no_comment s.
Proof.
  intros H a w t ->. revert b H. induction a as [|c a IH]; intros b [_ H]; [|by eapply IH].
  destruct H as [H _]. destruct (is_space w); [|done]. by destruct (H eq_refl).
Qed.

Lemma blank_comment_free b ws : blank ws → comment_free b ws.
Proof.
  intros H. revert b. induction H as [|c ws Hc _ IH]; intros b; [done|]. split; [|by apply IH]. by intros _ ->.
Qed.

Lemma comment_free_app b s t :
  comment_free b s → (s = [] → comment_free b t) →
  (∀ c, last s = Some c → comment_free (is_space c) t) → comment_free b (s ++ t).
Proof.
  revert b. induction s as [|c s IH]; intros b Hs H1 H2; [by apply H1|]. destruct Hs as [Hc Hs].
  split; [done|]. apply IH; [done|intros ->; by apply H2|]. intros d Hd. apply H2.
  rewrite last_cons, Hd. done.
Qed.

(** The search passes over a text without the characters and comments. *)
Lemma find_skip b chars s t :
  lacks chars s → comment_free b s →
  find_from b chars (s ++ t) =
    let '(x, y) := find_from (match last s with Some c => is_space c | None => b end) chars t in (s ++ x, y).
Proof.
  intros Hl. revert b. induction Hl as [|c s Hc _ IH]; intros b Hs; [cbn; by case_match|].
  destruct Hs as [Hb Hs]. cbn [app find_from]. rewrite strchr_spec, bool_decide_false, orb_false_l by done.
  assert (b && (c =c ";") = false) as ->.
  { destruct b; [|done]. by rewrite not_char by (by apply Hb). }
  rewrite IH, last_cons by done. destruct (last s); by destruct (find_from _ _ t).
Qed.

Lemma find_stop b chars c t : c ∈ chars → find_from b chars (c :: t) = ([], c :: t).
Proof. intros H. cbn. by rewrite strchr_spec, bool_decide_true. Qed.

Lemma find_comment chars s ws t :
  lacks chars s → comment_free false s → blank ws → ws ≠ [] → lacks chars ws →
  find_from false chars (s ++ ws ++ ";" :: t) = (s ++ ws, ";" :: t).
Proof.
  intros Hs Hc Hw Hne Hl. rewrite app_assoc. rewrite find_skip.
  - rewrite last_app. destruct (last ws) as [w|] eqn:E; [|by apply last_None in E].
    pose proof (last_Some_elem_of _ _ E) as Hin. rewrite (proj1 (Forall_forall _ _) Hw w Hin). cbn.
    rewrite orb_true_r. by rewrite app_nil_r.
  - by apply Forall_app.
  - apply comment_free_app; [done|intros _; by apply blank_comment_free|intros ? _; by apply blank_comment_free].
Qed.

Lemma find_all b chars s : lacks chars s → comment_free b s → find_from b chars s = (s, []).
Proof.
  intros Hl Hc. rewrite <- (app_nil_r s) at 1. rewrite find_skip by done. cbn. by rewrite app_nil_r.
Qed.

Lemma find_lacks b chars s x y :
  find_from b chars s = (x, y) → lacks chars s → y = [] ∨ ∃ t, y = ";" :: t.
Proof.
  intros E Hl. revert b x E. induction Hl as [|c s Hc _ IH]; intros b x; cbn [find_from]; [by intros [= _ <-]; left|].
  rewrite strchr_spec, bool_decide_false, orb_false_l by done. destruct (b && (c =c ";")) eqn:Ec.
  - apply andb_true_iff in Ec as [_ ->%Ascii.eqb_eq]. intros [= _ <-]. eauto.
  - destruct (find_from (is_space c) chars s) as [x' y'] eqn:E. intros [= _ <-]. by eapply IH.
Qed.

Lemma lacks_rstrip chars s : lacks chars s → lacks chars (rstrip s).
Proof.
  induction 1 as [|c s Hc Hs IH]; cbn; [constructor|].
  destruct (rstrip s); [destruct (is_space c)|]; repeat constructor; done || by apply Forall_cons in IH as [??].
Qed.

Lemma lacks_nil s : lacks [] s.
Proof. apply Forall_true. intros c. by apply not_elem_of_nil. Qed.

(** ** Lines *)

(** The value of an option or a continuation line, as the parser cuts it. *)
Lemma cut_value_spec ws value tail :
  blank ws → tidy value → no_comment value → trailing value tail →
  cut_value (lskip (rstrip (ws ++ value ++ tail))) = value.
Proof.
  intros Hw [Hh Hl] Hc [Ht|(Hne & ws' & s & -> & Hw' & Hne')]; unfold cut_value, lskip, find_chars_or_comment.
  - rewrite app_assoc, rstrip_blank by done. destruct value as [|c value].
    { rewrite app_nil_r. by rewrite (rstrip_blank [] ws Hw : rstrip ws = []). }
    rewrite rstrip_app, skip_blank, skip_nothing by done.
    rewrite find_all by (apply lacks_nil || by apply no_comment_free). by apply rstrip_tidy.
  - assert (E : ws ++ value ++ ws' ++ ";" :: s = (ws ++ value ++ ws') ++ ";" :: s) by (by rewrite <- !app_assoc).
    rewrite E, rstrip_keep, <- !app_assoc, skip_blank by done. destruct value as [|c value]; [done|].
    rewrite skip_nothing by done.
    rewrite find_comment by (apply lacks_nil || done || by apply no_comment_free).
    cbn [fst]. rewrite rstrip_blank by done. by apply rstrip_tidy.
Qed.

Section Lines.
Context {User : Type} (handler : User → text → text → text → User * bool).

(** What a line of the document does to the parser. *)
Definition item_step (i : item) (p : Parse User) : Parse User :=
  match i with
  | SectionLine name => mkParse (user p) name [] (lineno p) (error p)
  | OptionLine name value =>
      call_handler handler (mkParse (user p) (section p) name (lineno p) (error p)) name value
  | MoreLine value => call_handler handler p (prev_name p) value
  | SkippedLine => p
  | BadLine => note_error p
  end.

(** The parser on a line without its newline. *)
Definition handle_text (p : Parse User) (line : text) : Parse User :=
  handle_line handler p (length (lskip (rstrip line)) <? length (rstrip line))%nat (lskip (rstrip line)).

Lemma strncpy0_short s size : (length s < size)%nat → strncpy0 s size = s.
Proof. intros H. apply take_ge. lia. Qed.

(** A line that starts with its first character. *)
Lemma handle_flush p c s :
  is_space c = false → c ∉ [";"; "#"] →
  handle_text p (c :: s) =
    if c =c "[" then
      match find_chars_or_comment (rstrip s) ["]"] with
      | (name, e :: _) =>
          if e =c "]" then mkParse (user p) (strncpy0 name MAX_SECTION) [] (lineno p) (error p)
          else note_error p
      | (_, []) => note_error p
      end
    else
      match find_chars_or_comment (c :: rstrip s) ["="; ":"] with
      | (name, e :: rest) =>
          if (e =c "=") || (e =c ":") then
            call_handler handler
              (mkParse (user p) (section p) (strncpy0 (rstrip name) MAX_NAME) (lineno p) (error p))
              (rstrip name) (cut_value (lskip rest))
          else note_error p
      | (_, []) => note_error p
      end.
Proof.
  intros Hc [H1 [H2 _]%not_elem_of_cons]%not_elem_of_cons. unfold handle_text.
  rewrite (rstrip_keep [] c s Hc : rstrip (c :: s) = c :: rstrip s).
  unfold lskip at 1 2. rewrite skip_nothing by (by intros ? [= <-]).
  rewrite Nat.ltb_irrefl. unfold handle_line.
  by rewrite !not_char, andb_false_r by done.
Qed.

Lemma handle_section p name s :
  lacks ["]"] name → no_comment name → (length name < MAX_SECTION)%nat →
  handle_text p ("[" :: name ++ "]" :: s) = item_step (SectionLine name) p.
Proof.
  intros Hl Hc Hn. rewrite handle_flush by (done || set_solver). cbn [Ascii.eqb Bool.eqb].
  rewrite rstrip_keep by done. unfold find_chars_or_comment.
  rewrite find_skip, find_stop by (done || set_solver || by apply no_comment_free).
  cbv beta iota. by rewrite app_nil_r, Ascii.eqb_refl, strncpy0_short.
Qed.

Lemma handle_option p c name ws sep ws' value tail :
  tidy (c :: name) → c ∉ ["["; ";"; "#"] → lacks ["="; ":"] (c :: name) → no_comment (c :: name) →
  (length (c :: name) < MAX_NAME)%nat → blank ws → sep ∈ ["="; ":"] → blank ws' →
  tidy value → no_comment value → trailing value tail →
  handle_text p (c :: name ++ ws ++ sep :: ws' ++ value ++ tail) = item_step (OptionLine (c :: name) value) p.
Proof.
  intros [Hh Ht] Hc Hl Hn Hlen Hw Hsep Hw' Hv Hvc Htl. apply not_elem_of_cons in Hc as [Hb Hc].
  assert (Hns : is_space sep = false) by (by apply elem_of_cons in Hsep as [->| ->%list_elem_of_singleton]).
  assert (Hlw : lacks ["="; ":"] ws).
  { eapply Forall_impl; [exact Hw|]. intros d Hd Hin. apply elem_of_cons in Hin as [->| ->%list_elem_of_singleton]; done. }
  rewrite handle_flush by (done || by apply Hh). rewrite not_char by done.
  assert (E : name ++ ws ++ sep :: ws' ++ value ++ tail = (name ++ ws) ++ sep :: ws' ++ value ++ tail)
    by (by rewrite <- !app_assoc).
  rewrite E, rstrip_keep by done. unfold find_chars_or_comment. rewrite app_comm_cons.
  rewrite (app_comm_cons name ws c), find_skip; [|by apply Forall_app|].
  2:{ apply comment_free_app; [by apply no_comment_free|done|intros ? _; by apply blank_comment_free]. }
  rewrite find_stop, app_nil_r by done.
  assert ((sep =c "=") || (sep =c ":") = true) as ->.
  { by apply elem_of_cons in Hsep as [->| ->%list_elem_of_singleton]. }
  rewrite rstrip_blank, rstrip_tidy, strncpy0_short, cut_value_spec by done. done.
Qed.

Lemma handle_more p w ws c value tail :
  prev_name p ≠ [] → blank (w :: ws) → tidy (c :: value) → c ∉ [";"; "#"] → no_comment (c :: value) →
  trailing (c :: value) tail →
  handle_text p (w :: ws ++ (c :: value) ++ tail) = item_step (MoreLine (c :: value)) p.
Proof.
  intros Hp Hw Hv Hc Hn Ht. pose proof (cut_value_spec (w :: ws) (c :: value) tail Hw Hv Hn Ht) as E.
  cbn [app] in E. pose proof (proj1 Hv c eq_refl) as Hs.
  assert (Er : rstrip (w :: ws ++ c :: value ++ tail) = (w :: ws) ++ c :: rstrip (value ++ tail))
    by exact (rstrip_keep (w :: ws) c _ Hs).
  unfold handle_text. cbn [app]. unfold lskip in *. rewrite Er in *.
  rewrite skip_blank, skip_nothing in * by (done || by intros ? [= <-]).
  apply not_elem_of_cons in Hc as [H1 [H2 _]%not_elem_of_cons]. unfold handle_line.
  rewrite (not_char c ";"), (not_char c "#"), bool_decide_true by done.
  rewrite (proj2 (Nat.ltb_lt _ _)) by (rewrite length_app; simpl; lia). cbn [orb andb]. by rewrite E.
Qed.

Lemma handle_bad_section p s : lacks ["]"] s → handle_text p ("[" :: s) = note_error p.
Proof.
  intros Hl. rewrite handle_flush by (done || set_solver). cbn [Ascii.eqb Bool.eqb].
  unfold find_chars_or_comment. destruct (find_from false ["]"] (rstrip s)) as [x y] eqn:E.
  by apply find_lacks in E as [->|[t ->]]; [..|by apply lacks_rstrip].
Qed.

Lemma handle_bad_option p c s :
  is_space c = false → c ∉ ["["; ";"; "#"] → lacks ["="; ":"] (c :: s) → handle_text p (c :: s) = note_error p.
Proof.
  intros Hs [Hb Hc]%not_elem_of_cons [Hc' Hl]%Forall_cons. rewrite handle_flush, not_char by done.
  unfold find_chars_or_comment. destruct (find_from false _ (c :: rstrip s)) as [x y] eqn:E.
  apply find_lacks in E as [->|[t ->]]; [done..|]. constructor; [done|]. by apply lacks_rstrip.
Qed.

Lemma handle_skipped p ws c s : blank ws → c ∈ [";"; "#"] → handle_text p (ws ++ c :: s) = p.
Proof.
  intros Hw Hc. assert (is_space c = false) as Hs by (by apply elem_of_cons in Hc as [->| ->%list_elem_of_singleton]).
  unfold handle_text. rewrite rstrip_keep by done. unfold lskip.
  rewrite skip_blank, skip_nothing by (done || by intros ? [= <-]). unfold handle_line.
  by apply elem_of_cons in Hc as [->| ->%list_elem_of_singleton].
Qed.

Lemma handle_item p i line :
  renders i line → (∀ v, i = MoreLine v → prev_name p ≠ []) → handle_text p line = item_step i p.
Proof.
  intros H Hm. destruct H.
  - unfold handle_text. by rewrite (rstrip_blank [] ws : blank ws → rstrip ws = []).
  - by apply handle_skipped.
  - by apply handle_section.
  - by apply handle_option.
  - apply handle_more; [by eapply Hm|done..].
  - by apply handle_bad_section.
  - by apply handle_bad_option.
Qed.
End Lines.

(** ** The stream *)

Lemma c_str_line line : lacks [nul; newline] line → c_str (line ++ [newline]) = line ++ [newline].
Proof.
  induction 1 as [|c line Hc _ IH]; [done|]. cbn [app c_str].
  apply not_elem_of_cons in Hc as [Hc _]. by rewrite not_char, IH.
Qed.

Lemma fgets_line room line rest :
  lacks [nul; newline] line → (length line < room)%nat →
  fgets room (line ++ newline :: rest) = (line ++ [newline], rest).
Proof.
  intros Hl. revert room. induction Hl as [|c line Hc _ IH]; intros [|room] Hr; cbn in Hr; try lia; [done|].
  cbn [app fgets]. apply not_elem_of_cons in Hc as [_ [Hc _]%not_elem_of_cons].
  rewrite not_char, IH by (done || lia). done.
Qed.

Lemma has_bom_app s t : has_bom (s ++ t) = false → has_bom s = false.
Proof. destruct s as [|a [|b [|c s]]]; done. Qed.

Section Document.
Context {User : Type} (handler : User → text → text → text → User * bool).

Definition next_line (p : Parse User) : Parse User :=
  mkParse (user p) (section p) (prev_name p) (lineno p + 1) (error p).

Definition document_step (p : Parse User) (i : item) : Parse User := item_step handler i (next_line p).

Lemma parse_line_item p i line :
  line_of i line → (lineno p = 0 → has_bom (line ++ [newline]) = false) →
  (∀ v, i = MoreLine v → prev_name p ≠ []) →
  parse_line handler p (line ++ [newline]) = document_step p i.
Proof.
  intros (Hr & Hl & _) Hb Hm. unfold parse_line. rewrite c_str_line by done. cbn [lineno].
  assert ((lineno p + 1 =? 1) && has_bom (line ++ [newline]) = false) as ->.
  { destruct (Z.eqb_spec (lineno p + 1) 1); [|done]. rewrite Hb by lia. done. }
  rewrite rstrip_blank by apply blank_newline. cbn [orb].
  by apply (handle_item handler (next_line p) i line).
Qed.

Lemma call_handler_fields p name value :
  section (call_handler handler p name value) = section p ∧
  prev_name (call_handler handler p name value) = prev_name p ∧
  lineno (call_handler handler p name value) = lineno p.
Proof. unfold call_handler. by destruct (handler _ _ _ _) as [u []]. Qed.

Lemma document_step_lineno p i : lineno (document_step p i) = lineno p + 1.
Proof. destruct i; try done; by refine (eq_trans (proj2 (proj2 (call_handler_fields _ _ _))) _). Qed.

(** The loop does one step per line. *)
Lemma parse_stream_document fuel in_option lines items p :
  Forall2 line_of items lines → well_placed in_option items →
  (in_option = true → prev_name p ≠ []) → 0 ≤ lineno p →
  (lineno p = 0 → has_bom (unlines lines) = false) → (length (unlines lines) ≤ fuel)%nat →
  parse_stream handler fuel p (unlines lines) = foldl document_step p items.
Proof.
  intros H. revert fuel in_option p. induction H as [|i line items lines Hi Hls IH]; intros fuel b p Hw Hp Hn Hb Hf.
  { by destruct fuel. }
  pose proof Hi as (Hr & Hl & Hlen). change (unlines (line :: lines)) with ((line ++ [newline]) ++ unlines lines) in *.
  rewrite !length_app in Hf. rewrite <- app_assoc in *. cbn [app length] in *.
  destruct fuel as [|fuel]; [lia|]. cbn [parse_stream].
  rewrite fgets_line by (done || (unfold INI_MAX_LINE in *; lia)).
  destruct (line ++ newline :: unlines lines) eqn:E; [by destruct line|]. rewrite <- E in Hb. clear E.
  cbn [foldl]. rewrite (parse_line_item p i line Hi).
  - eapply (IH fuel (match i with OptionLine _ _ | MoreLine _ => true | SectionLine _ => false | _ => b end)).
    + destruct i; try done. by destruct Hw.
    + destruct Hr; try done; intros _; cbn; rewrite (proj1 (proj2 (call_handler_fields _ _ _))); [done|].
      by apply Hp, Hw.
    + rewrite document_step_lineno. lia.
    + rewrite document_step_lineno. lia.
    + lia.
  - intros E. apply (has_bom_app _ (unlines lines)). rewrite <- app_assoc. by apply Hb.
  - intros v ->. by apply Hp, Hw.
Qed.

Hypothesis handler_ok : ∀ u s n v, (handler u s n v).2 = true.

Definition handle_option_value (u : User) (o : text * text * text) : User :=
  (handler u o.1.1 o.1.2 o.2).1.

Lemma call_handler_spec p name value :
  call_handler handler p name value =
    mkParse (handler (user p) (section p) name value).1 (section p) (prev_name p) (lineno p) (error p).
Proof.
  unfold call_handler. pose proof (handler_ok (user p) (section p) name value).
  destruct (handler _ _ _ _) as [u []]; done.
Qed.

(** The handler sees the options of the document in order, and the error is the
    first bad line. *)
Lemma document_result items p :
  0 ≤ lineno p →
  user (foldl document_step p items) =
    foldl handle_option_value (user p) (options_of (section p) (prev_name p) items) ∧
  error (foldl document_step p items) =
    if error p =? 0 then first_bad (lineno p + 1) items else error p.
Proof.
  revert p. induction items as [|i items IH]; intros p Hn.
  { cbn. by destruct (Z.eqb_spec (error p) 0). }
  cbn [foldl]. destruct (IH (document_step p i)) as [-> ->]; [rewrite document_step_lineno; lia|].
  rewrite document_step_lineno. unfold document_step, item_step, next_line.
  destruct i; rewrite ?call_handler_spec; cbn; try done.
  split; [done|]. destruct (Z.eqb_spec (error p) 0) as [_|E]; [|by rewrite (proj2 (Z.eqb_neq _ _) E)].
  by rewrite (proj2 (Z.eqb_neq _ _)) by lia.
Qed.

Lemma ini_parse_document lines items u :
  Forall2 line_of items lines → well_placed false items → has_bom (unlines lines) = false →
  ini_parse_stream handler u (unlines lines) =
    (foldl handle_option_value u (options_of [] [] items), first_bad 1 items).
Proof.
  intros H Hw Hb. unfold ini_parse_stream.
  rewrite (parse_stream_document _ false lines items) by (done || (cbn; lia)).
  destruct (document_result items (mkParse u [] [] 0 0)) as [-> ->]; [done|]. done.
Qed.
End Document.

(** ** The values *)

Lemma values_of_snoc key os o :
  values_of key (os ++ [o]) = values_of key os ++ (if decide (option_key o = key) then [o.2] else []).
Proof.
  unfold values_of. rewrite filter_app, fmap_app. f_equal. by destruct (decide (option_key o = key)) as [E|E];
    [rewrite filter_cons_True|rewrite filter_cons_False].
Qed.

Lemma joined_snoc vs v :
  joined (vs ++ [v]) = match joined vs with [] => [] | _ => joined vs ++ [newline] end ++ v.
Proof. unfold joined. by rewrite foldl_app. Qed.

Lemma values_meaning os key :
  values_ (foldl (handle_option_value ValueHandler) (mkValues ∅ ∅) os) !! key =
    match values_of key os with [] => None | vs => Some (joined vs) end.
Proof.
  induction os as [|o os IH] using rev_ind; [apply lookup_empty|].
  rewrite foldl_snoc, values_of_snoc. set (r := foldl _ _ os) in *. unfold handle_option_value, ValueHandler.
  cbn [fst values_]. change (MakeKey o.1.1 o.1.2) with (option_key o). destruct (decide (option_key o = key)) as [<-|E].
  - rewrite lookup_insert_eq. unfold text in *. rewrite IH. destruct (values_of (option_key o) os) as [|v vs] eqn:Ev; [done|].
    cbn [app]. rewrite app_comm_cons, joined_snoc. done.
  - rewrite lookup_insert_ne, IH, app_nil_r by done. done.
Qed.

Lemma sections_meaning os s :
  s ∈ sections_ (foldl (handle_option_value ValueHandler) (mkValues ∅ ∅) os) ↔ s ∈ os.*1.*1.
Proof.
  induction os as [|o os IH] using rev_ind; [cbn; set_solver|].
  rewrite foldl_snoc, !fmap_app. set (r := foldl _ _ os) in *. cbn. set_solver.
Qed.

(** The reader after a file of the grammar: the error, the values and the
    sections. *)
Lemma INIReader_document lines items :
  Forall2 line_of items lines → well_placed false items → has_bom (unlines lines) = false →
  (INIReader_open (Some (unlines lines))).2 = first_bad 1 items ∧
  (∀ sec name, lookup_value (INIReader_open (Some (unlines lines))).1 sec name =
     meaning (options_of [] [] items) sec name) ∧
  (∀ s, s ∈ sections_ (INIReader_open (Some (unlines lines))).1 ↔ s ∈ (options_of [] [] items).*1.*1).
Proof.
  intros H Hw Hb. unfold INIReader_open, ini_parse. rewrite (ini_parse_document ValueHandler (λ _ _ _ _, eq_refl) _ items) by done.
  split; [done|]. split; [|intros s; apply sections_meaning].
  intros sec name. unfold lookup_value. cbn [fst]. by rewrite values_meaning.
Qed.

(** A document with every kind of line. *)
Definition to_text (s : string) : text := String.list_ascii_of_string s.

Definition sample_lines : list text := map to_text
  ["; a sample"; "[System]"; "channels = 8  ; eight"; "  # also"; "no value"; "Rows:0x10";
   "  20"; "rows =  ; none"; "[other"]%string.

Definition sample_items : list item :=
  [SkippedLine; SectionLine (to_text "System"); OptionLine (to_text "channels") (to_text "8");
   SkippedLine; BadLine; OptionLine (to_text "Rows") (to_text "0x10"); MoreLine (to_text "20");
   OptionLine (to_text "rows") (to_text "; none"); BadLine].

Ltac by_computation := apply (bool_decide_unpack _); vm_compute; exact I.

Ltac line_facts :=
  lazymatch goal with
  | |- no_comment _ => apply (comment_free_no false); repeat split; by intros
  | |- tidy _ => split; by intros ? [= <-]
  | |- trailing _ _ => first [left; by_computation | right; split; [done|]]
  | |- (_ < _)%nat => vm_compute; lia
  | |- _ => first [done | by_computation]
  end.

Lemma sample_renders : Forall2 line_of sample_items sample_lines.
Proof.
  repeat apply List.Forall2_cons; [..|apply List.Forall2_nil]; (split; [|split; [by_computation|vm_compute; lia]]).
  - apply (renders_comment []); line_facts.
  - apply (renders_section (to_text "System") []); line_facts.
  - apply (renders_option "c" (to_text "hannels") [" "] "=" [" "] ["8"] (to_text "  ; eight")); line_facts.
    exists [" "; " "], (to_text " eight"). by repeat constructor.
  - apply (renders_comment [" "; " "]); line_facts.
  - apply (renders_bad_option "n"); line_facts.
  - apply (renders_option "R" (to_text "ows") [] ":" [] (to_text "0x10") []); line_facts.
  - apply (renders_more " " [" "] "2" ["0"] []); line_facts.
  - apply (renders_option "r" (to_text "ows") [" "] "=" [" "; " "] (to_text "; none") []); line_facts.
  - apply renders_bad_section; line_facts.
Qed.

Lemma sample_placed : well_placed false sample_items.
Proof. by cbn. Qed.

(** ** Numbers and truth values *)

(** A decimal number without superfluous zeros (a leading zero means octal). *)
Definition plain_decimal (n : Z) (ds : text) : Prop :=
  decimal n ds ∧ (head ds = Some "0" → ds = ["0"]).

Definition numeral (z : Z) (s : text) : Prop :=
  plain_decimal z s ∨ ∃ n ds, plain_decimal n ds ∧ z = - n ∧ s = "-" :: ds.

Lemma digit_in_ten c : digit_in 10 c = digit c.
Proof.
  unfold digit_in, digit. destruct (Z.leb_spec 48 (code c)), (Z.leb_spec (code c) 57); cbn [andb].
  1: by rewrite (proj2 (Z.ltb_lt _ _)) by lia.
  all: destruct ((97 <=? code (tolower c)) && (code (tolower c) <=? 102)) eqn:E; [|done].
  all: split_bool; by rewrite (proj2 (Z.ltb_ge _ _)) by lia.
Qed.

Lemma digit_run_digits acc ds : Forall is_digit ds → digit_run 10 acc ds = (digits acc ds, length ds, []).
Proof.
  intros H. revert acc. induction H as [|c ds [d Hc] _ IH]; intros acc; [done|].
  cbn [digit_run digits length]. by rewrite digit_in_ten, Hc, IH.
Qed.

Lemma is_digit_facts c : is_digit c →
  is_space c = false ∧ (c =c nul) = false ∧ (c =c "-") = false ∧ (c =c "+") = false ∧ tolower c = c ∧
  c ≠ "i" ∧ c ≠ "n".
Proof.
  intros Hc. destruct (digit_not_space c Hc) as [Hs _]. destruct Hc as [d Hd].
  unfold digit in Hd. case_match; [|done]. split_bool.
  assert (Hne : ∀ x, code x < 48 ∨ 57 < code x → c ≠ x) by (intros x Hx ->; lia).
  split_and!; try (apply not_char); try (apply Hne; first [left; reflexivity | right; reflexivity]).
  - done.
  - unfold tolower. destruct (Z.leb_spec 65 (code c)); [lia|done].
Qed.

Lemma c_str_digits ds : Forall is_digit ds → c_str ds = ds.
Proof.
  induction 1 as [|c ds Hc _ IH]; [done|]. cbn. apply is_digit_facts in Hc as (_ & -> & _). by rewrite IH.
Qed.

Lemma sign_of_digits ds : Forall is_digit ds → sign_of (skip_space ds) = (false, ds).
Proof.
  destruct 1 as [|c ds Hc _]; [done|]. apply is_digit_facts in Hc as (Hs & _ & H1 & H2 & _).
  cbn. rewrite Hs. cbn. by rewrite H1, H2.
Qed.

Lemma plain_hex n ds : plain_decimal n ds → hex_prefix ds = None ∧ hex_float ds = None.
Proof.
  intros [_ Hz]. destruct ds as [|c [|x ds]]; [done..|]. cbn in *.
  destruct (Ascii.eqb_spec c "0") as [->|_]; [by specialize (Hz eq_refl)|]. by destruct ds.
Qed.

Lemma strtol0_run n ds : plain_decimal n ds →
  match hex_prefix ds with
  | Some s' => digit_run 16 0 s'
  | None => match ds with
            | c :: _ => if c =c "0" then digit_run 8 0 ds else digit_run 10 0 ds
            | [] => (0, O, [])
            end
  end = (n, length ds, []).
Proof.
  intros Hp. rewrite (proj1 (plain_hex n ds Hp)). destruct Hp as [(Hne & Hd & <-) Hz].
  destruct ds as [|c ds]; [done|]. destruct (Ascii.eqb_spec c "0") as [->|_]; [|by apply digit_run_digits].
  by rewrite (Hz eq_refl).
Qed.

Lemma strtol0_numeral z s : numeral z s → - 2 ^ 63 ≤ z < 2 ^ 63 → strtol0 (c_str s) = Some z.
Proof.
  intros Hz Hr. assert (saturate z = z) as Es by (unfold saturate, LONG_MAX; lia).
  destruct Hz as [Hp|(n & ds & Hp & -> & ->)]; pose proof (proj1 Hp) as (Hne & Hd & _); unfold strtol0.
  - rewrite c_str_digits, sign_of_digits by done. rewrite (strtol0_run z s Hp). by destruct s; [|rewrite <- Es at 2].
  - assert (Es' : sign_of (skip_space (c_str ("-" :: ds))) = (true, ds)).
    { cbn. by rewrite c_str_digits. }
    rewrite Es'. rewrite (strtol0_run n ds Hp). by destruct ds; [|rewrite <- Es at 2].
Qed.

Lemma strtod_plain n ds : plain_decimal n ds → 0 ≤ n → strtod (c_str ds) = Some (d_of_Z n).
Proof.
  intros Hp Hn. pose proof (proj1 Hp) as (Hne & Hd & E). unfold strtod.
  rewrite c_str_digits, sign_of_digits by done. destruct ds as [|c ds]; [done|].
  pose proof (Forall_inv Hd) as (_ & _ & _ & _ & Hlow & Hi & Hn')%is_digit_facts. unfold starts_with.
  rewrite !bool_decide_false by (cbn; rewrite Hlow; congruence).
  rewrite (proj2 (plain_hex n _ Hp)). unfold fraction_run. rewrite digit_run_digits, E by done.
  cbn [length Nat.eqb exponent_of]. unfold round_decimal. cbn.
  destruct n as [|p|p]; [done| |lia]. by rewrite Z.mul_1_r.
Qed.

Lemma to_text_of s : String.string_of_list_ascii (to_text s) = s.
Proof. apply String.string_of_list_ascii_of_string. Qed.

(** How a truth value is spelled, in any case. *)
Definition truth (b : bool) (s : text) : Prop :=
  map tolower s ∈ words (if b then ["true"; "yes"; "on"; "1"] else ["false"; "no"; "off"; "0"])%string.

Lemma truth_unique s : truth true s → truth false s → False.
Proof.
  unfold truth. generalize (map tolower s). intros t Ht Hf. revert Hf.
  cbn in Ht. repeat (apply elem_of_cons in Ht as [->|Ht]; [by_computation|]). by apply not_elem_of_nil in Ht.
Qed.

(** [C10] A configuration file means what its lines say.  For every file that is
    a sequence of lines of the grammar (with any white space around names and
    values, either separator, comments, blank lines, inline comments and
    continuation lines, no line longer than the buffer), the reader the
    configuration works with reports the number of the first bad line, or 0 if
    there is none, and otherwise ignores bad lines.  An option has the values
    its lines give it in the last section begun before them, joined by newlines,
    sections and names being compared without case; a decimal number is read as
    that number by the integer and the real getters, a truth value in any
    spelling as that value, and an option that does not occur has the caller's
    default in every getter. *)
Theorem config_file_read lines items sec name :
  let reader := reader_of (Some (unlines lines)) in
  let value := meaning (options_of [] [] items) (to_text sec) (to_text name) in
  Forall2 line_of items lines → well_placed false items → has_bom (unlines lines) = false →
  ParseError reader = first_bad 1 items ∧
  (∀ d, Get reader sec name d = default d (String.string_of_list_ascii <$> value)) ∧
  (∀ z s d, value = Some s → numeral z s → - 2 ^ 31 ≤ z < 2 ^ 31 → GetInteger reader sec name d = z) ∧
  (∀ n s d, value = Some s → plain_decimal n s → 0 ≤ n → GetReal reader sec name d = d_of_Z n) ∧
  (∀ b s d, value = Some s → truth b s → GetBoolean reader sec name d = b) ∧
  (value = None →
     (∀ d, GetInteger reader sec name d = s32 d) ∧ (∀ d, GetReal reader sec name d = d) ∧
     (∀ d, GetBoolean reader sec name d = d)).
Proof.
  intros reader value H Hw Hb. destruct (INIReader_document lines items H Hw Hb) as (He & Hv & _).
  unfold reader, reader_of. destruct (INIReader_open (Some (unlines lines))) as [r e]. cbn in He, Hv.
  unfold GetInteger. cbn [ParseError Get GetInteger_long GetReal GetBoolean].
  unfold Reader_GetInteger, Reader_GetReal, Reader_GetBoolean, Reader_Get. fold (to_text sec) (to_text name).
  rewrite Hv. fold value. split_and!; [done|..].
  - intros d. by destruct value; cbn; [|rewrite String.string_of_list_ascii_of_string].
  - intros z s d -> Hz Hr. cbn. rewrite (strtol0_numeral z s) by (done || lia). apply s32_id. lia.
  - intros n s d -> Hz Hr. cbn. by rewrite (strtod_plain n s).
  - intros b s d -> Ht. cbn [default from_option id]. destruct b.
    + by rewrite bool_decide_true.
    + rewrite bool_decide_false by (intros ?; by eapply truth_unique). by rewrite bool_decide_true.
  - intros ->. done.
Qed.

Lemma config_file_read_witness :
  ParseError (reader_of (Some (unlines sample_lines))) = 5 ∧
  GetInteger (reader_of (Some (unlines sample_lines))) "SYSTEM" "Channels" 1 = 8 ∧
  GetInteger (reader_of (Some (unlines sample_lines))) "system" "ranks" 1 = 1.
Proof.
  destruct (config_file_read sample_lines sample_items "SYSTEM" "Channels" sample_renders sample_placed eq_refl)
    as (He & _ & Hi & _).
  destruct (config_file_read sample_lines sample_items "system" "ranks" sample_renders sample_placed eq_refl)
    as (_ & _ & _ & _ & _ & Hd).
  split_and!; [exact He| |exact (proj1 (Hd eq_refl) 1)].
  apply (Hi 8 ["8"]); [reflexivity| |lia]. left. split; [|done]. by repeat econstructor.
Defined.

(** ** The shipped configuration *)

(** configs/HBM2_8Gb_x128.ini, byte for byte. *)
Definition hbm2_file : string :=
"[dram_structure]
protocol = HBM
bankgroups = 4
banks_per_group = 4
rows = 8192
columns = 128
device_width = 64
BL = 4
num_dies = 4

[timing]
tCK = 1
CL = 14
CWL = 4
tRCDRD = 14
tRCDWR = 14
tRP = 14
tRAS = 34
tRFC = 260
tREFI = 3900
tREFIb = 128
tRPRE = 1
tWPRE = 1
tRRD_S = 4
tRRD_L = 6
tWTR_S = 6
tWTR_L = 8
tFAW = 30
tWR = 16
tCCD_S = 1
tCCD_L = 2
tXS = 268
tCKE = 8
tCKSRE = 10
tXP = 8
tRTP_L = 6
tRTP_S = 4

[power]
VDD = 1.2
IDD0 = 85
IDD2P = 7
IDD2N = 40
IDD3P = 40
IDD3N = 55
IDD4W = 135
IDD4R = 135
IDD5AB = 215
IDD6x = 31

[system]
channel_size = 256
channels = 8
bus_width = 64
address_mapping = rorabgbacoch
queue_structure = PER_BANK
row_buf_policy = OPEN_PAGE
cmd_queue_size = 8
trans_queue_size = 32
unified_queue = False

[other]
epoch_period = 1000000
output_level = 1

".

(** Reading the file gives the configuration the other files use. *)
Example hbm2_file_read dir_exist out_dir :
  Config_init (reader_of (Some (to_text hbm2_file))) dir_exist out_dir = Config_init hbm2_reader dir_exist out_dir.
Proof. destruct dir_exist; vm_compute; reflexivity. Qed.

(** The constructor of a configuration only rejects a file that cannot be
    opened: a line without a separator leaves its option at the default. *)
Lemma bad_line_ignored :
  ∃ config,
    ParseError (reader_of (Some (unlines [to_text "[system]"; to_text "channels 4"]))) = 2 ∧
    Config_init (reader_of (Some (unlines [to_text "[system]"; to_text "channels 4"]))) true "." = Ok config ∧
    channels config = 1.
Proof. eexists. split_and!; vm_compute; reflexivity. Qed.
