(* ===== verification/ThermalSolver.v ===== *)
(** * The thermal solver: src/src/thermal_solver.c

    The grid of thermal resistances of a stack of dies as a sparse matrix, the
    capacitances, the explicit time stepping of the transient solver and the
    linear system of the steady solver.  Only the solution of that system,
    [pdgssv] of the external SuperLU library, is a parameter.

    The matrix is a list of entries.  The source keeps the row and the column
    of an entry in a [double]; they are [int]s, which a [double] holds exactly
    and which [(int)(x + 0.01)] gives back, so they are integers here. *)
From Stdlib Require Import SpecFloat.
From stdpp Require Import base tactics numbers list list_numbers sets sorting.
From S2P Require Import Prelude Double.

Local Open Scope Z_scope.

(** ** Constants: src/src/thermal_config.h *)

(** [M_PI] of math.h: 0x1.921fb54442d18p+1. *)
Definition M_PI : double := S754_finite false 7074237752028440 (-51).
Definition T0 : double := d_dec 27315 2.
Definition R_TSV : double := d_dec 5 6.

Definition Ksi : double := d_of_Z 148.
Definition Kcu : double := d_of_Z 401.
Definition Kin : double := d_dec 15 1.
Definition Khs : double := d_of_Z 4.

Definition Csi : double := d_of_Z 1660000.
Definition Ccu : double := d_of_Z 3200000.
Definition Cin : double := d_of_Z 1650000.
Definition Chs : double := d_of_Z 2420000.

Definition Hsi : double := d_dec 400 6.
Definition Hcu : double := d_dec 5 6.
Definition Hin : double := d_dec 20 6.
Definition Hhs : double := d_dec 1000 6.

(** ** Layers

    Every die is an active layer of silicon, a layer of wires and an
    insulator; a heat sink lies on the first one. *)

Record Material := mkMaterial { conductance : double; capacitance : double; height : double }.

Definition material (i : Z) : Material :=
  if Z.rem i 3 =? 0 then mkMaterial Ksi Csi Hsi
  else if Z.rem i 3 =? 1 then mkMaterial Kcu Ccu Hcu
  else mkMaterial Kin Cin Hin.

Definition numLayer (numP : Z) : Z := numP * 3.

(** [layerP[l]], the active layer of die [l]. *)
Definition layerP (l : Z) : Z := l * 3.

(** The number of nodes of the grid. *)
Definition nodes (numP dimX dimZ : Z) : Z := dimX * dimZ * (numLayer numP + 1).

Definition initialize_Temperature (numP dimX dimZ : Z) (Tamb : double) : list double :=
  replicate (Z.to_nat (nodes numP dimX dimZ)) Tamb.

Definition calculate_Cap_array (W Lc : double) (numP dimX dimZ : Z) : list double :=
  let gridX := (W / d_of_Z dimX)%double in
  let gridZ := (Lc / d_of_Z dimZ)%double in
  (λ i, if i =? 0 then (Chs * Hhs * gridX * gridZ)%double
        else let m := material (i - 1) in (capacitance m * height m * gridX * gridZ)%double)
  <$> seqZ 0 (numLayer numP + 1).

(** ** The conductance matrix *)

Record Entry := mkEntry { e_row : Z; e_col : Z; e_val : double }.

(** [mapTSV]: the tier of through-silicon vias a layer crosses, 0 for none. *)
Definition mapTSV (numP i : Z) : Z :=
  if i =? numLayer numP - 2 then numP - 1
  else if (i =? 0) || (i =? numLayer numP - 1) then 0
  else Z.quot (i - 1) 3 + 1.

Section Matrix.
Context (W Lc : double) (numP dimX dimZ : Z).

Definition gridX : double := (W / d_of_Z dimX)%double.
Definition gridZ : double := (Lc / d_of_Z dimZ)%double.

Definition Rsinkx : double := (gridX / Khs / gridZ / Hhs)%double.
Definition Rsinky : double := (Hhs / Khs / gridX / gridZ)%double.
Definition Rsinkz : double := (gridZ / Khs / gridX / Hhs)%double.
Definition Ramb : double := (Rsinky / d_of_Z 2)%double.

(** The number of vias in a grid cell: [TSV[i][j][k]] is set to 0 everywhere,
    so the resistances are the same in every cell of a layer. *)
Definition TSV : double := d_of_Z 0.

(** [Rvert[i][j][l]]; [Rvert 0] is the heat sink. *)
Definition Rvert (l : Z) : double :=
  if l =? 0 then Rsinky
  else
    let m := material (l - 1) in
    if negb (mapTSV numP (l - 1) =? 0) then
      (d_of_Z 1
       / (d_of_Z 1 / (height m / conductance m / (gridX * gridZ - M_PI * R_TSV * R_TSV * TSV))
          + d_of_Z 1 / (height m / Kcu / (M_PI * R_TSV * R_TSV * TSV))))%double
    else (height m / conductance m / (gridX * gridZ))%double.

(** [Rhori[l][0]] and [Rhori[l][1]]. *)
Definition Rhori_x (l : Z) : double :=
  if l =? 0 then Rsinkx
  else let m := material (l - 1) in (gridX / conductance m / gridZ / height m * d_of_Z 10)%double.
Definition Rhori_z (l : Z) : double :=
  if l =? 0 then Rsinkz
  else let m := material (l - 1) in (gridZ / conductance m / gridZ / height m * d_of_Z 10)%double.

Definition node (l j i : Z) : Z := l * dimX * dimZ + j * dimX + i.

(** The number of entries the matrix is allocated for. *)
Definition neighbours (l j i : Z) : Z :=
  Z.b2z (0 <=? i - 1) + Z.b2z (i + 1 <? dimX) + Z.b2z (0 <=? j - 1) + Z.b2z (j + 1 <? dimZ)
  + Z.b2z (l <? numLayer numP) + Z.b2z (0 <? l).

Definition sum_over (n : Z) (f : Z → Z) : Z := foldl (λ s x, s + f x) 0 (seqZ 0 n).

Definition count : Z :=
  sum_over (numLayer numP + 1) (λ l, sum_over dimX (λ i, sum_over dimZ (λ j, neighbours l j i)))
  + dimX * dimZ * (numLayer numP + 1).

(** The off-diagonal entries of a row, in the order they are written. *)
Definition vertical (l l' : Z) : double :=
  (d_of_Z (-1) / (Rvert l / d_of_Z 2 + Rvert l' / d_of_Z 2))%double.
Definition along_x (l : Z) : double := (d_of_Z (-1) / Rhori_x l)%double.
Definition along_z (l : Z) : double := (d_of_Z (-1) / Rhori_z l)%double.

Definition only_if {A} (b : bool) (x : A) : list A := if b then [x] else [].

Definition off_diagonal (l j i : Z) : list Entry :=
  let r := node l j i in
  only_if (0 <? l) (mkEntry r (node (l - 1) j i) (vertical l (l - 1)))
  ++ only_if (0 <=? j - 1) (mkEntry r (node l (j - 1) i) (along_z l))
  ++ only_if (0 <=? i - 1) (mkEntry r (node l j (i - 1)) (along_x l))
  ++ only_if (i + 1 <? dimX) (mkEntry r (node l j (i + 1)) (along_x l))
  ++ only_if (j + 1 <? dimZ) (mkEntry r (node l (j + 1) i) (along_z l))
  ++ only_if (l <? numLayer numP) (mkEntry r (node (l + 1) j i) (vertical l (l + 1))).

(** The diagonal entry: minus the others, and the ambient for a sink node. *)
Definition diagonal (l j i : Z) : Entry :=
  let r := node l j i in
  let v := foldl (λ v e, (v - e_val e)%double) (d_of_Z 0) (off_diagonal l j i) in
  mkEntry r r (if r <? dimX * dimZ then (v + d_of_Z 1 / Ramb)%double else v).

(** The diagonal entry is written last and sinks to its place: [row] is what
    has been written before it, from the last entry to the first. *)
Fixpoint sink (d : Entry) (row : list Entry) : list Entry :=
  match row with
  | [] => [d]
  | e :: row' => if e_col d <? e_col e then e :: sink d row' else d :: row
  end.

Definition matrix_row (l j i : Z) : list Entry :=
  reverse (sink (diagonal l j i) (reverse (off_diagonal l j i))).

Definition calculate_Midx_array : list Entry :=
  l ← seqZ 0 (numLayer numP + 1); j ← seqZ 0 dimZ; i ← seqZ 0 dimX; matrix_row l j i.
End Matrix.

(** ** The steady state *)

Definition PowerM : Type := list (list (list double)).

Definition power_at (powerM : PowerM) (i j l : Z) : outcome double :=
  p ← vget powerM i; p ← vget p j; vget p l.

(** The ambient drives every node of the sink. *)
Definition ambient (W Lc : double) (dimX dimZ : Z) (Tamb : double) (rhs : list double)
    : outcome (list double) :=
  for_range (dimX * dimZ) (λ i rhs, vset rhs i (Tamb / Ramb W Lc dimX dimZ)%double) rhs.

Definition zeros (n : Z) : list double := replicate (Z.to_nat n) (d_of_Z 0).

Definition steady_rhs (powerM : PowerM) (W Lc : double) (numP dimX dimZ : Z) (Tamb : double)
    : outcome (list double) :=
  rhs ← ambient W Lc dimX dimZ Tamb (zeros (nodes numP dimX dimZ));
  for_range numP (λ l, for_range dimX (λ i, for_range dimZ (λ j rhs,
    p ← power_at powerM i j l;
    vset rhs (dimX * dimZ * (layerP l + 1) + j * dimX + i) p))) rhs.

(** The index of the first entry of every row; the array is not initialised
    and [i] counts the entries. *)
Fixpoint fill_xa (Midx : list Entry) (i row : Z) (xa : list (option Z))
    : outcome (list (option Z)) :=
  match Midx with
  | [] => vset xa (row + 1) (Some i)
  | e :: Midx' =>
      if row <? e_row e then
        xa ← vset xa (e_row e) (Some i); fill_xa Midx' (i + 1) (e_row e) xa
      else fill_xa Midx' (i + 1) row xa
  end.

(** [pdgssv] on a matrix with the values [a], the row indices [asub] and the
    column starts [xa], and a right-hand side. *)
Definition Pdgssv : Type := list double → list Z → list (option Z) → list double → list double.

Definition steady_thermal_solver (pdgssv : Pdgssv) (powerM : PowerM) (W Lc : double)
    (numP dimX dimZ : Z) (Midx : list Entry) (Tamb : double) : outcome (list double) :=
  xa ← fill_xa Midx 0 (-1) (replicate (Z.to_nat (nodes numP dimX dimZ + 1)) None);
  rhs ← steady_rhs powerM W Lc numP dimX dimZ Tamb;
  Ok ((λ t, (t - T0)%double) <$> pdgssv (e_val <$> Midx) (e_col <$> Midx) xa rhs).

(** ** The transient *)

Definition transient_power (powerM : PowerM) (W Lc : double) (numP dimX dimZ : Z)
    (Tamb : double) : outcome (list double) :=
  P ← ambient W Lc dimX dimZ Tamb (zeros (nodes numP dimX dimZ));
  for_range numP (λ l, for_range dimZ (λ j, for_range dimX (λ i P,
    p ← power_at powerM i j l;
    vset P (dimX * dimZ * (layerP l + 1) + i * dimZ + j) p))) P.

(** What one entry of the matrix adds to the new temperatures [T]. *)
Definition add_entry (dimX dimZ : Z) (Cap P Tp : list double) (dt : double) (e : Entry)
    (T : list double) : outcome (list double) :=
  idxC ← idiv (e_row e) (dimX * dimZ);
  c ← vget Cap idxC;
  tp ← vget Tp (e_col e);
  t ← vget T (e_row e);
  if e_row e =? e_col e then
    p ← vget P (e_row e);
    let tmp_a := (d_of_Z 1 - e_val e * dt / c)%double in
    let tmp_b := (tmp_a * tp + p * dt / c)%double in
    vset T (e_row e) (t + tmp_b)%double
  else
    let tmp_a := (e_val e * tp * dt / c)%double in
    vset T (e_row e) (t - tmp_a)%double.

(** The iterations; the blocks of eight entries do not change their order, and
    the exchange of [T] and [Tp] leaves [T] cleared for the next one. *)
Definition transient_thermal_solver (powerM : PowerM) (W Lc : double) (numP dimX dimZ : Z)
    (Midx : list Entry) (Cap : list double) (time : double) (iter : Z) (T_trans : list double)
    (Tamb : double) : outcome (list double) :=
  P ← transient_power powerM W Lc numP dimX dimZ Tamb;
  let dt := (time / d_of_Z iter)%double in
  for_range iter
    (λ _ Tp, for_each (add_entry dimX dimZ Cap P Tp dt) Midx (zeros (nodes numP dimX dimZ)))
    T_trans.

(** ** Generic lemmas: sums, products of ranges and independent writes *)

Lemma seqZ_snoc m n : 0 ≤ n → seqZ m (n + 1) = seqZ m n ++ [m + n].
Proof. intros Hn. rewrite seqZ_app by lia. by rewrite (seqZ_cons (m + n) 1) by lia. Qed.

Lemma sum_over_0 f : sum_over 0 f = 0.
Proof. done. Qed.

Lemma sum_over_succ n f : 0 ≤ n → sum_over (n + 1) f = sum_over n f + f n.
Proof. intros Hn. unfold sum_over. rewrite seqZ_snoc, foldl_app by done. done. Qed.

Lemma sum_over_ext n f g : (∀ x, 0 ≤ x < n → f x = g x) → sum_over n f = sum_over n g.
Proof.
  intros H. destruct (decide (0 ≤ n)) as [Hn|]; [|unfold sum_over; by rewrite seqZ_nil by lia].
  revert H. pattern n. apply natlike_ind; [done| |done]. intros k Hk IH H. unfold Z.succ.
  rewrite !sum_over_succ, H, IH; [done|intros; apply H; lia|lia..].
Qed.

Lemma sum_over_add n f g : 0 ≤ n → sum_over n (λ x, f x + g x) = sum_over n f + sum_over n g.
Proof.
  intros Hn. pattern n. apply natlike_ind; [done| |done]. intros k Hk IH. unfold Z.succ.
  rewrite !sum_over_succ by done. lia.
Qed.

Lemma sum_over_const n c : 0 ≤ n → sum_over n (λ _, c) = n * c.
Proof.
  intros Hn. pattern n. apply natlike_ind; [done| |done]. intros k Hk IH. unfold Z.succ.
  rewrite !sum_over_succ by done. lia.
Qed.

Lemma sum_over_swap n m f : 0 ≤ n → 0 ≤ m →
  sum_over n (λ i, sum_over m (f i)) = sum_over m (λ j, sum_over n (λ i, f i j)).
Proof.
  intros Hn Hm. pattern n. apply natlike_ind; [|intros k Hk IH|done].
  - rewrite (sum_over_ext m _ (λ _, 0)) by done. rewrite sum_over_const by done. rewrite sum_over_0. lia.
  - unfold Z.succ. rewrite sum_over_succ, IH, <- sum_over_add by done.
    apply sum_over_ext. intros j _. by rewrite sum_over_succ.
Qed.

Lemma vsize_app {A} (l k : list A) : vsize (l ++ k) = vsize l + vsize k.
Proof. unfold vsize. rewrite length_app. lia. Qed.

Lemma vsize_bind {A} (f : Z → list A) n : 0 ≤ n →
  vsize (x ← seqZ 0 n; f x) = sum_over n (λ x, vsize (f x)).
Proof.
  intros Hn. pattern n. apply natlike_ind; [done| |done]. intros k Hk IH. unfold Z.succ.
  rewrite sum_over_succ, seqZ_snoc, bind_app, vsize_app, IH by done. by cbn [mbind list_bind]; rewrite Z.add_0_l, app_nil_r.
Qed.

Lemma bind_ext_in {A B} (f g : A → list B) l : (∀ x, x ∈ l → f x = g x) → l ≫= f = l ≫= g.
Proof.
  induction l as [|x l IH]; intros H; [done|]. cbn. rewrite H by left. f_equal. apply IH.
  intros y Hy. apply H. by right.
Qed.

(** A nest of two loops is one loop over the pairs. *)
Lemma seqZ_prod {A} (f : Z → Z → list A) n m : 0 ≤ n → 0 < m →
  (a ← seqZ 0 n; b ← seqZ 0 m; f a b) = (k ← seqZ 0 (n * m); f (k / m) (k mod m)).
Proof.
  intros Hn Hm. pattern n. apply natlike_ind; [done| |done]. intros k Hk IH. unfold Z.succ.
  rewrite seqZ_snoc, bind_app, IH by done. rewrite Z.mul_add_distr_r, Z.mul_1_l.
  rewrite seqZ_app, bind_app by lia. f_equal. cbn [mbind list_bind]; rewrite app_nil_r, ?Z.add_0_l.
  rewrite <- (Z.add_0_r (k * m)), <- fmap_add_seqZ, list_fmap_bind.
  apply bind_ext_in. intros b [Hb1 Hb2]%elem_of_seqZ. cbn.
  rewrite Z.div_add_l, (Z.add_comm _ b), Z.mod_add, Z.div_small, Z.mod_small by lia.
  by rewrite Z.add_0_r.
Qed.

(** A nest of loops over a state is one loop. *)
Lemma for_each_nest {A B S} (body : A → B → S → outcome S) (L : A → list B) l s :
  for_each (λ a, for_each (body a) (L a)) l s
  = for_each (λ ab, body ab.1 ab.2) (a ← l; (a,.) <$> L a) s.
Proof.
  revert s. induction l as [|a l IH]; intros s; [done|]. cbn [mbind list_bind].
  rewrite for_each_app, <- for_each_fmap. cbn [for_each fst snd]. destruct (for_each (body a) (L a) s); [apply IH|done].
Qed.

(** The points of a box, in the order three nested loops visit them. *)
Definition box (n m p : Z) : list (Z * (Z * Z)) :=
  a ← seqZ 0 n; (a,.) <$> (b ← seqZ 0 m; (b,.) <$> seqZ 0 p).

Lemma elem_of_box n m p a b c : (a, (b, c)) ∈ box n m p ↔ 0 ≤ a < n ∧ 0 ≤ b < m ∧ 0 ≤ c < p.
Proof.
  unfold box. rewrite list_elem_of_bind. split.
  - intros (a' & (bc & E & Hbc)%list_elem_of_fmap & Ha%elem_of_seqZ). simplify_eq.
    apply list_elem_of_bind in Hbc as (b' & (c' & E & Hc%elem_of_seqZ)%list_elem_of_fmap & Hb%elem_of_seqZ).
    simplify_eq. lia.
  - intros (? & ? & ?). exists a. rewrite elem_of_seqZ. split; [|lia]. apply list_elem_of_fmap. eexists. split; [done|].
    apply list_elem_of_bind. exists b. rewrite elem_of_seqZ. split; [|lia]. apply list_elem_of_fmap. exists c.
    rewrite elem_of_seqZ. split; [done|lia].
Qed.

Lemma for_range_box {S} n m p (body : Z → Z → Z → S → outcome S) s :
  for_range n (λ a, for_range m (λ b, for_range p (body a b))) s
  = for_each (λ x, body x.1 x.2.1 x.2.2) (box n m p) s.
Proof.
  unfold for_range, box. rewrite <- (for_each_nest (λ a bc, body a bc.1 bc.2)).
  apply for_each_ext. intros a s1 _. apply (for_each_nest (body a) (λ _, seqZ 0 p)).
Qed.

(** Writes to different places: the order does not matter. *)
Lemma writes_spec {A B} (idx : A → Z) (val : A → outcome B) (v : A → B) xs (s : list B) :
  (∀ x, x ∈ xs → val x = Ok (v x) ∧ 0 ≤ idx x < vsize s) →
  (∀ x y, x ∈ xs → y ∈ xs → idx x = idx y → x = y) →
  ∃ s', for_each (λ x s, p ← val x; vset s (idx x) p) xs s = Ok s' ∧ vsize s' = vsize s ∧
    (∀ x, x ∈ xs → vget s' (idx x) = Ok (v x)) ∧
    (∀ k, (∀ x, x ∈ xs → idx x ≠ k) → vget s' k = vget s k).
Proof.
  revert s. induction xs as [|x xs IH] using rev_ind; intros s Hv Hi.
  { exists s. split_and!; try done. by intros x ?%elem_of_nil. }
  destruct (IH s) as (s1 & E1 & Hs1 & Hin & Hout);
    [intros; apply Hv; set_solver|intros; apply Hi; set_solver|].
  destruct (Hv x) as [Ex Hx]; [set_solver|]. pose proof (vset_in_range s1 (idx x) (v x) ltac:(lia)) as E2.
  exists (<[Z.to_nat (idx x) := v x]> s1). split_and!.
  - rewrite for_each_app, E1. cbn [mbind outcome_bind for_each]. rewrite Ex. cbn [mbind outcome_bind].
    by rewrite E2.
  - by rewrite (vset_size _ _ _ _ E2).
  - intros y Hy. rewrite (vset_vget _ _ _ _ _ E2). case_bool_decide as E; [|].
    + rewrite (Hi x y) by set_solver. done.
    + apply Hin. apply elem_of_app in Hy as [?|Hy%list_elem_of_singleton]; [done|by subst].
  - intros k Hk. rewrite (vset_vget _ _ _ _ _ E2), bool_decide_eq_false_2 by (apply Hk; set_solver).
    apply Hout. intros. apply Hk. set_solver.
Qed.

Lemma digits_inj b q1 q2 r1 r2 :
  0 ≤ r1 < b → 0 ≤ r2 < b → q1 * b + r1 = q2 * b + r2 → q1 = q2 ∧ r1 = r2.
Proof. intros H1 H2 E. apply (Z.div_mod_unique b); [left..|]; lia. Qed.

(** ** The format of the matrix *)

Definition before (a b : Entry) : Prop := e_col a < e_col b.

Lemma sink_perm d l : sink d l ≡ₚ d :: l.
Proof.
  induction l as [|e l IH]; [done|]. cbn. case_match; [|done]. rewrite IH. apply Permutation_swap.
Qed.

Lemma sink_sorted d l :
  StronglySorted before (reverse l) → (∀ e, e ∈ l → e_col e ≠ e_col d) →
  StronglySorted before (reverse (sink d l)).
Proof.
  induction l as [|e l IH]; intros Hs Hd; [repeat constructor|].
  rewrite reverse_cons in Hs. apply StronglySorted_app in Hs as (He & Hl & _). cbn [sink].
  assert (e_col e ≠ e_col d) by (apply Hd; left). case_match eqn:E; split_bool; rewrite reverse_cons.
  - apply StronglySorted_app_2; [|apply IH; [done|intros; apply Hd; by right]|repeat constructor].
    intros x y Hx ->%list_elem_of_singleton. rewrite elem_of_reverse, sink_perm in Hx.
    apply elem_of_cons in Hx as [->|Hx]; [done|]. apply He; [by apply elem_of_reverse|by left].
  - rewrite reverse_cons. apply StronglySorted_app_2; [|apply StronglySorted_app_2; [done..|repeat constructor]|repeat constructor].
    intros x y Hx ->%list_elem_of_singleton. unfold before in *.
    apply elem_of_app in Hx as [Hx|Hx%list_elem_of_singleton]; [|subst x; lia].
    specialize (He x e Hx ltac:(by left)). lia.
Qed.

(** Where the rows of a matrix start. *)
Fixpoint starts (i : Z) (rows : list (list Entry)) : list Z :=
  match rows with
  | [] => [i]
  | r :: rows => i :: starts (i + vsize r) rows
  end.

Lemma fill_xa_same es rest i r xa : Forall (λ e, e_row e = r) es →
  fill_xa (es ++ rest) i r xa = fill_xa rest (i + vsize es) r xa.
Proof.
  intros Hes. revert i. induction Hes as [|e es He _ IH]; intros i; cbn [app fill_xa].
  - by rewrite Z.add_0_r.
  - rewrite He, Z.ltb_irrefl, IH. f_equal. unfold vsize. cbn [length]. lia.
Qed.

Lemma vset_middle {A} (l : list A) x y k i : vsize l = i → vset (l ++ x :: k) i y = Ok (l ++ y :: k).
Proof.
  unfold vsize. intros <-. rewrite vset_in_range by (unfold vsize; rewrite length_app; cbn; lia).
  by rewrite Nat2Z.id, insert_app_r_alt, Nat.sub_diag by lia.
Qed.

(** If the entries are sorted by rows and no row is empty, the array is filled
    with the starts of the rows. *)
Lemma fill_xa_starts rows i r xa :
  (∀ (k : nat) es, rows !! k = Some es → es ≠ [] ∧ Forall (λ e, e_row e = r + Z.of_nat k) es) →
  vsize xa = r →
  fill_xa (concat rows) i (r - 1) (xa ++ replicate (length rows + 1) None)
  = Ok (xa ++ (Some <$> starts i rows)).
Proof.
  revert i r xa. induction rows as [|es rows IH]; intros i r xa Hrows Hxa.
  { cbn. apply vset_middle. lia. }
  destruct (Hrows 0%nat es eq_refl) as [Hne Hes]. destruct es as [|e es]; [done|].
  rewrite Z.add_0_r in Hes. apply Forall_cons in Hes as [He Hes].
  change (concat ((e :: es) :: rows)) with (e :: es ++ concat rows). cbn [fill_xa length Nat.add replicate].
  rewrite He, (proj2 (Z.ltb_lt _ _)), vset_middle by lia. cbn [mbind outcome_bind].
  rewrite fill_xa_same by done. rewrite cons_middle, (assoc (++)).
  replace r with (r + 1 - 1) at 1 by lia. rewrite IH.
  - assert (Ei : i + vsize (e :: es) = i + 1 + vsize es) by (unfold vsize; cbn [length]; lia).
    rewrite <- (assoc (++)). cbn [starts fmap list_fmap app]. by rewrite Ei.
  - intros k es' Hk. destruct (Hrows (S k) es' Hk) as [? H']. split; [done|].
    eapply Forall_impl; [exact H'|]. cbn. lia.
  - rewrite vsize_app, Hxa. done.
Qed.

Lemma starts_first rows i : starts i rows !! 0%nat = Some i.
Proof. by destruct rows. Qed.

Lemma starts_last rows i : starts i rows !! length rows = Some (i + vsize (concat rows)).
Proof.
  revert i. induction rows as [|r rows IH]; intros i; cbn [starts length lookup list_lookup concat].
  - f_equal. unfold vsize. cbn. lia.
  - rewrite IH, vsize_app. f_equal. lia.
Qed.

Lemma starts_length rows i : length (starts i rows) = S (length rows).
Proof. revert i. induction rows as [|r rows IH]; intros i; [done|]. cbn. by rewrite IH. Qed.

Lemma starts_slice rows i k es : rows !! k = Some es → ∃ a b,
  starts i rows !! k = Some a ∧ starts i rows !! S k = Some b ∧ i ≤ a ∧ b = a + vsize es ∧
  take (length es) (drop (Z.to_nat (a - i)) (concat rows)) = es.
Proof.
  revert i k. induction rows as [|r rows IH]; intros i [|k] Hk; try done.
  - injection Hk as ->. exists i, (i + vsize es). split_and!; try done; [by destruct rows|].
    rewrite Z.sub_diag. apply take_app_length.
  - destruct (IH (i + vsize r) k Hk) as (a & b & Ha & Hb & Hle & Eb & Et). exists a, b.
    assert (0 ≤ vsize r) by (unfold vsize; lia). split_and!; try done; [lia|].
    change (concat (r :: rows)) with (r ++ concat rows). rewrite drop_app_ge by (unfold vsize in *; lia).
    rewrite <- Et at 2. do 2 f_equal. unfold vsize in *. lia.
Qed.

Section MatrixFacts.
Context (W Lc : double) (numP dimX dimZ : Z) (HP : 0 < numP) (HX : 0 < dimX) (HZ : 0 < dimZ).

Local Notation node := (node dimX dimZ).
Local Notation offs := (off_diagonal W Lc numP dimX dimZ).
Local Notation diag := (diagonal W Lc numP dimX dimZ).
Local Notation row := (matrix_row W Lc numP dimX dimZ).
Local Notation N := (nodes numP dimX dimZ).
Local Notation Midx := (calculate_Midx_array W Lc numP dimX dimZ).

(** The coordinates of a node. *)
Definition cell (l j i : Z) : Prop := 0 ≤ l ≤ numLayer numP ∧ 0 ≤ j < dimZ ∧ 0 ≤ i < dimX.

Lemma node_coords k : 0 ≤ k < N → cell (k / dimX / dimZ) (k / dimX mod dimZ) (k mod dimX) ∧
  node (k / dimX / dimZ) (k / dimX mod dimZ) (k mod dimX) = k.
Proof.
  unfold nodes, cell, ThermalSolver.node. intros Hk.
  pose proof (Z.div_mod k dimX ltac:(lia)). pose proof (Z.div_mod (k / dimX) dimZ ltac:(lia)).
  pose proof (Z.mod_pos_bound k dimX ltac:(lia)). pose proof (Z.mod_pos_bound (k / dimX) dimZ ltac:(lia)).
  split; [split_and!; try lia|nia].
  - apply Z.div_pos; [apply Z.div_pos|]; lia.
  - rewrite Z.div_div by lia. apply Z.lt_succ_r. apply Z.div_lt_upper_bound; nia.
Qed.

Lemma node_range l j i : cell l j i → 0 ≤ node l j i < N.
Proof. unfold cell, nodes, ThermalSolver.node. intros. nia. Qed.

Lemma node_inj l j i l' j' i' :
  cell l j i → cell l' j' i' → node l j i = node l' j' i' → l = l' ∧ j = j' ∧ i = i'.
Proof.
  unfold cell, ThermalSolver.node. intros H H' E.
  assert ((l * dimZ + j) = (l' * dimZ + j') ∧ i = i') as [E1 ->] by (apply (digits_inj dimX); lia).
  assert (l = l' ∧ j = j') as [-> ->] by (apply (digits_inj dimZ); lia). done.
Qed.

(** What a row holds: a link from the cell to each neighbour. *)
Inductive link (l j i : Z) : Entry → Prop :=
| link_down : 0 < l → link l j i (mkEntry (node l j i) (node (l - 1) j i) (vertical W Lc numP dimX dimZ l (l - 1)))
| link_up : l < numLayer numP →
    link l j i (mkEntry (node l j i) (node (l + 1) j i) (vertical W Lc numP dimX dimZ l (l + 1)))
| link_front : 0 < j → link l j i (mkEntry (node l j i) (node l (j - 1) i) (along_z W Lc dimX dimZ l))
| link_back : j + 1 < dimZ → link l j i (mkEntry (node l j i) (node l (j + 1) i) (along_z W Lc dimX dimZ l))
| link_left : 0 < i → link l j i (mkEntry (node l j i) (node l j (i - 1)) (along_x W Lc dimX dimZ l))
| link_right : i + 1 < dimX → link l j i (mkEntry (node l j i) (node l j (i + 1)) (along_x W Lc dimX dimZ l)).

Lemma elem_of_only_if {A} b (x y : A) : y ∈ only_if b x ↔ b = true ∧ y = x.
Proof. destruct b; set_solver. Qed.

Lemma elem_of_off_diagonal l j i e : e ∈ offs l j i ↔ link l j i e.
Proof.
  unfold off_diagonal. rewrite !elem_of_app, !elem_of_only_if, !Z.ltb_lt, !Z.leb_le. split.
  - intros. destruct_or?; destruct_and?; subst; constructor; lia.
  - intros []; repeat ((left; split; [lia|done]) || right); split; [lia|done].
Qed.

Lemma off_diagonal_sorted l j i : cell l j i → StronglySorted before (offs l j i).
Proof.
  unfold cell, off_diagonal, ThermalSolver.node. intros H.
  assert (dimX ≤ dimX * dimZ) by nia. assert (1 < dimZ → dimX < dimX * dimZ) by nia.
  unfold only_if. repeat case_match; split_bool; repeat constructor; unfold before; cbn; lia.
Qed.

Lemma link_col l j i e : cell l j i → link l j i e →
  e_row e = node l j i ∧ 0 ≤ e_col e < N ∧ e_col e ≠ node l j i.
Proof.
  intros Hc. destruct 1; cbn; (split; [done|]); (split; [apply node_range|]);
    unfold cell, ThermalSolver.node in *; nia.
Qed.

Lemma elem_of_row l j i e : e ∈ row l j i ↔ e = diag l j i ∨ link l j i e.
Proof.
  unfold matrix_row. rewrite elem_of_reverse, sink_perm, elem_of_cons, elem_of_reverse.
  by rewrite elem_of_off_diagonal.
Qed.

Lemma row_sorted l j i : cell l j i → StronglySorted before (row l j i).
Proof.
  intros Hc. apply sink_sorted; [rewrite reverse_involutive; by apply off_diagonal_sorted|].
  intros e. rewrite elem_of_reverse, elem_of_off_diagonal. by intros (_ & _ & ?)%link_col.
Qed.

Lemma row_size l j i : vsize (row l j i) = neighbours numP dimX dimZ l j i + 1.
Proof.
  unfold vsize, matrix_row. rewrite length_reverse, sink_perm. cbn [length]. rewrite length_reverse.
  unfold off_diagonal, neighbours, only_if. rewrite !length_app. repeat case_match; cbn; lia.
Qed.

Lemma Midx_size : vsize Midx = count numP dimX dimZ.
Proof.
  unfold calculate_Midx_array, count. assert (0 ≤ numLayer numP + 1) by (unfold numLayer; lia).
  rewrite vsize_bind by done.
  rewrite (sum_over_ext _ _ (λ l, sum_over dimX (λ i, sum_over dimZ (λ j, neighbours numP dimX dimZ l j i)) + dimX * dimZ)).
  { rewrite sum_over_add, sum_over_const by done. lia. }
  intros l _. rewrite vsize_bind by lia. rewrite (sum_over_swap dimX dimZ) by lia.
  rewrite (sum_over_ext _ _ (λ j, sum_over dimX (λ i, neighbours numP dimX dimZ l j i) + dimX)).
  { rewrite sum_over_add, sum_over_const by lia. lia. }
  intros j _. rewrite vsize_bind by lia. rewrite (sum_over_ext _ _ _ (λ i _, row_size l j i)).
  rewrite sum_over_add, (sum_over_const dimX 1) by lia. by rewrite Z.mul_1_r.
Qed.

(** The row of a node. *)
Definition row_of (k : Z) : list Entry := row (k / dimX / dimZ) (k / dimX mod dimZ) (k mod dimX).

Lemma Midx_rows : Midx = (k ← seqZ 0 N; row_of k).
Proof.
  unfold calculate_Midx_array, nodes. rewrite (bind_ext_in _ (λ l, k ← seqZ 0 (dimZ * dimX); row l (k / dimX) (k mod dimX))).
  2:{ intros l _. apply (seqZ_prod (row l)); lia. }
  rewrite (seqZ_prod (λ l k, row l (k / dimX) (k mod dimX))) by (unfold numLayer; lia).
  replace ((numLayer numP + 1) * (dimZ * dimX)) with (dimX * dimZ * (numLayer numP + 1)) by lia.
  apply bind_ext_in. intros k Hk. unfold row_of. f_equal.
  - rewrite Z.div_div by lia. f_equal; lia.
  - pose proof (Z.rem_mul_r k dimX dimZ). rewrite (Z.mul_comm dimZ), H by lia.
    rewrite (Z.mul_comm dimX), Z.div_add by lia.
    rewrite (Z.div_small (k mod dimX)) by (apply Z.mod_pos_bound; lia). lia.
  - rewrite (Z.mul_comm dimZ), (Z.rem_mul_r k dimX dimZ) by lia.
    rewrite (Z.mul_comm dimX), Z.mod_add, Z.mod_mod by lia. done.
Qed.

Local Notation rows := (row_of <$> seqZ 0 N).

Lemma Midx_concat : Midx = concat rows.
Proof.
  rewrite Midx_rows. generalize (seqZ 0 N) as ks.
  induction ks as [|k ks IH]; [done|]. cbn. by rewrite IH.
Qed.

Lemma rows_lookup (k : nat) es : rows !! k = Some es → 0 ≤ Z.of_nat k < N ∧ es = row_of (Z.of_nat k).
Proof.
  rewrite list_lookup_fmap_Some. intros (x & -> & Hx). apply lookup_seqZ in Hx as [-> ?]. split; [lia|f_equal; lia].
Qed.

Lemma row_of_entries k e : 0 ≤ k < N → e ∈ row_of k →
  e_row e = k ∧ 0 ≤ e_col e < N.
Proof.
  intros Hk. destruct (node_coords k Hk) as [Hc Ek]. unfold row_of. rewrite elem_of_row.
  intros [->|(? & ? & _)%link_col]; [cbn; by rewrite Ek|split; [congruence|done]|done].
Qed.

Lemma row_of_nonempty k : row_of k ≠ [].
Proof.
  unfold row_of. intros E. pose proof (proj2 (elem_of_row (k / dimX / dimZ) (k / dimX mod dimZ) (k mod dimX) _) (or_introl eq_refl)) as H.
  rewrite E in H. by apply elem_of_nil in H.
Qed.

Lemma xa_starts : fill_xa Midx 0 (-1) (replicate (Z.to_nat (N + 1)) None) = Ok (Some <$> starts 0 rows).
Proof.
  assert (0 ≤ N) by (unfold nodes, numLayer; nia).
  rewrite Midx_concat. change (-1) with (0 - 1). replace (Z.to_nat (N + 1)) with (length rows + 1)%nat.
  2:{ rewrite length_fmap, length_seqZ. lia. }
  apply (fill_xa_starts rows 0 0 []); [|done].
  intros k es [Hk ->]%rows_lookup. split; [apply row_of_nonempty|]. apply Forall_forall.
  intros e He. by destruct (row_of_entries _ _ Hk He).
Qed.

Lemma elem_of_Midx e : e ∈ Midx ↔ ∃ l j i, cell l j i ∧ e ∈ row l j i.
Proof.
  unfold calculate_Midx_array, cell. rewrite list_elem_of_bind. split.
  - intros (l & (j & (i & He & Hi)%list_elem_of_bind & Hj)%list_elem_of_bind & Hl).
    apply elem_of_seqZ in Hi, Hj, Hl. exists l, j, i. split; [lia|done].
  - intros (l & j & i & H & He). exists l. rewrite elem_of_seqZ. split; [|lia]. apply list_elem_of_bind.
    exists j. rewrite elem_of_seqZ. split; [|lia]. apply list_elem_of_bind. exists i.
    rewrite elem_of_seqZ. split; [done|lia].
Qed.

(** A link is the same from both ends. *)
Lemma vertical_sym l l' : vertical W Lc numP dimX dimZ l l' = vertical W Lc numP dimX dimZ l' l.
Proof. unfold vertical. by rewrite dadd_comm. Qed.

Lemma link_sym l j i e : cell l j i → link l j i e →
  ∃ l' j' i', cell l' j' i' ∧ link l' j' i' (mkEntry (e_col e) (e_row e) (e_val e)).
Proof.
  unfold cell. intros Hc. destruct 1; cbn.
  - exists (l - 1), j, i. split; [lia|]. rewrite vertical_sym.
    pose proof (link_up (l - 1) j i ltac:(lia)) as Hl. by rewrite Z.sub_add in Hl.
  - exists (l + 1), j, i. split; [lia|]. rewrite vertical_sym.
    pose proof (link_down (l + 1) j i ltac:(lia)) as Hl. by rewrite Z.add_simpl_r in Hl.
  - exists l, (j - 1), i. split; [lia|].
    pose proof (link_back l (j - 1) i ltac:(lia)) as Hl. by rewrite Z.sub_add in Hl.
  - exists l, (j + 1), i. split; [lia|].
    pose proof (link_front l (j + 1) i ltac:(lia)) as Hl. by rewrite Z.add_simpl_r in Hl.
  - exists l, j, (i - 1). split; [lia|].
    pose proof (link_right l j (i - 1) ltac:(lia)) as Hl. by rewrite Z.sub_add in Hl.
  - exists l, j, (i + 1). split; [lia|].
    pose proof (link_left l j (i + 1) ltac:(lia)) as Hl. by rewrite Z.add_simpl_r in Hl.
Qed.

Lemma Midx_range e : e ∈ Midx → 0 ≤ e_row e < N ∧ 0 ≤ e_col e < N.
Proof.
  rewrite elem_of_Midx. intros (l & j & i & Hc & He). pose proof (node_range l j i Hc).
  apply elem_of_row in He as [->|(-> & ? & _)%link_col]; done.
Qed.
End MatrixFacts.

(** ** Power and temperatures *)

(** A power map of the right dimensions. *)
Definition power_ok (powerM : PowerM) (dimX dimZ numP : Z) : Prop :=
  vsize powerM = dimX ∧
  Forall (λ p, vsize p = dimZ ∧ Forall (λ q, vsize q = numP) p) powerM.

Definition power_val (powerM : PowerM) (i j l : Z) : double :=
  match power_at powerM i j l with Ok v => v | Fail _ => d_of_Z 0 end.

Lemma power_at_val powerM dimX dimZ numP i j l : power_ok powerM dimX dimZ numP →
  0 ≤ i < dimX → 0 ≤ j < dimZ → 0 ≤ l < numP → power_at powerM i j l = Ok (power_val powerM i j l).
Proof.
  intros [Hs Hp] Hi Hj Hl. unfold power_val, power_at.
  destruct (vget_in_range powerM i) as [p Ep]; [lia|]. rewrite Ep. cbn [mbind outcome_bind].
  apply vget_Ok in Ep as [_ Ep]. destruct (Forall_lookup_1 _ _ _ _ Hp Ep) as [Hs' Hq].
  destruct (vget_in_range p j) as [q Eq]; [lia|]. rewrite Eq. cbn [mbind outcome_bind].
  apply vget_Ok in Eq as [_ Eq]. pose proof (Forall_lookup_1 _ _ _ _ Hq Eq) as Hs''. cbn in Hs''.
  by destruct (vget_in_range q l) as [v ->]; [lia|].
Qed.

Lemma zeros_size n : 0 ≤ n → vsize (zeros n) = n.
Proof. intros. unfold zeros, vsize. rewrite length_replicate. lia. Qed.

Lemma zeros_get n k : 0 ≤ k < n → vget (zeros n) k = Ok (d_of_Z 0).
Proof. intros. apply vget_Ok. split; [lia|]. apply lookup_replicate. split; [done|lia]. Qed.

Section Power.
Context (W Lc : double) (numP dimX dimZ : Z) (HP : 0 < numP) (HX : 0 < dimX) (HZ : 0 < dimZ).
Context (Tamb : double) (powerM : PowerM) (Hpower : power_ok powerM dimX dimZ numP).

Local Notation N := (nodes numP dimX dimZ).

Lemma ambient_spec : ∃ rhs, ambient W Lc dimX dimZ Tamb (zeros N) = Ok rhs ∧ vsize rhs = N ∧
  ∀ k, 0 ≤ k < N →
    vget rhs k = Ok (if k <? dimX * dimZ then (Tamb / Ramb W Lc dimX dimZ)%double else d_of_Z 0).
Proof.
  assert (HN : dimX * dimZ ≤ N) by (unfold nodes, numLayer; nia). assert (0 < dimX * dimZ) by nia.
  set (t := (Tamb / Ramb W Lc dimX dimZ)%double).
  destruct (writes_spec (λ i : Z, i) (λ _, Ok t) (λ _, t) (seqZ 0 (dimX * dimZ)) (zeros N))
    as (rhs & E & Hs & Hin & Hout).
  - intros x Hx%elem_of_seqZ. rewrite zeros_size by lia. split; [done|lia].
  - done.
  - rewrite zeros_size in Hs by lia. exists rhs. split; [exact E|]. split; [done|]. intros k Hk.
    destruct (Z.ltb_spec k (dimX * dimZ)).
    + apply Hin. apply elem_of_seqZ. lia.
    + rewrite Hout; [by apply zeros_get|]. intros x Hx%elem_of_seqZ. lia.
Qed.

(** The power of a cell goes to a node of the active layer of its die. *)
Lemma active_node l x : 0 ≤ l < numP → 0 ≤ x < dimX * dimZ →
  0 ≤ dimX * dimZ * (layerP l + 1) + x < N.
Proof. unfold nodes, numLayer, layerP. intros. nia. Qed.

Lemma active_node_inj l x l' x' : 0 ≤ x < dimX * dimZ → 0 ≤ x' < dimX * dimZ →
  dimX * dimZ * (layerP l + 1) + x = dimX * dimZ * (layerP l' + 1) + x' → l = l' ∧ x = x'.
Proof. unfold layerP. intros Hx Hx' E. pose proof (digits_inj (dimX * dimZ) (l * 3 + 1) (l' * 3 + 1) x x'). lia. Qed.

Lemma steady_rhs_spec : ∃ rhs, steady_rhs powerM W Lc numP dimX dimZ Tamb = Ok rhs ∧ vsize rhs = N ∧
  (∀ l i j, 0 ≤ l < numP → 0 ≤ i < dimX → 0 ≤ j < dimZ →
     vget rhs (node dimX dimZ (layerP l + 1) j i) = power_at powerM i j l) ∧
  (∀ k, 0 ≤ k < N → (∀ l, k / (dimX * dimZ) ≠ layerP l + 1) →
     vget rhs k = Ok (if k <? dimX * dimZ then (Tamb / Ramb W Lc dimX dimZ)%double else d_of_Z 0)).
Proof.
  destruct ambient_spec as (rhs0 & E0 & Hs0 & Ha). unfold steady_rhs. rewrite E0. cbn [mbind outcome_bind].
  rewrite for_range_box.
  destruct (writes_spec (λ x : Z * (Z * Z), dimX * dimZ * (layerP x.1 + 1) + x.2.2 * dimX + x.2.1)
    (λ x, power_at powerM x.2.1 x.2.2 x.1) (λ x, power_val powerM x.2.1 x.2.2 x.1) (box numP dimX dimZ) rhs0)
    as (rhs & E & Hs & Hin & Hout).
  - intros [l [i j]] (Hl & Hi & Hj)%elem_of_box. cbn. split; [by eapply power_at_val|].
    rewrite Hs0, <- Z.add_assoc. apply active_node; nia.
  - intros [l [i j]] [l' [i' j']] (? & ? & ?)%elem_of_box (? & ? & ?)%elem_of_box. cbn. rewrite <- !Z.add_assoc.
    intros [-> E]%active_node_inj; [|nia..]. by destruct (digits_inj dimX j j' i i') as [-> ->].
  - exists rhs. split; [exact E|]. split; [lia|]. split.
    + intros l i j Hl Hi Hj. rewrite (power_at_val _ dimX dimZ numP) by done.
      specialize (Hin (l, (i, j)) ltac:(by apply elem_of_box)). cbn [fst snd] in Hin. rewrite <- Hin.
      f_equal. unfold node. lia.
    + intros k Hk Hne. rewrite Hout; [by apply Ha|]. intros [l [i j]] (? & ? & ?)%elem_of_box E1. cbn in E1.
      apply (Hne l). symmetry. apply (Z.div_unique_pos k (dimX * dimZ) _ (j * dimX + i)); nia.
Qed.

(** The transient solver numbers the cells the other way round. *)
Lemma transient_power_spec : ∃ P, transient_power powerM W Lc numP dimX dimZ Tamb = Ok P ∧ vsize P = N ∧
  ∀ l i j, 0 ≤ l < numP → 0 ≤ i < dimX → 0 ≤ j < dimZ →
    vget P (dimX * dimZ * (layerP l + 1) + i * dimZ + j) = power_at powerM i j l.
Proof.
  destruct ambient_spec as (P0 & E0 & Hs0 & Ha). unfold transient_power. rewrite E0. cbn [mbind outcome_bind].
  rewrite for_range_box.
  destruct (writes_spec (λ x : Z * (Z * Z), dimX * dimZ * (layerP x.1 + 1) + x.2.2 * dimZ + x.2.1)
    (λ x, power_at powerM x.2.2 x.2.1 x.1) (λ x, power_val powerM x.2.2 x.2.1 x.1) (box numP dimZ dimX) P0)
    as (P & E & Hs & Hin & _).
  - intros [l [j i]] (Hl & Hj & Hi)%elem_of_box. cbn. split; [by eapply power_at_val|].
    rewrite Hs0, <- Z.add_assoc. apply active_node; nia.
  - intros [l [j i]] [l' [j' i']] (? & ? & ?)%elem_of_box (? & ? & ?)%elem_of_box. cbn. rewrite <- !Z.add_assoc.
    intros [-> E]%active_node_inj; [|nia..]. by destruct (digits_inj dimZ i i' j j') as [-> ->].
  - exists P. split; [exact E|]. split; [lia|]. intros l i j Hl Hi Hj.
    rewrite (power_at_val _ dimX dimZ numP) by done. by specialize (Hin (l, (j, i)) ltac:(by apply elem_of_box)).
Qed.

(** One entry of a matrix within the grid. *)
Lemma add_entry_total Cap P Tp dt e T :
  vsize Cap = numLayer numP + 1 → vsize P = N → vsize Tp = N → vsize T = N →
  0 ≤ e_row e < N → 0 ≤ e_col e < N →
  ∃ T', add_entry dimX dimZ Cap P Tp dt e T = Ok T' ∧ vsize T' = N.
Proof.
  intros HC HPs HTp HT Hr Hc. unfold add_entry. unfold idiv. rewrite (proj2 (Z.eqb_neq (dimX * dimZ) 0)) by nia.
  cbn [mbind outcome_bind]. rewrite Z.quot_div_nonneg by nia.
  assert (0 ≤ e_row e / (dimX * dimZ) < numLayer numP + 1).
  { split; [apply Z.div_pos; nia|]. apply Z.div_lt_upper_bound; [nia|]. apply Hr. }
  destruct (vget_in_range Cap (e_row e / (dimX * dimZ))) as [c ->]; [lia|]. cbn [mbind outcome_bind].
  destruct (vget_in_range Tp (e_col e)) as [tp ->]; [lia|]. cbn [mbind outcome_bind].
  destruct (vget_in_range T (e_row e)) as [t ->]; [lia|]. cbn [mbind outcome_bind].
  case_match; [destruct (vget_in_range P (e_row e)) as [q ->]; [lia|]; cbn [mbind outcome_bind]|];
    rewrite vset_in_range by lia; eexists; (split; [done|]); unfold vsize in *; by rewrite length_insert.
Qed.
End Power.

Lemma transient_returns W Lc numP dimX dimZ Tamb powerM time iter T_trans :
  0 < numP → 0 < dimX → 0 < dimZ → power_ok powerM dimX dimZ numP →
  vsize T_trans = nodes numP dimX dimZ →
  ∃ T, transient_thermal_solver powerM W Lc numP dimX dimZ (calculate_Midx_array W Lc numP dimX dimZ)
         (calculate_Cap_array W Lc numP dimX dimZ) time iter T_trans Tamb = Ok T ∧ vsize T = nodes numP dimX dimZ.
Proof.
  intros HP HX HZ Hp HT. set (n := nodes numP dimX dimZ) in *.
  destruct (transient_power_spec W Lc numP dimX dimZ HP HX HZ Tamb powerM Hp) as (P & E & HPs & _).
  unfold transient_thermal_solver. rewrite E. cbn [mbind outcome_bind].
  apply (for_each_total (λ T, vsize T = n)); [|done]. intros _ Tp _ HTp.
  apply (for_each_total (λ T, vsize T = n)); [|by apply zeros_size; unfold n, nodes, numLayer; nia].
  intros e T He HT'. destruct (Midx_range W Lc numP dimX dimZ HP HX HZ e He).
  apply (add_entry_total numP dimX dimZ HX HZ); try done.
  unfold calculate_Cap_array, vsize. rewrite length_fmap, length_seqZ. unfold numLayer. lia.
Qed.

(** The starts [xa] delimit the rows of the matrix [Midx] of [n] nodes: they
    begin at its first and end behind its last entry, and the entries between
    two consecutive starts are those of one node, in the order of columns. *)
Definition delimits (Midx : list Entry) (n : Z) (xa : list Z) : Prop :=
  vsize xa = n + 1 ∧ vget xa 0 = Ok 0 ∧ vget xa n = Ok (vsize Midx) ∧
  ∀ k, 0 ≤ k < n → ∃ a b es, vget xa k = Ok a ∧ vget xa (k + 1) = Ok b ∧ 0 ≤ a < b ∧
    take (Z.to_nat (b - a)) (drop (Z.to_nat a) Midx) = es ∧ vsize es = b - a ∧
    StronglySorted before es ∧ Forall (λ e, e_row e = k ∧ 0 ≤ e_col e < n) es.

Lemma starts_delimit W Lc numP dimX dimZ : 0 < numP → 0 < dimX → 0 < dimZ →
  let Midx := calculate_Midx_array W Lc numP dimX dimZ in
  let n := nodes numP dimX dimZ in
  ∃ xa, fill_xa Midx 0 (-1) (replicate (Z.to_nat (n + 1)) None) = Ok (Some <$> xa) ∧ delimits Midx n xa.
Proof.
  intros HP HX HZ Midx n. exists (starts 0 (row_of W Lc numP dimX dimZ <$> seqZ 0 n)).
  assert (0 ≤ n) by (unfold n, nodes, numLayer; nia).
  assert (Hrows : length (row_of W Lc numP dimX dimZ <$> seqZ 0 n) = Z.to_nat n) by (rewrite length_fmap, length_seqZ; lia).
  split; [apply (xa_starts W Lc numP dimX dimZ HP HX HZ)|]. unfold delimits. split_and!.
  - unfold vsize. rewrite starts_length, Hrows. lia.
  - apply vget_Ok. split; [lia|]. apply starts_first.
  - apply vget_Ok. split; [lia|]. rewrite <- Hrows, starts_last. f_equal. unfold Midx.
    by rewrite (Midx_concat W Lc numP dimX dimZ HP HX HZ).
  - intros k Hk. destruct (node_coords numP dimX dimZ HX HZ k Hk) as [Hc _].
    destruct (starts_slice (row_of W Lc numP dimX dimZ <$> seqZ 0 n) 0 (Z.to_nat k) (row_of W Lc numP dimX dimZ k))
      as (a & b & Ha & Hb & Hle & Eb & Et).
    { rewrite list_lookup_fmap, (proj2 (lookup_seqZ _ _ _ k)) by lia. done. }
    assert (Hes : 0 < vsize (row_of W Lc numP dimX dimZ k)).
    { assert (row_of W Lc numP dimX dimZ k ≠ []) by (by apply row_of_nonempty).
      destruct (row_of _ _ _ _ _ k); [done|]. unfold vsize. cbn; lia. }
    exists a, b, (row_of W Lc numP dimX dimZ k). unfold n in Et.
    rewrite <- (Midx_concat W Lc numP dimX dimZ HP HX HZ), Z.sub_0_r in Et.
    split_and!; try (rewrite vget_Ok; split; [lia|]); try done; try lia.
    + by replace (Z.to_nat (k + 1)) with (S (Z.to_nat k)) by lia.
    + replace (Z.to_nat (b - a)) with (length (row_of W Lc numP dimX dimZ k)); [done|unfold vsize in *; lia].
    + by apply row_sorted.
    + apply Forall_forall. intros e He. by apply (row_of_entries W Lc numP dimX dimZ HP HX HZ).
Qed.

(** ** Properties *)

(** [C25] The conductance matrix is in the format the sparse solver expects: it
    fills the storage counted for it exactly, the column starts cover every
    node, and the entries between two consecutive starts are those of one
    node, sorted by column without duplicates, all within the grid. *)
Theorem matrix_format W Lc numP dimX dimZ : 0 < numP → 0 < dimX → 0 < dimZ →
  let Midx := calculate_Midx_array W Lc numP dimX dimZ in
  let n := nodes numP dimX dimZ in
  vsize Midx = count numP dimX dimZ ∧
  ∃ xa, fill_xa Midx 0 (-1) (replicate (Z.to_nat (n + 1)) None) = Ok (Some <$> xa) ∧
    ∀ k, 0 ≤ k < n → ∃ a b es, vget xa k = Ok a ∧ vget xa (k + 1) = Ok b ∧ 0 ≤ a < b ∧
      take (Z.to_nat (b - a)) (drop (Z.to_nat a) Midx) = es ∧ vsize es = b - a ∧
      StronglySorted before es ∧ Forall (λ e, e_row e = k ∧ 0 ≤ e_col e < n) es.
Proof.
  intros HP HX HZ Midx n. split; [by apply Midx_size|].
  destruct (starts_delimit W Lc numP dimX dimZ HP HX HZ) as (xa & Hxa & _ & _ & _ & H). by exists xa.
Qed.

Lemma matrix_format_witness :
  vsize (calculate_Midx_array (d_dec 1 2) (d_dec 1 2) 2 3 2) = count 2 3 2.
Proof. apply (matrix_format (d_dec 1 2) (d_dec 1 2) 2 3 2); lia. Defined.

(** [C26] The conductance matrix is symmetric, exactly and not only up to
    rounding, and has an entry on the diagonal of every node: the rows of
    the grid may be handed to the solver as the columns it asks for. *)
Theorem matrix_symmetric W Lc numP dimX dimZ : 0 < numP → 0 < dimX → 0 < dimZ →
  let Midx := calculate_Midx_array W Lc numP dimX dimZ in
  (∀ e, e ∈ Midx → mkEntry (e_col e) (e_row e) (e_val e) ∈ Midx) ∧
  (∀ k, 0 ≤ k < nodes numP dimX dimZ → ∃ v, mkEntry k k v ∈ Midx).
Proof.
  intros HP HX HZ Midx. split.
  - intros e He. pose proof He as (l & j & i & Hc & Hr)%elem_of_Midx.
    apply elem_of_row in Hr as [->|Hl]; [done| |done..].
    destruct (link_sym W Lc numP dimX dimZ l j i e Hc Hl) as (l' & j' & i' & Hc' & Hl').
    apply elem_of_Midx. exists l', j', i'. split; [done|]. apply elem_of_row; [done..|]. by right.
  - intros k Hk. destruct (node_coords numP dimX dimZ HX HZ k Hk) as [Hc Ek].
    eexists. apply elem_of_Midx. do 3 eexists. split; [exact Hc|]. apply elem_of_row; [done..|]. left.
    unfold diagonal. rewrite Ek. done.
Qed.

Lemma matrix_symmetric_witness :
  ∃ v, mkEntry 5 5 v ∈ calculate_Midx_array (d_dec 1 2) (d_dec 1 2) 2 3 2.
Proof. apply (matrix_symmetric (d_dec 1 2) (d_dec 1 2) 2 3 2); by vm_compute. Defined.

(** [C27] The steady solver hands over the system of the grid: the values and
    columns of the whole matrix with starts that delimit its rows from the first
    entry to the last; the power of every cell of every die drives the node of that cell in the active layer
    of the die, the ambient drives the nodes of the heat sink, and no other
    node is driven; the temperatures it returns are the solution, in degrees
    Celsius. *)
Theorem steady_system pdgssv W Lc numP dimX dimZ Tamb powerM :
  0 < numP → 0 < dimX → 0 < dimZ → power_ok powerM dimX dimZ numP →
  let Midx := calculate_Midx_array W Lc numP dimX dimZ in
  let n := nodes numP dimX dimZ in
  ∃ xa rhs,
    steady_thermal_solver pdgssv powerM W Lc numP dimX dimZ Midx Tamb
    = Ok ((λ t, (t - T0)%double) <$> pdgssv (e_val <$> Midx) (e_col <$> Midx) (Some <$> xa) rhs) ∧
    delimits Midx n xa ∧ vsize rhs = n ∧
    (∀ l i j, 0 ≤ l < numP → 0 ≤ i < dimX → 0 ≤ j < dimZ →
       vget rhs (node dimX dimZ (layerP l + 1) j i) = power_at powerM i j l) ∧
    (∀ k, 0 ≤ k < n → (∀ l, k / (dimX * dimZ) ≠ layerP l + 1) →
       vget rhs k = Ok (if k <? dimX * dimZ then (Tamb / Ramb W Lc dimX dimZ)%double else d_of_Z 0)).
Proof.
  intros HP HX HZ Hp Midx n.
  destruct (steady_rhs_spec W Lc numP dimX dimZ HP HX HZ Tamb powerM Hp) as (rhs & E & H).
  destruct (starts_delimit W Lc numP dimX dimZ HP HX HZ) as (xa & Hxa & Hd).
  exists xa, rhs. split; [|by split]. unfold steady_thermal_solver, Midx. by rewrite Hxa, E.
Qed.

Lemma steady_system_witness :
  ∃ T, steady_thermal_solver (λ _ _ _ rhs, rhs) [[[d_of_Z 1]]] (d_dec 1 2) (d_dec 1 2) 1 1 1
         (calculate_Midx_array (d_dec 1 2) (d_dec 1 2) 1 1 1) (d_of_Z 300) = Ok T.
Proof.
  destruct (steady_system (λ _ _ _ rhs, rhs) (d_dec 1 2) (d_dec 1 2) 1 1 1 (d_of_Z 300) [[[d_of_Z 1]]])
    as (xa & rhs & E & _); [lia..|repeat constructor|]. eexists. exact E.
Defined.

(** The transient solver returns for every power map of the right shape
    and any number of steps, with a temperature for every node; but it gives
    the power of the cell in column [i] and row [j] to the node number
    [i * dimZ + j] of the layer, while the matrix numbers that cell
    [j * dimX + i]. *)
Theorem transient_solver_returns W Lc numP dimX dimZ Tamb powerM time iter T_trans :
  0 < numP → 0 < dimX → 0 < dimZ → power_ok powerM dimX dimZ numP →
  let n := nodes numP dimX dimZ in
  vsize T_trans = n →
  (∃ T, transient_thermal_solver powerM W Lc numP dimX dimZ (calculate_Midx_array W Lc numP dimX dimZ)
          (calculate_Cap_array W Lc numP dimX dimZ) time iter T_trans Tamb = Ok T ∧ vsize T = n) ∧
  ∃ P, transient_power powerM W Lc numP dimX dimZ Tamb = Ok P ∧
    ∀ l i j, 0 ≤ l < numP → 0 ≤ i < dimX → 0 ≤ j < dimZ →
      vget P (node dimX dimZ (layerP l + 1) 0 0 + (i * dimZ + j)) = power_at powerM i j l.
Proof.
  intros HP HX HZ Hp n HT. split; [by apply transient_returns|].
  destruct (transient_power_spec W Lc numP dimX dimZ HP HX HZ Tamb powerM Hp) as (P & E & _ & HPv).
  exists P. split; [done|]. intros l i j Hl Hi Hj. rewrite <- HPv by done. f_equal. unfold node. lia.
Qed.

Lemma transient_solver_returns_witness :
  ∃ T, transient_thermal_solver [[[d_of_Z 1]]] (d_dec 1 2) (d_dec 1 2) 1 1 1
         (calculate_Midx_array (d_dec 1 2) (d_dec 1 2) 1 1 1)
         (calculate_Cap_array (d_dec 1 2) (d_dec 1 2) 1 1 1) (d_dec 1 9) 10
         (initialize_Temperature 1 1 1 (d_of_Z 300)) (d_of_Z 300) = Ok T.
Proof.
  destruct (transient_solver_returns (d_dec 1 2) (d_dec 1 2) 1 1 1 (d_of_Z 300) [[[d_of_Z 1]]] (d_dec 1 9) 10
    (initialize_Temperature 1 1 1 (d_of_Z 300))) as [(T & E & _) _]; [lia..|repeat constructor|done|].
  eexists. exact E.
Defined.
