(* ===== verification/Thermal.v ===== *)
(** * The thermal model: src/src/thermal.h and src/src/thermal.cc

    Where on the dies a command dissipates its energy, and the power maps the
    solver reads: the floorplan, the mapping of channels, banks, rows and
    columns to grid cells, the energy added by commands, refreshes and the
    background, and the reports.  The parameters are read by
    [Config::InitThermalParams] (src/src/configuration.cc).  The module is
    compiled only with THERMAL. *)
From Stdlib Require Import SpecFloat Ascii.
From stdpp Require Import base tactics numbers list list_numbers gmap strings.
From coqutil Require Import Datatypes.RecordSetters.
From S2P Require Import Prelude Common Double Configuration Text ThermalSolver.

Import TriangleBracketNotations.
Local Open Scope Z_scope.

(** ** Parameters *)

(** The members that [InitThermalParams] sets only when it does not tile the
    rows of a bank. *)
Record LateParams := {
  bank_order : Z;
  bank_layer_order : Z;
  num_row_refresh : Z;
  chip_dim_x : double;
  chip_dim_y : double;
  amb_temp : double
}.

Record ThermalParams := {
  const_logic_power : double;
  mat_dim_x : Z;
  mat_dim_y : Z;
  row_tile : Z;
  tile_row_num : Z;
  num_x_grids : Z;
  num_y_grids : Z;
  bank_asr : double;
  loc_mapping : string;
  late_params : option LateParams
}.

Record ThermalConfig := {
  tc_config :> Config;
  tc_thermal :> ThermalParams
}.

(** Reading a member that may not have been set. *)
Definition late {A} (c : ThermalParams) (f : LateParams → A) : outcome A :=
  p ← from_option_or Undefined (late_params c); Ok (f p).

(** [while (row_tile * row_tile * 4 < bank_asr) row_tile *= 2;], which after 14
    rounds would leave the range of an [int]. *)
Fixpoint tile_rows (rounds : nat) (asr : double) (row_tile : Z) : outcome Z :=
  if dltb (d_of_Z (row_tile * row_tile * 4)) asr then
    match rounds with
    | O => Fail Undefined
    | S rounds => tile_rows rounds asr (row_tile * 2)
    end
  else Ok row_tile.

(** [static_cast<int>(ceil(rows / (64 * 1e6 / (tREFI * tCK))))]. *)
Definition rows_per_refresh (dram : DRAMParams) (t : TimingParams) : outcome Z :=
  from_option_or Undefined
    (int_of (d_ceil (d_of_Z (rows dram) / (d_of_Z 64000000 / (d_of_Z (tREFI t) * tCK t)))%double)).

Definition InitThermalParams (reader : INIReader) (dram : DRAMParams) (t : TimingParams)
    : outcome ThermalParams :=
  let geti := GetInteger reader "thermal" in
  let getr := GetReal reader "thermal" in
  let mx := geti "mat_dim_x"%string 512 in
  let my := geti "mat_dim_y"%string 512 in
  nx ← idiv (rows dram) mx;
  ny ← idiv (columns dram * device_width dram) my;
  let asr := (d_of_Z nx / d_of_Z ny)%double in
  if dltb (d_of_Z 4) asr && (banks_per_group dram =? 1) then
    tile ← tile_rows 14 asr 1;
    nx ← idiv nx tile;
    trn ← idiv (rows dram) tile;
    let ny := ny * tile in
    Ok {| const_logic_power := getr "const_logic_power"%string (d_of_Z 5);
          mat_dim_x := mx; mat_dim_y := my; row_tile := tile; tile_row_num := trn;
          num_x_grids := nx; num_y_grids := ny; bank_asr := (d_of_Z nx / d_of_Z ny)%double;
          loc_mapping := EmptyString; late_params := None |}
  else
    nrr ← rows_per_refresh dram t;
    Ok {| const_logic_power := getr "const_logic_power"%string (d_of_Z 5);
          mat_dim_x := mx; mat_dim_y := my; row_tile := 1; tile_row_num := rows dram;
          num_x_grids := nx; num_y_grids := ny; bank_asr := asr;
          loc_mapping := Get reader "thermal" "loc_mapping" EmptyString;
          late_params := Some
            {| bank_order := geti "bank_order"%string 1;
               bank_layer_order := geti "bank_layer_order"%string 0;
               num_row_refresh := nrr;
               chip_dim_x := getr "chip_dim_x"%string (d_dec 1 2);
               chip_dim_y := getr "chip_dim_y"%string (d_dec 1 2);
               amb_temp := getr "amb_temp"%string (d_of_Z 40) |} |}.

(** The constructor of a configuration when THERMAL is defined. *)
Definition ThermalConfig_init (reader : INIReader) (dir_exist : bool) (out_dir : string)
    : outcome ThermalConfig :=
  config ← Config_init reader dir_exist out_dir;
  thermal ← InitThermalParams reader config config;
  Ok {| tc_config := config; tc_thermal := thermal |}.

(** ** The floorplan *)

(** One round of [determineXY]: the best width so far and its aspect ratio. *)
Definition try_height (xd yd : double) (total_grids_ : Z) (best : Z * double) (y : Z) : Z * double :=
  let '(x_re, asr_re) := best in
  let x := Z.quot total_grids_ y in
  if x * y =? total_grids_ then
    let xl := (d_of_Z x * xd)%double in
    let yl := (d_of_Z y * yd)%double in
    let asr := if dleb yl xl then (xl / d_of_Z y / yd)%double else (yl / d_of_Z x / xd)%double in
    if dltb asr asr_re then (x, asr) else best
  else best.

Definition determineXY (xd yd : double) (total_grids_ : Z) : Z :=
  (foldl (try_height xd yd total_grids_) (1, d_of_Z 1000) (seqZ 1 total_grids_)).1.

Record Floorplan := {
  numP : Z;
  bank_x : Z;
  bank_y : Z;
  vault_x : Z;
  vault_y : Z;
  dimX : Z;
  dimY : Z;
  num_case : Z
}.

(** The first part of the constructor.  [vault_x] and [vault_y] are only used
    for HMC and HBM; the source does not set them for other protocols. *)
Definition floorplan_of (c : ThermalConfig) : outcome Floorplan :=
  let nx := num_x_grids c in
  let ny := num_y_grids c in
  if IsHMC c then
    let xd := (d_of_Z 1 * bank_asr c)%double in
    let yd := (d_of_Z 2 * d_of_Z 1)%double in
    let vx := determineXY xd yd (channels c) in
    vy ← idiv (channels c) vx;
    Ok {| numP := num_dies c + 1; bank_x := 1; bank_y := 2; vault_x := vx; vault_y := vy;
          dimX := vx * 1 * nx; dimY := vy * 2 * ny; num_case := 1 |}
  else if IsHBM c then
    Ok {| numP := num_dies c + 1; bank_x := 8; bank_y := 2; vault_x := 1; vault_y := 2;
          dimX := 1 * 8 * nx; dimY := 2 * 2 * ny; num_case := 1 |}
  else
    let bx := determineXY (bank_asr c) (d_of_Z 1) (banks c) in
    by_ ← idiv (banks c) bx;
    Ok {| numP := 1; bank_x := bx; bank_y := by_; vault_x := 0; vault_y := 0;
          dimX := bx * nx; dimY := by_ * ny; num_case := ranks c * channels c |}.

(** ** The mapping of addresses to locations *)

(** [GetPhyAddress]: the bit positions of the six fields and the offset of the
    column, or the identity. *)
Inductive PhyMapping :=
| SameLocation
| Relocated (mapped_pos : list (list Z)) (column_offset : Z).

(** The bits of one field, from the most significant one, or-ed into their
    positions; a shift by 64 or more is undefined. *)
Fixpoint scatter (new_hex origin : Z) (positions : list Z) : outcome Z :=
  match positions with
  | [] => Ok new_hex
  | pos :: positions' =>
      _ ← ensure ((0 <=? pos) && (pos <? 64) && (vsize positions' <? 64)) Undefined;
      let this_bit := GetBitInPos (u64 origin) (vsize positions') in
      scatter (Z.lor new_hex (u64 (Z.shiftl this_bit pos))) origin positions'
  end.

Definition address_fields (a : Address) : list Z :=
  [channel a; rank a; bankgroup a; bank a; row a; column a].

(** The fields read back, the last one at the lowest position. *)
Fixpoint gather (new_hex : Z) (mapped_pos : list (list Z)) (offset : Z) : outcome (Z * list Z) :=
  match mapped_pos with
  | [] => Ok (offset, [])
  | ps :: mapped_pos' =>
      '(pos, fields) ← gather new_hex mapped_pos' offset;
      _ ← ensure ((pos <? 64) && (vsize ps <? 64)) Undefined;
      Ok (pos + vsize ps, s32 (ModuloWidth new_hex (vsize ps) pos) :: fields)
  end.

Definition GetPhyAddress (m : PhyMapping) (addr : Address) : outcome Address :=
  match m with
  | SameLocation => Ok addr
  | Relocated mapped_pos column_offset =>
      new_hex ← for_each (λ '(origin, ps) h, scatter h origin ps)
                  (zip (address_fields addr) mapped_pos) 0;
      '(_, new_pos) ← gather new_hex mapped_pos column_offset;
      match new_pos with
      | [ch; ra; bg; ba; ro; co] => Ok (mkAddress ch ra bg ba ro co)
      | _ => Fail OutOfRange
      end
  end.

(** [bit_pos.find(":")] and the two substrings around it. *)
Fixpoint split_colon (s : text) : option (text * text) :=
  match s with
  | [] => None
  | c :: s' =>
      if bool_decide (c = ":"%char) then Some ([], s')
      else '(a, b) ← split_colon s'; Some (c :: a, b)
  end.

(** The positions an item describes: one, or all from the first to the last. *)
Definition positions_of (item : text) : outcome (list Z) :=
  match split_colon item with
  | None => pos ← stoi item; Ok [pos]
  | Some (a, b) =>
      start_pos ← stoi a;
      end_pos ← stoi b;
      Ok (if end_pos <? start_pos then (λ k, start_pos - k) <$> seqZ 0 (start_pos - end_pos + 1)
          else seqZ start_pos (end_pos - start_pos + 1))
  end.

Definition SetPhyAddressMapping (c : ThermalConfig) : outcome PhyMapping :=
  let mapping_string := String.list_ascii_of_string (loc_mapping c) in
  if bool_decide (mapping_string = []) then Ok SameLocation
  else
    let bit_fields := StringSplit mapping_string ","%char in
    _ ← ensure (vsize bit_fields =? 6) (ExitProcess 1);
    mapped_pos ← mapM (λ field, ps ← mapM positions_of (StringSplit field "-"%char); Ok (concat ps))
                   bit_fields;
    Ok (Relocated mapped_pos (LogBase2 (BL c))).

(** ** Locations *)

Section Location.
Context (c : ThermalConfig) (g : Floorplan) (phy : PhyMapping).

Definition MapToVault (channel_id : Z) : outcome (Z * Z) :=
  if IsHMC c then
    order ← late c bank_order;
    let vault_factor := if order =? 0 then vault_x g else vault_y g in
    vault_id_x ← idiv channel_id vault_factor;
    let vault_id_y := Z.rem channel_id vault_factor in
    Ok (if order =? 0 then (vault_id_y, vault_id_x) else (vault_id_x, vault_id_y))
  else if IsHBM c then Ok (0, Z.rem channel_id 2)
  else Ok (0, 0).

Definition MapToBank (bankgroup_id bank_id : Z) : outcome (Z * Z) :=
  let abs_bank_id := bankgroup_id * banks_per_group c + bank_id in
  order ← late c bank_order;
  let bank_factor := if order =? 0 then bank_x g else bank_y g in
  let swap '(x, y) := if order =? 0 then (y, x) else (x, y) : Z * Z in
  if IsHMC c then
    num_bank_per_layer ← idiv (banks c) (num_dies c);
    _ ← idiv abs_bank_id num_bank_per_layer;
    let bank_same_layer := Z.rem abs_bank_id num_bank_per_layer in
    bank_id_x ← idiv bank_same_layer bank_factor;
    Ok (swap (bank_id_x, Z.rem bank_same_layer bank_factor))
  else if IsHBM c then
    Ok (bankgroup_id * 2 + Z.quot bank_id 2, Z.rem bank_id 2)
  else if 1 <? bankgroups c then
    let '(bank_id_x, bank_id_y) := swap (Z.quot bank_id 2, Z.rem bank_id 2) in
    Ok (if bank_x g <=? bank_y g then (bank_id_x, bank_id_y + bankgroup_id * 2)
        else (bank_id_x + bankgroup_id * 2, bank_id_y))
  else
    bank_id_x ← idiv abs_bank_id bank_factor;
    Ok (swap (bank_id_x, Z.rem abs_bank_id bank_factor)).

Definition MapToZ (channel_id bank_id : Z) : outcome Z :=
  if IsHMC c then
    num_bank_per_layer ← idiv (banks c) (num_dies c);
    layer ← idiv bank_id num_bank_per_layer;
    order ← late c bank_layer_order;
    Ok (if order =? 0 then layer else numP g - layer - 2)
  else if IsHBM c then Ok (Z.quot channel_id 2)
  else Ok 0.

(** The grid cell of a bit column [col_id] of the row [row_id] of a bank. *)
Definition grid_cell (vault bank : Z * Z) (row_id col_id : Z) : outcome (Z * Z) :=
  col_tile_id ← idiv row_id (tile_row_num c);
  mats ← idiv row_id (mat_dim_x c);
  grid_id_x ← idiv mats (row_tile c);
  mat_y ← idiv col_id (mat_dim_y c);
  tile_y ← idiv (num_y_grids c) (row_tile c);
  let grid_id_y := mat_y + col_tile_id * tile_y in
  Ok (vault.1 * (bank_x g * num_x_grids c) + bank.1 * num_x_grids c + grid_id_x,
      vault.2 * (bank_y g * num_y_grids c) + bank.2 * num_y_grids c + grid_id_y).

(** The cells of the vectors [x] and [y], which grow together. *)
Definition MapToXY (cmd : Command) (vault bank : Z * Z) : outcome (list (Z * Z)) :=
  xy ← mapM (λ i,
      let a := cmd_addr cmd in
      phy_loc ← GetPhyAddress phy
        (mkAddress (channel a) (rank a) (bankgroup a) (Common.bank a) (row a) (column a + i));
      mapM (λ j, grid_cell vault bank (Row cmd) (column phy_loc * device_width c + j))
        (seqZ 0 (device_width c)))
    (seqZ 0 (BL c));
  Ok (concat xy).

(** [z_offset + y * dimX + x]. *)
Definition grid_index (x y z : Z) : Z := z * dimX g * dimY g + y * dimX g + x.

(** The cells to which a command adds energy. *)
Definition access_cells (channel : Z) (cmd : Command) : outcome (list Z) :=
  vault ← MapToVault channel;
  bank ← MapToBank (Bankgroup cmd) (Bank cmd);
  xy ← MapToXY cmd vault bank;
  z ← MapToZ channel (Bank cmd);
  Ok ((λ p : Z * Z, grid_index p.1 p.2 z) <$> (xy : list (Z * Z))).

(** The cells of the row [row0] of the bank [bank0] of a rank. *)
Definition refresh_cells (channel : Z) (cmd : Command) (bank0 row0 : Z) : outcome (list Z) :=
  bankgroup_id ← idiv bank0 (banks_per_group c);
  let bank_id := Z.rem bank0 (banks_per_group c) in
  let a := cmd_addr cmd in
  let new_addr := mkAddress (Common.channel a) (rank a) bankgroup_id bank_id row0 (column a) in
  vault ← MapToVault channel;
  bank ← MapToBank bankgroup_id bank_id;
  z ← MapToZ channel bank_id;
  phy_addr ← GetPhyAddress phy new_addr;
  '(x, y) ← grid_cell vault bank (row phy_addr) 0;
  Ok ((λ i, grid_index x (y + i) z) <$> seqZ 0 (num_y_grids c)).
End Location.

(** The rectangle of grid cells of a bank, as bank_pos.csv lists it. *)
Record BankPosition := mkBankPosition {
  bp_vault : Z; bp_bank : Z; start_x : Z; end_x : Z; start_y : Z; end_y : Z; bp_z : Z
}.

Definition bank_position (c : ThermalConfig) (g : Floorplan) (vault_id bg bank : Z)
    : outcome BankPosition :=
  '(vault_id_x, vault_id_y) ← MapToVault c g vault_id;
  let abs_bank_id := bg * banks_per_group c + bank in
  z ← MapToZ c g vault_id abs_bank_id;
  '(bank_id_x, bank_id_y) ← MapToBank c g bg bank;
  let off_x := vault_id_x * (bank_x g * num_x_grids c) in
  let off_y := vault_id_y * (bank_y g * num_y_grids c) in
  Ok (mkBankPosition vault_id abs_bank_id
        (off_x + bank_id_x * num_x_grids c) (off_x + (bank_id_x + 1) * num_x_grids c - 1)
        (off_y + bank_id_y * num_y_grids c) (off_y + (bank_id_y + 1) * num_y_grids c - 1) z).

Definition PrintCSV_bank (c : ThermalConfig) (g : Floorplan) : outcome (list BankPosition) :=
  rows ← mapM (λ vault_id, mapM (λ bg, mapM (bank_position c g vault_id bg)
    (seqZ 0 (banks_per_group c))) (seqZ 0 (bankgroups c))) (seqZ 0 (channels c));
  Ok (concat (concat rows)).

(** ** The calculator *)

Definition PowerMap : Type := list (list double).

Record ThermalCalculator := mkThermalCalculator {
  floorplan : Floorplan;
  phy_mapping : PhyMapping;
  Tamb : double;
  time_iter : Z;
  Midx : list Entry;
  Cap : list double;
  T_trans : list (list double);
  accu_Pmap : PowerMap;
  cur_Pmap : PowerMap;
  refresh_count : list (list Z);
  background_energy_ : list (list double);
  avg_logic_power_ : double;
  sample_id : Z
}.

Definition num_dummy : Z := 2.

Definition table {A} (n m : Z) (x : A) : list (list A) :=
  replicate (Z.to_nat n) (replicate (Z.to_nat m) x).

(** [calculate_time_step]: the smallest ratio of a capacitance and a diagonal
    entry bounds the time step ... *)
Definition max_dt (layer_dim : Z) (Midx : list Entry) (Cap : list double) : outcome double :=
  for_each (λ e dt,
      idxC ← idiv (e_row e) layer_dim;
      if e_row e =? e_col e then
        c ← vget Cap idxC;
        let r := (c / e_val e)%double in
        Ok (if dltb r dt then r else dt)
      else Ok dt)
    Midx (d_of_Z 100).

(** ... and the number of steps is raised until they are shorter; [fuel] bounds
    the number of rounds. *)
Fixpoint raise_iter (fuel : nat) (epoch_time dt : double) (time_iter : Z) : outcome Z :=
  if dleb dt (epoch_time / d_of_Z time_iter)%double then
    match fuel with
    | O => Fail DoesNotReturn
    | S fuel => raise_iter fuel epoch_time dt (time_iter + 1)
    end
  else Ok time_iter.

Definition epoch_time (c : ThermalConfig) : double :=
  (d_of_Z (epoch_period c) * tCK c * d_dec 1 9)%double.

(** The constructor, with [InitialParameters] and the list of bank positions. *)
Definition ThermalCalculator_init (fuel : nat) (c : ThermalConfig) : outcome ThermalCalculator :=
  g ← floorplan_of c;
  amb ← late c amb_temp;
  cx ← late c chip_dim_x;
  cy ← late c chip_dim_y;
  phy ← SetPhyAddressMapping c;
  let amb := (amb + T0)%double in
  let X := dimX g + num_dummy in
  let Y := dimY g + num_dummy in
  let M := calculate_Midx_array cx cy (numP g) X Y in
  let C := calculate_Cap_array cx cy (numP g) X Y in
  dt ← max_dt (X * Y) M C;
  iter ← raise_iter fuel (epoch_time c) dt 10;
  _ ← (if 0 <=? output_level c then PrintCSV_bank c g else Ok []);
  let map := table (num_case g) (numP g * dimX g * dimY g) (d_of_Z 0) in
  Ok {| floorplan := g;
        phy_mapping := phy;
        Tamb := amb;
        time_iter := iter;
        Midx := M;
        Cap := C;
        T_trans := replicate (Z.to_nat (num_case g)) (initialize_Temperature (numP g) X Y amb);
        accu_Pmap := map;
        cur_Pmap := map;
        refresh_count := table (channels c * ranks c) (banks c) 0;
        background_energy_ := table (channels c) (ranks c) (d_of_Z 0);
        avg_logic_power_ := d_of_Z 0;
        sample_id := 0 |}.

(** ** Energy of commands *)

(** [map[case_id][idx] += energy]. *)
Definition add_at (case_id idx : Z) (energy : double) (map : PowerMap) : outcome PowerMap :=
  m ← vget map case_id;
  v ← vget m idx;
  m ← vset m idx (v + energy)%double;
  vset map case_id m.

Definition set_maps (accu cur : PowerMap) (s : ThermalCalculator) : ThermalCalculator :=
  s <| accu_Pmap := accu |> <| cur_Pmap := cur |>.

(** Both maps receive the energy in every cell of a list. *)
Definition heat (case_id : Z) (energy : double) (cells : list Z) (s : ThermalCalculator)
    : outcome ThermalCalculator :=
  for_each (λ idx s,
      accu ← add_at case_id idx energy (accu_Pmap s);
      cur ← add_at case_id idx energy (cur_Pmap s);
      Ok (set_maps accu cur s))
    cells s.

Definition LocationMappingANDaddEnergy (c : ThermalConfig) (channel : Z) (cmd : Command)
    (caseID_ : Z) (add_energy : double) (s : ThermalCalculator) : outcome ThermalCalculator :=
  cells ← access_cells c (floorplan s) (phy_mapping s) channel cmd;
  heat caseID_ (add_energy / d_of_Z (device_width c))%double cells s.

Definition LocationMappingANDaddEnergy_RF (c : ThermalConfig) (channel : Z) (cmd : Command)
    (bank0 row0 caseID_ : Z) (add_energy : double) (s : ThermalCalculator)
    : outcome ThermalCalculator :=
  cells ← refresh_cells c (floorplan s) (phy_mapping s) channel cmd bank0 row0;
  heat caseID_ add_energy cells s.

(** [refresh_count[rank_idx][ib]++], back to 0 after the last row. *)
Definition next_count (nrr rows n : Z) : Z :=
  let n := n + 1 in if n * nrr =? rows then 0 else n.

(** The next rows of a bank are refreshed, [num_row_refresh] at a time. *)
Definition refresh_bank (c : ThermalConfig) (channel : Z) (cmd : Command) (ib caseID_ : Z)
    (add_energy : double) (s : ThermalCalculator) : outcome ThermalCalculator :=
  let rank_idx := channel * ranks c + Rank cmd in
  nrr ← late c num_row_refresh;
  counts ← vget (refresh_count s) rank_idx;
  n ← vget counts ib;
  let row_s := n * nrr in
  counts ← vset counts ib (next_count nrr (rows c) n);
  refreshed ← vset (refresh_count s) rank_idx counts;
  for_each (λ ir, LocationMappingANDaddEnergy_RF c channel cmd ib ir caseID_ add_energy)
    (seqZ row_s nrr) (s <| refresh_count := refreshed |>).

Definition command_energy (c : ThermalConfig) (t : CommandType) : double :=
  match t with
  | ACTIVATE => act_energy_inc c
  | READ | READ_PRECHARGE => read_energy_inc c
  | WRITE | WRITE_PRECHARGE => write_energy_inc c
  | _ => d_of_Z 0
  end.

Definition is_stack (c : ThermalConfig) : bool := IsHMC c || IsHBM c.

Definition UpdateCMDPower (c : ThermalConfig) (channel : Z) (cmd : Command)
    (s : ThermalCalculator) : outcome ThermalCalculator :=
  let device_scale := if is_stack c then d_of_Z 1 else d_of_Z (devices_per_rank c) in
  let case_id := if is_stack c then 0 else channel * ranks c + Rank cmd in
  let scaled e := (e / d_of_Z 1000 / device_scale)%double in
  match cmd_type cmd with
  | REFRESH =>
      nrr ← late c num_row_refresh;
      let energy := (ref_energy_inc c / d_of_Z nrr / d_of_Z (banks c) / d_of_Z (num_y_grids c))%double in
      for_range (banks c) (λ ib, refresh_bank c channel cmd ib case_id (scaled energy)) s
  | REFRESH_BANK =>
      nrr ← late c num_row_refresh;
      let energy := (refb_energy_inc c / d_of_Z nrr / d_of_Z (num_y_grids c))%double in
      refresh_bank c channel cmd (Bank cmd) case_id (scaled energy) s
  | t =>
      let energy := command_energy c t in
      if dltb (d_of_Z 0) energy then
        LocationMappingANDaddEnergy c channel cmd case_id
          (scaled (energy / d_of_Z (BL c))%double) s
      else Ok s
  end.

(** ** Background energy *)

(** The cells from [from] on receive the same energy. *)
Definition add_range (case_id from n : Z) (energy : double) (map : PowerMap) : outcome PowerMap :=
  for_each (λ i, add_at case_id i energy) (seqZ from n) map.

(** The power map that [trans] selects and its period. *)
Definition power_map (trans : bool) (s : ThermalCalculator) : PowerMap :=
  if trans then cur_Pmap s else accu_Pmap s.
Definition set_power_map (trans : bool) (map : PowerMap) (s : ThermalCalculator) : ThermalCalculator :=
  if trans then s <| cur_Pmap := map |> else s <| accu_Pmap := map |>.

Definition UpdatePowerMaps (c : ThermalConfig) (add_energy : double) (trans : bool) (clk : Z)
    (s : ThermalCalculator) : outcome ThermalCalculator :=
  let g := floorplan s in
  let period := if trans then d_of_Z (epoch_period c) else d_of_Z clk in
  let cells := dimX g * dimY g * (numP g - 1) in
  let logic := (avg_logic_power_ s / d_of_Z (dimX g) / d_of_Z (dimY g) * period)%double in
  map ← for_range (num_case g)
    (λ j map, map ← add_range j 0 cells add_energy map;
              add_range j cells (dimX g * dimY g * numP g - cells) logic map)
    (power_map trans s);
  Ok (set_power_map trans map s).

Definition UpdateBackgroundEnergy (channel rank : Z) (energy : double) (s : ThermalCalculator)
    : outcome ThermalCalculator :=
  e ← vget (background_energy_ s) channel;
  e ← vset e rank energy;
  b ← vset (background_energy_ s) channel e;
  Ok (s <| background_energy_ := b |>).

Definition SetLogicPower (logic_power : double) (s : ThermalCalculator) : ThermalCalculator :=
  s <| avg_logic_power_ := logic_power |>.

(** [for (int k = 0; k < n; i++) map[case_id][cell] += energy;] increments [i]
    instead of [k]; [fuel] bounds the number of rounds. *)
Fixpoint spin (fuel : nat) (cell : Z → Z) (n case_id : Z) (energy : double) (i : Z) (map : PowerMap)
    : outcome PowerMap :=
  if 0 <? n then
    match fuel with
    | O => Fail DoesNotReturn
    | S fuel =>
        map ← add_at case_id (cell i) energy map;
        spin fuel cell n case_id energy (i + 1) map
    end
  else Ok map.

(** The background energy of the devices of every rank, for the other
    protocols; [cell] is the index the innermost loop uses. *)
Definition device_background (fuel : nat) (cell : Z → Z) (c : ThermalConfig) (s : ThermalCalculator)
    (map : PowerMap) : outcome PowerMap :=
  let n := dimX (floorplan s) * dimY (floorplan s) * numP (floorplan s) in
  for_range (channels c) (λ i, for_range (ranks c) (λ j map,
      e ← vget (background_energy_ s) i;
      e ← vget e j;
      let bg_energy := (e / d_of_Z n)%double in
      spin fuel cell n (i * ranks c + j)
        (bg_energy / d_of_Z 1000 / d_of_Z (devices_per_rank c))%double i map))
    map.

Definition total_background (s : ThermalCalculator) : double :=
  foldl dadd (d_of_Z 0) (concat (background_energy_ s)).

(** What [UpdateEpoch] and the start of [PrintFinalPT] have in common. *)
Definition stack_background (c : ThermalConfig) (trans : bool) (clk : Z) (s : ThermalCalculator)
    : outcome ThermalCalculator :=
  let g := floorplan s in
  let bg_energy := (total_background s / d_of_Z (dimX g * dimY g * (numP g - 1)))%double in
  UpdatePowerMaps c (bg_energy / d_of_Z 1000)%double trans clk s.

Definition UpdateEpoch (fuel : nat) (c : ThermalConfig) (s : ThermalCalculator)
    : outcome ThermalCalculator :=
  if is_stack c then stack_background c true (epoch_period c) s
  else
    map ← device_background fuel (λ _, 0) c s (cur_Pmap s);
    Ok (s <| cur_Pmap := map |>).

(** ** Temperatures *)

(** [powerM[i][j][l]]: the power of a cell, 0 on the border of dummy cells. *)
Definition padded_cell (g : Floorplan) (div : double) (map : list double) (i j l : Z) : outcome double :=
  let x := i - Z.quot num_dummy 2 in
  let y := j - Z.quot num_dummy 2 in
  if (0 <=? x) && (x <? dimX g) && (0 <=? y) && (y <? dimY g) then
    v ← vget map (l * (dimX g * dimY g) + y * dimX g + x); Ok (v / div)%double
  else Ok (d_of_Z 0).

Definition InitPowerM (c : ThermalConfig) (case_id clk : Z) (s : ThermalCalculator)
    : outcome PowerM :=
  let g := floorplan s in
  let div := if clk =? 0 then d_of_Z (epoch_period c) else d_of_Z clk in
  map ← vget (power_map (clk =? 0) s) case_id;
  mapM (λ i, mapM (λ j, mapM (padded_cell g div map i j)
    (seqZ 0 (numP g))) (seqZ 0 (dimY g + num_dummy))) (seqZ 0 (dimX g + num_dummy)).

Definition GetTotalPower (g : Floorplan) (powerM : PowerM) : outcome double :=
  for_range (dimX g) (λ i, for_range (dimY g) (λ j, for_range (numP g) (λ l total,
      p ← power_at powerM (i + Z.quot num_dummy 2) (j + Z.quot num_dummy 2) l;
      Ok (total + p)%double))) (d_of_Z 0).

Definition CalcTransT (c : ThermalConfig) (case_id : Z) (s : ThermalCalculator)
    : outcome ThermalCalculator :=
  let g := floorplan s in
  powerM ← InitPowerM c case_id 0 s;
  _ ← GetTotalPower g powerM;
  cx ← late c chip_dim_x;
  cy ← late c chip_dim_y;
  T ← vget (T_trans s) case_id;
  T ← transient_thermal_solver powerM cx cy (numP g) (dimX g + num_dummy) (dimY g + num_dummy)
        (Midx s) (Cap s) (epoch_time c) (time_iter s) T (Tamb s);
  T ← vset (T_trans s) case_id T;
  Ok (s <| T_trans := T |>).

Definition CalcFinalT (pdgssv : Pdgssv) (c : ThermalConfig) (case_id clk : Z) (s : ThermalCalculator)
    : outcome (list double) :=
  let g := floorplan s in
  powerM ← InitPowerM c case_id clk s;
  _ ← GetTotalPower g powerM;
  cx ← late c chip_dim_x;
  cy ← late c chip_dim_y;
  steady_thermal_solver pdgssv powerM cx cy (numP g) (dimX g + num_dummy) (dimY g + num_dummy)
    (Midx s) (Tamb s).

(** [maxT > t ? maxT : t]. *)
Definition dmax (maxT t : double) : double := if dltb t maxT then maxT else t.

Definition T_size (g : Floorplan) : Z :=
  (numP g * 3 + 1) * (dimX g + num_dummy) * (dimY g + num_dummy).

Definition GetMaxTofCase (g : Floorplan) (temp : list double) : outcome double :=
  for_range (T_size g) (λ i maxT,
      t ← vget temp i; Ok (if dltb maxT t then t else maxT)) (d_of_Z 0).

(** The index of a cell of a die in a temperature map. *)
Definition temp_index (g : Floorplan) (l j i : Z) : Z :=
  (layerP l + 1) * ((dimX g + num_dummy) * (dimY g + num_dummy)) + j * (dimX g + num_dummy) + i.

Definition GetMaxTofCaseLayer (g : Floorplan) (temp : list double) (layer : Z) : outcome double :=
  for_each (λ j, for_each (λ i maxT,
      t ← vget temp (temp_index g layer j i); Ok (dmax maxT (t - T0)%double))
    (seqZ (Z.quot num_dummy 2) (dimX g))) (seqZ (Z.quot num_dummy 2) (dimY g)) (d_of_Z 0).

(** ** Reports *)

(** The power and the temperature of a cell of a case. *)
Record CellReport := mkCellReport {
  r_x : Z; r_y : Z; r_z : Z; r_power : double; r_temp : double
}.

(** [PrintCSV_trans] and [PrintCSV_final], which differ in the offset of the
    temperature. *)
Definition PrintCSV (celsius : double → double) (g : Floorplan) (P_ T_ : list double) (scale : Z)
    : outcome (list CellReport) :=
  rows ← mapM (λ l, mapM (λ j, mapM (λ i,
      p ← vget P_ (l * (dimX g * dimY g) + (j - Z.quot num_dummy 2) * dimX g + (i - Z.quot num_dummy 2));
      t ← vget T_ (temp_index g l j i);
      Ok (mkCellReport (i - Z.quot num_dummy 2) (j - Z.quot num_dummy 2) l
            (p / d_of_Z scale)%double (celsius t)))
    (seqZ (Z.quot num_dummy 2) (dimX g))) (seqZ (Z.quot num_dummy 2) (dimY g))) (seqZ 0 (numP g));
  Ok (concat (concat rows)).

(** The maximal temperatures of the dies of every case, and the cells if the
    output level asks for them. *)
Definition trans_case (c : ThermalConfig) (ir : Z) (s : ThermalCalculator)
    : outcome (ThermalCalculator * list double * list CellReport) :=
  let g := floorplan s in
  s ← CalcTransT c ir s;
  T ← vget (T_trans s) ir;
  maxima ← mapM (GetMaxTofCaseLayer g T) (seqZ 0 (numP g));
  cells ← (if 2 <=? output_level c then
             P ← vget (cur_Pmap s) ir; PrintCSV (λ t, (t - T0)%double) g P T (epoch_period c)
           else Ok []);
  Ok (s, maxima, cells).

Definition PrintTransPT (fuel : nat) (c : ThermalConfig) (s : ThermalCalculator)
    : outcome (ThermalCalculator * list (list double * list CellReport)) :=
  s ← UpdateEpoch fuel c s;
  let g := floorplan s in
  '(s, out) ← for_range (num_case g)
    (λ ir '(s, out), '(s, maxima, cells) ← trans_case c ir s; Ok (s, out ++ [(maxima, cells)]))
    (s, []);
  let n := Z.to_nat (numP g * dimX g * dimY g) in
  let cleared := (λ m, replicate n (d_of_Z 0) ++ drop n m) <$> cur_Pmap s in
  Ok (s <| cur_Pmap := cleared |> <| sample_id := sample_id s + 1 |>, out).

Definition PrintFinalPT (fuel : nat) (pdgssv : Pdgssv) (c : ThermalConfig) (clk : Z)
    (s : ThermalCalculator) : outcome (ThermalCalculator * list (double * list CellReport)) :=
  s ← (if is_stack c then stack_background c false clk s
       else map ← device_background fuel (λ i, i) c s (accu_Pmap s); Ok (s <| accu_Pmap := map |>));
  let g := floorplan s in
  out ← mapM (λ ir,
      T ← CalcFinalT pdgssv c ir clk s;
      maxT ← GetMaxTofCase g T;
      P ← vget (accu_Pmap s) ir;
      cells ← PrintCSV (λ t, t) g P T clk;
      Ok (maxT, cells))
    (seqZ 0 (num_case g));
  Ok (s, out).
