(* ===== verification/ThermalSafety.v ===== *)
(** * Properties of the thermal model

    Banks have disjoint rectangles on the dies and commands heat only cells
    that exist, the relocation of addresses loses nothing, refreshes go round
    all rows if their number divides evenly, and the reports of stacked
    memories return while those of the other protocols never do. *)
From Stdlib Require Import SpecFloat.
From stdpp Require Import base tactics numbers list list_numbers gmap strings sets.
From coqutil Require Import Datatypes.RecordSetters.
From S2P Require Import Prelude Common Double Configuration Text ThermalSolver Thermal.

Import TriangleBracketNotations.
Local Open Scope Z_scope.

(** ** The floorplan *)

Lemma quot_rem_pos a b : 0 ≤ a → 0 < b → Z.quot a b = a / b ∧ Z.rem a b = a mod b.
Proof. intros. rewrite Z.quot_div_nonneg, Z.rem_mod_nonneg by lia. done. Qed.

(** Division by the width of a row gives the position in a table. *)
Lemma table_position a b n : 0 ≤ a < n * b → 0 < b →
  0 ≤ a / b < n ∧ 0 ≤ a mod b < b ∧ a = a / b * b + a mod b.
Proof.
  intros Ha Hb. pose proof (Z.div_mod a b ltac:(lia)). pose proof (Z.mod_pos_bound a b Hb).
  split_and!; try lia; [by apply Z.div_pos; lia|]. apply Z.div_lt_upper_bound; lia.
Qed.

Lemma idiv_pos a b : 0 < b → idiv a b = Ok (Z.quot a b).
Proof. intros. unfold idiv. by rewrite (proj2 (Z.eqb_neq _ _)) by lia. Qed.

Lemma same_slot n a b x : 0 < n → a * n ≤ x ≤ a * n + n - 1 → b * n ≤ x ≤ b * n + n - 1 → a = b.
Proof. intros. destruct (Z.lt_trichotomy a b) as [?|[?|?]]; [|done|]; nia. Qed.

Lemma quot_mul x y : 0 < y → x mod y = 0 → Z.quot x y * y = x.
Proof.
  intros Hy Hm. pose proof (Z.quot_rem x y ltac:(lia)) as E.
  assert (Z.rem x y = 0) as Er; [|lia].
  apply Z.rem_divide; [lia|]. by apply Z.mod_divide; [lia|].
Qed.

(** [determineXY] finds a width that divides the number of grids. *)
Lemma determineXY_divides xd yd n : 0 < n →
  0 < determineXY xd yd n ∧ (determineXY xd yd n | n).
Proof.
  intros Hn. unfold determineXY.
  assert (H : ∀ best, 0 < best.1 ∧ (best.1 | n) → let best' := foldl (try_height xd yd n) best (seqZ 1 n) in
    0 < best'.1 ∧ (best'.1 | n)).
  { assert (Hys : Forall (λ y, 0 < y ≤ n) (seqZ 1 n)).
    { apply Forall_forall. intros y Hy%elem_of_seqZ. lia. }
    induction Hys as [|y ys Hy _ IH]; intros best Hb; [done|]. cbn [foldl]. apply IH.
    unfold try_height. destruct best as [x asr]. case_match eqn:E; [|done]. case_match; [|done].
    apply Z.eqb_eq in E. cbn [fst]. split; [nia|]. exists y. lia. }
  apply (H (1, d_of_Z 1000)). split; [done|]. apply Z.divide_1_l.
Qed.

(** The cells of a die are what its vaults and banks have. *)
Definition vaults_x (c : ThermalConfig) (g : Floorplan) : Z := if is_stack c then vault_x g else 1.
Definition vaults_y (c : ThermalConfig) (g : Floorplan) : Z := if is_stack c then vault_y g else 1.

(** Dies with memory; a stack has a logic die below them. *)
Definition memory_dies (c : ThermalConfig) (g : Floorplan) : Z := if is_stack c then numP g - 1 else numP g.

(** The bank array of a group of a planar device, two banks in a column. *)
Definition group_extent (c : ThermalConfig) (order : Z) : Z * Z :=
  let w := (banks_per_group c + 1) / 2 in
  let h := Z.min 2 (banks_per_group c) in
  if order =? 0 then (h, w) else (w, h).

(** The banks fit on the floorplan. *)
Definition banks_fit (c : ThermalConfig) (g : Floorplan) (order : Z) : Prop :=
  if IsHMC c then
    0 < num_dies c ∧ banks c mod num_dies c = 0 ∧ banks c ≤ 2 * num_dies c
  else if IsHBM c then
    bankgroups c ≤ 4 ∧ banks_per_group c ≤ 4 ∧ channels c ≤ 2 * num_dies c
  else if 1 <? bankgroups c then
    let '(ex, ey) := group_extent c order in
    if bank_x g <=? bank_y g then ex ≤ bank_x g ∧ ey ≤ 2 ∧ 2 * bankgroups c ≤ bank_y g
    else ex ≤ 2 ∧ 2 * bankgroups c ≤ bank_x g ∧ ey ≤ bank_y g
  else True.

(** A configuration whose banks are cut evenly into grid cells. *)
Record layout_ok (c : ThermalConfig) (g : Floorplan) (p : LateParams) : Prop := {
  lo_plan : floorplan_of c = Ok g;
  lo_late : late_params c = Some p;
  lo_channels : 0 < channels c;
  lo_ranks : 0 < ranks c;
  lo_groups : 0 < bankgroups c;
  lo_per_group : 0 < banks_per_group c;
  lo_banks : banks c = bankgroups c * banks_per_group c;
  lo_width : 0 < device_width c;
  lo_burst : 0 < BL c;
  lo_mat_x : 0 < mat_dim_x c;
  lo_mat_y : 0 < mat_dim_y c;
  lo_tile : row_tile c = 1;
  lo_tile_rows : tile_row_num c = rows c;
  lo_nx : 0 < num_x_grids c;
  lo_ny : 0 < num_y_grids c;
  lo_rows : rows c = num_x_grids c * mat_dim_x c;
  lo_columns : columns c * device_width c = num_y_grids c * mat_dim_y c;
  lo_fit : banks_fit c g (bank_order p)
}.

Section Placement.
Context (c : ThermalConfig) (g : Floorplan) (p : LateParams) (Hlay : layout_ok c g p).

Lemma late_read {A} (f : LateParams → A) : late c f = Ok (f p).
Proof. unfold late. by rewrite (lo_late _ _ _ Hlay). Qed.

(** The dimensions of the floorplan. *)
Lemma plan_dims :
  0 < vaults_x c g ∧ 0 < vaults_y c g ∧ 0 < bank_x g ∧ 0 < bank_y g ∧
  dimX g = vaults_x c g * (bank_x g * num_x_grids c) ∧
  dimY g = vaults_y c g * (bank_y g * num_y_grids c) ∧
  (IsHMC c = true → vault_x g * vault_y g = channels c ∧ bank_x g = 1 ∧ bank_y g = 2 ∧ numP g = num_dies c + 1) ∧
  (IsHMC c = false → IsHBM c = true →
     vault_x g = 1 ∧ vault_y g = 2 ∧ bank_x g = 8 ∧ bank_y g = 2 ∧ numP g = num_dies c + 1) ∧
  (is_stack c = false → bank_x g * bank_y g = banks c ∧ numP g = 1).
Proof.
  destruct Hlay as [Hplan _ Hch _ Hbg Hbpg Hb _ _ _ _ _ _ Hnx Hny _ _ _].
  unfold floorplan_of, vaults_x, vaults_y, is_stack in *. destruct (IsHMC c), (IsHBM c); cbn [orb].
  all: try (injection Hplan as <-; cbn; repeat split; try discriminate; lia).
  1,2: pose proof (determineXY_divides (d_of_Z 1 * bank_asr c)%double (d_of_Z 2 * d_of_Z 1)%double _ Hch) as [Hd Hv];
    apply bind_Ok in Hplan as (vy & Ev & Hplan); apply idiv_Ok in Ev as [_ ->]; injection Hplan as <-; cbn;
    set (vx := determineXY _ _ _) in *; destruct Hv as [q Eq]; rewrite Eq, Z.quot_mul by lia;
    assert (0 < q) by nia; repeat split; try discriminate; lia.
  assert (0 < banks c) as Hb' by (rewrite Hb; nia).
  pose proof (determineXY_divides (bank_asr c) (d_of_Z 1) _ Hb') as [Hd Hv].
  apply bind_Ok in Hplan as (by_ & Ev & Hplan). apply idiv_Ok in Ev as [_ ->]. injection Hplan as <-. cbn.
  set (bx := determineXY _ _ _) in *. destruct Hv as [q Eq]. rewrite Eq, Z.quot_mul by lia.
  assert (0 < q) by nia. repeat split; try discriminate; try lia.
Qed.

(** A channel is a vault of a cube, and half a die of a high-bandwidth stack. *)
Lemma vault_ok ch : 0 ≤ ch < channels c → ∃ v, MapToVault c g ch = Ok v ∧
  0 ≤ v.1 < vaults_x c g ∧ 0 ≤ v.2 < vaults_y c g.
Proof.
  intros Hch. destruct plan_dims as (Hvx & Hvy & _ & _ & _ & _ & Hhmc & Hhbm & _).
  unfold MapToVault, vaults_x, vaults_y, is_stack in *. destruct (IsHMC c) eqn:Ehmc; cbn [orb] in *.
  - destruct (Hhmc eq_refl) as (E & _). rewrite late_read. cbn [mbind outcome_bind].
    pose proof (table_position ch (vault_x g) (vault_y g) ltac:(lia) Hvx).
    pose proof (table_position ch (vault_y g) (vault_x g) ltac:(lia) Hvy).
    destruct (quot_rem_pos ch (vault_x g)) as [Eq1 Er1], (quot_rem_pos ch (vault_y g)) as [Eq2 Er2]; [lia..|].
    destruct (bank_order p =? 0); rewrite idiv_pos by done; cbn [mbind outcome_bind]; eexists; (split; [done|]);
      cbn [fst snd]; lia.
  - destruct (IsHBM c) eqn:Ehbm; [|by exists (0, 0)]. eexists. split; [done|]. cbn [fst snd].
    destruct (Hhbm eq_refl eq_refl) as (-> & -> & _). destruct (quot_rem_pos ch 2) as [_ ->]; [lia..|].
    pose proof (Z.mod_pos_bound ch 2). lia.
Qed.

(** The banks of a layer of a cube. *)
Lemma layer_ok : IsHMC c = true → 0 < num_dies c ∧
  0 < Z.quot (banks c) (num_dies c) ≤ 2 ∧ Z.quot (banks c) (num_dies c) * num_dies c = banks c.
Proof.
  intros E. pose proof (lo_fit _ _ _ Hlay) as Hf. unfold banks_fit in Hf. rewrite E in Hf. destruct Hf as (Hd & Hm & Hb).
  pose proof (quot_mul (banks c) (num_dies c) Hd Hm) as Eq. split; [done|]. split; [|done].
  pose proof (lo_groups _ _ _ Hlay). pose proof (lo_per_group _ _ _ Hlay). pose proof (lo_banks _ _ _ Hlay). nia.
Qed.

Lemma z_ok ch b : 0 ≤ ch < channels c → 0 ≤ b < banks c → ∃ z, MapToZ c g ch b = Ok z ∧
  0 ≤ z < memory_dies c g.
Proof.
  intros Hch Hb. destruct plan_dims as (_ & _ & _ & _ & _ & _ & Hhmc & Hhbm & Hdev).
  pose proof (lo_fit _ _ _ Hlay) as Hf. unfold MapToZ, memory_dies, is_stack, banks_fit in *.
  destruct (IsHMC c) eqn:Ehmc; cbn [orb] in *.
  - destruct (layer_ok Ehmc) as (Hd & Hl & El). destruct (Hhmc eq_refl) as (_ & _ & _ & ->).
    rewrite idiv_pos by done. cbn [mbind outcome_bind]. rewrite idiv_pos by lia. cbn [mbind outcome_bind].
    rewrite late_read. cbn [mbind outcome_bind]. eexists. split; [done|].
    set (n := Z.quot (banks c) (num_dies c)) in *. destruct (quot_rem_pos b n) as [-> _]; [lia..|].
    pose proof (table_position b n (num_dies c)). case_match; lia.
  - destruct (IsHBM c) eqn:Ehbm.
    + destruct (Hhbm eq_refl eq_refl) as (_ & _ & _ & _ & ->). eexists. split; [done|].
      destruct (quot_rem_pos ch 2) as [-> _]; [lia..|]. pose proof (table_position ch 2 (num_dies c)). lia.
    + destruct (Hdev eq_refl) as [_ ->]. exists 0. split; [done|lia].
Qed.

(** The place of a bank in the bank array of its vault or die. *)
Definition bank_spot (bg b : Z) : Z * Z :=
  let swap '(x, y) := if bank_order p =? 0 then (y, x) else (x, y) : Z * Z in
  if IsHMC c then (0, (bg * banks_per_group c + b) mod Z.quot (banks c) (num_dies c))
  else if IsHBM c then (bg * 2 + b / 2, b mod 2)
  else if 1 <? bankgroups c then
    let '(x, y) := swap (b / 2, b mod 2) in
    if bank_x g <=? bank_y g then (x, y + bg * 2) else (x + bg * 2, y)
  else
    let f := if bank_order p =? 0 then bank_x g else bank_y g in swap (b / f, b mod f).

Definition bank_in_range (bg b : Z) : Prop := 0 ≤ bg < bankgroups c ∧ 0 ≤ b < banks_per_group c.

Lemma abs_bank_range bg b : bank_in_range bg b → 0 ≤ bg * banks_per_group c + b < banks c.
Proof. unfold bank_in_range. intros. rewrite (lo_banks _ _ _ Hlay). nia. Qed.

Lemma bank_spot_ok bg b : bank_in_range bg b → MapToBank c g bg b = Ok (bank_spot bg b).
Proof.
  intros Hb. pose proof (abs_bank_range bg b Hb) as Ha. destruct plan_dims as (_ & _ & Hbx & Hby & _ & _ & Hhmc & _).
  unfold MapToBank, bank_spot. rewrite late_read. cbn [mbind outcome_bind]. destruct Hb as [Hg Hb].
  destruct (IsHMC c) eqn:Ehmc.
  - destruct (layer_ok Ehmc) as (Hd & Hl & _). destruct (Hhmc eq_refl) as (_ & -> & -> & _).
    set (n := Z.quot (banks c) (num_dies c)) in *. rewrite idiv_pos by done. cbn [mbind outcome_bind]. fold n.
    rewrite (idiv_pos _ n) by lia. cbn [mbind outcome_bind]. destruct (quot_rem_pos (bg * banks_per_group c + b) n) as [_ ->]; [lia..|].
    pose proof (Z.mod_pos_bound (bg * banks_per_group c + b) n ltac:(lia)). set (s := _ mod n) in *.
    case_match; rewrite idiv_pos by done; cbn [mbind outcome_bind]; do 2 f_equal.
    + by rewrite Z.rem_1_r.
    + by rewrite Z.quot_1_r.
    + apply Z.quot_small. lia.
    + apply Z.rem_small. lia.
  - destruct (IsHBM c); [by destruct (quot_rem_pos b 2) as [-> ->]; [lia..|]|].
    destruct (1 <? bankgroups c) eqn:E1.
    { destruct (quot_rem_pos b 2) as [-> ->]; [lia..|]. by destruct (bank_order p =? 0), (bank_x g <=? bank_y g). }
    apply Z.ltb_ge in E1. assert (bg = 0) as -> by lia. rewrite Z.mul_0_l, Z.add_0_l in *.
    set (f := if bank_order p =? 0 then _ else _). assert (0 < f) by (unfold f; case_match; done).
    rewrite idiv_pos by done. cbn [mbind outcome_bind]. by destruct (quot_rem_pos b f) as [-> ->]; [lia..|].
Qed.

Lemma half_spec b : b = 2 * (b / 2) + b mod 2 ∧ 0 ≤ b mod 2 < 2.
Proof. split; [apply Z.div_mod; lia|]. by apply Z.mod_pos_bound. Qed.

Lemma bank_spot_range bg b : bank_in_range bg b →
  0 ≤ (bank_spot bg b).1 < bank_x g ∧ 0 ≤ (bank_spot bg b).2 < bank_y g.
Proof.
  intros Hb. destruct plan_dims as (_ & _ & Hbx & Hby & _ & _ & Hhmc & Hhbm & Hdev).
  pose proof (lo_fit _ _ _ Hlay) as Hf. pose proof (half_spec b) as Hh.
  pose proof (half_spec (banks_per_group c + 1)) as Hw. unfold bank_spot, banks_fit, group_extent, is_stack in *.
  destruct (IsHMC c) eqn:Ehmc; cbn [orb] in *.
  - destruct (layer_ok Ehmc) as (Hd & Hl & _). destruct (Hhmc eq_refl) as (_ & -> & -> & _). cbn [fst snd].
    pose proof (Z.mod_pos_bound (bg * banks_per_group c + b) (Z.quot (banks c) (num_dies c))). lia.
  - destruct Hb as [Hg Hb]. destruct (IsHBM c) eqn:Ehbm.
    + destruct (Hhbm eq_refl eq_refl) as (_ & _ & -> & -> & _). cbn [fst snd]. lia.
    + destruct (1 <? bankgroups c) eqn:E1.
      * destruct (bank_order p =? 0), (bank_x g <=? bank_y g); cbn [fst snd]; lia.
      * apply Z.ltb_ge in E1. pose proof (lo_banks _ _ _ Hlay) as Eb. assert (bankgroups c = 1) as E by lia.
        rewrite E, Z.mul_1_l in Eb. destruct (Hdev eq_refl) as [Ed _].
        pose proof (table_position b (bank_x g) (bank_y g)). pose proof (table_position b (bank_y g) (bank_x g)).
        destruct (bank_order p =? 0); cbn [fst snd]; lia.
Qed.

(** Vaults tell the channels of a stack apart, together with the layer. *)
Lemma vault_inj ch ch' v z z' b b' : 0 ≤ ch < channels c → 0 ≤ ch' < channels c → is_stack c = true →
  MapToVault c g ch = Ok v → MapToVault c g ch' = Ok v →
  MapToZ c g ch b = Ok z → MapToZ c g ch' b' = Ok z' → z = z' → ch = ch'.
Proof.
  intros Hch Hch' Hst. destruct plan_dims as (Hvx & Hvy & _).
  unfold MapToVault, MapToZ, vaults_x, vaults_y, is_stack in *. rewrite Hst in *.
  destruct (IsHMC c); cbn [orb] in *.
  - rewrite late_read. cbn [mbind outcome_bind]. intros E E' _ _ _.
    pose proof (Z.quot_rem ch (vault_x g)). pose proof (Z.quot_rem ch' (vault_x g)).
    pose proof (Z.quot_rem ch (vault_y g)). pose proof (Z.quot_rem ch' (vault_y g)).
    destruct (bank_order p =? 0); rewrite idiv_pos in E, E' by done; cbn [mbind outcome_bind] in E, E';
      injection E as <-; injection E' as E1 E2; lia.
  - rewrite Hst. intros [= <-] [= E] [= <-] [= <-] E'.
    pose proof (Z.quot_rem ch 2). pose proof (Z.quot_rem ch' 2). lia.
Qed.

(** The array of banks, the layer and the number of a bank determine it. *)
Lemma bank_spot_inj ch ch' bg b bg' b' z : bank_in_range bg b → bank_in_range bg' b' →
  bank_spot bg b = bank_spot bg' b' →
  MapToZ c g ch (bg * banks_per_group c + b) = Ok z → MapToZ c g ch' (bg' * banks_per_group c + b') = Ok z →
  bg = bg' ∧ b = b'.
Proof.
  intros Hb Hb'. pose proof (abs_bank_range _ _ Hb) as Ha. pose proof (abs_bank_range _ _ Hb') as Ha'.
  destruct Hb as [Hg Hb], Hb' as [Hg' Hb']. pose proof (lo_fit _ _ _ Hlay) as Hf.
  destruct plan_dims as (_ & _ & Hbx & Hby & _).
  pose proof (half_spec b) as Hh. pose proof (half_spec b') as Hh'. pose proof (half_spec (banks_per_group c + 1)) as Hw.
  unfold MapToZ, bank_spot, banks_fit, group_extent in *. destruct (IsHMC c) eqn:Ehmc.
  - destruct (layer_ok Ehmc) as (Hd & Hl & _). set (n := Z.quot (banks c) (num_dies c)) in *.
    rewrite late_read, !(idiv_pos (banks c)) by done. cbn [mbind outcome_bind]. fold n. rewrite !idiv_pos by lia.
    cbn [mbind outcome_bind]. destruct (quot_rem_pos (bg * banks_per_group c + b) n) as [-> _]; [lia..|].
    destruct (quot_rem_pos (bg' * banks_per_group c + b') n) as [-> _]; [lia..|]. intros [= Em] [= <-] [= Ez].
    pose proof (Z.div_mod (bg * banks_per_group c + b) n). pose proof (Z.div_mod (bg' * banks_per_group c + b') n).
    apply (digits_inj (banks_per_group c)); [done..|]. case_match; lia.
  - destruct (IsHBM c); [intros [= E1 E2]; lia|]. destruct (1 <? bankgroups c) eqn:E1.
    + destruct (bank_order p =? 0), (bank_x g <=? bank_y g); intros [= E2 E3]; lia.
    + apply Z.ltb_ge in E1. intros E _ _. split; [lia|].
      pose proof (Z.div_mod b (bank_x g)). pose proof (Z.div_mod b' (bank_x g)).
      pose proof (Z.div_mod b (bank_y g)). pose proof (Z.div_mod b' (bank_y g)).
      destruct (bank_order p =? 0); injection E as E2 E3; rewrite E2, E3 in *; lia.
Qed.

(** ** Rectangles *)

(** The cell [(x, y)] of a die belongs to a rectangle. *)
Definition covers (q : BankPosition) (x y z : Z) : Prop :=
  start_x q ≤ x ≤ end_x q ∧ start_y q ≤ y ≤ end_y q ∧ bp_z q = z.

Lemma position_ok ch bg b : 0 ≤ ch < channels c → bank_in_range bg b → ∃ q v,
  bank_position c g ch bg b = Ok q ∧ MapToVault c g ch = Ok v ∧
  MapToZ c g ch (bg * banks_per_group c + b) = Ok (bp_z q) ∧ 0 ≤ bp_z q < memory_dies c g ∧
  start_x q = (v.1 * bank_x g + (bank_spot bg b).1) * num_x_grids c ∧ end_x q = start_x q + num_x_grids c - 1 ∧
  start_y q = (v.2 * bank_y g + (bank_spot bg b).2) * num_y_grids c ∧ end_y q = start_y q + num_y_grids c - 1 ∧
  0 ≤ start_x q ∧ end_x q < dimX g ∧ 0 ≤ start_y q ∧ end_y q < dimY g.
Proof.
  intros Hch Hb. destruct (vault_ok ch Hch) as ([vx vy] & Ev & Hvx & Hvy). cbn [fst snd] in *.
  destruct (z_ok ch _ Hch (abs_bank_range _ _ Hb)) as (z & Ez & Hz).
  pose proof (bank_spot_range _ _ Hb) as [Hx Hy]. pose proof (lo_nx _ _ _ Hlay). pose proof (lo_ny _ _ _ Hlay).
  destruct plan_dims as (_ & _ & _ & _ & EX & EY & _).
  unfold bank_position. rewrite Ev, Ez, (bank_spot_ok _ _ Hb). cbn [mbind outcome_bind].
  destruct (bank_spot bg b) as [x y]. cbn [fst snd] in *. eexists _, (vx, vy).
  split; [reflexivity|]. cbn [fst snd bp_z start_x end_x start_y end_y].
  assert (0 ≤ vx * bank_x g + x < vaults_x c g * bank_x g) by nia.
  assert (0 ≤ vy * bank_y g + y < vaults_y c g * bank_y g) by nia. split_and!; try done; nia.
Qed.

(** A cell determines the bank and, in a stack, the channel. *)
Lemma rectangles_disjoint ch bg b q ch' bg' b' q' x y z :
  0 ≤ ch < channels c → 0 ≤ ch' < channels c → bank_in_range bg b → bank_in_range bg' b' →
  bank_position c g ch bg b = Ok q → bank_position c g ch' bg' b' = Ok q' →
  covers q x y z → covers q' x y z →
  bg = bg' ∧ b = b' ∧ (is_stack c = true → ch = ch').
Proof.
  intros Hch Hch' Hb Hb' Hq Hq' (Cx & Cy & Cz) (Cx' & Cy' & Cz').
  destruct (position_ok ch bg b Hch Hb) as (q1 & v & E1 & Ev & Ez & _ & Sx & Ex & Sy & Ey & _).
  rewrite Hq in E1. injection E1 as <-.
  destruct (position_ok ch' bg' b' Hch' Hb') as (q2 & v' & E2 & Ev' & Ez' & _ & Sx' & Ex' & Sy' & Ey' & _).
  rewrite Hq' in E2. injection E2 as <-.
  pose proof (bank_spot_range _ _ Hb). pose proof (bank_spot_range _ _ Hb').
  pose proof (lo_nx _ _ _ Hlay). pose proof (lo_ny _ _ _ Hlay).
  assert (EX : v.1 * bank_x g + (bank_spot bg b).1 = v'.1 * bank_x g + (bank_spot bg' b').1).
  { eapply (same_slot (num_x_grids c) _ _ x); lia. }
  assert (EY : v.2 * bank_y g + (bank_spot bg b).2 = v'.2 * bank_y g + (bank_spot bg' b').2).
  { eapply (same_slot (num_y_grids c) _ _ y); lia. }
  apply digits_inj in EX as [EX1 EX2]; [|lia..]. apply digits_inj in EY as [EY1 EY2]; [|lia..].
  assert (v = v') as -> by (destruct v, v'; cbn in *; congruence).
  assert (Es : bank_spot bg b = bank_spot bg' b') by (destruct (bank_spot bg b), (bank_spot bg' b'); cbn in *; congruence).
  rewrite Cz in Ez. rewrite Cz' in Ez'. destruct (bank_spot_inj ch ch' bg b bg' b' _ Hb Hb' Es Ez Ez') as [-> ->].
  split; [done|]. split; [done|]. intros Hst. by eapply (vault_inj ch ch' v').
Qed.
End Placement.

(** ** Relocation of addresses *)

Lemma ModuloWidth_spec a w pos : 0 ≤ a < 2 ^ 64 → 0 ≤ w < 32 → 0 ≤ pos →
  ModuloWidth a w pos = Z.shiftr a pos mod 2 ^ w.
Proof.
  intros Ha Hw Hp. unfold ModuloWidth. set (s := Z.shiftr a pos).
  assert (Hs : 0 ≤ s < 2 ^ 64).
  { unfold s. rewrite Z.shiftr_div_pow2 by done. split; [apply Z.div_pos; lia|].
    apply Z.div_lt_upper_bound; [lia|]. assert (1 ≤ 2 ^ pos) by (apply Z.pow_pos_nonneg || lia; lia). nia. }
  assert (Hh : Z.shiftl (Z.shiftr s w) w = s - s mod 2 ^ w).
  { rewrite Z.shiftl_mul_pow2, Z.shiftr_div_pow2 by lia. pose proof (Z.div_mod s (2 ^ w) ltac:(lia)). lia. }
  pose proof (Z.mod_pos_bound s (2 ^ w) ltac:(lia)). pose proof (Z.mod_le s (2 ^ w) ltac:(lia) ltac:(lia)).
  rewrite u64_id by lia.
  assert (E : Z.lxor s (Z.shiftl (Z.shiftr s w) w) = s mod 2 ^ w).
  { apply Z.bits_inj'. intros k Hk. rewrite Z.lxor_spec, Z.shiftl_spec by done.
    destruct (Z.lt_ge_cases k w) as [H1|H1].
    - rewrite (Z.testbit_neg_r _ (k - w)), xorb_false_r, Z.mod_pow2_bits_low by lia. done.
    - rewrite Z.shiftr_spec, Z.sub_add, xorb_nilpotent, Z.mod_pow2_bits_high by lia. done. }
  rewrite E. apply u32_id. assert (2 ^ w < 2 ^ 32) by (apply Z.pow_lt_mono_r; lia). lia.
Qed.

Lemma testbit_u64 o k : 0 ≤ k < 64 → Z.testbit (u64 o) k = Z.testbit o k.
Proof. intros. unfold u64. by rewrite Z.mod_pow2_bits_low by lia. Qed.

Lemma bit_at k x pos : 0 ≤ pos < 64 → 0 ≤ x ≤ 1 →
  0 ≤ u64 (Z.shiftl x pos) < 2 ^ 64 ∧ (0 ≤ k → Z.testbit (u64 (Z.shiftl x pos)) k = (k =? pos) && (x =? 1)).
Proof.
  intros Hp Hx. split; [apply u64_range|]. intros Hk.
  assert (x = 0 ∨ x = 1) as [-> | ->] by lia.
  - rewrite Z.shiftl_0_l. cbn. by rewrite Z.testbit_0_l, andb_false_r.
  - rewrite Z.shiftl_1_l, u64_id by (split; [lia|apply Z.pow_lt_mono_r; lia]).
    rewrite Z.pow2_bits_eqb by lia. by rewrite andb_true_r, Z.eqb_sym.
Qed.

(** What scattering a field adds. *)
Lemma scatter_spec ps h o : Forall (λ p, 0 ≤ p < 64) ps → vsize ps < 64 → 0 ≤ h < 2 ^ 64 →
  ∃ h', scatter h o ps = Ok h' ∧ 0 ≤ h' < 2 ^ 64 ∧ ∀ k, 0 ≤ k →
    (Z.testbit h' k = true ↔ Z.testbit h k = true ∨
       ∃ i : nat, ps !! i = Some k ∧ Z.testbit o (vsize ps - 1 - Z.of_nat i) = true).
Proof.
  revert h. induction ps as [|p ps IH]; intros h Hps Hsz Hh.
  { exists h. split; [done|]. split; [done|]. intros k Hk. split; [by left|]. intros [?|(i & Hi & _)]; [done|].
    by rewrite lookup_nil in Hi. }
  apply Forall_cons in Hps as [Hp Hps]. unfold vsize in *. cbn [length] in *. cbn [scatter]. unfold vsize.
  rewrite (proj2 (Z.leb_le 0 p)), (proj2 (Z.ltb_lt p 64)), (proj2 (Z.ltb_lt _ 64)) by lia.
  cbn [andb ensure mbind outcome_bind]. set (n := Z.of_nat (length ps)) in *.
  set (x := GetBitInPos (u64 o) n).
  assert (Hx : 0 ≤ x ≤ 1 ∧ (x = 1 ↔ Z.testbit o n = true)).
  { unfold x. rewrite GetBitInPos_testbit, testbit_u64 by lia. by destruct (Z.testbit o n). }
  destruct Hx as [Hx Hxo]. destruct (bit_at 0 x p Hp Hx) as [Hr _].
  destruct (IH (Z.lor h (u64 (Z.shiftl x p)))) as (h' & -> & Hh' & Hb); [done|lia| |].
  { split; [apply Z.lor_nonneg; lia|]. apply Z.log2_lt_cancel. rewrite Z.log2_lor by lia.
    rewrite Z.log2_pow2 by lia. assert (∀ y, 0 ≤ y < 2 ^ 64 → Z.log2 y < 64) as Hl.
    { intros y Hy. destruct (decide (y = 0)) as [->|]; [done|]. apply Z.log2_lt_pow2; lia. }
    apply Z.max_lub_lt; by apply Hl. }
  exists h'. split; [done|]. split; [done|]. intros k Hk. rewrite Hb by done.
  rewrite Z.lor_spec, (proj2 (bit_at k x p Hp Hx) Hk), orb_true_iff, andb_true_iff, !Z.eqb_eq. split.
  - intros [[?|[-> Ex]]|(i & Hi & Ho)]; [by left|right; exists 0%nat; split; [done|]|right; exists (S i); split; [done|]].
    + apply Hxo in Ex. rewrite <- Ex. f_equal. lia.
    + rewrite <- Ho. f_equal. lia.
  - intros [?|([|i] & Hi & Ho)]; [by left; left| |].
    + left. right. injection Hi as ->. split; [done|]. apply Hxo. rewrite <- Ho. f_equal. lia.
    + right. exists i. split; [done|]. rewrite <- Ho. f_equal. lia.
Qed.

Lemma scatter_all l h : Forall (λ x, Forall (λ p, 0 ≤ p < 64) x.2 ∧ vsize x.2 < 32) l → 0 ≤ h < 2 ^ 64 →
  ∃ h', for_each (λ '(origin, ps) h, scatter h origin ps) l h = Ok h' ∧ 0 ≤ h' < 2 ^ 64 ∧ ∀ k, 0 ≤ k →
    (Z.testbit h' k = true ↔ Z.testbit h k = true ∨
       ∃ (f i : nat) o ps, l !! f = Some (o, ps) ∧ ps !! i = Some k ∧
         Z.testbit o (vsize ps - 1 - Z.of_nat i) = true).
Proof.
  intros Hl. revert h. induction Hl as [|[o ps] l [Hp Hs] _ IH]; intros h Hh.
  { exists h. split; [done|]. split; [done|]. intros k Hk. split; [by left|]. intros [?|(f & i & o & ps & Hf & _)]; [done|].
    by rewrite lookup_nil in Hf. }
  cbn [snd] in *. destruct (scatter_spec ps h o Hp ltac:(lia) Hh) as (h1 & E1 & Hh1 & Hb1).
  destruct (IH h1 Hh1) as (h2 & E2 & Hh2 & Hb2). exists h2. cbn [for_each]. rewrite E1. cbn [mbind outcome_bind].
  split; [done|]. split; [done|]. intros k Hk. rewrite Hb2, Hb1 by done. split.
  - intros [[?|(i & Hi)]|(f & i & o' & ps' & Hf & Hi)]; [by left| |].
    + right. exists 0%nat, i, o, ps. done.
    + right. exists (S f), i, o', ps'. done.
  - intros [?|([|f] & i & o' & ps' & Hf & Hi)]; [by left; left| |].
    + injection Hf as <- <-. left. right. by exists i.
    + right. by exists f, i, o', ps'.
Qed.

Definition total_width (mapped_pos : list (list Z)) : Z := foldr (λ ps t, vsize ps + t) 0 mapped_pos.

Lemma total_width_nonneg mps : 0 ≤ total_width mps.
Proof. induction mps as [|ps mps IH]; [done|]. cbn [total_width foldr]. fold (total_width mps). unfold vsize. lia. Qed.

(** The fields read back are as wide as they should be, and together they are
    all bits of the window. *)
Lemma gather_spec h mps off : 0 ≤ h < 2 ^ 64 → 0 ≤ off → Forall (λ ps, vsize ps < 32) mps →
  off + total_width mps < 64 →
  ∃ fs, gather h mps off = Ok (off + total_width mps, fs) ∧
    Forall2 (λ v ps, 0 ≤ v < 2 ^ vsize ps) fs mps.
Proof.
  intros Hh Hoff Hps. induction Hps as [|ps mps Hp _ IH]; cbn [total_width foldr gather]; intros Ht.
  { exists []. rewrite Z.add_0_r. by split. }
  fold (total_width mps) in *. pose proof (total_width_nonneg mps). assert (0 ≤ vsize ps) by (unfold vsize; lia).
  destruct IH as (fs & -> & Hfs); [lia|]. cbn [mbind outcome_bind].
  rewrite (proj2 (Z.ltb_lt _ 64)), (proj2 (Z.ltb_lt (vsize ps) 64)) by lia. cbn [andb ensure mbind outcome_bind].
  eexists. split; [rewrite (Z.add_comm (vsize ps)), Z.add_assoc; reflexivity|]. constructor; [|done].
  rewrite ModuloWidth_spec by lia. pose proof (Z.mod_pos_bound (Z.shiftr h (off + total_width mps)) (2 ^ vsize ps) ltac:(lia)).
  assert (2 ^ vsize ps ≤ 2 ^ 31) by (apply Z.pow_le_mono_r; lia). rewrite s32_id by lia. done.
Qed.

Lemma gather_inj h h' mps off e fs : 0 ≤ h < 2 ^ 64 → 0 ≤ h' < 2 ^ 64 → 0 ≤ off →
  Forall (λ ps, vsize ps < 32) mps →
  gather h mps off = Ok (e, fs) → gather h' mps off = Ok (e, fs) →
  e = off + total_width mps ∧ ∀ k, off ≤ k < e → Z.testbit h k = Z.testbit h' k.
Proof.
  intros Hh Hh' Hoff Hps. revert e fs. induction Hps as [|ps mps Hp _ IH]; intros e fs; cbn [gather].
  { intros [= <- <-] _. cbn. split; lia. }
  intros ([p1 f1] & E1 & H1)%bind_Ok ([p2 f2] & E2 & H2)%bind_Ok. invert_ok.
  assert (p1 = p2) as -> by lia. destruct (IH _ _ E1 E2) as [-> Hb]. cbn [total_width foldr].
  fold (total_width mps). pose proof (total_width_nonneg mps). assert (0 ≤ vsize ps) by (unfold vsize; lia).
  split; [lia|]. intros k Hk. destruct (Z.lt_ge_cases k (off + total_width mps)) as [?|Hk']; [apply Hb; lia|].
  set (pos := off + total_width mps) in *.
  assert (2 ^ vsize ps ≤ 2 ^ 31) by (apply Z.pow_le_mono_r; lia).
  pose proof (Z.mod_pos_bound (Z.shiftr h pos) (2 ^ vsize ps)). pose proof (Z.mod_pos_bound (Z.shiftr h' pos) (2 ^ vsize ps)).
  match goal with E : s32 _ = s32 _ |- _ => rewrite !ModuloWidth_spec, !s32_id in E by lia end.
  match goal with E : Z.shiftr _ _ mod _ = _ |- _ => apply (f_equal (λ x, Z.testbit x (k - pos))) in E;
    rewrite !Z.mod_pow2_bits_low, !Z.shiftr_spec, !Z.sub_add in E by lia; done end.
Qed.

(** The positions of the [w] low bits of every field. *)
Definition live_positions (mapped_pos : list (list Z)) (widths : list Z) : list Z :=
  concat (zip_with (λ ps w, drop (length ps - Z.to_nat w) ps) mapped_pos widths).

(** A relocation for addresses whose fields have the given widths: the bits in
    use go to different places of the window that is read back. *)
Record relocation_ok (mapped_pos : list (list Z)) (offset : Z) (widths : list Z) : Prop := {
  re_six : length mapped_pos = 6%nat;
  re_offset : 0 ≤ offset;
  re_positions : Forall (λ ps, Forall (λ p, 0 ≤ p < 64) ps ∧ vsize ps < 32) mapped_pos;
  re_window : offset + total_width mapped_pos < 64;
  re_widths : Forall2 (λ ps w, 0 ≤ w ≤ vsize ps) mapped_pos widths;
  re_nodup : NoDup (live_positions mapped_pos widths);
  re_inside : Forall (λ k, offset ≤ k < offset + total_width mapped_pos) (live_positions mapped_pos widths)
}.

Definition fields_fit (widths : list Z) (a : Address) : Prop :=
  Forall2 (λ v w, 0 ≤ v < 2 ^ w) (address_fields a) widths.

Lemma elem_of_concat {A} (ls : list (list A)) (f : nat) l x : ls !! f = Some l → x ∈ l → x ∈ concat ls.
Proof.
  intros Hf Hx. apply list_elem_of_lookup_2 in Hf. induction ls as [|l' ls IH]; [by apply elem_of_nil in Hf|].
  change (concat (l' :: ls)) with (l' ++ concat ls). apply elem_of_app.
  apply elem_of_cons in Hf as [->|Hf]; [by left|right; by apply IH].
Qed.

Lemma NoDup_concat_unique {A} (ls : list (list A)) (f f' : nat) l l' x :
  NoDup (concat ls) → ls !! f = Some l → ls !! f' = Some l' → x ∈ l → x ∈ l' → f = f'.
Proof.
  revert f f'. induction ls as [|l0 ls IH]; intros f f' Hn Hf Hf' Hx Hx'; [done|].
  change (concat (l0 :: ls)) with (l0 ++ concat ls) in Hn. apply NoDup_app in Hn as (_ & Hd & Hn).
  destruct f as [|f], f' as [|f']; simplify_eq/=.
  - done.
  - by destruct (Hd x Hx); eapply elem_of_concat.
  - by destruct (Hd x Hx'); eapply elem_of_concat.
  - f_equal. by apply (IH f f').
Qed.

Lemma NoDup_concat_each {A} (ls : list (list A)) (f : nat) l : NoDup (concat ls) → ls !! f = Some l → NoDup l.
Proof.
  revert f. induction ls as [|l0 ls IH]; intros f Hn Hf; [done|].
  change (concat (l0 :: ls)) with (l0 ++ concat ls) in Hn. apply NoDup_app in Hn as (? & _ & ?).
  destruct f; simplify_eq/=; [done|by eapply IH].
Qed.

Lemma bits_eq_below w x y : 0 ≤ w → 0 ≤ x < 2 ^ w → 0 ≤ y < 2 ^ w →
  (∀ j, 0 ≤ j < w → Z.testbit x j = Z.testbit y j) → x = y.
Proof.
  intros Hw Hx Hy H. apply Z.bits_inj'. intros j Hj. destruct (Z.lt_ge_cases j w); [by apply H|].
  rewrite <- (Z.mod_small x (2 ^ w)), <- (Z.mod_small y (2 ^ w)) by done.
  by rewrite !Z.mod_pow2_bits_high by lia.
Qed.

Section Relocation.
Context (mps : list (list Z)) (off : Z) (ws : list Z) (Hre : relocation_ok mps off ws).

(** A bit in use and its position. *)
Definition live_at (f i : nat) (k : Z) : Prop := ∃ ps w, mps !! f = Some ps ∧ ws !! f = Some w ∧
  ps !! i = Some k ∧ vsize ps - w ≤ Z.of_nat i.

Lemma live_lookup f i k : live_at f i k → ∃ l j,
  zip_with (λ ps w, drop (length ps - Z.to_nat w) ps) mps ws !! f = Some l ∧ l !! j = Some k ∧
  ∀ ps w, mps !! f = Some ps → ws !! f = Some w → i = (length ps - Z.to_nat w + j)%nat.
Proof.
  intros (ps & w & Hp & Hw & Hi & Hle). pose proof (Forall2_lookup_lr _ _ _ _ _ _ (re_widths _ _ _ Hre) Hp Hw) as H.
  cbn in H. unfold vsize in *. exists (drop (length ps - Z.to_nat w) ps), (i - (length ps - Z.to_nat w))%nat.
  split_and!.
  - rewrite lookup_zip_with, Hp. cbn. by rewrite Hw.
  - rewrite lookup_drop. rewrite <- Hi. f_equal. lia.
  - intros ps' w' Hp' Hw'. simplify_eq. lia.
Qed.

Lemma live_unique f i f' i' k : live_at f i k → live_at f' i' k → f = f' ∧ i = i'.
Proof.
  intros H H'. destruct (live_lookup _ _ _ H) as (l & j & Hl & Hj & Ei), (live_lookup _ _ _ H') as (l' & j' & Hl' & Hj' & Ei').
  pose proof (re_nodup _ _ _ Hre) as Hn.
  assert (f = f') as <- by (eapply NoDup_concat_unique; [exact Hn|exact Hl|exact Hl'|by eapply list_elem_of_lookup_2..]).
  rewrite Hl in Hl'. injection Hl' as <-. split; [done|].
  assert (j = j') as <- by (eapply NoDup_lookup; [by eapply NoDup_concat_each|done..]).
  destruct H as (ps & w & Hp & Hw & _). rewrite (Ei ps w), (Ei' ps w); done.
Qed.

Lemma live_inside f i k : live_at f i k → off ≤ k < off + total_width mps.
Proof.
  intros H. destruct (live_lookup _ _ _ H) as (l & j & Hl & Hj & _).
  eapply (Forall_forall (λ k, off ≤ k < off + total_width mps)); [apply (re_inside _ _ _ Hre)|].
  eapply elem_of_concat; [exact Hl|by eapply list_elem_of_lookup_2].
Qed.

Definition scattered (a : Address) : outcome Z :=
  for_each (λ '(origin, ps) h, scatter h origin ps) (zip (address_fields a) mps) 0.

Lemma scattered_spec a : ∃ h, scattered a = Ok h ∧ 0 ≤ h < 2 ^ 64 ∧ ∀ k, 0 ≤ k →
  (Z.testbit h k = true ↔ ∃ (f i : nat) o ps, address_fields a !! f = Some o ∧ mps !! f = Some ps ∧
     ps !! i = Some k ∧ Z.testbit o (vsize ps - 1 - Z.of_nat i) = true).
Proof.
  destruct (scatter_all (zip (address_fields a) mps) 0) as (h & E & Hh & Hb).
  - apply Forall_lookup_2. intros f [o ps] Hf. apply lookup_zip_with_Some in Hf as (o' & ps' & [= <- <-] & _ & Hp).
    by apply (Forall_lookup_1 _ _ _ _ (re_positions _ _ _ Hre) Hp).
  - lia.
  - exists h. split; [done|]. split; [done|]. intros k Hk. rewrite Hb, Z.testbit_0_l by done. split.
    + intros [?|(f & i & o & ps & Hf & Hi)]; [done|].
      apply lookup_zip_with_Some in Hf as (o' & ps' & [= <- <-] & Ho & Hp). by exists f, i, o, ps.
    + intros (f & i & o & ps & Ho & Hp & Hi). right. exists f, i, o, ps. split; [|done].
      apply lookup_zip_with_Some. by exists o, ps.
Qed.

Lemma relocate_total a : ∃ p fs e h, GetPhyAddress (Relocated mps off) a = Ok p ∧ scattered a = Ok h ∧
  0 ≤ h < 2 ^ 64 ∧ gather h mps off = Ok (e, fs) ∧ address_fields p = fs ∧
  Forall2 (λ v ps, 0 ≤ v < 2 ^ vsize ps) (address_fields p) mps.
Proof.
  destruct (scattered_spec a) as (h & E & Hh & _). destruct (gather_spec h mps off) as (fs & Eg & Hfs); [done|..].
  - apply (re_offset _ _ _ Hre).
  - eapply Forall_impl; [apply (re_positions _ _ _ Hre)|]. cbn. tauto.
  - apply (re_window _ _ _ Hre).
  - pose proof (Forall2_length _ _ _ Hfs) as Hlen. rewrite (re_six _ _ _ Hre) in Hlen.
    destruct fs as [|ch [|ra [|bg [|ba [|ro [|co [|]]]]]]]; try done.
    exists (mkAddress ch ra bg ba ro co). eexists _, _, h. split; [|done].
    cbn [GetPhyAddress]. fold (scattered a). rewrite E. cbn [mbind outcome_bind]. by rewrite Eg.
Qed.

(** A bit in use of an address is found at its position. *)
Lemma scattered_bit a h (f i : nat) o ps w k : fields_fit ws a → scattered a = Ok h →
  address_fields a !! f = Some o → mps !! f = Some ps → ws !! f = Some w → ps !! i = Some k →
  vsize ps - w ≤ Z.of_nat i →
  Z.testbit h k = true ↔ Z.testbit o (vsize ps - 1 - Z.of_nat i) = true.
Proof.
  intros Hfit Hh Ho Hp Hw Hi Hle. destruct (scattered_spec a) as (h' & E & _ & Hb). rewrite Hh in E. injection E as <-.
  assert (Hlive : live_at f i k) by (by exists ps, w). pose proof (live_inside _ _ _ Hlive).
  pose proof (re_offset _ _ _ Hre). rewrite Hb by lia. split; [|intros; by exists f, i, o, ps].
  intros (f' & i' & o' & ps' & Ho' & Hp' & Hi' & Hbit).
  destruct (Forall2_lookup_l _ _ _ _ _ Hfit Ho') as (w' & Hw' & Hov).
  assert (live_at f' i' k) as Hlive'.
  { exists ps', w'. split_and!; try done. destruct (Z.lt_ge_cases (Z.of_nat i') (vsize ps' - w')) as [Hlt|]; [|lia].
    assert (0 ≤ w') by (eapply (Forall2_lookup_lr _ _ _ _ _ _ (re_widths _ _ _ Hre)); done).
    destruct (decide (o' = 0)) as [->|]; [by rewrite Z.testbit_0_l in Hbit|].
    rewrite Z.bits_above_log2 in Hbit; [done|lia|]. apply Z.log2_lt_pow2; [lia|]. eapply Z.lt_le_trans; [apply Hov|]. apply Z.pow_le_mono_r; lia. }
  destruct (live_unique _ _ _ _ _ Hlive Hlive') as [<- <-]. by simplify_eq.
Qed.

Lemma relocate_inj a b p : fields_fit ws a → fields_fit ws b →
  GetPhyAddress (Relocated mps off) a = Ok p → GetPhyAddress (Relocated mps off) b = Ok p → a = b.
Proof.
  intros Ha Hb Ea Eb.
  destruct (relocate_total a) as (p1 & fs1 & e1 & h & Ep1 & Eh & Hh & Eg & Ef1 & _).
  destruct (relocate_total b) as (p2 & fs2 & e2 & h' & Ep2 & Eh' & Hh' & Eg' & Ef2 & _).
  rewrite Ep1 in Ea. rewrite Ep2 in Eb. injection Ea as ->. injection Eb as ->. subst fs1 fs2.
  pose proof (re_offset _ _ _ Hre) as Hoff.
  assert (Hs : Forall (λ ps, vsize ps < 32) mps).
  { eapply Forall_impl; [apply (re_positions _ _ _ Hre)|]. cbn. tauto. }
  destruct (gather_spec h mps off Hh Hoff Hs (re_window _ _ _ Hre)) as (fs & Eg1 & _).
  destruct (gather_spec h' mps off Hh' Hoff Hs (re_window _ _ _ Hre)) as (fs' & Eg1' & _).
  rewrite Eg1 in Eg. rewrite Eg1' in Eg'. injection Eg as <- ->. injection Eg' as <- ->.
  destruct (gather_inj h h' mps off _ _ Hh Hh' Hoff Hs Eg1 Eg1') as [_ Hbits].
  assert (address_fields a = address_fields b) as E; [|destruct a, b; cbn in E; by simplify_eq].
  apply list_eq. intros f. pose proof (Forall2_length _ _ _ Ha) as La. pose proof (Forall2_length _ _ _ Hb) as Lb.
  pose proof (Forall2_length _ _ _ (re_widths _ _ _ Hre)) as Lw.
  destruct (decide (f < length ws)%nat) as [Hf|Hf]; [|by rewrite !lookup_ge_None_2 by lia].
  destruct (lookup_lt_is_Some_2 (address_fields a) f) as [o Ho]; [lia|].
  destruct (lookup_lt_is_Some_2 (address_fields b) f) as [o' Ho']; [lia|].
  destruct (lookup_lt_is_Some_2 ws f) as [w Hw]; [lia|]. destruct (lookup_lt_is_Some_2 mps f) as [ps Hp]; [lia|].
  rewrite Ho, Ho'. f_equal. pose proof (Forall2_lookup_lr _ _ _ _ _ _ Ha Ho Hw) as Hr. cbn in Hr.
  pose proof (Forall2_lookup_lr _ _ _ _ _ _ Hb Ho' Hw) as Hr'. cbn in Hr'.
  pose proof (Forall2_lookup_lr _ _ _ _ _ _ (re_widths _ _ _ Hre) Hp Hw) as Hwp. cbn in Hwp.
  apply (bits_eq_below w); [lia..|]. intros j Hj. unfold vsize in Hwp.
  destruct (lookup_lt_is_Some_2 ps (Z.to_nat (vsize ps - 1 - j))) as [k Hk]; [unfold vsize; lia|].
  assert (Hlive : live_at f (Z.to_nat (vsize ps - 1 - j)) k) by (exists ps, w; split_and!; try done; unfold vsize; lia).
  pose proof (scattered_bit a h f _ o ps w k Ha Eh Ho Hp Hw Hk ltac:(unfold vsize; lia)) as B1.
  pose proof (scattered_bit b h' f _ o' ps w k Hb Eh' Ho' Hp Hw Hk ltac:(unfold vsize; lia)) as B2.
  rewrite Z2Nat.id in B1, B2 by (unfold vsize; lia).
  replace (vsize ps - 1 - (vsize ps - 1 - j)) with j in B1, B2 by lia.
  apply eq_bool_prop_intro. rewrite !Is_true_true, <- B1, <- B2. by rewrite (Hbits k (live_inside _ _ _ Hlive)).
Qed.
End Relocation.

(** ** The cells of a command *)

Lemma mapM_total {A B} (f : A → outcome B) (P : A → B → Prop) l :
  (∀ x, x ∈ l → ∃ y, f x = Ok y ∧ P x y) → ∃ ys, mapM f l = Ok ys ∧ Forall2 P l ys.
Proof.
  induction l as [|x l IH]; intros H; [by exists []|].
  destruct (H x) as (y & Ey & Hy); [left|]. destruct IH as (ys & Eys & Hys); [intros; apply H; by right|].
  exists (y :: ys). split; [|by constructor]. cbn. rewrite Ey. cbn [mbind outcome_bind]. by rewrite Eys.
Qed.

(** The same for results that do not depend on the argument. *)
Lemma mapM_all {A B} (f : A → outcome B) (P : B → Prop) l :
  (∀ x, x ∈ l → ∃ y, f x = Ok y ∧ P y) → ∃ ys, mapM f l = Ok ys ∧ vsize ys = vsize l ∧ Forall P ys.
Proof.
  intros H. destruct (mapM_total f (λ _, P) l H) as (ys & E & Hys). exists ys. split; [done|]. unfold vsize.
  split; [by rewrite (Forall2_length _ _ _ Hys)|]. clear E H. induction Hys; by constructor.
Qed.

(** A relocation that stays within the rows and columns of a bank. *)
Definition phy_ok (c : ThermalConfig) (phy : PhyMapping) : Prop :=
  match phy with
  | SameLocation => True
  | Relocated mps off => (∃ ws, relocation_ok mps off ws) ∧
      ∃ ro co, mps !! 4%nat = Some ro ∧ mps !! 5%nat = Some co ∧
        2 ^ vsize ro ≤ rows c ∧ 2 ^ vsize co ≤ columns c
  end.

(** A command for an existing bank and row, with a burst of existing columns. *)
Record command_ok (c : ThermalConfig) (ch : Z) (cmd : Command) : Prop := {
  ck_channel : 0 ≤ ch < channels c;
  ck_rank : 0 ≤ Rank cmd < ranks c;
  ck_bankgroup : 0 ≤ Bankgroup cmd < bankgroups c;
  ck_bank : 0 ≤ Bank cmd < banks_per_group c;
  ck_row : 0 ≤ Row cmd < rows c;
  ck_column : 0 ≤ Column cmd ∧ Column cmd + BL c ≤ columns c
}.

Section Cells.
Context (c : ThermalConfig) (g : Floorplan) (p : LateParams) (Hlay : layout_ok c g p).
Context (phy : PhyMapping) (Hphy : phy_ok c phy).

Lemma phy_range a : 0 ≤ row a < rows c →
  ∃ q, GetPhyAddress phy a = Ok q ∧ 0 ≤ row q < rows c ∧
    (0 ≤ column a < columns c → 0 ≤ column q < columns c).
Proof.
  intros Hr. unfold phy_ok in Hphy. destruct phy as [|mps off]; [by exists a|].
  destruct Hphy as [[ws Hre] (ro & co & Hro & Hco & Hrows & Hcols)].
  destruct (relocate_total mps off ws Hre a) as (q & fs & e & h & E & _ & _ & _ & _ & Hq).
  exists q. split; [done|].
  pose proof (Forall2_lookup_lr _ _ _ 4 (row q) ro Hq eq_refl Hro).
  pose proof (Forall2_lookup_lr _ _ _ 5 (column q) co Hq eq_refl Hco). cbn in *. lia.
Qed.

(** A bit of a row of a bank lies in the rectangle of the bank. *)
Lemma grid_cell_ok v b r col : 0 ≤ r < rows c → 0 ≤ col < columns c * device_width c →
  ∃ x y, grid_cell c g v b r col = Ok
      ((v.1 * bank_x g + b.1) * num_x_grids c + x, (v.2 * bank_y g + b.2) * num_y_grids c + y) ∧
    0 ≤ x < num_x_grids c ∧ 0 ≤ y < num_y_grids c ∧ x = r / mat_dim_x c ∧ y = col / mat_dim_y c.
Proof.
  intros Hr Hcol. destruct Hlay as [_ _ _ _ _ _ _ _ _ Hmx Hmy Ht Htr Hnx Hny Hrows Hcols _].
  exists (r / mat_dim_x c), (col / mat_dim_y c). unfold grid_cell. rewrite Ht, Htr.
  rewrite !idiv_pos by lia. cbn [mbind outcome_bind]. rewrite !Z.quot_1_r, (Z.quot_small r (rows c)) by lia.
  rewrite !Z.quot_div_nonneg by lia.
  pose proof (table_position r (mat_dim_x c) (num_x_grids c) ltac:(lia) Hmx) as (? & _).
  pose proof (table_position col (mat_dim_y c) (num_y_grids c) ltac:(lia) Hmy) as (? & _).
  split_and!; try lia. rewrite idiv_pos, Z.quot_1_r by lia. cbn [mbind outcome_bind]. do 2 f_equal; lia.
Qed.

(** The cells of a burst. *)
Lemma MapToXY_ok cmd v b q : 0 ≤ Row cmd < rows c → 0 ≤ Column cmd → Column cmd + BL c ≤ columns c →
  start_x q = (v.1 * bank_x g + b.1) * num_x_grids c → end_x q = start_x q + num_x_grids c - 1 →
  start_y q = (v.2 * bank_y g + b.2) * num_y_grids c → end_y q = start_y q + num_y_grids c - 1 →
  ∃ xys, MapToXY c g phy cmd v b = Ok xys ∧ Forall (λ xy, covers q xy.1 xy.2 (bp_z q)) xys.
Proof.
  intros Hr Hc1 Hc2 Sx Ex Sy Ey. unfold MapToXY. set (a := cmd_addr cmd).
  set (cells := λ i, phy_loc ← GetPhyAddress phy (mkAddress (channel a) (rank a) (bankgroup a) (bank a) (row a) (column a + i));
      mapM (λ j, grid_cell c g v b (Row cmd) (column phy_loc * device_width c + j)) (seqZ 0 (device_width c))).
  destruct (mapM_all cells (Forall (λ xy, covers q xy.1 xy.2 (bp_z q))) (seqZ 0 (BL c))) as (xys & -> & _ & Hxy).
  - intros i Hi%elem_of_seqZ. unfold cells.
    destruct (phy_range (mkAddress (channel a) (rank a) (bankgroup a) (bank a) (row a) (column a + i)))
      as (loc & -> & _ & Hloc); [done|]. cbn [mbind outcome_bind].
    unfold Column in *. fold a in Hc1, Hc2. specialize (Hloc ltac:(cbn; lia)).
    destruct (mapM_all (λ j, grid_cell c g v b (Row cmd) (column loc * device_width c + j))
      (λ xy, covers q xy.1 xy.2 (bp_z q)) (seqZ 0 (device_width c))) as (ys & E & _ & Hys); [|by exists ys].
    intros j Hj%elem_of_seqZ. destruct (grid_cell_ok v b (Row cmd) (column loc * device_width c + j))
      as (x & y & -> & Hx & Hy & _); [done|nia|]. eexists. split; [done|]. unfold covers. cbn [fst snd]. lia.
  - eexists. split; [done|]. by apply Forall_concat.
Qed.

(** The layer of a bank is that of its number within the group. *)
Lemma z_of_bank ch bg b : (IsHMC c = true → bankgroups c = 1) → bank_in_range c bg b →
  MapToZ c g ch b = MapToZ c g ch (bg * banks_per_group c + b).
Proof.
  intros Hgroups [Hg _]. unfold MapToZ. destruct (IsHMC c); [|done]. specialize (Hgroups eq_refl).
  assert (bg = 0) as -> by lia. done.
Qed.

(** Every index is that of a cell of the rectangle [q]. *)
Definition within (q : BankPosition) (cells : list Z) : Prop :=
  Forall (λ i, ∃ x y, covers q x y (bp_z q) ∧ i = grid_index g x y (bp_z q)) cells.

(** An access heats only cells of the bank it goes to. *)
Lemma access_cells_ok ch cmd : command_ok c ch cmd → (IsHMC c = true → bankgroups c = 1) →
  ∃ q cells, bank_position c g ch (Bankgroup cmd) (Bank cmd) = Ok q ∧
    access_cells c g phy ch cmd = Ok cells ∧ within q cells.
Proof.
  intros [Hch _ Hbg Hb Hr [Hc1 Hc2]] Hgroups. assert (Hin : bank_in_range c (Bankgroup cmd) (Bank cmd)) by done.
  destruct (position_ok c g p Hlay ch _ _ Hch Hin) as (q & v & Eq & Ev & Ez & _ & Sx & Ex & Sy & Ey & _).
  exists q. unfold access_cells. rewrite Ev, (bank_spot_ok c g p Hlay _ _ Hin). cbn [mbind outcome_bind].
  destruct (MapToXY_ok cmd v _ q Hr Hc1 Hc2 Sx Ex Sy Ey) as (xys & -> & Hxy). cbn [mbind outcome_bind].
  rewrite (z_of_bank _ (Bankgroup cmd)), Ez by done. cbn [mbind outcome_bind]. eexists. split; [done|]. split; [done|].
  unfold within. apply Forall_fmap. eapply Forall_impl; [exact Hxy|]. intros [x y] Hc. by exists x, y.
Qed.

(** A refreshed row heats a column of cells of its bank. *)
Lemma refresh_cells_ok ch cmd bg b r : 0 ≤ ch < channels c → bank_in_range c bg b → 0 ≤ r < rows c →
  (IsHMC c = true → bankgroups c = 1) →
  ∃ q cells, bank_position c g ch bg b = Ok q ∧
    refresh_cells c g phy ch cmd (bg * banks_per_group c + b) r = Ok cells ∧ within q cells.
Proof.
  intros Hch Hin Hr Hgroups.
  destruct (position_ok c g p Hlay ch _ _ Hch Hin) as (q & v & Eq & Ev & Ez & _ & Sx & Ex & Sy & Ey & _).
  exists q. unfold refresh_cells. pose proof (lo_per_group _ _ _ Hlay). destruct Hin as [Hg Hb].
  rewrite idiv_pos by done. cbn [mbind outcome_bind].
  destruct (quot_rem_pos (bg * banks_per_group c + b) (banks_per_group c)) as [-> ->]; [nia|lia|].
  rewrite Z.div_add_l, (Z.div_small b), Z.add_0_r, Z.add_comm, Z.mod_add, Z.mod_small by lia.
  rewrite Ev, (bank_spot_ok c g p Hlay bg b) by done. cbn [mbind outcome_bind].
  rewrite (z_of_bank _ bg), Ez by done. cbn [mbind outcome_bind].
  destruct (phy_range (mkAddress (channel (cmd_addr cmd)) (rank (cmd_addr cmd)) bg b r (column (cmd_addr cmd))))
    as (loc & -> & Hrow & _); [done..|]. cbn [mbind outcome_bind].
  destruct (grid_cell_ok v (bank_spot c g p bg b) (row loc) 0) as (x & y & -> & Hx & Hy & _ & Ey0); [done| |].
  { destruct Hlay; nia. }
  cbn [mbind outcome_bind]. eexists. split; [done|]. split; [done|]. apply Forall_fmap, Forall_forall.
  rewrite Z.div_0_l in Ey0 by (destruct Hlay; lia). subst y.
  intros i Hi%elem_of_seqZ. eexists _, _. split; [|done]. unfold covers. lia.
Qed.

(** The rectangles are part of the power map. *)
Lemma within_range ch bg b q cells : 0 ≤ ch < channels c → bank_in_range c bg b →
  bank_position c g ch bg b = Ok q → within q cells →
  Forall (λ i, 0 ≤ i < numP g * dimX g * dimY g) cells.
Proof.
  intros Hch Hin Hq Hcells. destruct (position_ok c g p Hlay ch _ _ Hch Hin)
    as (q' & v & Eq & _ & _ & Hz & _ & _ & _ & _ & Bx & Bx' & By & By'). rewrite Hq in Eq. injection Eq as <-.
  eapply Forall_impl; [exact Hcells|]. intros i (x & y & (Hx & Hy & _) & ->). unfold grid_index.
  assert (0 ≤ bp_z q < numP g) by (unfold memory_dies in Hz; case_match; lia).
  assert (0 ≤ y * dimX g + x < dimX g * dimY g) by nia. nia.
Qed.
End Cells.

(** ** The state of the calculator *)

Definition map_ok (g : Floorplan) (m : PowerMap) : Prop :=
  vsize m = num_case g ∧ Forall (λ l, vsize l = numP g * dimX g * dimY g) m.

(** The refresh counters point to existing rows. *)
Definition counts_ok (c : ThermalConfig) (nrr : Z) (counts : list (list Z)) : Prop :=
  vsize counts = channels c * ranks c ∧
  Forall (λ l, vsize l = banks c ∧ Forall (λ n, 0 ≤ n ∧ n * nrr < rows c) l) counts.

Record calc_ok (c : ThermalConfig) (p : LateParams) (s : ThermalCalculator) : Prop := {
  co_layout : layout_ok c (floorplan s) p;
  co_groups : IsHMC c = true → bankgroups c = 1;
  co_phy : phy_ok c (phy_mapping s);
  co_rows : 0 < num_row_refresh p ∧ (num_row_refresh p | rows c);
  co_accu : map_ok (floorplan s) (accu_Pmap s);
  co_cur : map_ok (floorplan s) (cur_Pmap s);
  co_counts : counts_ok c (num_row_refresh p) (refresh_count s);
  co_background : vsize (background_energy_ s) = channels c ∧
    Forall (λ l, vsize l = ranks c) (background_energy_ s);
  co_Midx : Midx s = calculate_Midx_array (chip_dim_x p) (chip_dim_y p) (numP (floorplan s))
    (dimX (floorplan s) + num_dummy) (dimY (floorplan s) + num_dummy);
  co_Cap : Cap s = calculate_Cap_array (chip_dim_x p) (chip_dim_y p) (numP (floorplan s))
    (dimX (floorplan s) + num_dummy) (dimY (floorplan s) + num_dummy);
  co_iter : 0 ≤ time_iter s;
  co_temps : vsize (T_trans s) = num_case (floorplan s) ∧
    Forall (λ T, vsize T = T_size (floorplan s)) (T_trans s)
}.

(** What [UpdateCMDPower] needs of a command. *)
Definition power_command_ok (c : ThermalConfig) (ch : Z) (cmd : Command) : Prop :=
  0 ≤ ch < channels c ∧ 0 ≤ Rank cmd < ranks c ∧
  match cmd_type cmd with
  | REFRESH_BANK => 0 ≤ Bank cmd < banks_per_group c
  | ACTIVATE | READ | READ_PRECHARGE | WRITE | WRITE_PRECHARGE => command_ok c ch cmd
  | _ => True
  end.

Lemma add_at_ok g m case_id idx e : map_ok g m → 0 ≤ case_id < num_case g →
  0 ≤ idx < numP g * dimX g * dimY g → ∃ m', add_at case_id idx e m = Ok m' ∧ map_ok g m'.
Proof.
  intros [Hs Hl] Hc Hi. unfold add_at. destruct (vget_in_range m case_id) as [l El]; [lia|]. rewrite El.
  cbn [mbind outcome_bind]. apply vget_Ok in El as [_ El]. pose proof (Forall_lookup_1 _ _ _ _ Hl El) as Hls. cbn in Hls.
  destruct (vget_in_range l idx) as [v ->]; [lia|]. cbn [mbind outcome_bind]. rewrite vset_in_range by lia.
  cbn [mbind outcome_bind]. rewrite vset_in_range by lia. eexists. split; [done|].
  split; [unfold vsize in *; by rewrite length_insert|]. apply Forall_insert; [done|].
  unfold vsize in *. by rewrite length_insert.
Qed.

Lemma heat_ok g s case_id e cells : map_ok g (accu_Pmap s) → map_ok g (cur_Pmap s) →
  0 ≤ case_id < num_case g → Forall (λ i, 0 ≤ i < numP g * dimX g * dimY g) cells →
  ∃ accu cur, heat case_id e cells s = Ok (set_maps accu cur s) ∧ map_ok g accu ∧ map_ok g cur.
Proof.
  intros Ha Hc Hcase Hcells.
  destruct (for_each_total (λ t, ∃ accu cur, t = set_maps accu cur s ∧ map_ok g accu ∧ map_ok g cur)
    (λ idx s, accu ← add_at case_id idx e (accu_Pmap s); cur ← add_at case_id idx e (cur_Pmap s);
      Ok (set_maps accu cur s)) cells s) as (t & E & accu & cur & -> & H).
  - intros idx t Hidx (accu & cur & -> & Hm1 & Hm2).
    change (accu_Pmap (set_maps accu cur s)) with accu. change (cur_Pmap (set_maps accu cur s)) with cur.
    pose proof (proj1 (Forall_forall _ _) Hcells idx Hidx).
    destruct (add_at_ok g accu case_id idx e) as (accu' & -> & ?); [done..|]. cbn [mbind outcome_bind].
    destruct (add_at_ok g cur case_id idx e) as (cur' & -> & ?); [done..|]. cbn [mbind outcome_bind].
    eexists. split; [done|]. by exists accu', cur'.
  - exists (accu_Pmap s), (cur_Pmap s). by destruct s.
  - by exists accu, cur.
Qed.

(** The maps and the counters are the only parts a command changes. *)
Lemma calc_ok_maps c p s accu cur : calc_ok c p s →
  map_ok (floorplan s) accu → map_ok (floorplan s) cur → calc_ok c p (set_maps accu cur s).
Proof. intros [] ? ?. by split. Qed.

Lemma calc_ok_counts c p s counts : calc_ok c p s → counts_ok c (num_row_refresh p) counts →
  calc_ok c p (s <| refresh_count := counts |>).
Proof. intros [] ?. by split. Qed.

Lemma calc_ok_temps c p s T : calc_ok c p s →
  vsize T = num_case (floorplan s) ∧ Forall (λ T, vsize T = T_size (floorplan s)) T →
  calc_ok c p (s <| T_trans := T |>).
Proof. intros [] ?. by split. Qed.

Lemma calc_ok_background c p s b : calc_ok c p s →
  vsize b = channels c ∧ Forall (λ l, vsize l = ranks c) b → calc_ok c p (s <| background_energy_ := b |>).
Proof. intros [] ?. by split. Qed.

Section Commands.
Context (c : ThermalConfig) (p : LateParams).

(** The map of a command's rank. *)
Definition case_of (ch : Z) (cmd : Command) : Z := if is_stack c then 0 else ch * ranks c + Rank cmd.

Lemma case_range s ch cmd : calc_ok c p s → 0 ≤ ch < channels c → 0 ≤ Rank cmd < ranks c →
  0 ≤ case_of ch cmd < num_case (floorplan s).
Proof.
  intros Hs Hch Hr. pose proof (lo_plan _ _ _ (co_layout _ _ _ Hs)) as Hp. unfold case_of, floorplan_of, is_stack in *.
  destruct (IsHMC c); [|destruct (IsHBM c)]; cbn [orb]; invert_ok;
    match goal with H : _ = floorplan s |- _ => rewrite <- H end; cbn [num_case]; nia.
Qed.

Lemma next_count_range n nrr r : 0 < nrr → (nrr | r) → 0 ≤ n → n * nrr < r →
  n * nrr + nrr ≤ r ∧ 0 ≤ next_count nrr r n ∧ next_count nrr r n * nrr < r.
Proof.
  intros Hn [q ->] H1 H2. assert (n + 1 ≤ q) by nia. unfold next_count. case_match eqn:E; split_bool; nia.
Qed.

Lemma refresh_bank_ok s ch cmd ib e : calc_ok c p s → 0 ≤ ch < channels c → 0 ≤ Rank cmd < ranks c →
  0 ≤ ib < banks c → ∃ s', refresh_bank c ch cmd ib (case_of ch cmd) e s = Ok s' ∧ calc_ok c p s'.
Proof.
  intros Hs Hch Hr Hib. pose proof Hs as [Hlay Hgr Hphy [Hn Hdiv] Ha Hc [Hcs Hcl] _ _ _ _ _].
  pose proof (case_range s ch cmd Hs Hch Hr) as Hcase. unfold refresh_bank. rewrite (late_read _ _ _ Hlay). cbn [mbind outcome_bind].
  set (ri := ch * ranks c + Rank cmd). assert (0 ≤ ri < vsize (refresh_count s)) as Hri by (unfold ri; nia).
  destruct (vget_in_range (refresh_count s) ri Hri) as [l El]. rewrite El. cbn [mbind outcome_bind].
  apply vget_Ok in El as [_ El]. destruct (Forall_lookup_1 _ _ _ _ Hcl El) as [Hls Hln].
  destruct (vget_in_range l ib) as [n En]; [lia|]. rewrite En. cbn [mbind outcome_bind].
  apply vget_Ok in En as [_ En]. destruct (Forall_lookup_1 _ _ _ _ Hln En) as [Hn0 Hn1].
  destruct (next_count_range n _ _ Hn Hdiv Hn0 Hn1) as (Hrow & Hc0 & Hc1).
  rewrite vset_in_range by lia. cbn [mbind outcome_bind]. rewrite vset_in_range by done. cbn [mbind outcome_bind].
  apply (for_each_total (calc_ok c p)).
  - intros ir t Hir%elem_of_seqZ Ht. pose proof Ht as [Hlay' Hgr' Hphy' _ Ha' Hc' _ _ _ _ _ _].
    pose proof (case_range t ch cmd Ht Hch Hr) as Hcase'. unfold LocationMappingANDaddEnergy_RF.
    pose proof (lo_per_group _ _ _ Hlay) as Hbpg. pose proof (lo_banks _ _ _ Hlay) as Eb.
    destruct (table_position ib (banks_per_group c) (bankgroups c)) as (Hg & Hb & Ei); [lia|done|].
    destruct (refresh_cells_ok c _ p Hlay' _ Hphy' ch cmd (ib / banks_per_group c) (ib mod banks_per_group c) ir)
      as (q & cells & Eq & Ec & Hw); [done|done|nia|done|]. rewrite <- Ei in Ec. rewrite Ec. cbn [mbind outcome_bind].
    destruct (heat_ok (floorplan t) t (case_of ch cmd) e cells) as (accu & cur & -> & H1 & H2); [done..| |].
    { eapply (within_range c _ p Hlay' ch); [done| |exact Eq|done]. done. }
    eexists. split; [done|]. by apply calc_ok_maps.
  - apply calc_ok_counts; [done|]. split; [unfold vsize in *; by rewrite length_insert|].
    apply Forall_insert; [done|]. split; [unfold vsize in *; by rewrite length_insert|]. by apply Forall_insert.
Qed.

Lemma access_ok s ch cmd e : calc_ok c p s → command_ok c ch cmd →
  ∃ s', LocationMappingANDaddEnergy c ch cmd (case_of ch cmd) e s = Ok s' ∧ calc_ok c p s'.
Proof.
  intros Hs Hcmd. pose proof Hs as [Hlay Hgr Hphy _ Ha Hc _ _ _ _ _ _]. pose proof Hcmd as [Hch Hr Hbg Hb _ _].
  unfold LocationMappingANDaddEnergy.
  destruct (access_cells_ok c _ p Hlay _ Hphy ch cmd Hcmd Hgr) as (q & cells & Eq & -> & Hw). cbn [mbind outcome_bind].
  destruct (heat_ok (floorplan s) s (case_of ch cmd) (e / d_of_Z (device_width c))%double cells)
    as (accu & cur & -> & H1 & H2); [done..|by apply case_range| |].
  - eapply (within_range c _ p Hlay ch); [done| |exact Eq|done]. done.
  - eexists. split; [done|]. by apply calc_ok_maps.
Qed.

Lemma UpdateCMDPower_ok s ch cmd : calc_ok c p s → power_command_ok c ch cmd →
  ∃ s', UpdateCMDPower c ch cmd s = Ok s' ∧ calc_ok c p s'.
Proof.
  intros Hs (Hch & Hr & Hcmd). pose proof Hs as [Hlay _ _ _ _ _ _ _ _ _ _ _]. unfold UpdateCMDPower.
  fold (case_of ch cmd).
  assert (Hacc : ∀ e e', command_ok c ch cmd → ∃ s', (if dltb (d_of_Z 0) e then
    LocationMappingANDaddEnergy c ch cmd (case_of ch cmd) e' s else Ok s) = Ok s' ∧ calc_ok c p s').
  { intros e e' Hok. destruct (dltb _ _); [by apply access_ok|by exists s]. }
  destruct (cmd_type cmd); try (apply Hacc; done); try (by exists s).
  - rewrite (late_read _ _ _ Hlay). cbn [mbind outcome_bind]. apply refresh_bank_ok; try done.
    pose proof (lo_groups _ _ _ Hlay). rewrite (lo_banks _ _ _ Hlay). nia.
  - rewrite (late_read _ _ _ Hlay). cbn [mbind outcome_bind]. apply (for_each_total (calc_ok c p)); [|done].
    intros ib t Hib%elem_of_seqZ Ht. apply refresh_bank_ok; [done..|lia].
Qed.
End Commands.

(** ** Reports *)

Lemma plan_positive c g p : layout_ok c g p → 0 < dimX g ∧ 0 < dimY g.
Proof.
  intros Hlay. destruct (plan_dims c g p Hlay) as (? & ? & ? & ? & -> & -> & _).
  pose proof (lo_nx _ _ _ Hlay). pose proof (lo_ny _ _ _ Hlay). split; repeat apply Z.mul_pos_pos; lia.
Qed.

(** The dies exist: a stack has at least one memory die. *)
Lemma dies_positive c g p : layout_ok c g p → 0 < memory_dies c g ∧ 0 < numP g ∧ 0 < num_case g.
Proof.
  intros Hlay. destruct (z_ok c g p Hlay 0 0) as (z & _ & Hz).
  - pose proof (lo_channels _ _ _ Hlay). lia.
  - pose proof (lo_groups _ _ _ Hlay). pose proof (lo_per_group _ _ _ Hlay). rewrite (lo_banks _ _ _ Hlay). nia.
  - assert (0 < num_case g); [|unfold memory_dies in *; case_match; lia].
    pose proof (lo_plan _ _ _ Hlay) as Hp. pose proof (lo_ranks _ _ _ Hlay). pose proof (lo_channels _ _ _ Hlay).
    unfold floorplan_of in Hp. destruct (IsHMC c); [|destruct (IsHBM c)]; invert_ok; cbn [num_case]; nia.
Qed.

Lemma add_range_ok g m case_id from n e : map_ok g m → 0 ≤ case_id < num_case g → 0 ≤ from →
  from + n ≤ numP g * dimX g * dimY g → ∃ m', add_range case_id from n e m = Ok m' ∧ map_ok g m'.
Proof.
  intros Hm Hc Hf Hn. apply (for_each_total (map_ok g)); [|done].
  intros i m' Hi%elem_of_seqZ Hm'. apply add_at_ok; [done..|lia].
Qed.

Section Reports.
Context (c : ThermalConfig) (p : LateParams).

Lemma stack_background_ok trans clk s : calc_ok c p s →
  ∃ s', stack_background c trans clk s = Ok s' ∧ calc_ok c p s' ∧ floorplan s' = floorplan s.
Proof.
  intros Hs. unfold stack_background, UpdatePowerMaps. pose proof Hs as [Hlay _ _ _ Ha Hc _ _ _ _ _ _].
  destruct (plan_positive _ _ _ Hlay), (dies_positive _ _ _ Hlay) as (_ & ? & _). set (g := floorplan s) in *.
  set (e1 := (_ / d_of_Z 1000)%double). set (e2 := (avg_logic_power_ s / _ / _ * _)%double).
  destruct (for_each_total (map_ok g) (λ j map, map ← add_range j 0 (dimX g * dimY g * (numP g - 1)) e1 map;
      add_range j (dimX g * dimY g * (numP g - 1)) (dimX g * dimY g * numP g - dimX g * dimY g * (numP g - 1)) e2 map)
    (seqZ 0 (num_case g)) (power_map trans s)) as (m & E & Hm).
  - intros j m Hj%elem_of_seqZ Hm. destruct (add_range_ok g m j 0 (dimX g * dimY g * (numP g - 1)) e1) as (m1 & -> & Hm1);
      [done|lia|lia|nia|]. cbn [mbind outcome_bind]. apply add_range_ok; [done|lia|nia|nia].
  - by destruct trans.
  - unfold for_range. rewrite E. cbn [mbind outcome_bind]. eexists. split; [done|].
    destruct Hs, trans; (split; [by split|done]).
Qed.

(** The interior of the padded power map. *)
Lemma InitPowerM_ok case_id clk s : calc_ok c p s → 0 ≤ case_id < num_case (floorplan s) →
  ∃ powerM, InitPowerM c case_id clk s = Ok powerM ∧
    power_ok powerM (dimX (floorplan s) + num_dummy) (dimY (floorplan s) + num_dummy) (numP (floorplan s)).
Proof.
  intros Hs Hcase. unfold InitPowerM. pose proof Hs as [Hlay _ _ _ Ha Hc _ _ _ _ _ _].
  destruct (plan_positive _ _ _ Hlay), (dies_positive _ _ _ Hlay) as (_ & ? & _). set (g := floorplan s) in *.
  assert (map_ok g (power_map (clk =? 0) s)) as [Hm1 Hm2] by (by destruct (clk =? 0)).
  destruct (vget_in_range (power_map (clk =? 0) s) case_id) as [m Em]; [lia|]. rewrite Em.
  cbn [mbind outcome_bind]. apply vget_Ok in Em as [_ Em]. pose proof (Forall_lookup_1 _ _ _ _ Hm2 Em) as Hsize. cbn in Hsize.
  set (cell := padded_cell g _ m).
  assert (Hcell : ∀ i j l, l ∈ seqZ 0 (numP g) → ∃ v, cell i j l = Ok v ∧ True).
  { intros i j l Hl%elem_of_seqZ. unfold cell, padded_cell. case_match eqn:E; [|by eexists]. split_bool.
    destruct (vget_in_range m (l * (dimX g * dimY g) + (j - Z.quot num_dummy 2) * dimX g + (i - Z.quot num_dummy 2)))
      as [v ->]; [|by eexists]. rewrite Hsize. set (x := i - _) in *. set (y := j - _) in *.
    assert (0 ≤ y * dimX g + x < dimX g * dimY g) by nia. nia. }
  assert (Hsz : ∀ n, 0 ≤ n → vsize (seqZ 0 n) = n) by (intros; unfold vsize; rewrite length_seqZ; lia).
  destruct (mapM_all (λ i, mapM (λ j, mapM (cell i j) (seqZ 0 (numP g))) (seqZ 0 (dimY g + num_dummy)))
    (λ q, vsize q = dimY g + num_dummy ∧ Forall (λ r, vsize r = numP g) q) (seqZ 0 (dimX g + num_dummy)))
    as (powerM & E & Hp1 & Hp2).
  - intros i _. destruct (mapM_all (λ j, mapM (cell i j) (seqZ 0 (numP g))) (λ r, vsize r = numP g)
      (seqZ 0 (dimY g + num_dummy))) as (q & Eq & Hq1 & Hq2).
    + intros j _. destruct (mapM_all (cell i j) (λ _, True) (seqZ 0 (numP g)) (Hcell i j)) as (r & Er & Hr & _).
      exists r. split; [done|]. rewrite Hr. apply Hsz. lia.
    + exists q. split; [done|]. rewrite Hq1, Hsz by (unfold num_dummy; lia). done.
  - exists powerM. split; [done|]. split; [|done]. rewrite Hp1. apply Hsz. unfold num_dummy. lia.
Qed.

Lemma nodes_size g : nodes (numP g) (dimX g + num_dummy) (dimY g + num_dummy) = T_size g.
Proof. unfold nodes, numLayer, T_size. lia. Qed.

Lemma for_each_returns {A S} (l : list A) (body : A → S → outcome S) s :
  (∀ x s, x ∈ l → ∃ s', body x s = Ok s') → ∃ s', for_each body l s = Ok s'.
Proof.
  intros H. destruct (for_each_total (λ _, True) body l s) as (s' & E & _); [|done|by exists s'].
  intros x s1 Hx _. destruct (H x s1 Hx) as [s2 E]. by exists s2.
Qed.

Lemma for_range_returns {S} n (body : Z → S → outcome S) s :
  (∀ i s, 0 ≤ i < n → ∃ s', body i s = Ok s') → ∃ s', for_range n body s = Ok s'.
Proof. intros H. apply for_each_returns. intros i s1 Hi%elem_of_seqZ. apply H. lia. Qed.

Lemma GetTotalPower_ok g powerM : power_ok powerM (dimX g + num_dummy) (dimY g + num_dummy) (numP g) →
  ∃ t, GetTotalPower g powerM = Ok t.
Proof.
  intros Hp. apply for_range_returns. intros i t Hi. apply for_range_returns. intros j t1 Hj.
  apply for_range_returns. intros l t2 Hl. rewrite (power_at_val _ _ _ _ _ _ _ Hp); [by eexists|..];
    change (Z.quot num_dummy 2) with 1; unfold num_dummy; lia.
Qed.

Lemma CalcTransT_ok ir s : calc_ok c p s → 0 ≤ ir < num_case (floorplan s) →
  ∃ s', CalcTransT c ir s = Ok s' ∧ calc_ok c p s' ∧ floorplan s' = floorplan s ∧ cur_Pmap s' = cur_Pmap s.
Proof.
  intros Hs Hir. destruct (InitPowerM_ok ir 0 s Hs Hir) as (powerM & EP & HP). unfold CalcTransT. rewrite EP.
  cbn [mbind outcome_bind]. destruct (GetTotalPower_ok _ _ HP) as [t ->]. cbn [mbind outcome_bind].
  pose proof Hs as [Hlay _ _ _ _ _ _ _ EM EC Hit [HT1 HT2]]. rewrite !(late_read _ _ _ Hlay). cbn [mbind outcome_bind].
  destruct (vget_in_range (T_trans s) ir) as [T ET]; [lia|]. rewrite ET. cbn [mbind outcome_bind].
  apply vget_Ok in ET as [_ ET]. pose proof (Forall_lookup_1 _ _ _ _ HT2 ET) as HT. cbn in HT.
  destruct (plan_positive _ _ _ Hlay), (dies_positive _ _ _ Hlay) as (_ & ? & _).
  rewrite EM, EC. set (g := floorplan s) in *.
  destruct (transient_returns (chip_dim_x p) (chip_dim_y p) (numP g) (dimX g + num_dummy) (dimY g + num_dummy)
    (Tamb s) powerM (epoch_time c) (time_iter s) T) as (T' & -> & HT');
    [unfold num_dummy; lia..|done|by rewrite nodes_size|]. cbn [mbind outcome_bind].
  rewrite vset_in_range by lia. cbn [mbind outcome_bind]. eexists. split; [done|]. split; [|done].
  rewrite nodes_size in HT'. apply calc_ok_temps; [done|]. split; [unfold vsize in *; by rewrite length_insert|].
  by apply Forall_insert.
Qed.

Lemma temp_index_range g l j i : 0 ≤ l < numP g → 1 ≤ j ≤ dimY g → 1 ≤ i ≤ dimX g →
  0 ≤ temp_index g l j i < T_size g.
Proof.
  unfold temp_index, T_size, layerP, num_dummy. intros Hl Hj Hi.
  set (X := dimX g + 2) in *. set (Y := dimY g + 2) in *.
  assert (0 ≤ j * X + i < X * Y) by nia. nia.
Qed.

Lemma GetMaxTofCaseLayer_ok g T l : vsize T = T_size g → 0 ≤ l < numP g →
  ∃ t, GetMaxTofCaseLayer g T l = Ok t.
Proof.
  intros HT Hl. unfold GetMaxTofCaseLayer. change (Z.quot num_dummy 2) with 1.
  apply for_each_returns. intros j t1 Hj%elem_of_seqZ. apply for_each_returns.
  intros i t2 Hi%elem_of_seqZ. destruct (vget_in_range T (temp_index g l j i)) as [v ->]; [|by eexists].
  rewrite HT. apply temp_index_range; lia.
Qed.

Lemma PrintCSV_ok f g P T scale : vsize P = numP g * dimX g * dimY g → vsize T = T_size g →
  ∃ rows, PrintCSV f g P T scale = Ok rows.
Proof.
  intros HP HT. unfold PrintCSV. change (Z.quot num_dummy 2) with 1.
  set (cell := λ l j i, p ← vget P (l * (dimX g * dimY g) + (j - 1) * dimX g + (i - 1));
      t ← vget T (temp_index g l j i); Ok (mkCellReport (i - 1) (j - 1) l (p / d_of_Z scale)%double (f t))).
  destruct (mapM_all (λ l, mapM (λ j, mapM (cell l j) (seqZ 1 (dimX g))) (seqZ 1 (dimY g))) (λ _, True)
    (seqZ 0 (numP g))) as (rows & E & _); [|eexists; apply bind_Ok; exists rows; split; [exact E|done]].
  intros l Hl%elem_of_seqZ. destruct (mapM_all (λ j, mapM (cell l j) (seqZ 1 (dimX g))) (λ _, True) (seqZ 1 (dimY g)))
    as (rows & E & _); [|by eexists]. intros j Hj%elem_of_seqZ.
  destruct (mapM_all (cell l j) (λ _, True) (seqZ 1 (dimX g))) as (rows & E & _); [|by eexists].
  intros i Hi%elem_of_seqZ. unfold cell. assert (0 ≤ (j - 1) * dimX g + (i - 1) < dimX g * dimY g) by nia.
  destruct (vget_in_range P (l * (dimX g * dimY g) + (j - 1) * dimX g + (i - 1))) as [v ->]; [rewrite HP; nia|].
  destruct (vget_in_range T (temp_index g l j i)) as [t ->]; [rewrite HT; apply temp_index_range; lia|]. by eexists.
Qed.

Lemma trans_case_ok ir s : calc_ok c p s → 0 ≤ ir < num_case (floorplan s) →
  ∃ s' maxima cells, trans_case c ir s = Ok (s', maxima, cells) ∧ calc_ok c p s' ∧ floorplan s' = floorplan s.
Proof.
  intros Hs Hir. unfold trans_case. destruct (CalcTransT_ok ir s Hs Hir) as (s' & -> & Hs' & Eg & _).
  cbn [mbind outcome_bind]. pose proof Hs' as [Hlay _ _ _ _ [Hc1 Hc2] _ _ _ _ _ [HT1 HT2]]. rewrite Eg in *.
  set (g := floorplan s) in *. destruct (vget_in_range (T_trans s') ir) as [T ET]; [lia|]. rewrite ET. cbn [mbind outcome_bind].
  apply vget_Ok in ET as [_ ET]. pose proof (Forall_lookup_1 _ _ _ _ HT2 ET) as HT. cbn in HT.
  destruct (mapM_all (GetMaxTofCaseLayer g T) (λ _, True) (seqZ 0 (numP g))) as (maxima & -> & _).
  { intros l Hl%elem_of_seqZ. destruct (GetMaxTofCaseLayer_ok g T l HT) as [t ->]; [lia|]. by eexists. }
  cbn [mbind outcome_bind]. destruct (2 <=? output_level c); [|by eexists _, _, _].
  destruct (vget_in_range (cur_Pmap s') ir) as [P EP]; [lia|]. rewrite EP. cbn [mbind outcome_bind].
  apply vget_Ok in EP as [_ EP]. pose proof (Forall_lookup_1 _ _ _ _ Hc2 EP) as HP. cbn in HP.
  destruct (PrintCSV_ok (λ t, (t - T0)%double) g P T (epoch_period c) HP HT) as [rows ->]. by eexists _, _, _.
Qed.

Lemma calc_ok_epoch s cur n : calc_ok c p s → map_ok (floorplan s) cur →
  calc_ok c p (s <| cur_Pmap := cur |> <| sample_id := n |>).
Proof. intros [] ?. by split. Qed.

(** The end of an epoch of a stack. *)
Lemma PrintTransPT_ok fuel s : calc_ok c p s → is_stack c = true →
  ∃ s' out, PrintTransPT fuel c s = Ok (s', out) ∧ calc_ok c p s' ∧
    Forall (Forall (λ e, e = d_of_Z 0)) (cur_Pmap s').
Proof.
  intros Hs Hst. unfold PrintTransPT, UpdateEpoch. rewrite Hst.
  destruct (stack_background_ok true (epoch_period c) s Hs) as (s1 & -> & Hs1 & Eg1). cbn [mbind outcome_bind].
  destruct (for_each_total (λ x : ThermalCalculator * list (list double * list CellReport),
      calc_ok c p x.1 ∧ floorplan x.1 = floorplan s1)
    (λ ir '(s, out), '(s, maxima, cells) ← trans_case c ir s; Ok (s, out ++ [(maxima, cells)]))
    (seqZ 0 (num_case (floorplan s1))) (s1, [])) as ([s2 out] & E & Hs2 & Eg2).
  - intros ir [s2 out] Hir%elem_of_seqZ [Hs2 Eg2]. cbn [fst] in *.
    destruct (trans_case_ok ir s2 Hs2) as (s3 & mx & cells & -> & Hs3 & Eg3); [rewrite Eg2; lia|].
    cbn [mbind outcome_bind]. eexists. split; [done|]. cbn [fst]. split; [done|congruence].
  - done.
  - unfold for_range. rewrite E. cbn [mbind outcome_bind fst] in *. eexists _, _. split; [done|].
    pose proof (co_cur _ _ _ Hs2) as [Hc1 Hc2]. rewrite Eg2 in *. set (g := floorplan s1) in *.
    assert (Hclear : (λ m, replicate (Z.to_nat (numP g * dimX g * dimY g)) (d_of_Z 0)
        ++ drop (Z.to_nat (numP g * dimX g * dimY g)) m) <$> cur_Pmap s2
      = (λ _, replicate (Z.to_nat (numP g * dimX g * dimY g)) (d_of_Z 0)) <$> cur_Pmap s2).
    { apply list_fmap_ext. intros k m Hm. pose proof (Forall_lookup_1 _ _ _ _ Hc2 Hm) as Hsz. cbn in Hsz.
      rewrite drop_ge, app_nil_r; [done|]. unfold vsize in Hsz. lia. }
    rewrite Hclear. split.
    + apply calc_ok_epoch; [done|]. split; [unfold vsize in *; rewrite length_fmap; congruence|].
      rewrite Eg2. fold g. apply Forall_fmap. eapply Forall_impl; [exact Hc2|]. intros m Hm. unfold vsize in *. cbn.
      rewrite length_replicate. lia.
    + apply Forall_fmap, Forall_forall. intros m _. by apply Forall_replicate.
Qed.

Lemma CalcFinalT_ok pdgssv ir clk s : (∀ a asub xa rhs, vsize (pdgssv a asub xa rhs) = vsize rhs) →
  calc_ok c p s → 0 ≤ ir < num_case (floorplan s) →
  ∃ T, CalcFinalT pdgssv c ir clk s = Ok T ∧ vsize T = T_size (floorplan s).
Proof.
  intros Hsolve Hs Hir. destruct (InitPowerM_ok ir clk s Hs Hir) as (powerM & EP & HP). unfold CalcFinalT. rewrite EP.
  cbn [mbind outcome_bind]. destruct (GetTotalPower_ok _ _ HP) as [t ->]. cbn [mbind outcome_bind].
  pose proof Hs as [Hlay _ _ _ _ _ _ _ EM _ _ _]. rewrite !(late_read _ _ _ Hlay). cbn [mbind outcome_bind].
  destruct (plan_positive _ _ _ Hlay), (dies_positive _ _ _ Hlay) as (_ & ? & _). rewrite EM. set (g := floorplan s) in *.
  assert (0 < dimX g + num_dummy) by (unfold num_dummy; lia). assert (0 < dimY g + num_dummy) by (unfold num_dummy; lia).
  unfold steady_thermal_solver. rewrite xa_starts by done. cbn [mbind outcome_bind].
  destruct (steady_rhs_spec (chip_dim_x p) (chip_dim_y p) (numP g) (dimX g + num_dummy) (dimY g + num_dummy)
    ltac:(done) ltac:(done) ltac:(done) (Tamb s) powerM HP) as (rhs & -> & Hr & _). cbn [mbind outcome_bind].
  eexists. split; [done|]. rewrite <- nodes_size, <- Hr. unfold vsize at 1. rewrite length_fmap. apply Hsolve.
Qed.

Lemma PrintFinalPT_ok fuel pdgssv clk s : (∀ a asub xa rhs, vsize (pdgssv a asub xa rhs) = vsize rhs) →
  calc_ok c p s → is_stack c = true →
  ∃ s' out, PrintFinalPT fuel pdgssv c clk s = Ok (s', out) ∧ vsize out = num_case (floorplan s).
Proof.
  intros Hsolve Hs Hst. unfold PrintFinalPT. rewrite Hst.
  destruct (stack_background_ok false clk s Hs) as (s1 & -> & Hs1 & Eg). cbn [mbind outcome_bind].
  set (report := λ ir, T ← CalcFinalT pdgssv c ir clk s1; maxT ← GetMaxTofCase (floorplan s1) T;
      P ← vget (accu_Pmap s1) ir; cells ← PrintCSV (λ t, t) (floorplan s1) P T clk; Ok (maxT, cells)).
  destruct (mapM_all report (λ _, True) (seqZ 0 (num_case (floorplan s1)))) as (out & -> & Hout & _).
  - intros ir Hir%elem_of_seqZ. unfold report.
    destruct (CalcFinalT_ok pdgssv ir clk s1 Hsolve Hs1 ltac:(lia)) as (T & -> & HT). cbn [mbind outcome_bind].
    destruct (for_range_returns (T_size (floorplan s1)) (λ i maxT, t ← vget T i; Ok (if dltb maxT t then t else maxT))
      (d_of_Z 0)) as [mx Emx].
    { intros i m Hi. destruct (vget_in_range T i) as [t ->]; [lia|]. by eexists. }
    unfold GetMaxTofCase. rewrite Emx. cbn [mbind outcome_bind]. pose proof (co_accu _ _ _ Hs1) as [Ha1 Ha2].
    destruct (vget_in_range (accu_Pmap s1) ir) as [P EP]; [lia|]. rewrite EP. cbn [mbind outcome_bind].
    apply vget_Ok in EP as [_ EP]. pose proof (Forall_lookup_1 _ _ _ _ Ha2 EP) as HP. cbn in HP.
    destruct (PrintCSV_ok (λ t, t) (floorplan s1) P T clk HP HT) as [rows ->]. by eexists.
  - eexists _, out. split; [done|]. rewrite Hout, Eg. unfold vsize. rewrite length_seqZ.
    destruct (dies_positive _ _ _ (co_layout _ _ _ Hs)). lia.
Qed.
End Reports.

Lemma raise_iter_ge fuel t dt n k : raise_iter fuel t dt n = Ok k → 0 ≤ n → 0 ≤ k.
Proof.
  revert n. induction fuel as [|fuel IH]; intros n; cbn; case_match; try done; [by intros [= <-]| |by intros [= <-]].
  intros H1 H2. apply (IH (n + 1)); [done|lia].
Qed.

(** The constructor establishes the invariant. *)
Lemma init_ok fuel c g p s : layout_ok c g p → (IsHMC c = true → bankgroups c = 1) →
  (∀ m, SetPhyAddressMapping c = Ok m → phy_ok c m) → 0 < num_row_refresh p ∧ (num_row_refresh p | rows c) →
  ThermalCalculator_init fuel c = Ok s → calc_ok c p s ∧ floorplan s = g.
Proof.
  intros Hlay Hgr Hphy Hrows. destruct (plan_positive _ _ _ Hlay), (dies_positive _ _ _ Hlay) as (_ & ? & ?).
  unfold ThermalCalculator_init. rewrite (lo_plan _ _ _ Hlay), !(late_read _ _ _ Hlay). cbn [mbind outcome_bind].
  intros (m & Em & H3)%bind_Ok. apply bind_Ok in H3 as (dt & _ & H4). apply bind_Ok in H4 as (iter & Eit & H5).
  apply bind_Ok in H5 as (rects & _ & [= <-]).
  pose proof (lo_channels _ _ _ Hlay). pose proof (lo_ranks _ _ _ Hlay). pose proof (lo_groups _ _ _ Hlay).
  pose proof (lo_per_group _ _ _ Hlay). pose proof (lo_banks _ _ _ Hlay). pose proof (lo_nx _ _ _ Hlay).
  pose proof (lo_mat_x _ _ _ Hlay). pose proof (lo_rows _ _ _ Hlay).
  assert (Htab : ∀ A n k (x : A), 0 ≤ n → 0 ≤ k → vsize (table n k x) = n ∧ Forall (λ l, vsize l = k ∧ Forall (λ y, y = x) l) (table n k x)).
  { intros A n k x Hn Hk. unfold table, vsize. rewrite length_replicate. split; [lia|]. apply Forall_replicate.
    rewrite length_replicate. split; [lia|]. by apply Forall_replicate. }
  assert (map_ok g (table (num_case g) (numP g * dimX g * dimY g) (d_of_Z 0))).
  { destruct (Htab _ (num_case g) (numP g * dimX g * dimY g) (d_of_Z 0)) as [? H']; [lia|nia|]. split; [done|].
    eapply Forall_impl; [exact H'|]. cbn. tauto. }
  split; [|done]. split; cbn; try done.
  - by apply Hphy.
  - destruct (Htab _ (channels c * ranks c) (banks c) 0) as [? H']; [nia|nia|]. split; [done|].
    eapply Forall_impl; [exact H'|]. intros l [? Hl]. split; [done|]. eapply Forall_impl; [exact Hl|]. cbn. nia.
  - destruct (Htab _ (channels c) (ranks c) (d_of_Z 0)) as [? H']; [lia|lia|]. split; [done|].
    eapply Forall_impl; [exact H'|]. cbn. tauto.
  - by apply (raise_iter_ge _ _ _ _ _ Eit).
  - split; [unfold vsize; rewrite length_replicate; lia|]. apply Forall_replicate.
    unfold initialize_Temperature. rewrite nodes_size. unfold vsize. rewrite length_replicate.
    unfold T_size, num_dummy. nia.
Qed.

(** ** Histories *)

(** What the rest of the simulator does with the calculator. *)
Inductive ThermalEvent :=
| CommandIssued (channel : Z) (cmd : Command)
| BackgroundSet (channel rank : Z) (energy : double)
| EpochEnded.

Definition event_ok (c : ThermalConfig) (e : ThermalEvent) : Prop :=
  match e with
  | CommandIssued ch cmd => power_command_ok c ch cmd
  | BackgroundSet ch r _ => 0 ≤ ch < channels c ∧ 0 ≤ r < ranks c
  | EpochEnded => True
  end.

Definition thermal_event (fuel : nat) (c : ThermalConfig) (e : ThermalEvent) (s : ThermalCalculator)
    : outcome ThermalCalculator :=
  match e with
  | CommandIssued ch cmd => UpdateCMDPower c ch cmd s
  | BackgroundSet ch r energy => UpdateBackgroundEnergy ch r energy s
  | EpochEnded => '(s, _) ← PrintTransPT fuel c s; Ok s
  end.

Lemma background_ok c p s ch r e : calc_ok c p s → 0 ≤ ch < channels c → 0 ≤ r < ranks c →
  ∃ s', UpdateBackgroundEnergy ch r e s = Ok s' ∧ calc_ok c p s'.
Proof.
  intros Hs Hch Hr. pose proof (co_background _ _ _ Hs) as [Hb1 Hb2]. unfold UpdateBackgroundEnergy.
  destruct (vget_in_range (background_energy_ s) ch) as [l El]; [lia|]. rewrite El. cbn [mbind outcome_bind].
  apply vget_Ok in El as [_ El]. pose proof (Forall_lookup_1 _ _ _ _ Hb2 El) as Hl. cbn in Hl.
  rewrite vset_in_range by lia. cbn [mbind outcome_bind]. rewrite vset_in_range by lia. cbn [mbind outcome_bind].
  eexists. split; [done|]. apply calc_ok_background; [done|]. split; [unfold vsize in *; by rewrite length_insert|].
  apply Forall_insert; [done|]. unfold vsize in *. by rewrite length_insert.
Qed.

(** The innermost loop of the planar reports. *)
Lemma spin_never fuel cell n case_id e i m m' : 0 < n → spin fuel cell n case_id e i m ≠ Ok m'.
Proof.
  intros Hn. revert i m. induction fuel as [|fuel IH]; intros i m; cbn; rewrite (proj2 (Z.ltb_lt _ _) Hn); [done|].
  destruct (add_at _ _ _ _); [apply IH|done].
Qed.

Lemma device_background_never fuel cell c p s m m' : layout_ok c (floorplan s) p →
  device_background fuel cell c s m ≠ Ok m'.
Proof.
  intros Hlay. destruct (plan_positive _ _ _ Hlay), (dies_positive _ _ _ Hlay) as (_ & ? & _).
  unfold device_background, for_range. rewrite (seqZ_cons 0 (channels c)) by apply (lo_channels _ _ _ Hlay).
  rewrite (seqZ_cons 0 (ranks c)) by apply (lo_ranks _ _ _ Hlay). cbn [for_each].
  destruct (vget (background_energy_ s) 0) as [l|]; [|done]. cbn [mbind outcome_bind].
  destruct (vget l 0) as [e|]; [|done]. cbn [mbind outcome_bind].
  match goal with |- context [spin ?f ?a ?b ?k ?d ?x ?y] => destruct (spin f a b k d x y) eqn:E; [|done] end.
  exfalso. eapply spin_never, E. repeat apply Z.mul_pos_pos; lia.
Qed.

(** ** Sample configurations *)

Definition override (ints : list (string * string * Z)) (r : INIReader) : INIReader :=
  {| ParseError := ParseError r; Get := Get r;
     GetInteger_long := λ s o d, default (GetInteger_long r s o d)
       ((list_to_map ints : gmap (string * string) Z) !! (s, o));
     GetReal := GetReal r; GetBoolean := GetBoolean r |}.

Definition zero_thermal : ThermalConfig :=
  Build_ThermalConfig zero_config (Build_ThermalParams (d_of_Z 0) 0 0 0 0 0 0 (d_of_Z 0) EmptyString None).

(** A cube of one vault on one die, with one grid cell for every bank. *)
Definition small_cube : ThermalConfig :=
  Eval vm_compute in ok_or zero_thermal
    (ThermalConfig_init (override
       [("system", "channels", 1); ("dram_structure", "num_dies", 1); ("dram_structure", "banks_per_group", 2);
        ("dram_structure", "rows", 8192); ("timing", "tREFI", 3900);
        ("thermal", "mat_dim_x", 8192); ("thermal", "mat_dim_y", 2048)]%string hmc_reader) true ".").

(** The stack of configs/HBM2_8Gb_x128.ini. *)
Definition hbm2_thermal : ThermalConfig :=
  Eval vm_compute in ok_or zero_thermal (ThermalConfig_init hbm2_reader true ".").

(** A planar device. *)
Definition ddr4_thermal : ThermalConfig :=
  Eval vm_compute in ok_or zero_thermal (ThermalConfig_init ddr4_reader true ".").

Definition plan_or (c : ThermalConfig) : Floorplan := ok_or (Build_Floorplan 0 0 0 0 0 0 0 0) (floorplan_of c).
Definition late_or (c : ThermalConfig) : LateParams :=
  default (Build_LateParams 0 0 0 (d_of_Z 0) (d_of_Z 0) (d_of_Z 0)) (late_params c).

Lemma small_cube_layout : layout_ok small_cube (plan_or small_cube) (late_or small_cube).
Proof. split; by vm_compute. Qed.
Lemma hbm2_layout : layout_ok hbm2_thermal (plan_or hbm2_thermal) (late_or hbm2_thermal).
Proof. split; by vm_compute. Qed.
Lemma ddr4_layout : layout_ok ddr4_thermal (plan_or ddr4_thermal) (late_or ddr4_thermal).
Proof. split; by vm_compute. Qed.

(** The small cube can be constructed. *)
Lemma small_cube_starts : ∃ s, ThermalCalculator_init 2000 small_cube = Ok s.
Proof.
  assert (H : is_ok (ThermalCalculator_init 2000 small_cube) = true) by (vm_compute; reflexivity).
  destruct (ThermalCalculator_init 2000 small_cube) as [s|]; [by exists s|done].
Qed.

(** ** Properties *)

(** [C22] Energy and temperature bookkeeping of a stacked memory (HBM or HMC)
    never fails, if its banks are cut evenly into grid cells and fit the
    floorplan ([layout_ok], which configs/HMC_4GB_4Lx16.ini violates: its
    vaults have more than two banks per layer), a cube has one bank group, a
    relocation of addresses stays within rows and columns ([phy_ok]) and
    the rows refreshed at once divide the rows of a bank: from a constructor
    that returned, for every history of commands to existing banks, rows and
    columns, refreshes, background energies and ends of epochs, every operation
    returns without an index out of range, the refresh counters stay on existing rows, and both
    the report of the next epoch and the final report return, whatever
    solution of the right size the linear solver finds. *)
Theorem thermal_session_returns fuel c g p s0 es pdgssv clk :
  layout_ok c g p → is_stack c = true → (IsHMC c = true → bankgroups c = 1) →
  (∀ m, SetPhyAddressMapping c = Ok m → phy_ok c m) →
  0 < num_row_refresh p → (num_row_refresh p | rows c) →
  (∀ a asub xa rhs, vsize (pdgssv a asub xa rhs) = vsize rhs) →
  ThermalCalculator_init fuel c = Ok s0 → Forall (event_ok c) es →
  ∃ s, for_each (thermal_event fuel c) es s0 = Ok s ∧ counts_ok c (num_row_refresh p) (refresh_count s) ∧
    is_ok (PrintTransPT fuel c s) = true ∧ is_ok (PrintFinalPT fuel pdgssv c clk s) = true.
Proof.
  intros Hlay Hst Hgr Hphy Hn Hd Hsolve Hinit Hes.
  destruct (init_ok fuel c g p s0 Hlay Hgr Hphy (conj Hn Hd) Hinit) as [H0 _].
  destruct (for_each_total (calc_ok c p) (thermal_event fuel c) es s0) as (s & E & Hs); [|done|].
  - intros e s He Hs. pose proof (proj1 (Forall_forall _ _) Hes e He) as Hok. destruct e as [ch cmd|ch r x|]; cbn.
    + by apply UpdateCMDPower_ok.
    + destruct Hok. by apply background_ok.
    + destruct (PrintTransPT_ok c p fuel s Hs Hst) as (s' & out & -> & Hs' & _). by exists s'.
  - exists s. split; [done|]. split; [apply (co_counts _ _ _ Hs)|].
    destruct (PrintTransPT_ok c p fuel s Hs Hst) as (s1 & out1 & -> & _).
    by destruct (PrintFinalPT_ok c p fuel pdgssv clk s Hsolve Hs Hst) as (s2 & out2 & -> & _).
Qed.

Lemma thermal_session_returns_witness :
  ∃ s0 s, ThermalCalculator_init 2000 small_cube = Ok s0 ∧
    for_each (thermal_event 2000 small_cube)
      [CommandIssued 0 (mkCommand READ (mkAddress 0 0 0 1 8191 0) 0);
       CommandIssued 0 (mkCommand REFRESH (mkAddress (-1) 0 (-1) (-1) (-1) (-1)) 0);
       BackgroundSet 0 0 (d_of_Z 1); EpochEnded] s0 = Ok s.
Proof.
  destruct small_cube_starts as [s0 E].
  destruct (thermal_session_returns 2000 small_cube (plan_or small_cube) (late_or small_cube) s0
    [CommandIssued 0 (mkCommand READ (mkAddress 0 0 0 1 8191 0) 0);
     CommandIssued 0 (mkCommand REFRESH (mkAddress (-1) 0 (-1) (-1) (-1) (-1)) 0);
     BackgroundSet 0 0 (d_of_Z 1); EpochEnded] (λ _ _ _ rhs, rhs) 1000) as (s & Es & _).
  - exact small_cube_layout.
  - reflexivity.
  - intros _. reflexivity.
  - intros m Hm. clear -Hm. vm_compute in Hm. by injection Hm as <-.
  - reflexivity.
  - exists 8192. reflexivity.
  - reflexivity.
  - exact E.
  - clear. repeat constructor; by vm_compute.
  - exists s0, s. split; [exact E|exact Es].
Defined.

(** [C23] The floorplan gives every bank a rectangle of grid cells of its own, if
    the banks are cut evenly into grid cells and fit the floorplan ([layout_ok]:
    for a cube at most two banks per layer of a vault, which
    configs/HMC_4GB_4Lx16.ini violates; for HBM at most four bank groups of
    four banks; for planar memories as many as the grid has room for): the
    rectangles listed in bank_pos.csv lie on the memory dies, and a cell belongs
    to at most one bank, in a stack even across channels. *)
Theorem banks_have_own_cells c g p ch bg b ch' bg' b' :
  layout_ok c g p → 0 ≤ ch < channels c → 0 ≤ ch' < channels c → bank_in_range c bg b → bank_in_range c bg' b' →
  ∃ q q', bank_position c g ch bg b = Ok q ∧ bank_position c g ch' bg' b' = Ok q' ∧
    0 ≤ start_x q ≤ end_x q ∧ end_x q < dimX g ∧ 0 ≤ start_y q ≤ end_y q ∧ end_y q < dimY g ∧
    0 ≤ bp_z q < memory_dies c g ∧
    ∀ x y z, covers q x y z → covers q' x y z → bg = bg' ∧ b = b' ∧ (is_stack c = true → ch = ch').
Proof.
  intros Hlay Hch Hch' Hb Hb'. pose proof (lo_nx _ _ _ Hlay). pose proof (lo_ny _ _ _ Hlay).
  destruct (position_ok c g p Hlay ch bg b Hch Hb) as (q & v & E & _ & _ & Hz & _ & Ex & _ & Ey & B1 & B2 & B3 & B4).
  destruct (position_ok c g p Hlay ch' bg' b' Hch' Hb') as (q' & v' & E' & _).
  exists q, q'. split_and!; try done; try lia. intros x y z Hc Hc'.
  by eapply (rectangles_disjoint c g p Hlay ch bg b q ch' bg' b' q').
Qed.

Lemma banks_have_own_cells_witness :
  ∃ q q', bank_position hbm2_thermal (plan_or hbm2_thermal) 0 0 0 = Ok q ∧
    bank_position hbm2_thermal (plan_or hbm2_thermal) 7 3 3 = Ok q'.
Proof.
  destruct (banks_have_own_cells hbm2_thermal (plan_or hbm2_thermal) (late_or hbm2_thermal) 0 0 0 7 3 3)
    as (q & q' & E & E' & _); [exact hbm2_layout|by vm_compute..|by exists q, q'].
Defined.

(** [C24] A read, write or activation of an existing bank, row and columns
    heats only cells of the rectangle that bank_pos.csv lists for its bank, all
    of which exist, if the banks fit the floorplan ([layout_ok]), a relocation of addresses stays within rows and
    columns ([phy_ok]), and a cube has one bank group: with several, [MapToZ] is
    asked for the bank within its group here and for the bank within the rank
    when the list is printed. *)
Theorem accesses_heat_their_bank c g p phy ch cmd :
  layout_ok c g p → phy_ok c phy → (IsHMC c = true → bankgroups c = 1) → command_ok c ch cmd →
  ∃ q cells, bank_position c g ch (Bankgroup cmd) (Bank cmd) = Ok q ∧ access_cells c g phy ch cmd = Ok cells ∧
    Forall (λ i, ∃ x y, covers q x y (bp_z q) ∧ i = grid_index g x y (bp_z q) ∧
      0 ≤ i < numP g * dimX g * dimY g) cells.
Proof.
  intros Hlay Hphy Hgr Hcmd. destruct (access_cells_ok c g p Hlay phy Hphy ch cmd Hcmd Hgr) as (q & cells & Eq & Ec & Hw).
  exists q, cells. split; [done|]. split; [done|]. destruct Hcmd.
  pose proof (within_range c g p Hlay ch _ _ q cells ltac:(done) ltac:(done) Eq Hw) as Hr.
  apply Forall_forall. intros i Hi. pose proof (proj1 (Forall_forall _ _) Hw i Hi) as (x & y & Hc & Ei).
  exists x, y. split; [done|]. split; [done|]. by apply (proj1 (Forall_forall _ _) Hr).
Qed.

Lemma accesses_heat_their_bank_witness :
  ∃ cells, access_cells hbm2_thermal (plan_or hbm2_thermal) SameLocation 5
    (mkCommand WRITE (mkAddress 5 0 2 3 8191 31) 0) = Ok cells.
Proof.
  destruct (accesses_heat_their_bank hbm2_thermal (plan_or hbm2_thermal) (late_or hbm2_thermal) SameLocation 5
    (mkCommand WRITE (mkAddress 5 0 2 3 8191 31) 0)) as (q & cells & _ & E & _);
    [exact hbm2_layout|done|by vm_compute|split; by vm_compute|by exists cells].
Defined.

(** [C30] Relocation loses nothing: if the bits in use are sent to different
    positions, all of them inside the window of bits that is read back, and
    the window lies within 64 bits ([relocation_ok]), every address has a
    location and different addresses have different ones. *)
Theorem relocation_injective mapped_pos offset widths a b :
  relocation_ok mapped_pos offset widths → fields_fit widths a → fields_fit widths b →
  ∃ qa qb, GetPhyAddress (Relocated mapped_pos offset) a = Ok qa ∧
    GetPhyAddress (Relocated mapped_pos offset) b = Ok qb ∧ (qa = qb → a = b).
Proof.
  intros Hre Ha Hb. destruct (relocate_total _ _ _ Hre a) as (qa & ? & ? & ? & Ea & _).
  destruct (relocate_total _ _ _ Hre b) as (qb & ? & ? & ? & Eb & _). exists qa, qb. split; [done|]. split; [done|].
  intros ->. by eapply (relocate_inj _ _ _ Hre).
Qed.

(** The relocation of configs/DDR4_8Gb_x8_2400.ini. *)
Definition moved_thermal : ThermalConfig :=
  let t := tc_thermal ddr4_thermal in
  Build_ThermalConfig ddr4_thermal
    (Build_ThermalParams (const_logic_power t) (mat_dim_x t) (mat_dim_y t) (row_tile t) (tile_row_num t)
       (num_x_grids t) (num_y_grids t) (bank_asr t) "33,33,32-31,30-29,26:13-27-28,12:3" (late_params t)).

Definition moved_positions : list (list Z) :=
  Eval vm_compute in match SetPhyAddressMapping moved_thermal with Ok (Relocated m _) => m | _ => [] end.

Lemma moved_mapping : SetPhyAddressMapping moved_thermal = Ok (Relocated moved_positions 3).
Proof. by vm_compute. Qed.

Lemma moved_ok : relocation_ok moved_positions 3 [0; 0; 2; 2; 16; 10].
Proof.
  split; try by vm_compute.
  - repeat constructor; by vm_compute.
  - repeat constructor; by vm_compute.
  - apply (bool_decide_unpack _). by vm_compute.
  - apply (bool_decide_unpack _). by vm_compute.
Qed.

Lemma relocation_injective_witness :
  ∃ qa qb, GetPhyAddress (Relocated moved_positions 3) (mkAddress 0 0 3 1 65535 1023) = Ok qa ∧
    GetPhyAddress (Relocated moved_positions 3) (mkAddress 0 0 0 2 1 4) = Ok qb.
Proof.
  destruct (relocation_injective moved_positions 3 [0; 0; 2; 2; 16; 10] (mkAddress 0 0 3 1 65535 1023)
    (mkAddress 0 0 0 2 1 4)) as (qa & qb & Ea & Eb & _);
    [exact moved_ok|repeat constructor; by vm_compute..|by exists qa, qb].
Defined.

(** The refresh counter of a bank goes round all its rows exactly if the
    rows refreshed at a time divide the number of rows; otherwise it is never
    reset, and the rows it points to soon do not exist. *)
Theorem refresh_count_cycle nrr rows n : 0 < nrr → 0 < rows →
  Nat.iter n (next_count nrr rows) 0
  = if bool_decide (rows mod nrr = 0) then Z.of_nat n mod (rows / nrr) else Z.of_nat n.
Proof.
  intros Hn Hr. case_bool_decide as Hd.
  - apply Z.mod_divide in Hd as [q ->]; [|lia]. rewrite Z.div_mul by lia. assert (0 < q) by nia.
    induction n as [|n IH]; [by rewrite Z.mod_0_l by lia|]. rewrite Nat2Z.inj_succ, Nat.iter_succ, IH.
    unfold next_count, Z.succ. rewrite <- (Z.add_mod_idemp_l (Z.of_nat n)) by lia.
    pose proof (Z.mod_pos_bound (Z.of_nat n) q ltac:(lia)) as Hb. set (m := Z.of_nat n mod q) in *.
    destruct (Z.eqb_spec ((m + 1) * nrr) (q * nrr)) as [E|E].
    + assert (m + 1 = q) as -> by nia. by rewrite Z.mod_same by lia.
    + rewrite Z.mod_small by nia. done.
  - induction n as [|n IH]; [done|]. rewrite Nat2Z.inj_succ, Nat.iter_succ, IH. unfold next_count.
    destruct (Z.eqb_spec ((Z.of_nat n + 1) * nrr) rows) as [E|E]; [|lia].
    destruct Hd. rewrite <- E. by apply Z.mod_mul; lia.
Qed.

Lemma refresh_count_cycle_witness :
  Nat.iter 8193 (next_count 1 8192) 0 = 1 ∧ Nat.iter 8193 (next_count 9 65536) 0 = 8193.
Proof.
  split; [rewrite (refresh_count_cycle 1 8192 8193) by lia|rewrite (refresh_count_cycle 9 65536 8193) by lia];
    by vm_compute.
Defined.

(** The timing of configs/DDR4_8Gb_x8_3200.ini: nine rows at a time. *)
Example ddr4_3200_refreshes_nine_rows :
  from_option (Z.eqb 9) false (int_of (d_ceil
    (d_of_Z 65536 / (d_of_Z 64000000 / (d_of_Z 12480 * d_dec 63 2)))%double)) = true.
Proof. by vm_compute. Qed.

(** The epoch report and the final report of every planar memory never
    return: the innermost loop over the grid cells increments the counter of
    the channels. *)
Theorem planar_reports_never_return fuel pdgssv c p clk s :
  layout_ok c (floorplan s) p → is_stack c = false →
  is_ok (PrintTransPT fuel c s) = false ∧ is_ok (PrintFinalPT fuel pdgssv c clk s) = false.
Proof.
  intros Hlay Hst. unfold PrintTransPT, PrintFinalPT, UpdateEpoch. rewrite Hst. split.
  - destruct (device_background fuel (λ _, 0) c s (cur_Pmap s)) as [m|] eqn:E; [|done].
    by apply (device_background_never _ _ _ p) in E.
  - destruct (device_background fuel (λ i, i) c s (accu_Pmap s)) as [m|] eqn:E; [|done].
    by apply (device_background_never _ _ _ p) in E.
Qed.

Definition ddr4_calculator : ThermalCalculator :=
  mkThermalCalculator (plan_or ddr4_thermal) SameLocation (d_of_Z 0) 0 [] [] [] [] [] [] [] (d_of_Z 0) 0.

Lemma planar_reports_never_return_witness :
  is_ok (PrintTransPT 100 ddr4_thermal ddr4_calculator) = false.
Proof.
  apply (planar_reports_never_return 100 (λ _ _ _ rhs, rhs) ddr4_thermal (late_or ddr4_thermal) 1 ddr4_calculator);
    [exact ddr4_layout|by vm_compute].
Defined.

(** A bank refresh is booked for the first bank group whatever group the
    command names: the number of the bank within its group is taken for the
    number within the rank. *)
Theorem bank_refresh_ignores_group c ch s a h bg :
  UpdateCMDPower c ch (mkCommand REFRESH_BANK a h) s
  = UpdateCMDPower c ch
      (mkCommand REFRESH_BANK (mkAddress (channel a) (rank a) bg (bank a) (row a) (column a)) h) s.
Proof. reflexivity. Qed.
