(* ===== verification/ThermalReplay.v ===== *)
(** * The thermal replay tool: src/src/thermal_replay.h and src/src/thermal_replay.cc

    A trace of issued commands, as Controller::IssueCommand writes it, is read
    back and run through the statistics and the thermal calculator.  The
    library that formats the lines of a trace is a parameter with the laws its
    documentation states. *)
From Stdlib Require Import Ascii.
From stdpp Require Import base tactics numbers list list_numbers gmap strings sets.
From coqutil Require Import Datatypes.RecordSetters.
From S2P Require Import Prelude Common Double Configuration SimpleStats StatsSafety Text.
From S2P Require Import ThermalSolver Thermal ThermalSafety.

Import TriangleBracketNotations.
Local Open Scope Z_scope.

(** ** Writing a trace *)

(** What [fmt::format] and the stream do with a field: a text or a number,
    padded on the right or on the left to a width. *)
Record Formatter := {
  fmt_left : Z → text → text;
  fmt_dec_left : Z → Z → text;
  fmt_dec : Z → Z → text;
  fmt_hex : Z → Z → text
}.

Definition spaces (s : text) : Prop := Forall (λ ch, ch = " "%char) s.

(** The documented formats ["{:<w}"], ["{:>w}"] and ["{:>#wx}"]. *)
Class FormatterLaws (f : Formatter) : Prop := {
  fmt_left_law w s : ∃ pad, spaces pad ∧ fmt_left f w s = s ++ pad;
  fmt_dec_left_law w n : 0 ≤ n < 2 ^ 64 → ∃ ds pad, decimal n ds ∧ spaces pad ∧ fmt_dec_left f w n = ds ++ pad;
  fmt_dec_law w n : 0 ≤ n < 2 ^ 64 → ∃ ds pad, decimal n ds ∧ spaces pad ∧ fmt_dec f w n = pad ++ ds;
  fmt_hex_law w n : 0 ≤ n < 2 ^ 64 → ∃ hs pad, (" "%char ∉ hs) ∧ spaces pad ∧
    fmt_hex f w n = pad ++ "0"%char :: "x"%char :: hs
}.

Definition command_name (t : CommandType) : string :=
  default EmptyString (command_string !! cmd_index t).

Definition space : text := [" "%char].

(** [operator<<] of a command. *)
Definition print_command (f : Formatter) (cmd : Command) : text :=
  fmt_left f 20 (String.list_ascii_of_string (command_name (cmd_type cmd))) ++ space
  ++ fmt_dec f 3 (Channel cmd) ++ space ++ fmt_dec f 3 (Rank cmd) ++ space
  ++ fmt_dec f 3 (Bankgroup cmd) ++ space ++ fmt_dec f 3 (Bank cmd) ++ space
  ++ fmt_hex f 8 (Row cmd) ++ space ++ fmt_hex f 8 (Column cmd).

(** [cmd_trace_ << std::left << std::setw(18) << clk_ << " " << cmd]. *)
Definition trace_line (f : Formatter) (clk : Z) (cmd : Command) : text :=
  fmt_dec_left f 18 clk ++ space ++ print_command f cmd.

(** ** Reading a trace *)

Definition cmd_map : list (string * CommandType) :=
  [("read", READ); ("read_p", READ_PRECHARGE); ("write", WRITE); ("write_p", WRITE_PRECHARGE);
   ("activate", ACTIVATE); ("precharge", PRECHARGE); ("refresh_bank", REFRESH_BANK);
   ("refresh", REFRESH); ("self_refresh_enter", SREF_ENTER); ("self_refresh_exit", SREF_EXIT)]%string.

(** [cmd_map[name]] inserts the enumerator 0 for a name that is not there. *)
Definition command_named (name : string) : CommandType :=
  default READ ((list_to_map cmd_map : gmap string CommandType) !! name).

Definition ParseLine (line : text) : outcome (Z * Command) :=
  match StringSplit line " "%char with
  | [t0; t1; t2; t3; t4; t5; t6; t7] =>
      clk ← stoull t0;
      ch ← stoi t2; ra ← stoi t3; bg ← stoi t4; ba ← stoi t5; ro ← stoi t6; co ← stoi t7;
      Ok (clk, mkCommand (command_named (String.string_of_list_ascii t1)) (mkAddress ch ra bg ba ro co) 0)
  | _ => Fail (AbruptExit "thermal_replay.cc" 105)
  end.

(** ** The replay *)

Record ThermalReplay := mkThermalReplay {
  timed_commands_ : list (Z * Command);
  thermal_calc_ : ThermalCalculator;
  last_clk_ : Z;
  channel_stats_ : list SimpleStats;
  bank_active_ : list (list (list (list bool)))
}.

Definition all_idle (c : ThermalConfig) : list (list (list (list bool))) :=
  replicate (Z.to_nat (channels c)) (replicate (Z.to_nat (ranks c))
    (replicate (Z.to_nat (bankgroups c)) (replicate (Z.to_nat (banks_per_group c)) false))).

(** The constructor; the lines of the trace file are an argument, [None] if it
    cannot be opened. *)
Definition ThermalReplay_init (fuel : nat) (c : ThermalConfig) (trace : option (list text))
    : outcome ThermalReplay :=
  calc ← ThermalCalculator_init fuel c;
  lines ← from_option_or (ExitProcess 1) trace;
  cmds ← mapM ParseLine lines;
  Ok {| timed_commands_ := cmds;
        thermal_calc_ := calc;
        last_clk_ := 0;
        channel_stats_ := SimpleStats_init c <$> seqZ 0 (channels c);
        bank_active_ := all_idle c |}.

Definition IsRankActive (active : list (list (list (list bool)))) (channel rank : Z) : outcome bool :=
  ch ← vget active channel;
  rank_active ← vget ch rank;
  Ok (existsb (existsb id) rank_active).

(** [bank_active_[channel][rank][bankgroup][bank] = b]. *)
Definition set_active (cmd : Command) (b : bool) (active : list (list (list (list bool))))
    : outcome (list (list (list (list bool)))) :=
  ch ← vget active (Channel cmd);
  ra ← vget ch (Rank cmd);
  bg ← vget ra (Bankgroup cmd);
  bg ← vset bg (Bank cmd) b;
  ra ← vset ra (Bankgroup cmd) bg;
  ch ← vset ch (Rank cmd) ra;
  vset active (Channel cmd) ch.

(** The counter of a command type. *)
Definition replay_counter (t : CommandType) : outcome string :=
  match t with
  | READ | READ_PRECHARGE => Ok "num_read_cmds"%string
  | WRITE | WRITE_PRECHARGE => Ok "num_write_cmds"%string
  | ACTIVATE => Ok "num_act_cmds"%string
  | PRECHARGE => Ok "num_pre_cmds"%string
  | REFRESH => Ok "num_ref_cmds"%string
  | REFRESH_BANK => Ok "num_refb_cmds"%string
  | SREF_ENTER => Ok "num_srefe_cmds"%string
  | SREF_EXIT => Ok "num_srefx_cmds"%string
  | _ => Fail (AbruptExit "thermal_replay.cc" 168)
  end.

Section Replay.
Context (fd : double → string) (st : string → string → string → string).

(** The cycles since the last command, for every rank. *)
Definition count_cycles (c : ThermalConfig) (active : list (list (list (list bool)))) (past_clks : Z)
    (stats : list SimpleStats) : outcome (list SimpleStats) :=
  for_range (channels c) (λ i, for_range (ranks c) (λ j (stats : list SimpleStats),
      busy ← IsRankActive active i j;
      s ← vget stats i;
      s ← IncrementVecBy (if (busy : bool) then "rank_active_cycles" else "all_bank_idle_cycles")%string j past_clks s;
      vset stats i s)) stats.

(** The statistics of a channel at the end of an epoch, and its background
    energy. *)
Definition replay_epoch (c : ThermalConfig) (s : ThermalReplay) : outcome ThermalReplay :=
  for_range (channels c) (λ i s,
      stats ← vget (channel_stats_ s) i;
      '(stats, _) ← PrintEpochStats fd st c stats;
      all ← vset (channel_stats_ s) i stats;
      calc ← for_range (ranks c) (λ r calc,
          bg_energy ← RankBackgroundEnergy stats r;
          UpdateBackgroundEnergy i r bg_energy calc) (thermal_calc_ s);
      Ok (s <| channel_stats_ := all |> <| thermal_calc_ := calc |>)) s.

Definition update_activity (cmd : Command) (active : list (list (list (list bool))))
    : outcome (list (list (list (list bool)))) :=
  match cmd_type cmd with
  | ACTIVATE => set_active cmd true active
  | READ_PRECHARGE | WRITE_PRECHARGE | PRECHARGE => set_active cmd false active
  | _ => Ok active
  end.

Definition ProcessCMD (c : ThermalConfig) (cmd : Command) (clk : Z) (s : ThermalReplay)
    : outcome ThermalReplay :=
  stats ← count_cycles c (bank_active_ s) (u64 (clk - last_clk_ s)) (channel_stats_ s);
  name ← replay_counter (cmd_type cmd);
  mine ← vget stats (Channel cmd);
  stats ← vset stats (Channel cmd) (Increment name mine);
  active ← update_activity cmd (bank_active_ s);
  let s := s <| channel_stats_ := stats |> <| bank_active_ := active |> in
  _ ← ensure (negb (epoch_period c =? 0)) DivisionByZero;
  s ← (if negb (clk mod u64 (epoch_period c) =? 0) then replay_epoch c s else Ok s);
  Ok (s <| last_clk_ := clk |>).

(** The commands of one pass, from the time [clk] on; all of them heat the
    first channel. *)
Definition replay_pass (c : ThermalConfig) (clk : Z) (s : ThermalReplay) : outcome (ThermalReplay * Z) :=
  '(s, clk_offset) ← for_each (λ '(offset, cmd) '(s, _),
      let now := u64 (clk + offset) in
      s ← ProcessCMD c cmd now s;
      calc ← UpdateCMDPower c 0 cmd (thermal_calc_ s);
      Ok (s <| thermal_calc_ := calc |>, offset))
    (timed_commands_ s) (s, 0);
  Ok (s <| bank_active_ := all_idle c |>, u64 (clk + clk_offset)).

Definition Run (fuel : nat) (pdgssv : Pdgssv) (c : ThermalConfig) (repeat_ : Z) (s : ThermalReplay)
    : outcome (ThermalReplay * list (double * list CellReport)) :=
  '(s, clk) ← for_range repeat_ (λ _ '(s, clk), replay_pass c clk s) (s, 0);
  stats ← for_range (channels c) (λ i stats,
      x ← vget stats i; '(x, _) ← PrintFinalStats fd st c x; vset stats i x) (channel_stats_ s);
  '(calc, out) ← PrintFinalPT fuel pdgssv c clk (thermal_calc_ s);
  Ok (s <| channel_stats_ := stats |> <| thermal_calc_ := calc |>, out).
End Replay.

(** ** A formatter *)

Definition pad (w : Z) (s : text) : text := replicate (Z.to_nat w - length s) " "%char.

Definition hex_char (d : Z) : ascii :=
  if d <? 10 then digit_char d else ascii_of_N (Z.to_N (87 + d)).

Fixpoint write_hex (fuel : nat) (n : Z) : text :=
  match fuel with
  | O => []
  | S fuel => (if n <? 16 then [] else write_hex fuel (n / 16)) ++ [hex_char (n mod 16)]
  end.

Definition formatter : Formatter := {|
  fmt_left w s := s ++ pad w s;
  fmt_dec_left w n := write_digits 20 n ++ pad w (write_digits 20 n);
  fmt_dec w n := pad w (write_digits 20 n) ++ write_digits 20 n;
  fmt_hex w n := let s := "0"%char :: "x"%char :: write_hex 16 n in pad w s ++ s
|}.

Lemma pad_spaces w s : spaces (pad w s).
Proof. by apply Forall_replicate. Qed.

Lemma hex_char_no_space d : 0 ≤ d < 16 → hex_char d ≠ " "%char.
Proof.
  intros Hd. assert (d ∈ seqZ 0 16) as H by (apply elem_of_seqZ; lia). clear Hd. revert d H.
  apply Forall_forall. by repeat constructor.
Qed.

Lemma write_hex_no_space fuel n : " "%char ∉ write_hex fuel n.
Proof.
  revert n. induction fuel as [|fuel IH]; intros n; [apply not_elem_of_nil|]. cbn. rewrite not_elem_of_app. split.
  - case_match; [apply not_elem_of_nil|apply IH].
  - intros E%list_elem_of_singleton. symmetry in E. apply hex_char_no_space in E; [done|]. by apply Z.mod_pos_bound.
Qed.

#[global] Instance formatter_laws : FormatterLaws formatter.
Proof.
  assert (H : ∀ n, 0 ≤ n < 2 ^ 64 → decimal n (write_digits 20 n)).
  { intros n Hn. apply write_digits_decimal; [|lia]. change (10 ^ Z.of_nat 20) with 100000000000000000000. lia. }
  split.
  - intros w s. eexists. split; [apply (pad_spaces w s)|done].
  - intros w n Hn. eexists _, _. split; [by apply H|]. split; [apply pad_spaces|done].
  - intros w n Hn. eexists _, _. split; [by apply H|]. split; [|done]. apply pad_spaces.
  - intros w n _. eexists _, _. split; [apply (write_hex_no_space 16 n)|]. split; [|done]. apply pad_spaces.
Qed.

(** ** Splitting a line *)

Lemma split_after item s rest : " "%char ∉ s → item ++ s ≠ [] →
  StringSplit_loop (s ++ " "%char :: rest) " "%char item = (item ++ s) :: StringSplit_loop rest " "%char [].
Proof.
  revert item. induction s as [|ch s IH]; intros item Hs Hne.
  - rewrite app_nil_r in *. cbn [app StringSplit_loop]. rewrite (bool_decide_eq_true_2 (" "%char = " "%char)) by done.
    by rewrite (bool_decide_eq_false_2 (item = [])).
  - apply not_elem_of_cons in Hs as [Hc Hs]. cbn. rewrite bool_decide_eq_false_2 by done.
    rewrite IH; [by rewrite <- (assoc (++))|done|]. by destruct item.
Qed.

Lemma split_spaces s rest : spaces s → StringSplit (s ++ rest) " "%char = StringSplit rest " "%char.
Proof. induction 1 as [|ch s -> _ IH]; [done|]. unfold StringSplit in *. cbn. by rewrite IH. Qed.

(** A word, any number of spaces, and at least one more. *)
Lemma split_word w s rest : w ≠ [] → " "%char ∉ w → spaces s →
  StringSplit (w ++ s ++ space ++ rest) " "%char = w :: StringSplit rest " "%char.
Proof.
  intros Hne Hw Hs. unfold StringSplit. destruct Hs as [|ch s -> Hs].
  - by apply (split_after [] w rest).
  - change ((" "%char :: s) ++ space ++ rest) with (" "%char :: (s ++ space ++ rest)).
    rewrite (split_after [] w) by done. cbn [app]. f_equal. fold (StringSplit (s ++ space ++ rest) " "%char).
    rewrite split_spaces by done. by rewrite (split_spaces space rest) by (by repeat constructor).
Qed.

Lemma split_word1 w rest : w ≠ [] → " "%char ∉ w →
  StringSplit (w ++ space ++ rest) " "%char = w :: StringSplit rest " "%char.
Proof. intros Hne Hw. by apply (split_word w []); [..|constructor]. Qed.

Lemma split_last w : w ≠ [] → " "%char ∉ w → StringSplit w " "%char = [w].
Proof.
  intros Hne Hw. unfold StringSplit. assert (H : ∀ item, item ++ w ≠ [] → StringSplit_loop w " "%char item = [item ++ w]).
  { clear Hne. induction w as [|ch w IH]; intros item Hi.
    - rewrite app_nil_r in *. cbn. by rewrite bool_decide_eq_false_2.
    - apply not_elem_of_cons in Hw as [Hc Hw]. cbn. rewrite bool_decide_eq_false_2 by done.
      rewrite (IH Hw); [by rewrite <- (assoc (++))|]. by destruct item. }
  by apply (H []).
Qed.

Lemma decimal_no_space n ds : decimal n ds → ds ≠ [] ∧ " "%char ∉ ds.
Proof.
  intros (Hne & Hds & _). split; [done|]. intros H. apply (proj1 (Forall_forall _ _) Hds) in H as [d Hd]. by vm_compute in Hd.
Qed.

Lemma name_word t : let w := String.list_ascii_of_string (command_name t) in w ≠ [] ∧ " "%char ∉ w.
Proof. destruct t; (split; [done|]); apply (bool_decide_unpack _); by vm_compute. Qed.

(** A right-aligned number followed by a space. *)
Lemma split_dec f `{FormatterLaws f} w n rest : 0 ≤ n < 2 ^ 64 → ∃ ds, decimal n ds ∧
  StringSplit (fmt_dec f w n ++ space ++ rest) " "%char = ds :: StringSplit rest " "%char.
Proof.
  intros Hn. destruct (fmt_dec_law w n Hn) as (ds & s & Hd & Hs & ->). exists ds. split; [done|].
  destruct (decimal_no_space n ds Hd). rewrite <- (assoc (++)), split_spaces by done.
  by apply split_word1.
Qed.

Lemma stoi_hex hs : stoi ("0"%char :: "x"%char :: hs) = Ok 0.
Proof. reflexivity. Qed.

Lemma hex_word hs : " "%char ∉ hs → " "%char ∉ ("0"%char :: "x"%char :: hs).
Proof. intros H. rewrite !not_elem_of_cons. by split_and!. Qed.

Lemma split_hexes f `{FormatterLaws f} w n m : 0 ≤ n < 2 ^ 64 → 0 ≤ m < 2 ^ 64 → ∃ h1 h2,
  StringSplit (fmt_hex f w n ++ space ++ fmt_hex f w m) " "%char
  = ["0"%char :: "x"%char :: h1; "0"%char :: "x"%char :: h2].
Proof.
  intros Hn Hm. destruct (fmt_hex_law w n Hn) as (h1 & s1 & H1 & Hs1 & ->).
  destruct (fmt_hex_law w m Hm) as (h2 & s2 & H2 & Hs2 & ->). exists h1, h2.
  rewrite <- (assoc (++)), split_spaces by done.
  rewrite (split_word1 ("0"%char :: "x"%char :: h1)); [|done|by apply hex_word].
  rewrite split_spaces, split_last; [done|done|by apply hex_word|done].
Qed.

(** The words of a line of a trace. *)
Lemma trace_words f `{FormatterLaws f} clk cmd : 0 ≤ clk < 2 ^ 64 →
  Forall (λ v, 0 ≤ v < 2 ^ 31) (address_fields (cmd_addr cmd)) →
  ∃ d0 d1 d2 d3 d4 h1 h2,
    decimal clk d0 ∧ decimal (Channel cmd) d1 ∧ decimal (Rank cmd) d2 ∧ decimal (Bankgroup cmd) d3 ∧
    decimal (Bank cmd) d4 ∧
    StringSplit (trace_line f clk cmd) " "%char
    = [d0; String.list_ascii_of_string (command_name (cmd_type cmd)); d1; d2; d3; d4;
       "0"%char :: "x"%char :: h1; "0"%char :: "x"%char :: h2].
Proof.
  intros Hclk Hf. unfold Channel, Rank, Bankgroup, Bank. destruct cmd as [t [ch ra bg ba ro co] hex]. cbn in Hf |- *.
  do 6 (apply Forall_cons in Hf as [? Hf]). cbn [channel rank bankgroup bank row column] in *. assert (2 ^ 31 < 2 ^ 64) by lia.
  unfold trace_line, print_command, Channel, Rank, Bankgroup, Bank, Row, Column. cbn [cmd_type cmd_addr channel rank bankgroup bank row column].
  destruct (fmt_dec_left_law 18 clk Hclk) as (d0 & s0 & Hd0 & Hs0 & ->). destruct (decimal_no_space _ _ Hd0).
  rewrite <- app_assoc, split_word by done.
  destruct (fmt_left_law 20 (String.list_ascii_of_string (command_name t))) as (s1 & Hs1 & ->). destruct (name_word t).
  rewrite <- app_assoc, split_word by done.
  destruct (split_dec f 3 ch (fmt_dec f 3 ra ++ space ++ fmt_dec f 3 bg ++ space ++ fmt_dec f 3 ba ++ space
    ++ fmt_hex f 8 ro ++ space ++ fmt_hex f 8 co)) as (d1 & Hd1 & ->); [lia|].
  destruct (split_dec f 3 ra (fmt_dec f 3 bg ++ space ++ fmt_dec f 3 ba ++ space
    ++ fmt_hex f 8 ro ++ space ++ fmt_hex f 8 co)) as (d2 & Hd2 & ->); [lia|].
  destruct (split_dec f 3 bg (fmt_dec f 3 ba ++ space ++ fmt_hex f 8 ro ++ space ++ fmt_hex f 8 co))
    as (d3 & Hd3 & ->); [lia|].
  destruct (split_dec f 3 ba (fmt_hex f 8 ro ++ space ++ fmt_hex f 8 co)) as (d4 & Hd4 & ->); [lia|].
  destruct (split_hexes f 8 ro co) as (h1 & h2 & ->); [lia..|]. exists d0, d1, d2, d3, d4, h1, h2. by split_and!.
Qed.

(** ** Replays *)

Definition active_ok (c : ThermalConfig) (active : list (list (list (list bool)))) : Prop :=
  vsize active = channels c ∧ Forall (λ ch, vsize ch = ranks c ∧ Forall (λ ra, vsize ra = bankgroups c ∧
    Forall (λ bg, vsize bg = banks_per_group c) ra) ch) active.

(** A command the replay understands, for existing banks. *)
Record replay_command_ok (c : ThermalConfig) (cmd : Command) : Prop := {
  rc_type : ∃ name, replay_counter (cmd_type cmd) = Ok name;
  rc_channel : 0 ≤ Channel cmd < channels c;
  rc_rank : 0 ≤ Rank cmd < ranks c;
  rc_bank : cmd_type cmd ∈ [ACTIVATE; READ_PRECHARGE; WRITE_PRECHARGE; PRECHARGE] →
    bank_in_range c (Bankgroup cmd) (Bank cmd);
  rc_power : power_command_ok c 0 cmd
}.

Record replay_ok (c : ThermalConfig) (p : LateParams) (s : ThermalReplay) : Prop := {
  ro_calc : calc_ok c p (thermal_calc_ s);
  ro_stats : vsize (channel_stats_ s) = channels c ∧ Forall (stats_ok c) (channel_stats_ s);
  ro_active : active_ok c (bank_active_ s);
  ro_cmds : Forall (λ x, replay_command_ok c x.2) (timed_commands_ s)
}.

Lemma all_idle_ok c p g : layout_ok c g p → active_ok c (all_idle c).
Proof.
  intros [_ _ ? ? ? ? _ _ _ _ _ _ _ _ _ _ _ _]. unfold active_ok, all_idle, vsize. rewrite length_replicate. split; [lia|].
  apply Forall_replicate. rewrite length_replicate. split; [lia|].
  apply Forall_replicate. rewrite length_replicate. split; [lia|].
  apply Forall_replicate. rewrite length_replicate. lia.
Qed.

(** Reading and replacing an element of a vector of which all satisfy [P]. *)
Lemma vector_cell {A} (P : A → Prop) (l : list A) n i : vsize l = n ∧ Forall P l → 0 ≤ i < n →
  ∃ x, vget l i = Ok x ∧ P x ∧ ∀ y, P y → ∃ l', vset l i y = Ok l' ∧ vsize l' = n ∧ Forall P l'.
Proof.
  intros [Hn Hl] Hi. destruct (vget_in_range l i) as [x Ex]; [lia|]. exists x. split; [done|].
  apply vget_Ok in Ex as [_ Ex]. split; [by eapply (Forall_lookup_1 P)|]. intros y Hy.
  rewrite vset_in_range by lia. eexists. split; [done|]. split; [|by apply Forall_insert].
  unfold vsize in *. by rewrite length_insert.
Qed.

Lemma set_active_ok c cmd b active : active_ok c active → 0 ≤ Channel cmd < channels c → 0 ≤ Rank cmd < ranks c →
  bank_in_range c (Bankgroup cmd) (Bank cmd) → ∃ active', set_active cmd b active = Ok active' ∧ active_ok c active'.
Proof.
  intros Ha Hch Hra [Hbg Hba]. unfold set_active.
  destruct (vector_cell _ _ _ _ Ha Hch) as (ch & -> & Hc & Sc). cbn [mbind outcome_bind].
  destruct (vector_cell _ _ _ _ Hc Hra) as (ra & -> & Hr & Sr). cbn [mbind outcome_bind].
  destruct (vector_cell _ _ _ _ Hr Hbg) as (bg & -> & Hg & Sg). cbn [mbind outcome_bind].
  rewrite vset_in_range by lia. cbn [mbind outcome_bind].
  destruct (Sg (<[Z.to_nat (Bank cmd) := b]> bg)) as (ra' & -> & Hr'); [unfold vsize in *; by rewrite length_insert|].
  cbn [mbind outcome_bind]. destruct (Sr ra' Hr') as (ch' & -> & Hc'). cbn [mbind outcome_bind].
  destruct (Sc ch' Hc') as (active' & -> & Ha'). by exists active'.
Qed.

Lemma IsRankActive_ok c active i j : active_ok c active → 0 ≤ i < channels c → 0 ≤ j < ranks c →
  ∃ b, IsRankActive active i j = Ok b.
Proof.
  intros Ha Hi Hj. unfold IsRankActive. destruct (vector_cell _ _ _ _ Ha Hi) as (ch & -> & Hc & _). cbn [mbind outcome_bind].
  destruct (vector_cell _ _ _ _ Hc Hj) as (ra & -> & _). by eexists.
Qed.

Lemma RankBackgroundEnergy_ok (config : Config) s r : stats_ok config s → 0 ≤ r < ranks config →
  ∃ e, RankBackgroundEnergy s r = Ok e.
Proof.
  intros Hs Hr. assert (H : ∀ n, n ∈ energy_names → ∃ v x, vec_doubles_ s !! n = Some v ∧ vget v r = Ok x).
  { intros n Hn. pose proof (sizes_of_lookup _ (Z.to_nat (ranks config)) _ Hn) as Hsz.
    destruct (lens_get _ _ _ _ (so_energy _ _ Hs) Hsz) as [Hlen Hv].
    destruct (vget_in_range (get_or [] (vec_doubles_ s) n) r) as [x Ex]; [unfold vsize; lia|]. by eexists _, x. }
  unfold RankBackgroundEnergy.
  destruct (H "act_stb_energy"%string) as (v1 & x1 & -> & E1); [set_solver|].
  destruct (H "pre_stb_energy"%string) as (v2 & x2 & -> & E2); [set_solver|].
  destruct (H "sref_energy"%string) as (v3 & x3 & -> & E3); [set_solver|].
  cbn [from_option_or mbind outcome_bind]. rewrite E1, E2, E3. by eexists.
Qed.

Section ReplayFacts.
Context (fd : double → string) (st : string → string → string → string).
Context (c : ThermalConfig) (p : LateParams).

Lemma count_cycles_ok active past stats : active_ok c active →
  vsize stats = channels c ∧ Forall (stats_ok c) stats →
  ∃ stats', count_cycles c active past stats = Ok stats' ∧ vsize stats' = channels c ∧ Forall (stats_ok c) stats'.
Proof.
  intros Ha Hs. unfold count_cycles.
  apply (for_each_total (λ stats, vsize stats = channels c ∧ Forall (stats_ok c) stats)); [|done].
  intros i s1 Hi%elem_of_seqZ H1. apply (for_each_total (λ stats, vsize stats = channels c ∧ Forall (stats_ok c) stats)); [|done].
  intros j s2 Hj%elem_of_seqZ H2. destruct (IsRankActive_ok c active i j Ha) as [b ->]; [lia..|]. cbn [mbind outcome_bind].
  destruct (vector_cell _ _ _ i H2) as (s & -> & Hs' & Set_); [lia|]. cbn [mbind outcome_bind].
  destruct (stats_ok_IncrementVecBy c (if b then "rank_active_cycles" else "all_bank_idle_cycles")%string j past s)
    as (s' & -> & Hs''); [destruct b; set_solver|lia|done|]. cbn [mbind outcome_bind]. by apply Set_.
Qed.

Lemma replay_epoch_ok s : replay_ok c p s → ∃ s', replay_epoch fd st c s = Ok s' ∧ replay_ok c p s'.
Proof.
  intros Hs. apply (for_each_total (replay_ok c p)); [|done]. clear s Hs. intros i s Hi%elem_of_seqZ [Hcalc Hstats Ha Hc].
  destruct (vector_cell _ _ _ i Hstats) as (x & -> & Hx & Sx); [lia|]. cbn [mbind outcome_bind].
  destruct (PrintEpochStats_total c fd st x Hx) as (x' & out & -> & Hx'). cbn [mbind outcome_bind].
  destruct (Sx x' Hx') as (all & -> & Hall). cbn [mbind outcome_bind].
  destruct (for_each_total (calc_ok c p) (λ r calc, bg_energy ← RankBackgroundEnergy x' r;
    UpdateBackgroundEnergy i r bg_energy calc) (seqZ 0 (ranks c)) (thermal_calc_ s)) as (calc & Ec & Hcalc'); [|done|].
  - intros r calc Hr%elem_of_seqZ Hok. destruct (RankBackgroundEnergy_ok c x' r Hx') as [e ->]; [lia|].
    cbn [mbind outcome_bind]. apply background_ok; [done|lia..].
  - unfold for_range. rewrite Ec. cbn [mbind outcome_bind]. eexists. split; [done|]. by split.
Qed.

Lemma update_activity_ok cmd active : active_ok c active → replay_command_ok c cmd →
  ∃ active', update_activity cmd active = Ok active' ∧ active_ok c active'.
Proof.
  intros Ha [_ Hch Hra Hb _]. unfold update_activity.
  destruct (cmd_type cmd); try (by exists active); apply set_active_ok; try done; apply Hb; set_solver.
Qed.

Lemma ProcessCMD_ok cmd clk s : epoch_period c ≠ 0 → replay_ok c p s → replay_command_ok c cmd →
  ∃ s', ProcessCMD fd st c cmd clk s = Ok s' ∧ replay_ok c p s'.
Proof.
  intros Hep [Hcalc Hstats Ha Hc] Hcmd. pose proof Hcmd as [[name Hname] Hch Hra _ _]. unfold ProcessCMD.
  destruct (count_cycles_ok _ (u64 (clk - last_clk_ s)) _ Ha Hstats) as (s1 & -> & H1). cbn [mbind outcome_bind].
  rewrite Hname. cbn [mbind outcome_bind]. destruct (vector_cell _ _ _ _ H1 Hch) as (x & -> & Hx & Sx). cbn [mbind outcome_bind].
  destruct (Sx (Increment name x)) as (s2 & -> & H2); [by apply keeps_Increment|]. cbn [mbind outcome_bind].
  destruct (update_activity_ok cmd _ Ha Hcmd) as (active & -> & Ha'). cbn [mbind outcome_bind].
  rewrite (proj2 (Z.eqb_neq _ _) Hep). cbn [negb ensure mbind outcome_bind].
  set (t := s <| channel_stats_ := s2 |> <| bank_active_ := active |>). assert (Ht : replay_ok c p t) by (by split).
  assert (∃ s', (if negb (clk mod u64 (epoch_period c) =? 0) then replay_epoch fd st c t else Ok t) = Ok s' ∧ replay_ok c p s')
    as (s' & -> & Hs') by (case_match; [by apply replay_epoch_ok|by exists t]).
  cbn [mbind outcome_bind]. eexists. split; [done|]. destruct Hs'. by split.
Qed.

Lemma replay_pass_ok clk s : epoch_period c ≠ 0 → replay_ok c p s →
  ∃ s' clk', replay_pass fd st c clk s = Ok (s', clk') ∧ replay_ok c p s'.
Proof.
  intros Hep Hs. unfold replay_pass. set (cmds := timed_commands_ s). pose proof (ro_cmds _ _ _ Hs) as Hcmds. fold cmds in Hcmds.
  destruct (for_each_total (λ x : ThermalReplay * Z, replay_ok c p x.1) (λ '(offset, cmd) '(s, _),
      s ← ProcessCMD fd st c cmd (u64 (clk + offset)) s; calc ← UpdateCMDPower c 0 cmd (thermal_calc_ s);
      Ok (s <| thermal_calc_ := calc |>, offset)) cmds (s, 0)) as ([s1 off] & E & H1); [|done|].
  - intros [offset cmd] [t last] Hin Ht. cbn [fst] in Ht. pose proof (proj1 (Forall_forall _ _) Hcmds _ Hin) as Hcmd. cbn in Hcmd.
    destruct (ProcessCMD_ok cmd (u64 (clk + offset)) t Hep Ht Hcmd) as (t1 & -> & Ht1). cbn [mbind outcome_bind].
    destruct (UpdateCMDPower_ok c p (thermal_calc_ t1) 0 cmd) as (calc & -> & Hcalc); [apply Ht1|apply Hcmd|].
    cbn [mbind outcome_bind]. eexists. split; [done|]. cbn [fst]. destruct Ht1. by split.
  - rewrite E. cbn [mbind outcome_bind fst] in *. eexists _, _. split; [done|]. destruct H1. split; try done.
    by eapply (all_idle_ok c p), co_layout.
Qed.
Lemma final_stats_ok stats : vsize stats = channels c ∧ Forall (stats_ok c) stats →
  ∃ stats', for_range (channels c) (λ i stats,
      x ← vget stats i; '(x, _) ← PrintFinalStats fd st c x; vset stats i x) stats = Ok stats'.
Proof.
  intros Hs. destruct (for_each_total (λ stats, vsize stats = channels c ∧ Forall (stats_ok c) stats) (λ i stats,
    x ← vget stats i; '(x, _) ← PrintFinalStats fd st c x; vset stats i x) (seqZ 0 (channels c)) stats)
    as (stats' & E & _); [|done|by exists stats'].
  intros i s Hi%elem_of_seqZ H. destruct (vector_cell _ _ _ i H) as (x & -> & Hx & Sx); [lia|]. cbn [mbind outcome_bind].
  destruct (PrintFinalStats_total c fd st x Hx) as (x' & out & -> & Hx'). cbn [mbind outcome_bind]. by apply Sx.
Qed.

Lemma Run_ok fuel pdgssv repeat_ s : epoch_period c ≠ 0 → is_stack c = true →
  (∀ a asub xa rhs, vsize (pdgssv a asub xa rhs) = vsize rhs) → replay_ok c p s →
  ∃ s' out, Run fd st fuel pdgssv c repeat_ s = Ok (s', out).
Proof.
  intros Hep Hst Hsolve Hs. unfold Run.
  destruct (for_each_total (λ x : ThermalReplay * Z, replay_ok c p x.1)
    (λ _ '(s, clk), replay_pass fd st c clk s) (seqZ 0 repeat_) (s, 0)) as ([s1 clk] & E & H1); [|done|].
  - intros _ [t now] _ Ht. destruct (replay_pass_ok now t Hep Ht) as (t' & now' & -> & Ht'). by eexists.
  - fold (for_range repeat_ (λ _ '(s, clk), replay_pass fd st c clk s) (s, 0)) in E. rewrite E.
    cbn [mbind outcome_bind]. destruct H1 as [Hcalc Hstats _ _]. cbn [fst] in *.
    destruct (final_stats_ok _ Hstats) as [stats ->]. cbn [mbind outcome_bind].
    destruct (PrintFinalPT_ok c p fuel pdgssv clk _ Hsolve Hcalc Hst) as (calc & out & -> & _). by eexists _, _.
Qed.
End ReplayFacts.

Lemma replay_init_ok fuel c g p trace s :
  layout_ok c g p → (IsHMC c = true → bankgroups c = 1) → (∀ m, SetPhyAddressMapping c = Ok m → phy_ok c m) →
  0 < num_row_refresh p ∧ (num_row_refresh p | rows c) → ThermalReplay_init fuel c (Some trace) = Ok s →
  Forall (λ line, ∀ x, ParseLine line = Ok x → replay_command_ok c x.2) trace → replay_ok c p s.
Proof.
  intros Hlay Hgr Hphy Hrows H Hlines. unfold ThermalReplay_init in H.
  apply bind_Ok in H as (calc & Ec & H). cbn [from_option_or mbind outcome_bind] in H.
  apply bind_Ok in H as (cmds & Em & H). injection H as <-.
  destruct (init_ok fuel c g p calc Hlay Hgr Hphy Hrows Ec) as [Hcalc _]. pose proof (lo_channels _ _ _ Hlay).
  split; cbn [thermal_calc_ channel_stats_ bank_active_ timed_commands_]; [done| |by eapply all_idle_ok|].
  - split; [unfold vsize; rewrite length_fmap, length_seqZ; lia|].
    apply Forall_fmap, Forall_true. intros ch. apply SimpleStats_init_ok.
  - clear -Em Hlines. revert cmds Em. induction Hlines as [|line trace Hl _ IH]; intros cmds Em.
    + cbn in Em. by injection Em as <-.
    + cbn in Em. apply bind_Ok in Em as (x & Ex & H). apply bind_Ok in H as (xs & Exs & H). injection H as <-.
      constructor; [by apply Hl|by apply IH].
Qed.

(** ** Properties *)

(** [C29] Reading back a trace of issued commands recovers the clock, the
    command type, the channel, the rank and the bank; but the rows and
    columns are written in base 16 and read in base 10, so all of them come
    back as 0, and the commands of the accelerator come back as reads. *)
Theorem trace_roundtrip f `{FormatterLaws f} clk cmd :
  0 ≤ clk < 2 ^ 64 → Forall (λ v, 0 ≤ v < 2 ^ 31) (address_fields (cmd_addr cmd)) →
  ParseLine (trace_line f clk cmd)
  = Ok (clk, mkCommand (if bool_decide (cmd_type cmd ∈ cmd_map.*2) then cmd_type cmd else READ)
               (mkAddress (Channel cmd) (Rank cmd) (Bankgroup cmd) (Bank cmd) 0 0) 0).
Proof.
  intros Hclk Hf. destruct (trace_words f clk cmd Hclk Hf) as (d0 & d1 & d2 & d3 & d4 & h1 & h2 & H0 & H1 & H2 & H3 & H4 & E).
  unfold ParseLine. rewrite E. do 6 (apply Forall_cons in Hf as [? Hf]).
  rewrite (stoull_decimal clk d0), (stoi_decimal (Channel cmd) d1), (stoi_decimal (Rank cmd) d2),
    (stoi_decimal (Bankgroup cmd) d3), (stoi_decimal (Bank cmd) d4) by done.
  rewrite !stoi_hex, String.string_of_list_ascii_of_string. cbn [mbind outcome_bind]. do 3 f_equal.
  by destruct (cmd_type cmd); vm_compute.
Qed.

Lemma trace_roundtrip_witness :
  ParseLine (trace_line formatter 1234 (mkCommand PIM_WRITE (mkAddress 3 0 1 2 500 7) 0))
  = Ok (1234, mkCommand READ (mkAddress 3 0 1 2 0 0) 0).
Proof.
  etransitivity; [apply (trace_roundtrip formatter 1234 (mkCommand PIM_WRITE (mkAddress 3 0 1 2 500 7) 0));
    [lia|repeat constructor; cbn; lia]|by vm_compute].
Defined.

(** [C28] Replaying a trace of a stacked memory (the reports of planar ones never
    return: [planar_reports_never_return]) always ends with a report.  The
    banks are cut evenly into grid cells and fit the floorplan ([layout_ok]), a
    cube has one bank group, a relocation of addresses stays within rows and
    columns ([phy_ok]), the rows refreshed at once divide the rows of a bank
    and the epoch is not empty; then, once the trace is read, every number of
    passes over commands that the replay has a counter for, to existing banks,
    rows and columns ([replay_command_ok]), returns, whatever the texts printed
    and whatever solution of the right size the linear solver finds. *)
Theorem replay_returns fd st fuel pdgssv c g p trace repeat_ s :
  layout_ok c g p → is_stack c = true → (IsHMC c = true → bankgroups c = 1) →
  (∀ m, SetPhyAddressMapping c = Ok m → phy_ok c m) →
  0 < num_row_refresh p → (num_row_refresh p | rows c) → epoch_period c ≠ 0 →
  (∀ a asub xa rhs, vsize (pdgssv a asub xa rhs) = vsize rhs) →
  Forall (λ line, ∀ x, ParseLine line = Ok x → replay_command_ok c x.2) trace →
  ThermalReplay_init fuel c (Some trace) = Ok s →
  ∃ s' out, Run fd st fuel pdgssv c repeat_ s = Ok (s', out).
Proof.
  intros Hlay Hst Hgr Hphy Hn Hd Hep Hsolve Hlines Hinit. apply (Run_ok fd st c p); try done.
  by apply (replay_init_ok fuel c g p trace s Hlay Hgr Hphy (conj Hn Hd) Hinit).
Qed.

Definition small_trace : list text :=
  [trace_line formatter 10 (mkCommand ACTIVATE (mkAddress 0 0 0 1 500 0) 0);
   trace_line formatter 24 (mkCommand READ_PRECHARGE (mkAddress 0 0 0 1 500 7) 0)].

Lemma small_trace_reads : ∃ s, ThermalReplay_init 2000 small_cube (Some small_trace) = Ok s.
Proof.
  destruct small_cube_starts as [calc E]. unfold ThermalReplay_init. rewrite E.
  assert (H : is_ok (mapM ParseLine small_trace) = true) by (vm_compute; reflexivity).
  cbn [from_option_or mbind outcome_bind]. destruct (mapM ParseLine small_trace); [by eexists|done].
Qed.

Lemma small_trace_commands :
  Forall (λ line, ∀ x, ParseLine line = Ok x → replay_command_ok small_cube x.2) small_trace.
Proof.
  apply Forall_cons; split; [|apply Forall_singleton]; intros x Hx; vm_compute in Hx; injection Hx as <-;
    (split; [by eexists|by vm_compute..]).
Qed.

Lemma replay_returns_witness : ∃ s s' out,
  ThermalReplay_init 2000 small_cube (Some small_trace) = Ok s ∧
  Run (λ _, "0"%string) (λ _ _ _, "0"%string) 2000 (λ _ _ _ rhs, rhs) small_cube 3 s = Ok (s', out).
Proof.
  destruct small_trace_reads as [s E].
  destruct (replay_returns (λ _, "0"%string) (λ _ _ _, "0"%string) 2000 (λ _ _ _ rhs, rhs) small_cube
    (plan_or small_cube) (late_or small_cube) small_trace 3 s) as (s' & out & Er).
  - exact small_cube_layout.
  - reflexivity.
  - intros _. reflexivity.
  - intros m Hm. clear -Hm. vm_compute in Hm. by injection Hm as <-.
  - reflexivity.
  - exists 8192. reflexivity.
  - by vm_compute.
  - reflexivity.
  - exact small_trace_commands.
  - exact E.
  - exists s, s', out. split; [exact E|exact Er].
Defined.
